(** * The energy scheduling class (kernel/sched/energy.c)

    A shallow embedding of the gang scheduler of kernel/sched/energy.c:
    the global run queue of energy tasks, the per-CPU energy run queues,
    the distribution of threads over the CPUs of the energy domain, the
    switching predicates and the RAPL counter accounting.

    C objects are records, pointers are handles ([tid] for a
    [struct task_struct*], [eaddr] for a [struct energy_task*], a CPU
    number for a [struct rq*]), intrusive lists are Rocq lists of handles
    kept in the owner of the list head, fixed-width integers are [Z] with
    the wrap-around written out, and a path that runs into [BUG()] or into
    undefined behaviour yields [None].  The spin locks are not modelled:
    a function runs from its start to its end on the machine it is given,
    as it does under the lock that its callers hold. *)

From Stdlib Require Import ZArith List Bool Arith Lia Permutation.
Import ListNotations.

Local Open Scope Z_scope.

(** ** Fixed-width integers *)

Definition U32_MAX : Z := 4294967295.

Definition u32 (z : Z) : Z := z mod 2 ^ 32.
Definition u64 (z : Z) : Z := z mod 2 ^ 64.

(** Conversion of an unsigned 32-bit value to [int]. *)
Definition s32 (z : Z) : Z :=
  let w := u32 z in if w <? 2 ^ 31 then w else w - 2 ^ 32.

Definition is_u32 (z : Z) : Prop := 0 <= z < 2 ^ 32.
Definition is_u64 (z : Z) : Prop := 0 <= z < 2 ^ 64.

(** ** Internal constants *)

Definition ETASK_RUNNING : Z := 1.

Definition THREAD_RQ_RUNNABLE : Z := 1.
Definition THREAD_RQ_QUEUED : Z := THREAD_RQ_RUNNABLE.
Definition THREAD_CPU_RUNNABLE : Z := 2.
Definition THREAD_CPU_QUEUED : Z := THREAD_CPU_RUNNABLE.
Definition THREAD_RUNNING : Z := 4.

Definition LOCAL_RESCHED : Z := 1.

(** The default scheduling slice for one thread, 10ms in nanoseconds. *)
Definition THREAD_SCHED_SLICE : Z := 10000000.

(** Error numbers of the host kernel (include/uapi/asm-generic/errno-base.h). *)
Definition ESRCH : Z := 3.
Definition EINVAL : Z := 22.

(** ** Handles and CPU masks *)

Abbreviation tid := nat (only parsing).
Abbreviation eaddr := nat (only parsing).
Abbreviation cpu_id := nat (only parsing).

(** A [struct cpumask] is a bitmap: bit [c] is set when CPU [c] is in it. *)
Definition cpumask := Z.

Definition cpumask_test_cpu (c : cpu_id) (m : cpumask) : bool :=
  Z.testbit m (Z.of_nat c).

Definition cpumask_clear : cpumask := 0.
Definition cpumask_setall (nr_cpu_ids : nat) : cpumask :=
  Z.ones (Z.of_nat nr_cpu_ids).

(** [for_each_cpu(cpu, mask)] visits the set bits below [nr_cpu_ids] in
    ascending order. *)
Definition for_each_cpu (nr_cpu_ids : nat) (m : cpumask) : list cpu_id :=
  filter (fun c => cpumask_test_cpu c m) (seq 0 nr_cpu_ids).

(** [for_each_cpu_and(cpu, m1, m2)] visits the bits set in both masks. *)
Definition for_each_cpu_and (nr_cpu_ids : nat) (m1 m2 : cpumask) : list cpu_id :=
  for_each_cpu nr_cpu_ids (Z.land m1 m2).

(** Stores indexed by a handle. *)
Definition upd {A : Type} (f : nat -> A) (k : nat) (v : A) : nat -> A :=
  fun x => if Nat.eqb x k then v else f x.

(** ** RAPL counters *)

Record rapl_counters := {
  last_update : Z;
  package : Z;
  dram : Z;
  core : Z;
  gpu : Z
}.

Record rapl_info := {
  update_interval : Z;
  unit : Z;
  loop_package : Z;
  loop_dram : Z;
  loop_core : Z;
  loop_gpu : Z
}.

(** [__diff_wa(first, second)]: difference of two u32 counter readings
    that tolerates one wrap of the counter. *)
Definition __diff_wa (first second : Z) : Z :=
  if first <? second
  then u32 (u32 (U32_MAX - second) + first)
  else u32 (first - second).

(** The two locals of [__update_rapl_counter].  The product and the
    quotient are computed in u32; the division traps when the calibrated
    interval is zero, which is handled in [__update_rapl_counter]. *)
Definition loop_consumption (i : rapl_info) (loop_duration avg_loop_consumption : Z) : Z :=
  u32 (u32 (avg_loop_consumption * loop_duration) / update_interval i).

Definition final_consumption (i : rapl_info)
    (consumption loop_duration avg_loop_consumption : Z) : Z :=
  let lc := loop_consumption i loop_duration avg_loop_consumption in
  if lc >? consumption then 0 else u32 (consumption - lc).

(** [__update_rapl_counter(value, consumption, loop_duration,
    avg_loop_consumption)] returns the new contents of [*value] (a u64).
    [None] is the divide error raised for [gri.update_interval == 0]. *)
Definition __update_rapl_counter (i : rapl_info)
    (value consumption loop_duration avg_loop_consumption : Z) : option Z :=
  if update_interval i =? 0 then None
  else
    let fc := final_consumption i consumption loop_duration avg_loop_consumption in
    Some (u64 (value + u32 (fc * unit i))).

(** ** Data structures *)

(** [struct energy_statistics], kept in the task_struct of the thread
    group leader (declared in the host's headers; u64 counters). *)
Record energy_statistics := {
  nr_updates : Z;
  nr_defers : Z;
  us_defered : Z;
  uj_package : Z;
  uj_dram : Z;
  uj_core : Z;
  uj_gpu : Z
}.

(** The fields of the host's [struct task_struct] that energy.c reads or
    writes.  [ee_state] is [t->ee.state]; the list links [t->ee.rq] and
    [t->ee.cpu_rq] are represented by the membership of the thread's
    handle in the lists of their owners.  [in_energy_class] tells whether
    [t->sched_class] is [energy_sched_class]. *)
Record task_struct := {
  ee_state : Z;
  t_cpu : cpu_id;
  cpus_allowed : cpumask;
  group_leader : tid;
  in_energy_class : bool;
  need_resched : bool;
  se_exec_start : Z;
  se_sum_exec_runtime : Z;
  se_prev_sum_exec_runtime : Z;
  e_statistics : energy_statistics
}.

(** [struct energy_task]; [e_addr] is the address of the struct, the
    identity that pointer comparisons observe. *)
Record energy_task := {
  e_addr : eaddr;
  e_state : Z;
  e_task : tid;
  e_domain : cpumask;
  e_runnable : list tid;
  e_nr_runnable : Z;
  e_start_running : Z
}.

(** [struct global_rq].  Every live energy task is linked in [tasks], so
    the list of records is also the memory holding the energy tasks. *)
Record global_rq := {
  running : Z;
  tasks : list energy_task;
  nr_tasks : Z;
  nr_threads : Z;
  start_running : Z;
  stop_running : Z
}.

(** The fields of the host's [struct rq] that energy.c uses, with the
    embedded [struct e_rq en] flattened into the [en_] fields.  Both are
    declared in the host's sched.h; the counters are unsigned 32-bit.
    [rq_nr_running] is [rq->nr_running], [rq_clock] and [rq_clock_task]
    are what [rq_clock(rq)] and [rq_clock_task(rq)] return, and [rq_curr]
    is [rq->curr]. *)
Record rq := {
  rq_nr_running : Z;
  rq_clock : Z;
  rq_clock_task : Z;
  rq_curr : tid;
  en_resched_flags : Z;
  en_domain : cpumask;
  en_runnable : list tid;
  en_nr_runnable : Z;
  en_nr_assigned : Z;
  en_blocked : bool;
  en_curr : option tid;
  en_curr_e_task : option eaddr;
  en_idle : option tid
}.

(** The whole machine: the globals [grq], [grc], [gri], the thread
    structures and the per-CPU run queues [cpu_rq(cpu)]. *)
Record state := {
  nr_cpu_ids : nat;
  grq : global_rq;
  grc : rapl_counters;
  gri : rapl_info;
  threads : tid -> task_struct;
  rqs : cpu_id -> rq
}.

(** *** Field updates *)

Definition set_ee_state (v : Z) (t : task_struct) : task_struct :=
  {| ee_state := v; t_cpu := t_cpu t; cpus_allowed := cpus_allowed t;
     group_leader := group_leader t; in_energy_class := in_energy_class t;
     need_resched := need_resched t; se_exec_start := se_exec_start t;
     se_sum_exec_runtime := se_sum_exec_runtime t;
     se_prev_sum_exec_runtime := se_prev_sum_exec_runtime t;
     e_statistics := e_statistics t |}.

Definition set_t_cpu (v : cpu_id) (t : task_struct) : task_struct :=
  {| ee_state := ee_state t; t_cpu := v; cpus_allowed := cpus_allowed t;
     group_leader := group_leader t; in_energy_class := in_energy_class t;
     need_resched := need_resched t; se_exec_start := se_exec_start t;
     se_sum_exec_runtime := se_sum_exec_runtime t;
     se_prev_sum_exec_runtime := se_prev_sum_exec_runtime t;
     e_statistics := e_statistics t |}.

Definition set_need_resched (v : bool) (t : task_struct) : task_struct :=
  {| ee_state := ee_state t; t_cpu := t_cpu t; cpus_allowed := cpus_allowed t;
     group_leader := group_leader t; in_energy_class := in_energy_class t;
     need_resched := v; se_exec_start := se_exec_start t;
     se_sum_exec_runtime := se_sum_exec_runtime t;
     se_prev_sum_exec_runtime := se_prev_sum_exec_runtime t;
     e_statistics := e_statistics t |}.

Definition set_se (start sum prev : Z) (t : task_struct) : task_struct :=
  {| ee_state := ee_state t; t_cpu := t_cpu t; cpus_allowed := cpus_allowed t;
     group_leader := group_leader t; in_energy_class := in_energy_class t;
     need_resched := need_resched t; se_exec_start := start;
     se_sum_exec_runtime := sum;
     se_prev_sum_exec_runtime := prev;
     e_statistics := e_statistics t |}.

Definition set_e_statistics (v : energy_statistics) (t : task_struct) : task_struct :=
  {| ee_state := ee_state t; t_cpu := t_cpu t; cpus_allowed := cpus_allowed t;
     group_leader := group_leader t; in_energy_class := in_energy_class t;
     need_resched := need_resched t; se_exec_start := se_exec_start t;
     se_sum_exec_runtime := se_sum_exec_runtime t;
     se_prev_sum_exec_runtime := se_prev_sum_exec_runtime t;
     e_statistics := v |}.

Definition set_e_run (st : Z) (dom : cpumask) (start : Z) (e : energy_task) : energy_task :=
  {| e_addr := e_addr e; e_state := st; e_task := e_task e; e_domain := dom;
     e_runnable := e_runnable e; e_nr_runnable := e_nr_runnable e;
     e_start_running := start |}.

Definition set_e_runnable (l : list tid) (n : Z) (e : energy_task) : energy_task :=
  {| e_addr := e_addr e; e_state := e_state e; e_task := e_task e;
     e_domain := e_domain e; e_runnable := l; e_nr_runnable := n;
     e_start_running := e_start_running e |}.

Definition set_tasks (l : list energy_task) (n : Z) (g : global_rq) : global_rq :=
  {| running := running g; tasks := l; nr_tasks := n;
     nr_threads := nr_threads g; start_running := start_running g;
     stop_running := stop_running g |}.

Definition set_nr_threads (n : Z) (g : global_rq) : global_rq :=
  {| running := running g; tasks := tasks g; nr_tasks := nr_tasks g;
     nr_threads := n; start_running := start_running g;
     stop_running := stop_running g |}.

Definition set_running (r start stop : Z) (g : global_rq) : global_rq :=
  {| running := r; tasks := tasks g; nr_tasks := nr_tasks g;
     nr_threads := nr_threads g; start_running := start;
     stop_running := stop |}.

Definition set_nr_running (n : Z) (r : rq) : rq :=
  {| rq_nr_running := n; rq_clock := rq_clock r; rq_clock_task := rq_clock_task r;
     rq_curr := rq_curr r; en_resched_flags := en_resched_flags r;
     en_domain := en_domain r; en_runnable := en_runnable r;
     en_nr_runnable := en_nr_runnable r; en_nr_assigned := en_nr_assigned r;
     en_blocked := en_blocked r; en_curr := en_curr r;
     en_curr_e_task := en_curr_e_task r; en_idle := en_idle r |}.

Definition set_en_resched_flags (f : Z) (r : rq) : rq :=
  {| rq_nr_running := rq_nr_running r; rq_clock := rq_clock r;
     rq_clock_task := rq_clock_task r;
     rq_curr := rq_curr r; en_resched_flags := f;
     en_domain := en_domain r; en_runnable := en_runnable r;
     en_nr_runnable := en_nr_runnable r; en_nr_assigned := en_nr_assigned r;
     en_blocked := en_blocked r; en_curr := en_curr r;
     en_curr_e_task := en_curr_e_task r; en_idle := en_idle r |}.

Definition set_en_runnable (l : list tid) (n : Z) (r : rq) : rq :=
  {| rq_nr_running := rq_nr_running r; rq_clock := rq_clock r;
     rq_clock_task := rq_clock_task r;
     rq_curr := rq_curr r; en_resched_flags := en_resched_flags r;
     en_domain := en_domain r; en_runnable := l;
     en_nr_runnable := n; en_nr_assigned := en_nr_assigned r;
     en_blocked := en_blocked r; en_curr := en_curr r;
     en_curr_e_task := en_curr_e_task r; en_idle := en_idle r |}.

Definition set_en_nr_assigned (n : Z) (r : rq) : rq :=
  {| rq_nr_running := rq_nr_running r; rq_clock := rq_clock r;
     rq_clock_task := rq_clock_task r;
     rq_curr := rq_curr r; en_resched_flags := en_resched_flags r;
     en_domain := en_domain r; en_runnable := en_runnable r;
     en_nr_runnable := en_nr_runnable r; en_nr_assigned := n;
     en_blocked := en_blocked r; en_curr := en_curr r;
     en_curr_e_task := en_curr_e_task r; en_idle := en_idle r |}.

Definition set_en_blocked (b : bool) (r : rq) : rq :=
  {| rq_nr_running := rq_nr_running r; rq_clock := rq_clock r;
     rq_clock_task := rq_clock_task r;
     rq_curr := rq_curr r; en_resched_flags := en_resched_flags r;
     en_domain := en_domain r; en_runnable := en_runnable r;
     en_nr_runnable := en_nr_runnable r; en_nr_assigned := en_nr_assigned r;
     en_blocked := b; en_curr := en_curr r;
     en_curr_e_task := en_curr_e_task r; en_idle := en_idle r |}.

Definition set_en_curr (t : option tid) (r : rq) : rq :=
  {| rq_nr_running := rq_nr_running r; rq_clock := rq_clock r;
     rq_clock_task := rq_clock_task r;
     rq_curr := rq_curr r; en_resched_flags := en_resched_flags r;
     en_domain := en_domain r; en_runnable := en_runnable r;
     en_nr_runnable := en_nr_runnable r; en_nr_assigned := en_nr_assigned r;
     en_blocked := en_blocked r; en_curr := t;
     en_curr_e_task := en_curr_e_task r; en_idle := en_idle r |}.

Definition set_en_curr_e_task (a : option eaddr) (r : rq) : rq :=
  {| rq_nr_running := rq_nr_running r; rq_clock := rq_clock r;
     rq_clock_task := rq_clock_task r;
     rq_curr := rq_curr r; en_resched_flags := en_resched_flags r;
     en_domain := en_domain r; en_runnable := en_runnable r;
     en_nr_runnable := en_nr_runnable r; en_nr_assigned := en_nr_assigned r;
     en_blocked := en_blocked r; en_curr := en_curr r;
     en_curr_e_task := a; en_idle := en_idle r |}.

Definition set_grq (g : global_rq) (s : state) : state :=
  {| nr_cpu_ids := nr_cpu_ids s; grq := g; grc := grc s; gri := gri s;
     threads := threads s; rqs := rqs s |}.

Definition set_grc (c : rapl_counters) (s : state) : state :=
  {| nr_cpu_ids := nr_cpu_ids s; grq := grq s; grc := c; gri := gri s;
     threads := threads s; rqs := rqs s |}.

Definition set_threads (th : tid -> task_struct) (s : state) : state :=
  {| nr_cpu_ids := nr_cpu_ids s; grq := grq s; grc := grc s; gri := gri s;
     threads := th; rqs := rqs s |}.

Definition set_rqs (r : cpu_id -> rq) (s : state) : state :=
  {| nr_cpu_ids := nr_cpu_ids s; grq := grq s; grc := grc s; gri := gri s;
     threads := threads s; rqs := r |}.

(** Writes through a pointer. *)
Definition upd_thread (t : tid) (f : task_struct -> task_struct) (s : state) : state :=
  set_threads (upd (threads s) t (f (threads s t))) s.

Definition upd_rq (c : cpu_id) (f : rq -> rq) (s : state) : state :=
  set_rqs (upd (rqs s) c (f (rqs s c))) s.

Definition upd_etask (a : eaddr) (f : energy_task -> energy_task) (s : state) : state :=
  set_grq (set_tasks (map (fun e => if Nat.eqb (e_addr e) a then f e else e)
                          (tasks (grq s)))
                     (nr_tasks (grq s)) (grq s)) s.

(** Reads through a [struct energy_task*]; [None] for a dangling pointer. *)
Definition get_etask (a : eaddr) (s : state) : option energy_task :=
  find (fun e => Nat.eqb (e_addr e) a) (tasks (grq s)).

Definition task_cpu (s : state) (t : tid) : cpu_id := t_cpu (threads s t).

Definition task_rq (s : state) (t : tid) : rq := rqs s (task_cpu s t).

(** A loop whose body may stop the machine. *)
Fixpoint fold_opt {A : Type} (f : A -> state -> option state) (l : list A)
    (s : state) : option state :=
  match l with
  | [] => Some s
  | x :: l' =>
      match f x s with
      | Some s' => fold_opt f l' s'
      | None => None
      end
  end.

(** ** Internal functions which are part of others *)

(** The host's [add_nr_running] and [sub_nr_running] on the unsigned
    [rq->nr_running]. *)
Definition add_nr_running (count : Z) (r : rq) : rq :=
  set_nr_running (u32 (rq_nr_running r + count)) r.

Definition sub_nr_running (count : Z) (r : rq) : rq :=
  set_nr_running (u32 (rq_nr_running r - count)) r.

Definition __inc_nr_running (r : rq) : rq :=
  let r1 := if en_blocked r then r else add_nr_running 1 r in
  set_en_nr_assigned (u32 (en_nr_assigned r1 + 1)) r1.

Definition __dec_nr_running (r : rq) : rq :=
  let r1 := if en_blocked r then r else sub_nr_running 1 r in
  set_en_nr_assigned (u32 (en_nr_assigned r1 - 1)) r1.

Definition __acquire_cpu (r : rq) : rq :=
  let r1 := set_en_blocked false r in
  add_nr_running (en_nr_assigned r1) r1.

Definition __release_cpu (r : rq) : rq :=
  let r1 := set_en_blocked true r in
  sub_nr_running (en_nr_assigned r1) r1.

(** ** Threads and energy tasks *)

(** The host's [thread_group_leader(p)]: [p == p->group_leader]. *)
Definition thread_group_leader (s : state) (t : tid) : bool :=
  Nat.eqb (group_leader (threads s t)) t.

Definition find_task (s : state) (t : tid) : tid :=
  if thread_group_leader s t then t else group_leader (threads s t).

(** [init_energy_task] on the struct at address [a]; the NULL stored in
    [e_task->task] is the handle 0, which [create_energy_task] overwrites
    at once. *)
Definition init_energy_task (a : eaddr) : energy_task :=
  {| e_addr := a; e_state := 0; e_task := 0%nat; e_domain := cpumask_clear;
     e_runnable := []; e_nr_runnable := 0; e_start_running := 0 |}.

(** [list_add] links the new entry right after the list head. *)
Definition enqueue_energy_task (e : energy_task) (s : state) : state :=
  set_grq (set_tasks (e :: tasks (grq s)) (u32 (nr_tasks (grq s) + 1)) (grq s)) s.

Definition dequeue_energy_task (a : eaddr) (s : state) : state :=
  set_grq (set_tasks (filter (fun e => negb (Nat.eqb (e_addr e) a)) (tasks (grq s)))
                     (u32 (nr_tasks (grq s) - 1)) (grq s)) s.

Definition find_energy_task (s : state) (t : tid) : option eaddr :=
  let task := find_task s t in
  option_map e_addr (find (fun e => Nat.eqb (e_task e) task) (tasks (grq s))).

(** [kmalloc] answers with a fresh address or with NULL: [alloc]. *)
Definition create_energy_task (alloc : option eaddr) (t : tid) (s : state)
    : option eaddr * state :=
  let task := find_task s t in
  match alloc with
  | None => (None, s)
  | Some a =>
      let e := init_energy_task a in
      let e := {| e_addr := e_addr e; e_state := e_state e; e_task := task;
                  e_domain := e_domain e; e_runnable := e_runnable e;
                  e_nr_runnable := e_nr_runnable e;
                  e_start_running := e_start_running e |} in
      (Some a, enqueue_energy_task e s)
  end.

Definition free_energy_task (a : eaddr) (s : state) : state :=
  dequeue_energy_task a s.

Definition thread_on_rq_queued (t : task_struct) : bool :=
  negb (Z.land (ee_state t) THREAD_RQ_QUEUED =? 0).

Definition thread_on_cpu_rq_queued (t : task_struct) : bool :=
  negb (Z.land (ee_state t) THREAD_CPU_QUEUED =? 0).

Definition thread_cpu_running (t : task_struct) : bool :=
  negb (Z.land (ee_state t) THREAD_RUNNING =? 0).

(** [list_del(&t->ee.rq)] unlinks the thread from the list it is on. *)
Definition list_del_ee_rq (t : tid) (s : state) : state :=
  set_grq (set_tasks
             (map (fun e => set_e_runnable (remove Nat.eq_dec t (e_runnable e))
                                           (e_nr_runnable e) e)
                  (tasks (grq s)))
             (nr_tasks (grq s)) (grq s)) s.

(** [list_del(&t->ee.cpu_rq)], likewise for the per-CPU lists. *)
Definition list_del_ee_cpu_rq (t : tid) (s : state) : state :=
  set_rqs (fun c => set_en_runnable (remove Nat.eq_dec t (en_runnable (rqs s c)))
                                    (en_nr_runnable (rqs s c)) (rqs s c)) s.

Definition enqueue_runnable (c : cpu_id) (a : eaddr) (t : tid) (s : state)
    : option state :=
  if thread_on_rq_queued (threads s t) then None
  else
    let s := upd_etask a (fun e => set_e_runnable (t :: e_runnable e)
                                      (u32 (e_nr_runnable e + 1)) e) s in
    let s := upd_thread t (fun th =>
                 set_ee_state (Z.lor (ee_state th) THREAD_RQ_RUNNABLE) th) s in
    let s := set_grq (set_nr_threads (u32 (nr_threads (grq s) + 1)) (grq s)) s in
    Some (upd_rq c __inc_nr_running s).

Definition enqueue_running (c : cpu_id) (t : tid) (s : state) : option state :=
  if thread_on_cpu_rq_queued (threads s t) then None
  else
    let s := upd_rq c (fun r => set_en_runnable (t :: en_runnable r)
                                  (u32 (en_nr_runnable r + 1)) r) s in
    Some (upd_thread t (fun th =>
            set_ee_state (Z.lor (ee_state th) THREAD_CPU_RUNNABLE) th) s).

Definition dequeue_runnable (a : eaddr) (t : tid) (s : state) : option state :=
  if negb (thread_on_rq_queued (threads s t)) then None
  else
    let s := list_del_ee_rq t s in
    let s := upd_etask a (fun e => set_e_runnable (e_runnable e)
                                      (u32 (e_nr_runnable e - 1)) e) s in
    let s := upd_thread t (fun th =>
                 set_ee_state (Z.land (ee_state th) (Z.lnot THREAD_RQ_RUNNABLE)) th) s in
    let s := set_grq (set_nr_threads (u32 (nr_threads (grq s) - 1)) (grq s)) s in
    Some (upd_rq (task_cpu s t) __dec_nr_running s).

Definition dequeue_running (t : tid) (s : state) : option state :=
  if negb (thread_on_cpu_rq_queued (threads s t)) then None
  else
    let s := list_del_ee_cpu_rq t s in
    let s := upd_rq (task_cpu s t) (fun r =>
                 set_en_runnable (en_runnable r) (u32 (en_nr_runnable r - 1)) r) s in
    Some (upd_thread t (fun th =>
            set_ee_state (Z.land (ee_state th) (Z.lnot THREAD_CPU_QUEUED)) th) s).

(** ** Scheduling slices *)

(** The host's [nr_running()]: the sum of [rq->nr_running] over the CPUs,
    an unsigned long. *)
Definition nr_running (s : state) : Z :=
  u64 (fold_right (fun c acc => rq_nr_running (rqs s c) + acc) 0
                  (seq 0 (nr_cpu_ids s))).

Definition sched_slice_class (s : state) : Z :=
  u64 (nr_threads (grq s) * THREAD_SCHED_SLICE).

Definition sched_slice_energy (e_task : option energy_task) : Z :=
  match e_task with
  | None => 0
  | Some e => u64 (e_nr_runnable e * THREAD_SCHED_SLICE)
  end.

(** Following [rq->en.curr_e_task]: NULL, a live energy task, or nothing
    for a pointer to a freed one. *)
Definition deref_etask (p : option eaddr) (s : state) : option (option energy_task) :=
  match p with
  | None => Some None
  | Some a =>
      match get_etask a s with
      | Some e => Some (Some e)
      | None => None
      end
  end.

Definition sched_slice_local (s : state) (c : cpu_id) : option Z :=
  match deref_etask (en_curr_e_task (rqs s c)) s with
  | None => None
  | Some e_task =>
      Some (if en_nr_runnable (rqs s c) =? 0
            then sched_slice_energy e_task
            else sched_slice_energy e_task / en_nr_runnable (rqs s c))
  end.

Definition sched_slice_other (s : state) : Z :=
  u64 (u64 (nr_running s - nr_threads (grq s)) * THREAD_SCHED_SLICE).

(** ** Should we perform a scheduling operation? *)

Definition should_switch_to_energy (s : state) (c : cpu_id) : bool :=
  if nr_threads (grq s) =? 0 then false
  else if nr_running s =? nr_threads (grq s) then true
  else if nr_running s =? en_nr_assigned (rqs s c) then true
  else if nr_running s =? 0 then true
  else
    let now := rq_clock (rqs s c) in
    let not_running :=
      if now <=? stop_running (grq s) then 0 else now - stop_running (grq s) in
    not_running >? sched_slice_other s.

Definition should_check_cpus (s : state) : bool :=
  negb (nr_tasks (grq s) =? 0).

Definition should_switch_from_energy (s : state) (c : cpu_id) : bool :=
  if nr_threads (grq s) =? 0 then true
  else if nr_running s =? nr_threads (grq s) then false
  else
    let now := rq_clock (rqs s c) in
    let running :=
      if now <=? start_running (grq s) then 0 else now - start_running (grq s) in
    running >? sched_slice_class s.

Definition should_switch_in_energy (s : state) (c : cpu_id) : option bool :=
  if nr_tasks (grq s) <=? 1 then Some false
  else
    match en_curr_e_task (rqs s c) with
    | None => Some true
    | Some a =>
        match get_etask a s with
        | None => None
        | Some e_task =>
            let now := rq_clock (rqs s c) in
            let running :=
              if now <=? e_start_running e_task then 0
              else now - e_start_running e_task in
            Some (running >? sched_slice_energy (Some e_task))
        end
    end.

Definition should_switch_local (s : state) (c : cpu_id) : option bool :=
  if en_nr_runnable (rqs s c) <=? 1 then Some false
  else
    match en_curr (rqs s c) with
    | None => Some true
    | Some curr =>
        let exec_time := u64 (se_sum_exec_runtime (threads s curr)
                              - se_prev_sum_exec_runtime (threads s curr)) in
        option_map (fun slice => exec_time >? slice) (sched_slice_local s c)
    end.

Definition should_redistribute_energy (e_task : energy_task) (t : task_struct) : bool :=
  (e_state e_task =? ETASK_RUNNING) || thread_cpu_running t.

(** ** Reschedule flags *)

(** The host's [set_tsk_need_resched]. *)
Definition set_tsk_need_resched (t : tid) (s : state) : state :=
  upd_thread t (set_need_resched true) s.

Definition resched_curr_local (c : cpu_id) (s : state) : state :=
  let s := upd_rq c (fun r =>
               set_en_resched_flags (Z.lor (en_resched_flags r) LOCAL_RESCHED) r) s in
  set_tsk_need_resched (rq_curr (rqs s c)) s.

Definition need_resched_curr_local (s : state) (c : cpu_id) : bool :=
  negb (Z.land (en_resched_flags (rqs s c)) LOCAL_RESCHED =? 0).

Definition clear_resched_curr_local (c : cpu_id) (s : state) : state :=
  upd_rq c (fun r =>
    set_en_resched_flags (Z.land (en_resched_flags r) (Z.lnot LOCAL_RESCHED)) r) s.

(** ** Runtime statistics *)

(** What the hardware answers to [read_rapl_counters(&grc, true)]: the
    counter values after the next update of the package counter and the
    microseconds spent waiting for it. *)
Record rapl_sample := {
  sample_counters : rapl_counters;
  sample_duration : Z
}.

Definition read_rapl_counters (hw : rapl_sample) (s : state) : Z * state :=
  (sample_duration hw, set_grc (sample_counters hw) s).

Definition update_energy_statistics (hw : rapl_sample) (a : eaddr) (s : state)
    : option state :=
  match get_etask a s with
  | None => None
  | Some et =>
      let task := e_task et in
      let stats := e_statistics (threads s task) in
      let last_grc := grc s in
      let (duration, s) := read_rapl_counters hw s in
      let i := gri s in
      let d32 := u32 duration in
      match __update_rapl_counter i (uj_package stats)
              (__diff_wa (package (grc s)) (package last_grc)) d32 (loop_package i),
            __update_rapl_counter i (uj_dram stats)
              (__diff_wa (dram (grc s)) (dram last_grc)) d32 (loop_dram i),
            __update_rapl_counter i (uj_core stats)
              (__diff_wa (core (grc s)) (core last_grc)) d32 (loop_core i),
            __update_rapl_counter i (uj_gpu stats)
              (__diff_wa (gpu (grc s)) (gpu last_grc)) d32 (loop_gpu i)
      with
      | Some p, Some d, Some c, Some g =>
          let stats' :=
            {| nr_updates := u64 (nr_updates stats + 1);
               nr_defers := u64 (nr_defers stats + 1);
               us_defered := u64 (us_defered stats + duration);
               uj_package := p; uj_dram := d; uj_core := c; uj_gpu := g |} in
          Some (upd_thread task (set_e_statistics stats') s)
      | _, _, _, _ => None
      end
  end.

Definition s64 (z : Z) : Z :=
  let w := u64 z in if w <? 2 ^ 63 then w else w - 2 ^ 64.

(** The updates of the host's schedstat, cpuacct and rt_avg accounting
    leave the modelled fields alone. *)
Definition update_local_statistics (c : cpu_id) (t : option tid) (s : state) : state :=
  let now := rq_clock_task (rqs s c) in
  match t with
  | None => s
  | Some t =>
      let delta_exec := u64 (now - se_exec_start (threads s t)) in
      if s64 delta_exec <=? 0 then s
      else
        upd_thread t (fun th =>
          set_se now (u64 (se_sum_exec_runtime th + delta_exec))
                 (se_prev_sum_exec_runtime th) th) s
  end.

(** ** Scheduling and removing energy tasks *)

(** [__set_task_cpu] is the host's; the thread moves to [cpu]. *)
Definition move_local_task (t : tid) (cpu : cpu_id) (s : state) : state :=
  if Nat.eqb (task_cpu s t) cpu then s
  else
    let s := upd_rq (task_cpu s t) __dec_nr_running s in
    let s := upd_thread t (set_t_cpu cpu) s in
    upd_rq (task_cpu s t) __inc_nr_running s.

Definition set_energy_task (c : cpu_id) (a : eaddr) (s : state) : state :=
  upd_rq c (set_en_curr_e_task (Some a)) s.

Definition set_local_task (c : cpu_id) (t : tid) (s : state) : state :=
  let s := upd_thread t (fun th =>
               set_ee_state (Z.lor (ee_state th) THREAD_RUNNING) th) s in
  let s := upd_rq c (set_en_curr (Some t)) s in
  upd_thread t (fun th =>
    set_se (rq_clock_task (rqs s c)) (se_sum_exec_runtime th)
           (se_sum_exec_runtime th) th) s.

Definition distribute_local_task (c : cpu_id) (t : tid) (s : state) : option state :=
  let s := clear_resched_curr_local c s in
  let s := move_local_task t c s in
  enqueue_running c t s.

(** The search of [__distribute_energy_task] for the run queue with the
    lowest load: it starts at the CPU of the thread and visits the CPUs of
    [for_each_cpu_and]; the loads are read into [int]s. *)
Definition load_of (s : state) (c : cpu_id) : Z := s32 (en_nr_runnable (rqs s c)).

Definition find_best_rq (s : state) (present : cpu_id) (cands : list cpu_id) : cpu_id :=
  fst (fold_left
         (fun (acc : cpu_id * Z) cpu =>
            let load := load_of s cpu in
            if load <? snd acc then (cpu, load) else acc)
         cands (present, load_of s present)).

(** The body of the loop over the runnable threads of the energy task. *)
Definition distribute_thread (e_task : energy_task) (thread : tid) (s : state)
    : option state :=
  if thread_on_cpu_rq_queued (threads s thread) then Some s
  else
    let best_rq :=
      find_best_rq s (task_cpu s thread)
        (for_each_cpu_and (nr_cpu_ids s) (e_domain e_task)
                          (cpus_allowed (threads s thread))) in
    distribute_local_task best_rq thread s.

Definition __distribute_energy_task (a : eaddr) (s : state) : option state :=
  match get_etask a s with
  | None => None
  | Some e_task =>
      match fold_opt (distribute_thread e_task) (e_runnable e_task) s with
      | None => None
      | Some s =>
          Some (fold_left (fun s cpu => resched_curr_local cpu (set_energy_task cpu a s))
                          (for_each_cpu (nr_cpu_ids s) (e_domain e_task)) s)
      end
  end.

Definition distribute_energy_task (c : cpu_id) (a : eaddr) (s : state) : option state :=
  let s := upd_etask a (fun e =>
               set_e_run ETASK_RUNNING (en_domain (rqs s c)) (rq_clock (rqs s c)) e) s in
  __distribute_energy_task a s.

(** The loop of [clear_local_tasks] unlinks the first thread of the list
    until the list is empty. *)
Fixpoint clear_local_loop (fuel : nat) (c : cpu_id) (s : state) : option state :=
  match en_runnable (rqs s c) with
  | [] => Some s
  | thread :: _ =>
      match fuel with
      | O => None
      | S fuel' =>
          match dequeue_running thread s with
          | None => None
          | Some s' => clear_local_loop fuel' c s'
          end
      end
  end.

Definition clear_local_tasks (c : cpu_id) (s : state) : option state :=
  match clear_local_loop (length (en_runnable (rqs s c))) c s with
  | None => None
  | Some s =>
      let s := upd_rq c (fun r => set_en_runnable (en_runnable r) 0 r) s in
      let s := upd_rq c (set_en_curr None) s in
      let s := upd_rq c (set_en_curr_e_task None) s in
      let s := clear_resched_curr_local c s in
      Some (set_tsk_need_resched (rq_curr (rqs s c)) s)
  end.

Definition clear_energy_task (a : eaddr) (s : state) : option state :=
  match get_etask a s with
  | None => None
  | Some e_task =>
      fold_opt clear_local_tasks (for_each_cpu (nr_cpu_ids s) (e_domain e_task)) s
  end.

Definition put_energy_task (hw : rapl_sample) (a : eaddr) (s : state) : option state :=
  match update_energy_statistics hw a s with
  | None => None
  | Some s =>
      match clear_energy_task a s with
      | None => None
      | Some s =>
          let s := upd_etask a (fun e => set_e_run 0 cpumask_clear (e_start_running e) e) s in
          match get_etask a s with
          | None => None
          | Some e_task =>
              if e_nr_runnable e_task =? 0 then Some (free_energy_task a s)
              else Some s
          end
      end
  end.

Definition put_local_task (c : cpu_id) (t : tid) (s : state) : state :=
  let s := update_local_statistics c (Some t) s in
  let s := upd_thread t (fun th =>
               set_ee_state (Z.land (ee_state th) (Z.lnot THREAD_RUNNING)) th) s in
  upd_rq c (set_en_curr None) s.

(** ** Picking the next energy task and the next thread *)

(** The do-while loop of [pick_next_energy_task] on the ring [l]:
    [list_rotate_left] moves the first entry to the tail, and the loop
    ends when the entry seen first by the call is the first one again. *)
Fixpoint pick_next_loop (fuel : nat) (head : eaddr) (l : list energy_task)
    : option (option energy_task * list energy_task) :=
  match fuel with
  | O => None
  | S fuel' =>
      match l with
      | [] => None
      | next_e_task :: rest =>
          let l' := rest ++ [next_e_task] in
          if (e_state next_e_task =? 0) && negb (e_nr_runnable next_e_task =? 0)
          then Some (Some next_e_task, l')
          else
            match l' with
            | [] => None
            | first :: _ =>
                if Nat.eqb head (e_addr first) then Some (None, l')
                else pick_next_loop fuel' head l'
            end
      end
  end.

(** On an empty ring [list_first_entry] does not yield an energy task:
    no result. *)
Definition pick_next_ring (l : list energy_task)
    : option (option energy_task * list energy_task) :=
  match l with
  | [] => None
  | head :: _ => pick_next_loop (length l) (e_addr head) l
  end.

Definition pick_next_energy_task (s : state) : option (option eaddr * state) :=
  match pick_next_ring (tasks (grq s)) with
  | None => None
  | Some (r, l') =>
      Some (option_map e_addr r,
            set_grq (set_tasks l' (nr_tasks (grq s)) (grq s)) s)
  end.

Definition pick_next_local_task (c : cpu_id) (s : state) : option (tid * state) :=
  let s := clear_resched_curr_local c s in
  let r := rqs s c in
  if negb (en_nr_runnable r =? 0) then
    match en_runnable r with
    | [] => None
    | next :: rest =>
        let s := upd_rq c (fun r => set_en_runnable (rest ++ [next]) (en_nr_runnable r) r) s in
        Some (next, set_local_task c next s)
    end
  else
    match en_idle r with
    | None => None
    | Some next => Some (next, set_local_task c next s)
    end.

(** ** Lending CPUs to the scheduling class *)

Definition acquire_cpus (domain : cpumask) (s : state) : state :=
  fold_left (fun s cpu =>
               if en_blocked (rqs s cpu) then upd_rq cpu __acquire_cpu s else s)
            (for_each_cpu (nr_cpu_ids s) domain) s.

Definition release_cpus (domain : cpumask) (s : state) : state :=
  fold_left (fun s cpu =>
               if negb (en_blocked (rqs s cpu))
                  && (rq_nr_running (rqs s cpu) =? en_nr_assigned (rqs s cpu))
               then upd_rq cpu __release_cpu s else s)
            (for_each_cpu (nr_cpu_ids s) domain) s.

Definition check_cpus (domain : cpumask) (s : state) : state :=
  fold_left (fun s cpu =>
               if en_blocked (rqs s cpu) && (rq_nr_running (rqs s cpu) >? 0)
               then upd_rq cpu __acquire_cpu s
               else if negb (en_blocked (rqs s cpu))
                       && (rq_nr_running (rqs s cpu) =? en_nr_assigned (rqs s cpu))
               then upd_rq cpu __release_cpu s
               else s)
            (for_each_cpu (nr_cpu_ids s) domain) s.

Definition __switch_from_energy (c : cpu_id) (s : state) : state :=
  let s := release_cpus (en_domain (rqs s c)) s in
  set_grq (set_running 0 (start_running (grq s)) (rq_clock (rqs s c)) (grq s)) s.

Definition __switch_to_energy (c : cpu_id) (s : state) : state :=
  let s := set_grq (set_running 1 (rq_clock (rqs s c)) (stop_running (grq s)) (grq s)) s in
  acquire_cpus (en_domain (rqs s c)) s.

Definition switch_to_energy (c : cpu_id) (to : option eaddr) (s : state) : option state :=
  match to with
  | Some to => distribute_energy_task c to (__switch_to_energy c s)
  | None => Some s
  end.

Definition switch_from_energy (hw : rapl_sample) (c : cpu_id) (from : option eaddr)
    (s : state) : option state :=
  match from with
  | Some from =>
      match put_energy_task hw from s with
      | None => None
      | Some s => Some (__switch_from_energy c s)
      end
  | None => Some (__switch_from_energy c s)
  end.

Definition switch_in_energy (hw : rapl_sample) (c : cpu_id) (from to : option eaddr)
    (s : state) : option state :=
  match (match from with
         | Some from => put_energy_task hw from s
         | None => Some s
         end) with
  | None => None
  | Some s =>
      match to with
      | Some to => distribute_energy_task c to s
      | None => Some s
      end
  end.

Definition redistribute_energy_task (hw : rapl_sample) (c : cpu_id) (a : eaddr)
    (arrived : bool) (s : state) : option state :=
  match get_etask a s with
  | None => None
  | Some e_task =>
      if arrived then
        let s := if running (grq s) =? 0 then __switch_to_energy c s else s in
        if negb (e_state e_task =? ETASK_RUNNING)
        then switch_in_energy hw c (en_curr_e_task (rqs s c)) (Some a) s
        else __distribute_energy_task a s
      else
        if negb (e_nr_runnable e_task =? 0) then __distribute_energy_task a s
        else
          match put_energy_task hw a s with
          | None => None
          | Some s =>
              if nr_tasks (grq s) =? 0 then Some (__switch_from_energy c s)
              else Some s
          end
  end.

(** ** The hooks of the scheduling class *)

Definition enqueue_task_energy (hw : rapl_sample) (alloc : option eaddr)
    (c : cpu_id) (t : tid) (s : state) : option state :=
  match (match find_energy_task s t with
         | Some a => Some (a, s)
         | None =>
             match create_energy_task alloc t s with
             | (Some a, s) => Some (a, s)
             | (None, _) => None
             end
         end) with
  | None => None
  | Some (a, s) =>
      match enqueue_runnable c a t s with
      | None => None
      | Some s =>
          match get_etask a s with
          | None => None
          | Some e_task =>
              if should_redistribute_energy e_task (threads s t)
              then redistribute_energy_task hw c a true s
              else Some s
          end
      end
  end.

Definition dequeue_task_energy (hw : rapl_sample) (c : cpu_id) (t : tid) (s : state)
    : option state :=
  match find_energy_task s t with
  | None => None
  | Some a =>
      match (if thread_on_cpu_rq_queued (threads s t)
             then dequeue_running t s else Some s) with
      | None => None
      | Some s =>
          match dequeue_runnable a t s with
          | None => None
          | Some s =>
              match get_etask a s with
              | None => None
              | Some e_task =>
                  if should_redistribute_energy e_task (threads s t)
                  then redistribute_energy_task hw c a false s
                  else Some s
              end
          end
      end
  end.

Definition yield_task_energy (c : cpu_id) (s : state) : state :=
  if en_nr_runnable (rqs s c) >? 2 then resched_curr_local c s else s.

Definition put_prev_task_energy (c : cpu_id) (t : tid) (s : state) : state :=
  put_local_task c t s.

(** The host's [put_prev_task(rq, prev)] calls the hook of the class of
    [prev]; the hooks of the other classes work on data of their own. *)
Definition put_prev_task (c : cpu_id) (prev : tid) (s : state) : state :=
  if in_energy_class (threads s prev) then put_prev_task_energy c prev s else s.

Definition pick_next_task_energy (hw : rapl_sample) (c : cpu_id) (prev : tid)
    (s : state) : option (option tid * state) :=
  match (if running (grq s) =? 0 then
           if should_switch_to_energy s c then
             match pick_next_energy_task s with
             | None => None
             | Some (to, s) => switch_to_energy c to s
             end
           else if should_check_cpus s then Some (check_cpus (en_domain (rqs s c)) s)
           else Some s
         else
           let curr_e_task := en_curr_e_task (rqs s c) in
           if should_switch_from_energy s c then switch_from_energy hw c curr_e_task s
           else
             match should_switch_in_energy s c with
             | None => None
             | Some true =>
                 match pick_next_energy_task s with
                 | None => None
                 | Some (to, s) => switch_in_energy hw c curr_e_task to s
                 end
             | Some false => Some s
             end) with
  | None => None
  | Some s =>
      if need_resched_curr_local s c then
        match pick_next_local_task c (put_prev_task c prev s) with
        | None => None
        | Some (_, s) => Some (en_curr (rqs s c), s)
        end
      else Some (en_curr (rqs s c), s)
  end.

Definition set_curr_task_energy (c : cpu_id) (s : state) : option state :=
  let curr := rq_curr (rqs s c) in
  match (if negb (thread_on_rq_queued (threads s curr))
         then enqueue_running c curr s else Some s) with
  | None => None
  | Some s => Some (set_local_task c curr s)
  end.

(** The host's [resched_curr(rq)] marks [rq->curr] for rescheduling. *)
Definition resched_curr (c : cpu_id) (s : state) : state :=
  set_tsk_need_resched (rq_curr (rqs s c)) s.

Definition task_tick_energy (c : cpu_id) (t : tid) (s : state) : option state :=
  let s := update_local_statistics c (Some t) s in
  match should_switch_in_energy s c with
  | None => None
  | Some sw_in =>
      let s := if sw_in || should_switch_from_energy s c then resched_curr c s else s in
      match should_switch_local s c with
      | None => None
      | Some true => Some (resched_curr_local c s)
      | Some false => Some s
      end
  end.

Definition get_rr_interval_energy (s : state) (c : cpu_id) : option Z :=
  option_map u32 (sched_slice_local s c).

Definition select_task_rq_energy (cpu : Z) : Z := cpu.

(** ** Initialisation *)

Definition init_grq : global_rq :=
  {| running := 0; tasks := []; nr_tasks := 0; nr_threads := 0;
     start_running := 0; stop_running := 0 |}.

Definition init_energy_domain (nr_cpus : nat) : cpumask := cpumask_setall nr_cpus.

(** [init_e_rq] on the run queue [r] of an [nr_cpus]-CPU machine. *)
Definition init_e_rq (nr_cpus : nat) (r : rq) : rq :=
  {| rq_nr_running := rq_nr_running r; rq_clock := rq_clock r;
     rq_clock_task := rq_clock_task r; rq_curr := rq_curr r;
     en_resched_flags := 0; en_domain := init_energy_domain nr_cpus;
     en_runnable := []; en_nr_runnable := 0; en_nr_assigned := 0;
     en_blocked := false; en_curr := None; en_curr_e_task := None;
     en_idle := None |}.

(** ** The two system calls *)

Section ControlSurface.

(** What the host provides: the policy numbers, the calling thread, the
    lookup of a pid, the threads of a thread group in list order, and
    [sched_setscheduler_nocheck], which answers with a status and may
    change the machine. *)
Variable SCHED_ENERGY : Z.
Variable current : tid.
Variable find_task_by_vpid : state -> Z -> option tid.
Variable for_each_thread : state -> tid -> list tid.
Variable sched_setscheduler_nocheck : tid -> Z -> state -> Z * state.

Definition SCHED_NORMAL : Z := 0.

(** The result pairs the returned [int] with the machine left behind. *)
Definition do_start_energy (pid : Z) (s : state) : Z * state :=
  if pid <? 0 then (- EINVAL, s)
  else
    let ret := - ESRCH in
    let p := if pid =? 0 then Some current else find_task_by_vpid s pid in
    match p with
    | Some p =>
        let task := find_task s p in
        fold_left (fun (acc : Z * state) thread =>
                     sched_setscheduler_nocheck thread SCHED_ENERGY (snd acc))
                  (for_each_thread s task) (ret, s)
    | None => (ret, s)
    end.

Definition do_stop_energy (pid : Z) (s : state) : Z * state :=
  if pid <? 0 then (- EINVAL, s)
  else
    let ret := - ESRCH in
    let p := if pid =? 0 then Some current else find_task_by_vpid s pid in
    match p with
    | Some p =>
        let task := find_task s p in
        fold_left (fun (acc : Z * state) thread =>
                     sched_setscheduler_nocheck thread SCHED_NORMAL (snd acc))
                  (for_each_thread s task) (ret, s)
    | None => (ret, s)
    end.

End ControlSurface.

(** ** Load accounting of a CPU *)

(** What the scheduling class has added to [rq->nr_running]: the threads
    assigned to the CPU while the CPU is unblocked, nothing while it is
    blocked. *)
Definition class_load (r : rq) : Z :=
  if en_blocked r then 0 else en_nr_assigned r.

(** [rq->nr_running] is made of the [foreign] threads of the other
    classes and of the share of this class. *)
Definition accounted (foreign : Z) (r : rq) : Prop :=
  rq_nr_running r = u32 (foreign + class_load r).

(** The CPUs visited by [for_each_cpu(cpu, domain)]. *)
Definition in_domain (s : state) (domain : cpumask) (c : cpu_id) : Prop :=
  (c < nr_cpu_ids s)%nat /\ cpumask_test_cpu c domain = true.

(** What the bodies of the loops of [acquire_cpus], [release_cpus] and
    [check_cpus] do to the run queue of the visited CPU. *)
Definition acquire_body (r : rq) : rq :=
  if en_blocked r then __acquire_cpu r else r.

Definition release_body (r : rq) : rq :=
  if negb (en_blocked r) && (rq_nr_running r =? en_nr_assigned r)
  then __release_cpu r else r.

Definition check_body (r : rq) : rq :=
  if en_blocked r && (rq_nr_running r >? 0) then __acquire_cpu r
  else if negb (en_blocked r) && (rq_nr_running r =? en_nr_assigned r)
  then __release_cpu r else r.

(** ** Example machines *)

Definition no_statistics : energy_statistics :=
  {| nr_updates := 0; nr_defers := 0; us_defered := 0; uj_package := 0;
     uj_dram := 0; uj_core := 0; uj_gpu := 0 |}.

Definition mk_thread (st : Z) (cpu : cpu_id) (allowed : cpumask) (leader : tid)
    : task_struct :=
  {| ee_state := st; t_cpu := cpu; cpus_allowed := allowed;
     group_leader := leader; in_energy_class := true; need_resched := false;
     se_exec_start := 0; se_sum_exec_runtime := 0;
     se_prev_sum_exec_runtime := 0; e_statistics := no_statistics |}.

Definition mk_rq (load clock : Z) (queue : list tid) (assigned : Z)
    (blocked : bool) (cur : option eaddr) : rq :=
  {| rq_nr_running := load; rq_clock := clock; rq_clock_task := clock;
     rq_curr := 0%nat; en_resched_flags := 0; en_domain := 3;
     en_runnable := queue; en_nr_runnable := Z.of_nat (length queue);
     en_nr_assigned := assigned; en_blocked := blocked; en_curr := None;
     en_curr_e_task := cur; en_idle := None |}.

Definition mk_etask (a : eaddr) (st : Z) (leader : tid) (dom : cpumask)
    (queue : list tid) : energy_task :=
  {| e_addr := a; e_state := st; e_task := leader; e_domain := dom;
     e_runnable := queue; e_nr_runnable := Z.of_nat (length queue);
     e_start_running := 0 |}.

Definition no_counters : rapl_counters :=
  {| last_update := 0; package := 0; dram := 0; core := 0; gpu := 0 |}.

Definition demo_info : rapl_info :=
  {| update_interval := 1000; unit := 61; loop_package := 5; loop_dram := 1;
     loop_core := 2; loop_gpu := 0 |}.

(** Two CPUs and one running energy task at address 10 with the threads
    1 to 4, all of them on CPU 0: 3 and 4 are on the list of CPU 0, 1 and
    2 are not on the list of any CPU yet. *)
Definition two_cpu_machine : state :=
  {| nr_cpu_ids := 2;
     grq := {| running := 1;
               tasks := [mk_etask 10 ETASK_RUNNING 1 3 [1; 2; 3; 4]%nat];
               nr_tasks := 1; nr_threads := 4;
               start_running := 0; stop_running := 0 |};
     grc := no_counters;
     gri := demo_info;
     threads := fun t =>
       match t with
       | 1%nat | 2%nat => mk_thread THREAD_RQ_QUEUED 0 3 1
       | 3%nat | 4%nat => mk_thread (Z.lor THREAD_RQ_QUEUED THREAD_CPU_QUEUED) 0 3 1
       | _ => mk_thread 0 0 3 t
       end;
     rqs := fun c =>
       match c with
       | 0%nat => mk_rq 4 0 [3; 4]%nat 4 false (Some 10%nat)
       | _ => mk_rq 0 0 [] 0 false (Some 10%nat)
       end |}.

(** Two unblocked CPUs while the class is not in control: CPU 0 runs a
    foreign thread next to its two assigned threads, CPU 1 only its two
    assigned threads. *)
Definition lending_machine : state :=
  {| nr_cpu_ids := 2;
     grq := {| running := 0;
               tasks := [mk_etask 10 0 1 0 [1; 2; 3; 4]%nat];
               nr_tasks := 1; nr_threads := 4;
               start_running := 0; stop_running := 10000000 |};
     grc := no_counters;
     gri := demo_info;
     threads := fun t =>
       match t with
       | 1%nat | 2%nat => mk_thread THREAD_RQ_QUEUED 0 3 1
       | 3%nat | 4%nat => mk_thread THREAD_RQ_QUEUED 1 3 1
       | _ => mk_thread 0 0 3 t
       end;
     rqs := fun c =>
       match c with
       | 0%nat => mk_rq 3 50000000 [] 2 false None
       | _ => mk_rq 2 50000000 [] 2 false None
       end |}.

(** ** The attempts of a policy switch over a thread group *)

Section Attempts.

Variable sched_setscheduler_nocheck : tid -> Z -> state -> Z * state.
Variable policy : Z.

(** The statuses answered by the host when the policy switch is attempted
    on the threads of [l] one after the other, and the machine after all
    of the attempts. *)
Fixpoint switch_results (l : list tid) (s : state) : list Z :=
  match l with
  | [] => []
  | thread :: l' =>
      fst (sched_setscheduler_nocheck thread policy s)
      :: switch_results l' (snd (sched_setscheduler_nocheck thread policy s))
  end.

Fixpoint switch_effects (l : list tid) (s : state) : state :=
  match l with
  | [] => s
  | thread :: l' =>
      switch_effects l' (snd (sched_setscheduler_nocheck thread policy s))
  end.

End Attempts.

(** The first failure among the statuses of the attempts. *)
Definition first_failure (results : list Z) : option Z :=
  find (fun r => negb (r =? 0)) results.

(** A host for the examples: the caller is thread 1, pid 42 is thread 2,
    the thread group of leader 1 is 1, 2, 3, 4, and the policy switch is
    refused with -EPERM for thread 2 and with -EINVAL for thread 4; every
    attempt marks its thread for rescheduling. *)
Definition demo_SCHED_ENERGY : Z := 7.
Definition demo_current : tid := 1.
Definition demo_find_task_by_vpid (s : state) (pid : Z) : option tid :=
  if pid =? 42 then Some 2%nat else None.
Definition demo_for_each_thread (s : state) (task : tid) : list tid :=
  match task with
  | 1%nat => [1; 2; 3; 4]%nat
  | _ => [task]
  end.
Definition demo_setscheduler (thread : tid) (policy : Z) (s : state) : Z * state :=
  (match thread with
   | 2%nat => -1
   | 4%nat => - EINVAL
   | _ => 0
   end, set_tsk_need_resched thread s).

Definition demo_start_energy : Z -> state -> Z * state :=
  do_start_energy demo_SCHED_ENERGY demo_current demo_find_task_by_vpid
                  demo_for_each_thread demo_setscheduler.

(** The machine left by a step of an example that does not stop. *)
Definition state_of (o : option state) : state :=
  match o with
  | Some s => s
  | None => two_cpu_machine
  end.

(** ** The ring of energy tasks *)

(** A candidate of [pick_next_energy_task]: not running and with at least
    one runnable thread. *)
Definition eligible (e : energy_task) : bool :=
  (e_state e =? 0) && negb (e_nr_runnable e =? 0).

(** The ring of the example: A is not running and has no thread, B is not
    running and has two threads, C is running and has three. *)
Definition task_A : energy_task := mk_etask 1 0 10 0 [].
Definition task_B : energy_task := mk_etask 2 0 20 0 [21; 22]%nat.
Definition task_C : energy_task := mk_etask 3 ETASK_RUNNING 30 3 [31; 32; 33]%nat.

(** B once it has been marked running, as [distribute_energy_task] does. *)
Definition task_B_running : energy_task :=
  set_e_run ETASK_RUNNING 3 0 task_B.

Definition ring_machine : state :=
  {| nr_cpu_ids := 2;
     grq := {| running := 1; tasks := [task_A; task_B; task_C];
               nr_tasks := 3; nr_threads := 5;
               start_running := 0; stop_running := 0 |};
     grc := no_counters;
     gri := demo_info;
     threads := fun t => mk_thread 0 0 3 t;
     rqs := fun c => mk_rq 0 0 [] 0 false (Some 3%nat) |}.

(** ** The global run queue as a transition system *)

(** The sum of the runnable-thread counts of the energy tasks. *)
Definition runnable_sum (l : list energy_task) : Z :=
  fold_right (fun e acc => e_nr_runnable e + acc) 0 l.

(** The part of an energy task that the thread accounting is about. *)
Record task_view := {
  v_addr : eaddr;
  v_task : tid;
  v_run : list tid;
  v_nr : Z
}.

Definition e_view (e : energy_task) : task_view :=
  {| v_addr := e_addr e; v_task := e_task e; v_run := e_runnable e;
     v_nr := e_nr_runnable e |}.

Definition views (s : state) : list task_view := map e_view (tasks (grq s)).

Definition view_sum (vs : list task_view) : Z :=
  fold_right (fun v acc => v_nr v + acc) 0 vs.

(** The threads linked on the task-level lists. *)
Definition queued_threads (vs : list task_view) : list tid :=
  concat (map v_run vs).

(** The fields of a run queue that belong to the scheduling class. *)
Definition en_fields (r : rq) :=
  (en_resched_flags r, en_domain r, en_runnable r, en_nr_runnable r,
   en_nr_assigned r, en_blocked r, en_curr r, en_curr_e_task r, en_idle r).

(** Activity of the host between two hooks: the host writes its own
    fields of the thread structures and of the run queues (clocks, loads,
    current threads, CPUs and affinities of threads, runtime accounting)
    and nothing of the scheduling class. *)
Definition host_step (s s' : state) : Prop :=
  nr_cpu_ids s' = nr_cpu_ids s
  /\ grq s' = grq s /\ grc s' = grc s /\ gri s' = gri s
  /\ (forall t, ee_state (threads s' t) = ee_state (threads s t)
                /\ group_leader (threads s' t) = group_leader (threads s t)
                /\ e_statistics (threads s' t) = e_statistics (threads s t))
  /\ (forall c, en_fields (rqs s' c) = en_fields (rqs s c)).

(** [kmalloc] never answers with the address of a live energy task. *)
Definition fresh (alloc : option eaddr) (s : state) : Prop :=
  forall a, alloc = Some a -> ~ In a (map e_addr (tasks (grq s))).

(** Before the first hook runs the global run queue is as [init_grq]
    leaves it and no thread is linked on a task-level list. *)
Definition initial (s : state) : Prop :=
  grq s = init_grq
  /\ forall t, thread_on_rq_queued (threads s t) = false.

(** The invariant of the global run queue, on the views [vs] of the
    energy tasks, the global count [nr], the task-level queue flag of the
    threads and the leaders of their thread groups: the counts are the
    lengths of the lists, the global count is their sum, a thread is on at
    most one list and its flag says whether it is on one, the threads of a
    task belong to the thread group of the task, and the tasks have
    distinct leaders and addresses. *)
Definition queue_inv (max_threads : nat) (vs : list task_view) (nr : Z)
    (queued : tid -> bool) (leader : tid -> tid) : Prop :=
  Forall (fun v => v_nr v = Z.of_nat (length (v_run v))) vs
  /\ nr = view_sum vs
  /\ NoDup (queued_threads vs)
  /\ (forall t, queued t = true <-> In t (queued_threads vs))
  /\ Forall (fun v => forall t, In t (v_run v) -> leader t = v_task v) vs
  /\ NoDup (map v_task vs)
  /\ NoDup (map v_addr vs)
  /\ Forall (fun t => (t < max_threads)%nat) (queued_threads vs).

(** What [enqueue_runnable] and [dequeue_runnable] do to a view. *)
Definition with_thread (t : tid) (v : task_view) : task_view :=
  {| v_addr := v_addr v; v_task := v_task v; v_run := t :: v_run v;
     v_nr := u32 (v_nr v + 1) |}.

Definition unlinked (t : tid) (v : task_view) : task_view :=
  {| v_addr := v_addr v; v_task := v_task v;
     v_run := remove Nat.eq_dec t (v_run v); v_nr := v_nr v |}.

Definition one_less (v : task_view) : task_view :=
  {| v_addr := v_addr v; v_task := v_task v; v_run := v_run v;
     v_nr := u32 (v_nr v - 1) |}.


(** A write to a thread structure that leaves the task-level queue flag
    and the group leader alone. *)
Definition keeps_queue_flag (f : task_struct -> task_struct) : Prop :=
  forall th, thread_on_rq_queued (f th) = thread_on_rq_queued th
             /\ group_leader (f th) = group_leader th.

Section Reachability.

(** The host has a bound on the number of its threads (the pid space);
    thread handles are below it. *)
Variable max_threads : nat.

Inductive step : state -> state -> Prop :=
| step_enqueue hw alloc c t s s' :
    (t < max_threads)%nat -> fresh alloc s ->
    enqueue_task_energy hw alloc c t s = Some s' -> step s s'
| step_dequeue hw c t s s' :
    dequeue_task_energy hw c t s = Some s' -> step s s'
| step_pick_next hw c prev s r s' :
    pick_next_task_energy hw c prev s = Some (r, s') -> step s s'
| step_yield c s :
    step s (yield_task_energy c s)
| step_put_prev c t s :
    step s (put_prev_task_energy c t s)
| step_set_curr c s s' :
    set_curr_task_energy c s = Some s' -> step s s'
| step_tick c t s s' :
    task_tick_energy c t s = Some s' -> step s s'
| step_host s s' :
    host_step s s' -> step s s'.

Inductive reachable : state -> Prop :=
| reachable_initial s : initial s -> reachable s
| reachable_step s s' : reachable s -> step s s' -> reachable s'.

Definition grq_inv (s : state) : Prop :=
  queue_inv max_threads (views s) (nr_threads (grq s))
            (fun t => thread_on_rq_queued (threads s t)) (find_task s).

End Reachability.

(** Two machines that agree on what the thread accounting is about. *)
Definition same_queue (s s' : state) : Prop :=
  views s' = views s
  /\ nr_threads (grq s') = nr_threads (grq s)
  /\ (forall t, thread_on_rq_queued (threads s' t) = thread_on_rq_queued (threads s t))
  /\ (forall t, group_leader (threads s' t) = group_leader (threads s t)).

(** A machine reached by a few hooks: thread 1 and thread 2 of the thread
    group of 1 are enqueued on CPU 0, then thread 2 is dequeued. *)
Definition boot_machine : state :=
  {| nr_cpu_ids := 2;
     grq := init_grq;
     grc := no_counters;
     gri := demo_info;
     threads := fun t => mk_thread 0 0 3 (match t with 2%nat => 1%nat | _ => t end);
     rqs := fun c => init_e_rq 2 (mk_rq 0 0 [] 0 false None) |}.

Definition demo_sample : rapl_sample :=
  {| sample_counters := {| last_update := 7; package := 100; dram := 20;
                           core := 30; gpu := 0 |};
     sample_duration := 2500 |}.

(** ** Reading the RAPL registers *)

(** Offsets and masks for the RAPL counters: a counter is the bits 31-0
    of its register, the exponent of the energy unit the bits 12-8. *)
Definition MASK_PKG : Z := 4294967295.
Definition OFFSET_PKG : Z := 0.
Definition MASK_UNIT : Z := 7936.
Definition OFFSET_UNIT : Z := 8.

(** What the host's [rdmsrl_safe(msr_nr, &val)] answers: its status and
    the 64-bit contents of the register. *)
Record msr_answer := {
  msr_err : Z;
  msr_val : Z
}.

(** [__read_rapl_msr(value, msr_nr, mask, offset)] when the read of the
    register is answered with [hw].  [value] is the u32 behind the
    pointer, [None] for NULL; the result is the returned [int] and the
    u32 behind the pointer afterwards.  A shift of the u64 by 64 bits or
    more has no defined result. *)
Definition __read_rapl_msr (value : option Z) (hw : msr_answer) (mask offset : Z)
    : option (Z * option Z) :=
  match value with
  | None => Some (- EINVAL, None)
  | Some old =>
      if negb (msr_err hw =? 0) then Some (msr_err hw, Some old)
      else if 64 <=? offset then None
      else Some (0, Some (u32 (Z.shiftr (Z.land (msr_val hw) mask) offset)))
  end.

(** The loop [while (tmp_val == start_val)] of
    [__read_rapl_msr_until_update]; [answers] are the answers to its
    reads of the register, one after the other.  The result is the status
    and [tmp_val] when the loop is left; there is none while the register
    keeps its value. *)
Fixpoint poll_rapl_msr (answers : list msr_answer) (mask offset start_val : Z)
    : option (Z * Z) :=
  match answers with
  | [] => None
  | hw :: answers' =>
      match __read_rapl_msr (Some start_val) hw mask offset with
      | Some (err, Some tmp_val) =>
          if negb (err =? 0) then Some (err, tmp_val)
          else if tmp_val =? start_val
               then poll_rapl_msr answers' mask offset start_val
               else Some (0, tmp_val)
      | _ => None
      end
  end.

(** What [__read_rapl_msr_until_update] stores through the out parameters
    that are not NULL. *)
Record rapl_update := {
  up_tick : Z;
  up_value : Z;
  up_duration : Z
}.

(** [__read_rapl_msr_until_update(value, msr_nr, mask, offset, tick,
    duration)]: [start_tick] and [end_tick] are what the two calls of
    [ktime_get()] return, in nanoseconds, and [ktime_us_delta] is their
    difference in microseconds.  On a failed read nothing is stored. *)
Definition __read_rapl_msr_until_update (start_tick end_tick : Z)
    (answers : list msr_answer) (mask offset : Z)
    : option (Z * option rapl_update) :=
  match answers with
  | [] => None
  | hw :: answers' =>
      match __read_rapl_msr (Some 0) hw mask offset with
      | Some (err, Some start_val) =>
          if negb (err =? 0) then Some (err, None)
          else
            match poll_rapl_msr answers' mask offset start_val with
            | None => None
            | Some (err, tmp_val) =>
                if negb (err =? 0) then Some (err, None)
                else
                  Some (0, Some {| up_tick := end_tick; up_value := tmp_val;
                                   up_duration :=
                                     u64 (Z.quot (s64 (end_tick - start_tick)) 1000) |})
            end
      | _ => None
      end
  end.

(** [__read_rapl_unit(unit)] when the read of the unit register is
    answered with [hw]: the returned [int] and [*unit] afterwards.  The
    [int] shift [1 << val] is not defined for [val] 31. *)
Definition __read_rapl_unit (unit : Z) (hw : msr_answer) : option (Z * Z) :=
  match __read_rapl_msr (Some 0) hw MASK_UNIT OFFSET_UNIT with
  | Some (err, Some val) =>
      if negb (err =? 0) then Some (err, unit)
      else if 31 <=? val then None
      else Some (0, u32 (1000000 / Z.shiftl 1 val))
  | _ => None
  end.

(** ** The remaining hooks and the idle threads *)

Definition update_curr_energy (c : cpu_id) (s : state) : state :=
  update_local_statistics c (Some (rq_curr (rqs s c))) s.

Definition set_en_idle (t : option tid) (r : rq) : rq :=
  {| rq_nr_running := rq_nr_running r; rq_clock := rq_clock r;
     rq_clock_task := rq_clock_task r;
     rq_curr := rq_curr r; en_resched_flags := en_resched_flags r;
     en_domain := en_domain r; en_runnable := en_runnable r;
     en_nr_runnable := en_nr_runnable r; en_nr_assigned := en_nr_assigned r;
     en_blocked := en_blocked r; en_curr := en_curr r;
     en_curr_e_task := en_curr_e_task r; en_idle := t |}.

(** What [init_e_idle_threads] does to the thread it has created for
    [cpu]: [kthread_bind] restricts the thread to the CPU and the thread
    is put into the scheduling class. *)
Definition set_idle_thread (cpu : cpu_id) (t : task_struct) : task_struct :=
  {| ee_state := ee_state t; t_cpu := t_cpu t;
     cpus_allowed := Z.shiftl 1 (Z.of_nat cpu);
     group_leader := group_leader t; in_energy_class := true;
     need_resched := need_resched t; se_exec_start := se_exec_start t;
     se_sum_exec_runtime := se_sum_exec_runtime t;
     se_prev_sum_exec_runtime := se_prev_sum_exec_runtime t;
     e_statistics := e_statistics t |}.

(** [init_e_idle_threads]: [kthread_create] is the host's, it answers
    with the thread created for the CPU; [cpu_possible_mask] is what
    [for_each_possible_cpu] visits. *)
Definition init_e_idle_threads (cpu_possible_mask : cpumask)
    (kthread_create : cpu_id -> tid) (s : state) : state :=
  fold_left (fun s cpu =>
               let idle_thread := kthread_create cpu in
               let s := upd_thread idle_thread (set_idle_thread cpu) s in
               upd_rq cpu (set_en_idle (Some idle_thread)) s)
            (for_each_cpu (nr_cpu_ids s) cpu_possible_mask) s.

(** The host's [update_rq_clock] moves the clocks of a run queue. *)
Definition set_rq_clocks (clock clock_task : Z) (r : rq) : rq :=
  {| rq_nr_running := rq_nr_running r; rq_clock := clock;
     rq_clock_task := clock_task;
     rq_curr := rq_curr r; en_resched_flags := en_resched_flags r;
     en_domain := en_domain r; en_runnable := en_runnable r;
     en_nr_runnable := en_nr_runnable r; en_nr_assigned := en_nr_assigned r;
     en_blocked := en_blocked r; en_curr := en_curr r;
     en_curr_e_task := en_curr_e_task r; en_idle := en_idle r |}.

(** [n] calls of [pick_next_local_task] on the same CPU, one after the
    other, with the threads that they return. *)
Fixpoint pick_next_local_tasks (n : nat) (c : cpu_id) (s : state)
    : option (list tid * state) :=
  match n with
  | O => Some ([], s)
  | S n' =>
      match pick_next_local_task c s with
      | None => None
      | Some (t, s') =>
          match pick_next_local_tasks n' c s' with
          | None => None
          | Some (l, s'') => Some (t :: l, s'')
          end
      end
  end.

(** ** What the scheduling class leaves to the host *)

(** Two contents of a run queue with the same clocks, current thread,
    energy domain and idle thread, and with the same load of the other
    scheduling classes. *)
Definition rq_frame (r r' : rq) : Prop :=
  rq_clock r' = rq_clock r /\ rq_clock_task r' = rq_clock_task r
  /\ rq_curr r' = rq_curr r /\ en_domain r' = en_domain r
  /\ en_idle r' = en_idle r
  /\ forall foreign, accounted foreign r -> accounted foreign r'.

(** Two contents of a thread structure with the same thread group,
    affinity and scheduling class. *)
Definition thread_frame (t t' : task_struct) : Prop :=
  group_leader t' = group_leader t /\ cpus_allowed t' = cpus_allowed t
  /\ in_energy_class t' = in_energy_class t.

Definition host_frame (s s' : state) : Prop :=
  nr_cpu_ids s' = nr_cpu_ids s /\ gri s' = gri s
  /\ (forall c, rq_frame (rqs s c) (rqs s' c))
  /\ (forall t, thread_frame (threads s t) (threads s' t)).

(** The same, for the functions that neither create nor free an energy
    task. *)
Definition leaf_frame (s s' : state) : Prop :=
  host_frame s s' /\ nr_tasks (grq s') = nr_tasks (grq s).

(** The energy task at address [a] is on [grq.tasks] and belongs to the
    thread group of [t]. *)
Definition has_view (a : eaddr) (t : tid) (s : state) : Prop :=
  exists v, In v (views s) /\ v_addr v = a /\ v_task v = find_task s t.

(** One call of a hook of the scheduling class that returns. *)
Inductive hook_step : state -> state -> Prop :=
| hook_enqueue hw alloc c t s s' :
    enqueue_task_energy hw alloc c t s = Some s' -> hook_step s s'
| hook_dequeue hw c t s s' :
    dequeue_task_energy hw c t s = Some s' -> hook_step s s'
| hook_pick_next hw c prev s r s' :
    pick_next_task_energy hw c prev s = Some (r, s') -> hook_step s s'
| hook_yield c s :
    hook_step s (yield_task_energy c s)
| hook_put_prev c t s :
    hook_step s (put_prev_task_energy c t s)
| hook_set_curr c s s' :
    set_curr_task_energy c s = Some s' -> hook_step s s'
| hook_tick c t s s' :
    task_tick_energy c t s = Some s' -> hook_step s s'
| hook_update_curr c s :
    hook_step s (update_curr_energy c s).

(** [grq.nr_tasks] counts the energy tasks on [grq.tasks]. *)
Definition tasks_counted (s : state) : Prop :=
  nr_tasks (grq s) = u32 (Z.of_nat (length (tasks (grq s)))).

(** The local queues of [cpus] differ in length by at most one: all of
    them hold [m] or [m + 1] threads. *)
Definition balanced (s : state) (cpus : list cpu_id) (m : Z) : Prop :=
  forall c, In c cpus -> m <= en_nr_runnable (rqs s c) <= m + 1.

(** The threads on the local queues of [cpus], by the counters. *)
Definition queue_total (s : state) (cpus : list cpu_id) : Z :=
  fold_right (fun c acc => en_nr_runnable (rqs s c) + acc) 0 cpus.

(** The runnable threads of an energy task that are on no local queue
    yet. *)
Definition unplaced (s : state) (e : energy_task) : list tid :=
  filter (fun t => negb (thread_on_cpu_rq_queued (threads s t))) (e_runnable e).

(** ** A machine shared with another scheduling class *)


(** * Properties *)

Section RaplArithmetic.

Lemma u32_small z : is_u32 z -> u32 z = z.
Proof. unfold is_u32, u32. intros H. apply Z.mod_small. exact H. Qed.

Lemma u32_range z : is_u32 (u32 z).
Proof. unfold is_u32, u32. apply Z.mod_pos_bound. reflexivity. Qed.

Lemma u64_small z : is_u64 z -> u64 z = z.
Proof. unfold is_u64, u64. intros H. apply Z.mod_small. exact H. Qed.

Lemma u64_range z : is_u64 (u64 z).
Proof. unfold is_u64, u64. apply Z.mod_pos_bound. reflexivity. Qed.

Lemma final_consumption_nonneg i consumption loop_duration avg :
  0 <= final_consumption i consumption loop_duration avg.
Proof.
  unfold final_consumption.
  destruct (loop_consumption i loop_duration avg >? consumption).
  - lia.
  - apply u32_range.
Qed.

(** C4: for two u32 readings, when the counter wrapped (the current
    reading is below the previous one) the wrap-safe delta is
    [(U32_MAX - previous) + current], which is not negative; otherwise
    it is the plain difference [current - previous]. *)
Theorem diff_wa_wrap_safe (current previous : Z) :
  is_u32 current -> is_u32 previous ->
  (current < previous ->
     __diff_wa current previous = (U32_MAX - previous) + current
     /\ 0 <= __diff_wa current previous) /\
  (previous <= current ->
     __diff_wa current previous = current - previous).
Proof.
  unfold is_u32, U32_MAX. intros Hc Hp. split.
  - intros Hlt. unfold __diff_wa.
    destruct (Z.ltb_spec current previous) as [_ | Hge]; [| lia].
    unfold U32_MAX.
    rewrite (u32_small (4294967295 - previous)) by (unfold is_u32; lia).
    rewrite u32_small by (unfold is_u32; lia).
    split; lia.
  - intros Hle. unfold __diff_wa.
    destruct (Z.ltb_spec current previous) as [Hlt | _]; [lia |].
    apply u32_small. unfold is_u32. lia.
Qed.

Lemma diff_wa_wrap_safe_witness :
  __diff_wa 5 4294967290 = 10 /\ __diff_wa 7 3 = 4.
Proof.
  split.
  - destruct (diff_wa_wrap_safe 5 4294967290) as [Hwrap _];
      [unfold is_u32; lia | unfold is_u32; lia |].
    destruct Hwrap as [Heq _]; [lia |].
    rewrite Heq. reflexivity.
  - destruct (diff_wa_wrap_safe 7 3) as [_ Hplain];
      [unfold is_u32; lia | unfold is_u32; lia |].
    rewrite Hplain; [reflexivity | lia].
Defined.

(** C3: with a loop energy of 5 units per iteration, an update interval
    of 1000us, 2500us elapsed and a raw delta of 100 units,
    [__update_rapl_counter] subtracts (5 * 2500) / 1000 = 12 and
    accumulates 88 units scaled by the unit constant; whenever the
    computed self-consumption exceeds the raw delta the accumulated
    amount is 0, and it is never negative. *)
Theorem update_rapl_counter_net (i : rapl_info) :
  (update_interval i = 1000 ->
     loop_consumption i 2500 5 = 12
     /\ final_consumption i 100 2500 5 = 88
     /\ forall value,
          __update_rapl_counter i value 100 2500 5
          = Some (u64 (value + u32 (88 * unit i)))) /\
  (forall value consumption loop_duration avg,
     update_interval i <> 0 ->
     loop_consumption i loop_duration avg > consumption ->
     final_consumption i consumption loop_duration avg = 0
     /\ (is_u64 value ->
         __update_rapl_counter i value consumption loop_duration avg = Some value)) /\
  (forall consumption loop_duration avg,
     0 <= final_consumption i consumption loop_duration avg).
Proof.
  split; [| split].
  - intros Hi.
    assert (Hl : loop_consumption i 2500 5 = 12).
    { unfold loop_consumption. rewrite Hi. reflexivity. }
    assert (Hf : final_consumption i 100 2500 5 = 88).
    { unfold final_consumption. rewrite Hl. reflexivity. }
    repeat split; trivial.
    intros value. unfold __update_rapl_counter. rewrite Hi, Hf. reflexivity.
  - intros value consumption loop_duration avg Hi Hgt.
    assert (Hf : final_consumption i consumption loop_duration avg = 0).
    { unfold final_consumption.
      destruct (Z.gtb_spec (loop_consumption i loop_duration avg) consumption);
        [reflexivity | lia]. }
    split; [exact Hf |].
    intros Hv. unfold __update_rapl_counter.
    destruct (Z.eqb_spec (update_interval i) 0) as [E | _]; [contradiction |].
    rewrite Hf. cbn [Z.mul]. change (u32 0) with 0.
    rewrite Z.add_0_r, u64_small by exact Hv. reflexivity.
  - intros. apply final_consumption_nonneg.
Qed.

Lemma update_rapl_counter_net_witness :
  let i := {| update_interval := 1000; unit := 61; loop_package := 5;
              loop_dram := 0; loop_core := 0; loop_gpu := 0 |} in
  __update_rapl_counter i 1000 100 2500 5 = Some 6368
  /\ __update_rapl_counter i 1000 10 2500 5 = Some 1000.
Proof.
  intros i.
  destruct (update_rapl_counter_net i) as [Hex [Hfloor _]].
  split.
  - destruct Hex as [_ [_ Hup]]; [reflexivity |].
    rewrite Hup. reflexivity.
  - destruct (Hfloor 1000 10 2500 5) as [_ Hup].
    + discriminate.
    + reflexivity.
    + apply Hup. unfold is_u64. lia.
Defined.

End RaplArithmetic.

Section Slices.

Lemma mul_slice_u64 n : is_u32 n -> u64 (n * THREAD_SCHED_SLICE) = THREAD_SCHED_SLICE * n.
Proof.
  unfold is_u32, THREAD_SCHED_SLICE. intros H.
  rewrite u64_small; [lia | unfold is_u64; lia].
Qed.

(** C8: the class slice is the 10ms quantum times the global thread
    count; the slice of an energy task is the quantum times its number
    of runnable threads, and 0 for NULL; the local slice of a CPU is the
    slice of its current energy task divided by the number of threads
    on the CPU's list ([rq->en.nr_runnable], in the words of the source
    the threads assigned to one CPU), or that slice itself when the list
    is empty. *)
Theorem slice_formulas (s : state) (c : cpu_id) (cur : option energy_task) :
  is_u32 (nr_threads (grq s)) ->
  (forall e, cur = Some e -> is_u32 (e_nr_runnable e)) ->
  deref_etask (en_curr_e_task (rqs s c)) s = Some cur ->
  THREAD_SCHED_SLICE = 10 * 1000 * 1000
  /\ sched_slice_class s = THREAD_SCHED_SLICE * nr_threads (grq s)
  /\ sched_slice_energy None = 0
  /\ (forall e, cur = Some e ->
        sched_slice_energy cur = THREAD_SCHED_SLICE * e_nr_runnable e)
  /\ (en_nr_runnable (rqs s c) = 0 ->
        sched_slice_local s c = Some (sched_slice_energy cur))
  /\ (en_nr_runnable (rqs s c) <> 0 ->
        sched_slice_local s c
        = Some (sched_slice_energy cur / en_nr_runnable (rqs s c))).
Proof.
  intros Hthr Hcur Hderef.
  split; [reflexivity |].
  split; [apply mul_slice_u64; exact Hthr |].
  split; [reflexivity |].
  split.
  { intros e ->. cbn [sched_slice_energy]. apply mul_slice_u64.
    apply Hcur. reflexivity. }
  unfold sched_slice_local. rewrite Hderef.
  split; intros Hn.
  - rewrite Hn. reflexivity.
  - destruct (Z.eqb_spec (en_nr_runnable (rqs s c)) 0); [contradiction | reflexivity].
Qed.


Lemma slice_formulas_witness :
  sched_slice_class two_cpu_machine = 40000000
  /\ sched_slice_local two_cpu_machine 0 = Some 20000000
  /\ sched_slice_local two_cpu_machine 1 = Some 40000000.
Proof.
  pose (e := mk_etask 10 ETASK_RUNNING 1 3 [1; 2; 3; 4]%nat).
  assert (H32 : is_u32 (nr_threads (grq two_cpu_machine))) by (cbn; unfold is_u32; lia).
  assert (He : forall e', Some e = Some e' -> is_u32 (e_nr_runnable e')).
  { intros e' [= <-]. cbn. unfold is_u32. lia. }
  destruct (slice_formulas two_cpu_machine 0 (Some e) H32 He eq_refl)
    as [_ [Hclass [_ [_ [_ Hloc0]]]]].
  destruct (slice_formulas two_cpu_machine 1 (Some e) H32 He eq_refl)
    as [_ [_ [_ [_ [Hloc1 _]]]]].
  split; [rewrite Hclass; reflexivity |].
  split.
  - rewrite Hloc0; [reflexivity | discriminate].
  - rewrite Hloc1; reflexivity.
Defined.



End Slices.

Section Stores.

Lemma upd_same {A} (f : nat -> A) k v : upd f k v k = v.
Proof. unfold upd. rewrite Nat.eqb_refl. reflexivity. Qed.

Lemma upd_other {A} (f : nat -> A) k v x : x <> k -> upd f k v x = f x.
Proof.
  intros H. unfold upd. destruct (Nat.eqb_spec x k); [contradiction | reflexivity].
Qed.

Lemma rqs_upd_rq_same c f s : rqs (upd_rq c f s) c = f (rqs s c).
Proof. cbn. apply upd_same. Qed.

Lemma rqs_upd_rq_other c f s x : x <> c -> rqs (upd_rq c f s) x = rqs s x.
Proof. intros H. cbn. apply upd_other. exact H. Qed.

Lemma in_for_each_cpu n m c :
  In c (for_each_cpu n m) <-> (c < n)%nat /\ cpumask_test_cpu c m = true.
Proof.
  unfold for_each_cpu. rewrite filter_In, in_seq. intuition lia.
Qed.

Lemma NoDup_for_each_cpu n m : NoDup (for_each_cpu n m).
Proof. unfold for_each_cpu. apply NoDup_filter, seq_NoDup. Qed.

(** A loop over distinct CPUs whose body rewrites the run queue of its
    CPU with [g] rewrites exactly the run queues of the visited CPUs. *)
Section PerCpuLoop.

Variable body : state -> cpu_id -> state.
Variable g : rq -> rq.
Hypothesis body_rqs : forall s cpu c,
  rqs (body s cpu) c = if Nat.eqb c cpu then g (rqs s c) else rqs s c.

Lemma per_cpu_loop_out l : forall s c,
  ~ In c l -> rqs (fold_left body l s) c = rqs s c.
Proof.
  induction l as [| cpu l IH]; intros s c Hc; cbn; [reflexivity |].
  rewrite IH by (intros H; apply Hc; right; exact H).
  rewrite body_rqs.
  destruct (Nat.eqb_spec c cpu) as [-> | _]; [| reflexivity].
  exfalso. apply Hc. left. reflexivity.
Qed.

Lemma per_cpu_loop_in l : forall s c,
  NoDup l -> In c l -> rqs (fold_left body l s) c = g (rqs s c).
Proof.
  induction l as [| cpu l IH]; intros s c Hnd Hc; [destruct Hc |].
  inversion Hnd as [| ? ? Hnotin Hnd']; subst. cbn.
  destruct Hc as [-> | Hc].
  - rewrite per_cpu_loop_out by exact Hnotin.
    rewrite body_rqs, Nat.eqb_refl. reflexivity.
  - rewrite IH by assumption. rewrite body_rqs.
    destruct (Nat.eqb_spec c cpu) as [-> | _]; [contradiction | reflexivity].
Qed.

End PerCpuLoop.

End Stores.

Section CpuLending.

Ltac u32_norm :=
  unfold u32;
  repeat first [ rewrite Zplus_mod_idemp_l | rewrite Zplus_mod_idemp_r
               | rewrite Zminus_mod_idemp_l | rewrite Zminus_mod_idemp_r ];
  try (f_equal; lia).

Lemma inc_nr_running_accounted foreign r :
  accounted foreign r -> accounted foreign (__inc_nr_running r).
Proof.
  unfold accounted, class_load, __inc_nr_running, add_nr_running.
  destruct (en_blocked r) eqn:Hb; cbn; rewrite Hb; intros ->; u32_norm.
Qed.

Lemma dec_nr_running_accounted foreign r :
  accounted foreign r -> accounted foreign (__dec_nr_running r).
Proof.
  unfold accounted, class_load, __dec_nr_running, sub_nr_running.
  destruct (en_blocked r) eqn:Hb; cbn; rewrite Hb; intros ->; u32_norm.
Qed.

Lemma acquire_cpu_accounted foreign r :
  en_blocked r = true ->
  accounted foreign r -> accounted foreign (__acquire_cpu r).
Proof.
  unfold accounted, class_load, __acquire_cpu, add_nr_running.
  intros Hb. cbn. rewrite Hb. intros ->. u32_norm.
Qed.

Lemma release_cpu_accounted foreign r :
  en_blocked r = false ->
  accounted foreign r -> accounted foreign (__release_cpu r).
Proof.
  unfold accounted, class_load, __release_cpu, sub_nr_running.
  intros Hb. cbn. rewrite Hb. intros ->. u32_norm.
Qed.

Lemma acquire_cpus_rqs domain s c :
  rqs (acquire_cpus domain s) c
  = if in_dec Nat.eq_dec c (for_each_cpu (nr_cpu_ids s) domain)
    then acquire_body (rqs s c) else rqs s c.
Proof.
  unfold acquire_cpus.
  assert (Hbody : forall s cpu c,
    rqs (if en_blocked (rqs s cpu) then upd_rq cpu __acquire_cpu s else s) c
    = if Nat.eqb c cpu then acquire_body (rqs s c) else rqs s c).
  { clear. intros s cpu c. unfold acquire_body.
    destruct (Nat.eqb_spec c cpu) as [-> | Hne].
    - destruct (en_blocked (rqs s cpu)); [apply rqs_upd_rq_same | reflexivity].
    - destruct (en_blocked (rqs s cpu)); [apply rqs_upd_rq_other; exact Hne | reflexivity]. }
  destruct (in_dec Nat.eq_dec c (for_each_cpu (nr_cpu_ids s) domain)) as [Hin | Hout].
  - apply (per_cpu_loop_in _ _ Hbody); [apply NoDup_for_each_cpu | exact Hin].
  - apply (per_cpu_loop_out _ _ Hbody). exact Hout.
Qed.

Lemma release_cpus_rqs domain s c :
  rqs (release_cpus domain s) c
  = if in_dec Nat.eq_dec c (for_each_cpu (nr_cpu_ids s) domain)
    then release_body (rqs s c) else rqs s c.
Proof.
  unfold release_cpus.
  assert (Hbody : forall s cpu c,
    rqs (if negb (en_blocked (rqs s cpu))
            && (rq_nr_running (rqs s cpu) =? en_nr_assigned (rqs s cpu))
         then upd_rq cpu __release_cpu s else s) c
    = if Nat.eqb c cpu then release_body (rqs s c) else rqs s c).
  { clear. intros s cpu c. unfold release_body.
    destruct (Nat.eqb_spec c cpu) as [-> | Hne].
    - destruct (negb _ && _); [apply rqs_upd_rq_same | reflexivity].
    - destruct (negb _ && _); [apply rqs_upd_rq_other; exact Hne | reflexivity]. }
  destruct (in_dec Nat.eq_dec c (for_each_cpu (nr_cpu_ids s) domain)) as [Hin | Hout].
  - apply (per_cpu_loop_in _ _ Hbody); [apply NoDup_for_each_cpu | exact Hin].
  - apply (per_cpu_loop_out _ _ Hbody). exact Hout.
Qed.

Lemma check_cpus_rqs domain s c :
  rqs (check_cpus domain s) c
  = if in_dec Nat.eq_dec c (for_each_cpu (nr_cpu_ids s) domain)
    then check_body (rqs s c) else rqs s c.
Proof.
  unfold check_cpus.
  assert (Hbody : forall s cpu c,
    rqs (if en_blocked (rqs s cpu) && (rq_nr_running (rqs s cpu) >? 0)
         then upd_rq cpu __acquire_cpu s
         else if negb (en_blocked (rqs s cpu))
                 && (rq_nr_running (rqs s cpu) =? en_nr_assigned (rqs s cpu))
         then upd_rq cpu __release_cpu s else s) c
    = if Nat.eqb c cpu then check_body (rqs s c) else rqs s c).
  { clear. intros s cpu c. unfold check_body.
    destruct (Nat.eqb_spec c cpu) as [-> | Hne].
    - destruct (en_blocked (rqs s cpu) && _); [apply rqs_upd_rq_same |].
      destruct (negb _ && _); [apply rqs_upd_rq_same | reflexivity].
    - destruct (en_blocked (rqs s cpu) && _); [apply rqs_upd_rq_other; exact Hne |].
      destruct (negb _ && _); [apply rqs_upd_rq_other; exact Hne | reflexivity]. }
  destruct (in_dec Nat.eq_dec c (for_each_cpu (nr_cpu_ids s) domain)) as [Hin | Hout].
  - apply (per_cpu_loop_in _ _ Hbody); [apply NoDup_for_each_cpu | exact Hin].
  - apply (per_cpu_loop_out _ _ Hbody). exact Hout.
Qed.

(** C10: the share of the scheduling class in [rq->nr_running] is
    [en.nr_assigned] while the CPU is unblocked and 0 while it is
    blocked, whatever the foreign load is, and the correspondence is
    kept by [__inc_nr_running], by [__dec_nr_running], by
    [__acquire_cpu] on a blocked CPU and by [__release_cpu] on an
    unblocked one, which is how the loops of [acquire_cpus],
    [release_cpus] and [check_cpus] call them. *)
Theorem class_load_correspondence (foreign : Z) (domain : cpumask)
    (s : state) (c : cpu_id) :
  accounted foreign (rqs s c) ->
  let r := rqs s c in
  (en_blocked r = false -> rq_nr_running r = u32 (foreign + en_nr_assigned r)) /\
  (en_blocked r = true -> rq_nr_running r = u32 (foreign + 0)) /\
  accounted foreign (__inc_nr_running r) /\
  accounted foreign (__dec_nr_running r) /\
  (en_blocked r = true ->
     accounted foreign (__acquire_cpu r)
     /\ en_blocked (__acquire_cpu r) = false
     /\ en_nr_assigned (__acquire_cpu r) = en_nr_assigned r) /\
  (en_blocked r = false ->
     accounted foreign (__release_cpu r)
     /\ en_blocked (__release_cpu r) = true
     /\ en_nr_assigned (__release_cpu r) = en_nr_assigned r) /\
  accounted foreign (rqs (acquire_cpus domain s) c) /\
  accounted foreign (rqs (release_cpus domain s) c) /\
  accounted foreign (rqs (check_cpus domain s) c).
Proof.
  intros Hacc r. fold r in Hacc.
  assert (Hacq : accounted foreign (acquire_body r)).
  { unfold acquire_body. destruct (en_blocked r) eqn:Hb; [| exact Hacc].
    apply acquire_cpu_accounted; assumption. }
  assert (Hrel : accounted foreign (release_body r)).
  { unfold release_body. destruct (en_blocked r) eqn:Hb; cbn; [exact Hacc |].
    destruct (_ =? _); [| exact Hacc].
    apply release_cpu_accounted; assumption. }
  assert (Hchk : accounted foreign (check_body r)).
  { unfold check_body. destruct (en_blocked r) eqn:Hb; cbn.
    - destruct (_ >? _); [| exact Hacc].
      apply acquire_cpu_accounted; assumption.
    - destruct (_ =? _); [| exact Hacc].
      apply release_cpu_accounted; assumption. }
  split; [| split].
  { intros Hb. unfold accounted, class_load in Hacc. rewrite Hb in Hacc. exact Hacc. }
  { intros Hb. unfold accounted, class_load in Hacc. rewrite Hb in Hacc. exact Hacc. }
  split; [apply inc_nr_running_accounted; exact Hacc |].
  split; [apply dec_nr_running_accounted; exact Hacc |].
  split.
  { intros Hb. split; [apply acquire_cpu_accounted; assumption |].
    split; reflexivity. }
  split.
  { intros Hb. split; [apply release_cpu_accounted; assumption |].
    split; reflexivity. }
  split; [| split].
  - rewrite acquire_cpus_rqs. destruct (in_dec _ _ _); assumption.
  - rewrite release_cpus_rqs. destruct (in_dec _ _ _); assumption.
  - rewrite check_cpus_rqs. destruct (in_dec _ _ _); assumption.
Qed.

Lemma class_load_correspondence_witness :
  accounted 1 (rqs lending_machine 0)
  /\ accounted 1 (rqs (release_cpus 3 lending_machine) 0)
  /\ rq_nr_running (__inc_nr_running (rqs lending_machine 0)) = 4.
Proof.
  assert (H : accounted 1 (rqs lending_machine 0)) by reflexivity.
  split; [exact H |].
  destruct (class_load_correspondence 1 3 lending_machine 0 H)
    as [_ [_ [Hinc [_ [_ [_ [_ [Hrel _]]]]]]]].
  split; [exact Hrel |].
  reflexivity.
Defined.

(** C6: [release_cpus] blocks a CPU exactly when the CPU is in the
    domain, is unblocked and has a host load [rq->nr_running] equal to
    its own assignment count [en.nr_assigned]; a CPU whose load is its
    assignment count plus one foreign thread is left as it is,
    unblocked. *)
Theorem release_cpus_blocks_own_load_only (domain : cpumask) (s : state)
    (c : cpu_id) :
  let r := rqs s c in
  let r' := rqs (release_cpus domain s) c in
  (en_blocked r = false ->
     (en_blocked r' = true <->
      in_domain s domain c /\ rq_nr_running r = en_nr_assigned r)) /\
  (en_blocked r = false -> en_blocked r' = true -> r' = __release_cpu r) /\
  (en_blocked r = false -> en_blocked r' = false -> r' = r) /\
  (en_blocked r = true -> r' = r) /\
  (en_blocked r = false -> rq_nr_running r = en_nr_assigned r + 1 ->
     r' = r /\ en_blocked r' = false).
Proof.
  intros r r'. subst r'. rewrite release_cpus_rqs. fold r.
  unfold release_body, in_domain.
  destruct (in_dec Nat.eq_dec c (for_each_cpu (nr_cpu_ids s) domain)) as [Hin | Hout].
  - pose proof (proj1 (in_for_each_cpu _ _ _) Hin) as Hdom.
    destruct (en_blocked r) eqn:Hb; cbn [negb andb].
    + split; [discriminate |]. split; [discriminate |].
      split; [discriminate |]. split; [reflexivity | discriminate].
    + destruct (Z.eqb_spec (rq_nr_running r) (en_nr_assigned r)) as [He | Hne].
      * split; [intros _; split; [intros _; split; assumption | reflexivity] |].
        split; [reflexivity |].
        split; [intros _ Hf; cbn in Hf; discriminate |].
        split; [discriminate |].
        intros _ Hp. lia.
      * rewrite Hb.
        split; [intros _; split; [discriminate | intros [_ Hf]; contradiction] |].
        split; [discriminate |].
        split; [reflexivity |].
        split; [discriminate |].
        intros _ _. split; reflexivity.
  - destruct (en_blocked r) eqn:Hb.
    + split; [discriminate |]. split; [discriminate |].
      split; [discriminate |]. split; [reflexivity | discriminate].
    + split.
      { intros _. split; [discriminate |].
        intros [Hd _]. exfalso. apply Hout. apply in_for_each_cpu. exact Hd. }
      split; [discriminate |].
      split; [reflexivity |].
      split; [discriminate |].
      intros _ _. split; reflexivity.
Qed.

Lemma release_cpus_blocks_own_load_only_witness :
  en_blocked (rqs (release_cpus 3 lending_machine) 0) = false
  /\ rqs (release_cpus 3 lending_machine) 0 = rqs lending_machine 0
  /\ en_blocked (rqs (release_cpus 3 lending_machine) 1) = true
  /\ rq_nr_running (rqs (release_cpus 3 lending_machine) 1) = 0.
Proof.
  destruct (release_cpus_blocks_own_load_only 3 lending_machine 0)
    as [_ [_ [_ [_ Hforeign]]]].
  destruct (release_cpus_blocks_own_load_only 3 lending_machine 1)
    as [Hiff [Hrel _]].
  destruct Hforeign as [Heq Hunblocked]; [reflexivity | reflexivity |].
  assert (Hb : en_blocked (rqs (release_cpus 3 lending_machine) 1) = true).
  { apply Hiff; [reflexivity |].
    split; [split; [cbn; lia | reflexivity] | reflexivity]. }
  split; [exact Hunblocked |]. split; [exact Heq |]. split; [exact Hb |].
  rewrite Hrel; [reflexivity | reflexivity | exact Hb].
Defined.

End CpuLending.

Section ControlSurfaceProperties.

Variable SCHED_ENERGY : Z.
Variable current : tid.
Variable find_task_by_vpid : state -> Z -> option tid.
Variable for_each_thread : state -> tid -> list tid.
Variable sched_setscheduler_nocheck : tid -> Z -> state -> Z * state.

Lemma last_default_irrelevant (l : list Z) : forall d d',
  l <> [] -> last l d = last l d'.
Proof.
  induction l as [| x l IH]; intros d d' Hne; [contradiction |].
  destruct l as [| y l]; [reflexivity |].
  change (last (y :: l) d = last (y :: l) d'). apply IH. discriminate.
Qed.

Lemma switch_loop_spec policy l : forall ret s,
  fold_left (fun (acc : Z * state) thread =>
               sched_setscheduler_nocheck thread policy (snd acc)) l (ret, s)
  = (last (switch_results sched_setscheduler_nocheck policy l s) ret,
     switch_effects sched_setscheduler_nocheck policy l s).
Proof.
  induction l as [| thread l IH]; intros ret s; [reflexivity |].
  cbn [fold_left switch_results switch_effects snd].
  destruct (sched_setscheduler_nocheck thread policy s) as [r s'] eqn:E.
  cbn [fst snd]. rewrite IH. f_equal.
  destruct (switch_results sched_setscheduler_nocheck policy l s') as [| x rs];
    [reflexivity |].
  change (last (r :: x :: rs) ret) with (last (x :: rs) ret).
  apply last_default_irrelevant. discriminate.
Qed.

Lemma switch_results_length policy l : forall s,
  length (switch_results sched_setscheduler_nocheck policy l s) = length l.
Proof.
  induction l as [| thread l IH]; intros s; [reflexivity |].
  cbn. rewrite IH. reflexivity.
Qed.

(** C9 (amended): [do_start_energy] answers -EINVAL to a negative pid,
    takes pid 0 for the calling thread, answers -ESRCH when the pid is
    not found, and otherwise attempts the policy switch on every thread
    of the thread group of the leader, in list order and whatever the
    earlier attempts answered; it returns 0 when every switch succeeds
    and the failure of the last thread when that switch fails, a later
    failure replacing an earlier one. *)
Theorem do_start_energy_status (pid : Z) (s : state) :
  let start := do_start_energy SCHED_ENERGY current find_task_by_vpid
                               for_each_thread sched_setscheduler_nocheck in
  let p := if pid =? 0 then Some current else find_task_by_vpid s pid in
  (pid < 0 -> start pid s = (- EINVAL, s)) /\
  (pid = 0 -> p = Some current) /\
  (0 <= pid -> p = None -> start pid s = (- ESRCH, s)) /\
  (forall p0, 0 <= pid -> p = Some p0 ->
     let l := for_each_thread s (find_task s p0) in
     let results := switch_results sched_setscheduler_nocheck SCHED_ENERGY l s in
     length results = length l
     /\ snd (start pid s)
        = switch_effects sched_setscheduler_nocheck SCHED_ENERGY l s
     /\ (l <> [] -> (forall r, In r results -> r = 0) -> fst (start pid s) = 0)
     /\ (forall earlier e, results = earlier ++ [e] -> e <> 0 ->
           fst (start pid s) = e)).
Proof.
  intros start p. subst start. unfold do_start_energy. fold p.
  split; [| split; [| split]].
  - intros Hneg. destruct (Z.ltb_spec pid 0); [reflexivity | lia].
  - intros ->. reflexivity.
  - intros Hpos Hp. destruct (Z.ltb_spec pid 0); [lia |]. rewrite Hp. reflexivity.
  - intros p0 Hpos Hp. cbv zeta.
    destruct (Z.ltb_spec pid 0); [lia |]. rewrite Hp.
    rewrite switch_loop_spec. cbn [fst snd].
    remember (for_each_thread s (find_task s p0)) as l eqn:El.
    remember (switch_results sched_setscheduler_nocheck SCHED_ENERGY l s)
      as results eqn:Er.
    assert (Hlen : length results = length l).
    { rewrite Er. apply switch_results_length. }
    split; [exact Hlen |].
    split; [reflexivity |].
    split.
    + intros Hl Hall.
      assert (Hres : results <> []).
      { intros E. apply Hl. apply length_zero_iff_nil.
        rewrite <- Hlen, E. reflexivity. }
      destruct (exists_last Hres) as [earlier [e E]].
      rewrite E, last_last. apply Hall. rewrite E. apply in_or_app.
      right. left. reflexivity.
    + intros earlier e E _. rewrite E. apply last_last.
Qed.

End ControlSurfaceProperties.

Section ControlSurfaceExamples.

Lemma do_start_energy_status_witness :
  demo_start_energy (-3) two_cpu_machine = (- EINVAL, two_cpu_machine)
  /\ demo_start_energy 43 two_cpu_machine = (- ESRCH, two_cpu_machine)
  /\ fst (demo_start_energy 42 two_cpu_machine) = - EINVAL
  /\ fst (demo_start_energy 5 lending_machine) = - ESRCH.
Proof.
  destruct (do_start_energy_status demo_SCHED_ENERGY demo_current
              demo_find_task_by_vpid demo_for_each_thread demo_setscheduler
              (-3) two_cpu_machine) as [Hneg _].
  destruct (do_start_energy_status demo_SCHED_ENERGY demo_current
              demo_find_task_by_vpid demo_for_each_thread demo_setscheduler
              43 two_cpu_machine) as [_ [_ [Hmiss _]]].
  destruct (do_start_energy_status demo_SCHED_ENERGY demo_current
              demo_find_task_by_vpid demo_for_each_thread demo_setscheduler
              42 two_cpu_machine) as [_ [_ [_ Hloop]]].
  split; [apply Hneg; lia |].
  split; [apply Hmiss; [lia | reflexivity] |].
  split; [| reflexivity].
  destruct (Hloop 2%nat) as [_ [_ [_ Hlast]]]; [lia | reflexivity |].
  apply (Hlast [0; -1; 0]). - reflexivity. - discriminate.
Defined.

(** C9 as stated fails: over the threads 1, 2, 3, 4 the first failing
    switch answers -EPERM (thread 2) and the last one -EINVAL (thread 4);
    [do_start_energy] returns -EINVAL, not the first failure. *)
Lemma do_start_energy_first_failure_counterexample :
  let results := switch_results demo_setscheduler demo_SCHED_ENERGY
                   (demo_for_each_thread two_cpu_machine 1) two_cpu_machine in
  results = [0; -1; 0; - EINVAL]
  /\ first_failure results = Some (-1)
  /\ fst (demo_start_energy 0 two_cpu_machine) = - EINVAL
  /\ first_failure results <> Some (fst (demo_start_energy 0 two_cpu_machine)).
Proof.
  cbv zeta. split; [reflexivity |]. split; [reflexivity |].
  split; [reflexivity |]. cbn. discriminate.
Qed.

End ControlSurfaceExamples.

Section TaskRing.

Lemma hd_addr_distinct (seen : list energy_task) x rest y d :
  NoDup (map e_addr (seen ++ x :: rest)) -> In y rest ->
  Nat.eqb (e_addr (hd d (seen ++ x :: rest))) (e_addr y) = false.
Proof.
  intros Hnd Hy. apply Nat.eqb_neq.
  destruct seen as [| u seen']; cbn [app hd map] in *.
  - inversion Hnd as [| ? ? Hnotin _]; subst. intros E. apply Hnotin.
    rewrite E. apply in_map. exact Hy.
  - inversion Hnd as [| ? ? Hnotin _]; subst. intros E. apply Hnotin.
    rewrite E. apply in_map. apply in_or_app. right. right. exact Hy.
Qed.

Lemma pick_next_loop_found pre : forall seen e post fuel d,
  (forall x, In x pre -> eligible x = false) ->
  eligible e = true ->
  (length pre < fuel)%nat ->
  NoDup (map e_addr (seen ++ pre ++ e :: post)) ->
  pick_next_loop fuel (e_addr (hd d (seen ++ pre ++ e :: post)))
                 (pre ++ e :: post ++ seen)
  = Some (Some e, post ++ seen ++ pre ++ [e]).
Proof.
  induction pre as [| x pre IH]; intros seen e post fuel d Hpre He Hfuel Hnd.
  - destruct fuel as [| fuel]; [cbn in Hfuel; lia |].
    cbn [app pick_next_loop]. fold (eligible e). rewrite He.
    rewrite <- app_assoc. reflexivity.
  - destruct fuel as [| fuel]; [cbn in Hfuel; lia |].
    cbn [app pick_next_loop]. fold (eligible x).
    rewrite (Hpre x) by (left; reflexivity).
    assert (Hnext : exists y tl, (pre ++ e :: post ++ seen) ++ [x] = y :: tl
                                 /\ In y (pre ++ e :: post)).
    { destruct pre as [| y pre'].
      - exists e, ((post ++ seen) ++ [x]). split; [reflexivity | left; reflexivity].
      - exists y, ((pre' ++ e :: post ++ seen) ++ [x]).
        split; [reflexivity | left; reflexivity]. }
    destruct Hnext as [y [tl [El Hy]]]. rewrite El.
    rewrite (hd_addr_distinct seen x (pre ++ e :: post) y d Hnd Hy).
    rewrite <- El.
    replace ((pre ++ e :: post ++ seen) ++ [x])
      with (pre ++ e :: post ++ (seen ++ [x]))
      by (rewrite <- !app_assoc; cbn; rewrite <- app_assoc; reflexivity).
    replace (seen ++ x :: pre ++ e :: post)
      with ((seen ++ [x]) ++ pre ++ e :: post)
      by (rewrite <- app_assoc; reflexivity).
    rewrite IH.
    + rewrite <- !app_assoc. reflexivity.
    + intros z Hz. apply Hpre. right. exact Hz.
    + exact He.
    + cbn in Hfuel. lia.
    + rewrite <- app_assoc. exact Hnd.
Qed.

Lemma pick_next_loop_none rest : forall seen fuel d,
  rest <> [] ->
  (forall x, In x rest -> eligible x = false) ->
  (length rest <= fuel)%nat ->
  NoDup (map e_addr (seen ++ rest)) ->
  pick_next_loop fuel (e_addr (hd d (seen ++ rest))) (rest ++ seen)
  = Some (None, seen ++ rest).
Proof.
  induction rest as [| x rest IH]; intros seen fuel d Hne Hrest Hfuel Hnd;
    [contradiction |].
  destruct fuel as [| fuel]; [cbn in Hfuel; lia |].
  cbn [app pick_next_loop]. fold (eligible x).
  rewrite (Hrest x) by (left; reflexivity). cbn [andb].
  destruct rest as [| y rest'].
  - cbn [app]. destruct (seen ++ [x]) as [| first tl] eqn:El.
    + destruct seen; discriminate.
    + cbn [hd]. rewrite Nat.eqb_refl. reflexivity.
  - cbn [app].
    rewrite (hd_addr_distinct seen x (y :: rest') y d Hnd) by (left; reflexivity).
    replace (y :: (rest' ++ seen) ++ [x]) with ((y :: rest') ++ (seen ++ [x]))
      by (cbn; rewrite <- app_assoc; reflexivity).
    replace (seen ++ x :: y :: rest') with ((seen ++ [x]) ++ y :: rest')
      by (rewrite <- app_assoc; reflexivity).
    apply IH.
    + discriminate.
    + intros z Hz. apply Hrest. right. exact Hz.
    + cbn in Hfuel |- *. lia.
    + rewrite <- app_assoc. exact Hnd.
Qed.

Lemma first_eligible_split (l : list energy_task) :
  (forall x, In x l -> eligible x = false)
  \/ exists pre e post, l = pre ++ e :: post
       /\ (forall x, In x pre -> eligible x = false) /\ eligible e = true.
Proof.
  induction l as [| x l IH]; [left; intros x [] |].
  destruct (eligible x) eqn:Ex.
  - right. exists [], x, l. split; [reflexivity |]. split; [intros y [] | exact Ex].
  - destruct IH as [Hall | [pre [e [post [El [Hpre He]]]]]].
    + left. intros y [<- | Hy]; [exact Ex | apply Hall; exact Hy].
    + right. exists (x :: pre), e, post. split; [rewrite El; reflexivity |].
      split; [| exact He]. intros y [<- | Hy]; [exact Ex | apply Hpre; exact Hy].
Qed.

Lemma pick_next_ring_unfold ring d :
  ring <> [] ->
  pick_next_ring ring = pick_next_loop (length ring) (e_addr (hd d ring)) ring.
Proof. destruct ring; [contradiction | reflexivity]. Qed.

(** C2: on the ring A (not running, no thread), B (not running, two
    threads), C (running, three threads) [pick_next_energy_task] returns
    B, a second call on the ring left behind returns B again, and once B
    is marked running a further call returns NULL.  In general, on a
    ring of distinct energy tasks the call returns the first candidate in
    ring order and leaves it at the tail of the ring, so that the next
    scan starts right after it; it returns NULL, after a full rotation
    that restores the ring, exactly when the ring has no candidate. *)
Theorem pick_next_energy_task_ring :
  pick_next_ring [task_A; task_B; task_C]
  = Some (Some task_B, [task_C; task_A; task_B])
  /\ pick_next_ring [task_C; task_A; task_B]
     = Some (Some task_B, [task_C; task_A; task_B])
  /\ pick_next_ring [task_C; task_A; task_B_running]
     = Some (None, [task_C; task_A; task_B_running])
  /\ (exists s1 s2,
        pick_next_energy_task ring_machine = Some (Some 2%nat, s1)
        /\ pick_next_energy_task s1 = Some (Some 2%nat, s2)
        /\ tasks (grq s2) = [task_C; task_A; task_B]
        /\ pick_next_energy_task
             (upd_etask 2 (set_e_run ETASK_RUNNING 3 0) s2)
           = Some (None, upd_etask 2 (set_e_run ETASK_RUNNING 3 0) s2))
  /\ (forall ring, ring <> [] -> NoDup (map e_addr ring) ->
        (forall pre e post,
           ring = pre ++ e :: post ->
           (forall x, In x pre -> eligible x = false) ->
           eligible e = true ->
           pick_next_ring ring = Some (Some e, post ++ pre ++ [e]))
        /\ ((forall x, In x ring -> eligible x = false) ->
            pick_next_ring ring = Some (None, ring))
        /\ (forall ring', pick_next_ring ring = Some (None, ring') ->
            ring' = ring /\ forall x, In x ring -> eligible x = false)
        /\ (exists r, pick_next_ring ring = Some r)).
Proof.
  split; [reflexivity |]. split; [reflexivity |]. split; [reflexivity |].
  split.
  { eexists. eexists. split; [reflexivity |]. split; [reflexivity |].
    split; reflexivity. }
  intros ring Hne Hnd.
  assert (Hfound : forall pre e post,
    ring = pre ++ e :: post ->
    (forall x, In x pre -> eligible x = false) ->
    eligible e = true ->
    pick_next_ring ring = Some (Some e, post ++ pre ++ [e])).
  { intros pre e post El Hpre He.
    rewrite (pick_next_ring_unfold ring e Hne). subst ring.
    pose proof (pick_next_loop_found pre [] e post
                  (length (pre ++ e :: post)) e Hpre He) as H.
    cbn [app] in H. rewrite !app_nil_r in H. apply H.
    - rewrite length_app. cbn. lia.
    - exact Hnd. }
  assert (Hnone : (forall x, In x ring -> eligible x = false) ->
                  pick_next_ring ring = Some (None, ring)).
  { intros Hall.
    rewrite (pick_next_ring_unfold ring task_A Hne).
    pose proof (pick_next_loop_none ring [] (length ring) task_A Hne Hall) as H.
    cbn [app] in H. rewrite app_nil_r in H.
    apply H; [lia | exact Hnd]. }
  split; [exact Hfound |]. split; [exact Hnone |]. split.
  - intros ring' Hr.
    destruct (first_eligible_split ring) as [Hall | [pre [e [post [El [Hpre He]]]]]].
    + rewrite (Hnone Hall) in Hr. injection Hr as <-. split; [reflexivity | exact Hall].
    + rewrite (Hfound pre e post El Hpre He) in Hr. discriminate.
  - destruct (first_eligible_split ring) as [Hall | [pre [e [post [El [Hpre He]]]]]].
    + eexists. apply Hnone. exact Hall.
    + eexists. apply (Hfound pre e post El Hpre He).
Qed.

Lemma pick_next_energy_task_ring_witness :
  pick_next_ring [task_C; task_A; task_B]
  = Some (Some task_B, [task_C; task_A; task_B]).
Proof.
  destruct pick_next_energy_task_ring as [_ [_ [_ [_ Hgen]]]].
  destruct (Hgen [task_C; task_A; task_B]) as [Hfound _].
  - discriminate.
  - repeat constructor; cbn; intuition discriminate.
  - apply (Hfound [task_C; task_A] task_B []).
    + reflexivity.
    + intros x [<- | [<- | []]]; reflexivity.
    + reflexivity.
Defined.

End TaskRing.

Section Distribution.

Lemma cpu_queued_after_set x :
  negb (Z.land (Z.lor x THREAD_CPU_RUNNABLE) THREAD_CPU_QUEUED =? 0) = true.
Proof.
  unfold THREAD_CPU_QUEUED, THREAD_CPU_RUNNABLE.
  rewrite Z.land_lor_distr_l. change (Z.land 2 2) with 2.
  destruct (Z.eqb_spec (Z.lor (Z.land x 2) 2) 0) as [E | _]; [| reflexivity].
  apply Z.lor_eq_0_iff in E. destruct E as [_ E]. discriminate.
Qed.

Lemma inc_nr_running_queue r :
  en_runnable (__inc_nr_running r) = en_runnable r
  /\ en_nr_runnable (__inc_nr_running r) = en_nr_runnable r.
Proof. unfold __inc_nr_running. destruct (en_blocked r); split; reflexivity. Qed.

Lemma dec_nr_running_queue r :
  en_runnable (__dec_nr_running r) = en_runnable r
  /\ en_nr_runnable (__dec_nr_running r) = en_nr_runnable r.
Proof. unfold __dec_nr_running. destruct (en_blocked r); split; reflexivity. Qed.

Ltac store_simpl :=
  repeat first
    [ rewrite upd_same
    | rewrite upd_other by (assumption || (apply not_eq_sym; assumption)) ].

Lemma distribute_local_task_spec c t s :
  thread_on_cpu_rq_queued (threads s t) = false ->
  exists s', distribute_local_task c t s = Some s'
    /\ task_cpu s' t = c
    /\ thread_on_cpu_rq_queued (threads s' t) = true
    /\ en_runnable (rqs s' c) = t :: en_runnable (rqs s c)
    /\ en_nr_runnable (rqs s' c) = u32 (en_nr_runnable (rqs s c) + 1)
    /\ (forall c', c' <> c ->
          en_runnable (rqs s' c') = en_runnable (rqs s c')
          /\ en_nr_runnable (rqs s' c') = en_nr_runnable (rqs s c'))
    /\ (forall t', t' <> t -> threads s' t' = threads s t').
Proof.
  intros Hq. unfold distribute_local_task, enqueue_running, move_local_task, task_cpu.
  destruct (Nat.eqb_spec (t_cpu (threads (clear_resched_curr_local c s) t)) c) as [Ec | Nc].
  - cbn [clear_resched_curr_local upd_rq set_rqs threads]. rewrite Hq.
    eexists. split; [reflexivity |].
    cbn. store_simpl. cbn.
    split; [exact Ec |]. split; [apply cpu_queued_after_set |].
    split; [reflexivity |]. split; [reflexivity |].
    split.
    + intros c' Hc'. store_simpl. split; reflexivity.
    + intros t' Ht'. store_simpl. reflexivity.
  - cbn in Nc |- *. store_simpl. cbn.
    unfold thread_on_cpu_rq_queued in Hq |- *. cbn. rewrite Hq.
    eexists. split; [reflexivity |].
    cbn. store_simpl. cbn.
    split; [reflexivity |]. split; [apply cpu_queued_after_set |].
    store_simpl.
    split; [destruct (en_blocked (rqs s c)); reflexivity |].
    split; [destruct (en_blocked (rqs s c)); reflexivity |].
    split.
    + intros c' Hc'. store_simpl.
      destruct (Nat.eq_dec c' (t_cpu (threads s t))) as [-> | Hne].
      * store_simpl. apply dec_nr_running_queue.
      * store_simpl. split; reflexivity.
    + intros t' Ht'. store_simpl. reflexivity.
Qed.

Lemma find_best_fold s cands : forall best,
  let r := fst (fold_left
                  (fun (acc : cpu_id * Z) cpu =>
                     let load := load_of s cpu in
                     if load <? snd acc then (cpu, load) else acc)
                  cands (best, load_of s best)) in
  (r = best \/ In r cands)
  /\ load_of s r <= load_of s best
  /\ (forall c, In c cands -> load_of s r <= load_of s c)
  /\ ((forall c, In c cands -> load_of s best <= load_of s c) -> r = best)
  /\ (r <> best ->
      load_of s r < load_of s best
      /\ exists pre post, cands = pre ++ r :: post
           /\ forall c, In c pre -> load_of s r < load_of s c).
Proof.
  induction cands as [| c cands IH]; intros best; cbn zeta.
  - cbn. split; [left; reflexivity |]. split; [lia |].
    split; [intros c [] |]. split; [reflexivity |]. intros H. contradiction.
  - cbn [fold_left snd]. destruct (Z.ltb_spec (load_of s c) (load_of s best)) as [Hlt | Hge].
    + specialize (IH c). cbn zeta in IH.
      set (r := fst (fold_left _ cands (c, load_of s c))) in *.
      destruct IH as [Hin [Hle [Hmin [Htie Hfirst]]]].
      split; [right; destruct Hin as [-> | Hin]; [left; reflexivity | right; exact Hin] |].
      split; [lia |].
      split; [intros x [<- | Hx]; [exact Hle | apply Hmin; exact Hx] |].
      split.
      { intros Hall. specialize (Hall c (or_introl eq_refl)). lia. }
      intros _. split; [lia |].
      destruct (Nat.eq_dec r c) as [E | N].
      * exists [], cands. rewrite E. split; [reflexivity | intros x []].
      * destruct (Hfirst N) as [Hrc [pre [post [Ec Hpre]]]].
        exists (c :: pre), post. split; [rewrite Ec; reflexivity |].
        intros x [<- | Hx]; [exact Hrc | apply Hpre; exact Hx].
    + specialize (IH best). cbn zeta in IH.
      set (r := fst (fold_left _ cands (best, load_of s best))) in *.
      destruct IH as [Hin [Hle [Hmin [Htie Hfirst]]]].
      split; [destruct Hin as [-> | Hin]; [left; reflexivity | right; right; exact Hin] |].
      split; [exact Hle |].
      split; [intros x [<- | Hx]; [lia | apply Hmin; exact Hx] |].
      split.
      { intros Hall. apply Htie. intros x Hx. apply Hall. right. exact Hx. }
      intros N. destruct (Hfirst N) as [Hrc [pre [post [Ec Hpre]]]].
      split; [exact Hrc |].
      exists (c :: pre), post. split; [rewrite Ec; reflexivity |].
      intros x [<- | Hx]; [lia | apply Hpre; exact Hx].
Qed.

Lemma in_for_each_cpu_and n m1 m2 c :
  In c (for_each_cpu_and n m1 m2)
  <-> (c < n)%nat /\ cpumask_test_cpu c m1 = true /\ cpumask_test_cpu c m2 = true.
Proof.
  unfold for_each_cpu_and. rewrite in_for_each_cpu.
  unfold cpumask_test_cpu. rewrite Z.land_spec, andb_true_iff. reflexivity.
Qed.




End Distribution.

Section SameQueue.

Lemma same_queue_refl s : same_queue s s.
Proof. repeat split; reflexivity. Qed.

Lemma same_queue_trans s1 s2 s3 :
  same_queue s1 s2 -> same_queue s2 s3 -> same_queue s1 s3.
Proof.
  intros [Hv [Hn [Hq Hl]]] [Hv' [Hn' [Hq' Hl']]].
  split; [congruence |]. split; [congruence |].
  split; intros t; [rewrite Hq', Hq | rewrite Hl', Hl]; reflexivity.
Qed.

Lemma find_task_same s s' t :
  group_leader (threads s' t) = group_leader (threads s t) ->
  find_task s' t = find_task s t.
Proof.
  intros H. unfold find_task, thread_group_leader. rewrite H. reflexivity.
Qed.

Lemma same_queue_find_energy_task s s' t :
  same_queue s s' -> find_energy_task s' t = find_energy_task s t.
Proof.
  intros [Hv [_ [_ Hl]]]. unfold find_energy_task.
  rewrite (find_task_same s s' t (Hl t)).
  unfold views in Hv. generalize dependent (tasks (grq s')).
  induction (tasks (grq s)) as [| e l IH]; intros l' Hv.
  - destruct l'; [reflexivity | discriminate].
  - destruct l' as [| e' l']; [discriminate |]. cbn in Hv.
    injection Hv as Ea Et _ _ Hv. cbn [find].
    rewrite Et. destruct (Nat.eqb (e_task e) (find_task s t)).
    + cbn. rewrite Ea. reflexivity.
    + apply IH. exact Hv.
Qed.

(** Writes that leave the thread accounting alone. *)

Lemma same_queue_upd_rq s x c f :
  same_queue s x -> same_queue s (upd_rq c f x).
Proof. intros H. exact H. Qed.

Lemma same_queue_set_rqs s x r :
  same_queue s x -> same_queue s (set_rqs r x).
Proof. intros H. exact H. Qed.

Lemma same_queue_set_grc s x c :
  same_queue s x -> same_queue s (set_grc c x).
Proof. intros H. exact H. Qed.

Lemma same_queue_set_running s x r a b :
  same_queue s x -> same_queue s (set_grq (set_running r a b (grq x)) x).
Proof. intros H. exact H. Qed.


Lemma same_queue_upd_thread s x t f :
  keeps_queue_flag f -> same_queue s x -> same_queue s (upd_thread t f x).
Proof.
  intros Hf [Hv [Hn [Hq Hl]]]. split; [exact Hv |]. split; [exact Hn |].
  split; intros t'; cbn; unfold upd; destruct (Nat.eqb_spec t' t) as [-> | _];
    try apply Hq; try apply Hl.
  - rewrite (proj1 (Hf _)). apply Hq.
  - rewrite (proj2 (Hf _)). apply Hl.
Qed.

Lemma rq_flag_lor x m :
  Z.land m THREAD_RQ_QUEUED = 0 ->
  Z.land (Z.lor x m) THREAD_RQ_QUEUED = Z.land x THREAD_RQ_QUEUED.
Proof.
  intros Hm. rewrite Z.land_lor_distr_l, Hm. apply Z.lor_0_r.
Qed.

Lemma rq_flag_land x m :
  Z.land m THREAD_RQ_QUEUED = THREAD_RQ_QUEUED ->
  Z.land (Z.land x m) THREAD_RQ_QUEUED = Z.land x THREAD_RQ_QUEUED.
Proof.
  intros Hm. rewrite <- Z.land_assoc, Hm. reflexivity.
Qed.

Lemma keeps_set_t_cpu c : keeps_queue_flag (set_t_cpu c).
Proof. intros th. split; reflexivity. Qed.

Lemma keeps_set_need_resched b : keeps_queue_flag (set_need_resched b).
Proof. intros th. split; reflexivity. Qed.

Lemma keeps_set_e_statistics v : keeps_queue_flag (set_e_statistics v).
Proof. intros th. split; reflexivity. Qed.

Lemma keeps_set_se (f g h : task_struct -> Z) :
  keeps_queue_flag (fun th => set_se (f th) (g th) (h th) th).
Proof. intros th. split; reflexivity. Qed.

Lemma keeps_lor m :
  Z.land m THREAD_RQ_QUEUED = 0 ->
  keeps_queue_flag (fun th => set_ee_state (Z.lor (ee_state th) m) th).
Proof.
  intros Hm th. split; [| reflexivity].
  unfold thread_on_rq_queued. cbn. rewrite rq_flag_lor by exact Hm. reflexivity.
Qed.

Lemma keeps_land m :
  Z.land m THREAD_RQ_QUEUED = THREAD_RQ_QUEUED ->
  keeps_queue_flag (fun th => set_ee_state (Z.land (ee_state th) m) th).
Proof.
  intros Hm th. split; [| reflexivity].
  unfold thread_on_rq_queued. cbn. rewrite rq_flag_land by exact Hm. reflexivity.
Qed.

Lemma views_upd_etask a g g' s :
  (forall e, e_view (g e) = g' (e_view e)) ->
  views (upd_etask a g s)
  = map (fun v => if Nat.eqb (v_addr v) a then g' v else v) (views s).
Proof.
  intros Hg. unfold views, upd_etask. cbn. rewrite !map_map.
  apply map_ext. intros e. cbn.
  destruct (Nat.eqb (e_addr e) a); [apply Hg | reflexivity].
Qed.

Lemma same_queue_upd_etask s x a g :
  (forall e, e_view (g e) = e_view e) ->
  same_queue s x -> same_queue s (upd_etask a g x).
Proof.
  intros Hg [Hv [Hn [Hq Hl]]]. split; [| split; [exact Hn | split; assumption]].
  rewrite (views_upd_etask a g (fun v => v)) by exact Hg.
  rewrite <- Hv. rewrite <- (map_id (views x)) at 2.
  apply map_ext. intros v. destruct (Nat.eqb _ _); reflexivity.
Qed.

Lemma same_queue_if s (b : bool) x y :
  same_queue s x -> same_queue s y -> same_queue s (if b then x else y).
Proof. destruct b; auto. Qed.

Lemma same_queue_fold_left {A} (body : state -> A -> state) l : forall s x,
  (forall y a, same_queue s y -> same_queue s (body y a)) ->
  same_queue s x -> same_queue s (fold_left body l x).
Proof.
  induction l as [| a l IH]; intros s x Hbody Hx; [exact Hx |].
  cbn. apply IH; [exact Hbody |]. apply Hbody. exact Hx.
Qed.

Lemma same_queue_fold_opt {A} (body : A -> state -> option state) l : forall s x x',
  (forall y y' a, body a y = Some y' -> same_queue s y -> same_queue s y') ->
  fold_opt body l x = Some x' ->
  same_queue s x -> same_queue s x'.
Proof.
  induction l as [| a l IH]; intros s x x' Hbody Hf Hx; cbn in Hf.
  - injection Hf as <-. exact Hx.
  - destruct (body a x) as [y |] eqn:E; [| discriminate].
    apply (IH s y x' Hbody Hf). apply (Hbody x y a E Hx).
Qed.

End SameQueue.

Section Frames.

Ltac keeps :=
  first [ solve [intros th; split; reflexivity]
        | apply keeps_lor; reflexivity
        | apply keeps_land; reflexivity ].

Ltac sq :=
  repeat first
    [ assumption
    | apply same_queue_refl
    | apply same_queue_upd_rq
    | apply same_queue_set_rqs
    | apply same_queue_set_grc
    | apply same_queue_set_running
    | apply same_queue_if
    | apply same_queue_upd_thread; [solve [keeps] |]
    | apply same_queue_upd_etask; [intros; reflexivity |]
    | apply same_queue_fold_left; [intros |] ].

Lemma sq_clear_resched_curr_local s x c :
  same_queue s x -> same_queue s (clear_resched_curr_local c x).
Proof. intros H. unfold clear_resched_curr_local. sq. Qed.

Lemma sq_set_tsk_need_resched s x t :
  same_queue s x -> same_queue s (set_tsk_need_resched t x).
Proof. intros H. unfold set_tsk_need_resched. sq. Qed.

Lemma sq_resched_curr_local s x c :
  same_queue s x -> same_queue s (resched_curr_local c x).
Proof.
  intros H. unfold resched_curr_local, set_tsk_need_resched. cbv zeta. solve [sq].
Qed.

Lemma sq_update_local_statistics s x c t :
  same_queue s x -> same_queue s (update_local_statistics c t x).
Proof.
  intros H. unfold update_local_statistics. cbv zeta.
  destruct t as [t |]; [| exact H]. solve [sq].
Qed.

Lemma sq_move_local_task s x t cpu :
  same_queue s x -> same_queue s (move_local_task t cpu x).
Proof. intros H. unfold move_local_task. cbv zeta. sq. Qed.

Lemma sq_set_energy_task s x c a :
  same_queue s x -> same_queue s (set_energy_task c a x).
Proof. intros H. unfold set_energy_task. sq. Qed.

Lemma sq_set_local_task s x c t :
  same_queue s x -> same_queue s (set_local_task c t x).
Proof. intros H. unfold set_local_task. cbv zeta. sq. Qed.

Lemma sq_put_local_task s x c t :
  same_queue s x -> same_queue s (put_local_task c t x).
Proof.
  intros H. unfold put_local_task. cbv zeta. solve [sq].
Qed.

Lemma sq_acquire_cpus s x d :
  same_queue s x -> same_queue s (acquire_cpus d x).
Proof. intros H. unfold acquire_cpus. sq. Qed.

Lemma sq_release_cpus s x d :
  same_queue s x -> same_queue s (release_cpus d x).
Proof. intros H. unfold release_cpus. sq. Qed.

Lemma sq_check_cpus s x d :
  same_queue s x -> same_queue s (check_cpus d x).
Proof. intros H. unfold check_cpus. sq. Qed.

Lemma sq_switch_from_energy_ s x c :
  same_queue s x -> same_queue s (__switch_from_energy c x).
Proof.
  intros H. unfold __switch_from_energy, release_cpus. cbv zeta. solve [sq].
Qed.

Lemma sq_switch_to_energy_ s x c :
  same_queue s x -> same_queue s (__switch_to_energy c x).
Proof.
  intros H. unfold __switch_to_energy, acquire_cpus. cbv zeta. solve [sq].
Qed.

Lemma sq_yield_task_energy s x c :
  same_queue s x -> same_queue s (yield_task_energy c x).
Proof.
  intros H. unfold yield_task_energy, resched_curr_local, set_tsk_need_resched. cbv zeta. solve [sq].
Qed.

Lemma sq_put_prev_task s x c t :
  same_queue s x -> same_queue s (put_prev_task c t x).
Proof.
  intros H. unfold put_prev_task, put_prev_task_energy, put_local_task. cbv zeta. solve [sq].
Qed.

Lemma sq_enqueue_running s x x' c t :
  enqueue_running c t x = Some x' -> same_queue s x -> same_queue s x'.
Proof.
  unfold enqueue_running. intros Hf H.
  destruct (thread_on_cpu_rq_queued (threads x t)); [discriminate |].
  injection Hf as <-. sq.
Qed.

Lemma sq_dequeue_running s x x' t :
  dequeue_running t x = Some x' -> same_queue s x -> same_queue s x'.
Proof.
  unfold dequeue_running. intros Hf H.
  destruct (negb (thread_on_cpu_rq_queued (threads x t))); [discriminate |].
  injection Hf as <-. cbv zeta. unfold list_del_ee_cpu_rq. sq.
Qed.

Lemma sq_distribute_local_task s x x' c t :
  distribute_local_task c t x = Some x' -> same_queue s x -> same_queue s x'.
Proof.
  unfold distribute_local_task. cbv zeta. intros Hf H.
  apply (sq_enqueue_running _ _ _ _ _ Hf).
  apply sq_move_local_task, sq_clear_resched_curr_local. exact H.
Qed.

Lemma sq_distribute_thread s x x' e t :
  distribute_thread e t x = Some x' -> same_queue s x -> same_queue s x'.
Proof.
  unfold distribute_thread. intros Hf H.
  destruct (thread_on_cpu_rq_queued (threads x t)).
  - injection Hf as <-. exact H.
  - apply (sq_distribute_local_task _ _ _ _ _ Hf H).
Qed.

Lemma sq_distribute_energy_task_ s x x' a :
  __distribute_energy_task a x = Some x' -> same_queue s x -> same_queue s x'.
Proof.
  unfold __distribute_energy_task. intros Hf H.
  destruct (get_etask a x) as [e |]; [| discriminate].
  destruct (fold_opt _ _ x) as [y |] eqn:E; [| discriminate].
  injection Hf as <-.
  apply same_queue_fold_left.
  - intros z cpu Hz. apply sq_resched_curr_local, sq_set_energy_task. exact Hz.
  - eapply same_queue_fold_opt; [| exact E | exact H].
    intros z z' t Hz. apply (sq_distribute_thread _ _ _ _ _ Hz).
Qed.

Lemma sq_distribute_energy_task s x x' c a :
  distribute_energy_task c a x = Some x' -> same_queue s x -> same_queue s x'.
Proof.
  unfold distribute_energy_task. cbv zeta. intros Hf H.
  apply (sq_distribute_energy_task_ _ _ _ _ Hf). sq.
Qed.

Lemma sq_update_energy_statistics s x x' hw a :
  update_energy_statistics hw a x = Some x' -> same_queue s x -> same_queue s x'.
Proof.
  unfold update_energy_statistics, read_rapl_counters. intros Hf H.
  destruct (get_etask a x) as [e |]; [| discriminate].
  cbv zeta in Hf. cbn [fst snd] in Hf.
  repeat match type of Hf with
         | match ?o with _ => _ end = _ => destruct o; try discriminate
         end.
  injection Hf as <-. sq.
Qed.

Lemma sq_clear_local_loop fuel : forall s x x' c,
  clear_local_loop fuel c x = Some x' -> same_queue s x -> same_queue s x'.
Proof.
  induction fuel as [| fuel IH]; intros s x x' c Hf H; cbn in Hf.
  - destruct (en_runnable (rqs x c)); [| discriminate]. injection Hf as <-. exact H.
  - destruct (en_runnable (rqs x c)) as [| t l]; [injection Hf as <-; exact H |].
    destruct (dequeue_running t x) as [y |] eqn:E; [| discriminate].
    apply (IH s y x' c Hf). apply (sq_dequeue_running _ _ _ _ E H).
Qed.

Lemma sq_clear_local_tasks s x x' c :
  clear_local_tasks c x = Some x' -> same_queue s x -> same_queue s x'.
Proof.
  unfold clear_local_tasks. intros Hf H.
  destruct (clear_local_loop _ c x) as [y |] eqn:E; [| discriminate].
  injection Hf as <-. cbv zeta.
  pose proof (sq_clear_local_loop _ _ _ _ _ E H) as Hy.
  apply sq_set_tsk_need_resched. solve [sq].
Qed.

Lemma sq_clear_energy_task s x x' a :
  clear_energy_task a x = Some x' -> same_queue s x -> same_queue s x'.
Proof.
  unfold clear_energy_task. intros Hf H.
  destruct (get_etask a x) as [e |]; [| discriminate].
  eapply same_queue_fold_opt; [| exact Hf | exact H].
  intros y y' c Hy. apply (sq_clear_local_tasks _ _ _ _ Hy).
Qed.

Lemma sq_pick_next_local_task s x x' c t :
  pick_next_local_task c x = Some (t, x') -> same_queue s x -> same_queue s x'.
Proof.
  unfold pick_next_local_task. cbv zeta. intros Hf H.
  destruct (negb _).
  - destruct (en_runnable _); [discriminate |]. injection Hf as _ <-.
    apply sq_set_local_task. solve [sq].
  - destruct (en_idle _); [| discriminate]. injection Hf as _ <-.
    apply sq_set_local_task. solve [sq].
Qed.

Lemma sq_switch_to_energy s x x' c to :
  switch_to_energy c to x = Some x' -> same_queue s x -> same_queue s x'.
Proof.
  unfold switch_to_energy. intros Hf H. destruct to as [to |].
  - apply (sq_distribute_energy_task _ _ _ _ _ Hf), sq_switch_to_energy_. exact H.
  - injection Hf as <-. exact H.
Qed.

Lemma sq_set_curr_task_energy s x x' c :
  set_curr_task_energy c x = Some x' -> same_queue s x -> same_queue s x'.
Proof.
  unfold set_curr_task_energy. cbv zeta. intros Hf H.
  destruct (negb _).
  - destruct (enqueue_running _ _ x) as [y |] eqn:E; [| discriminate].
    injection Hf as <-. apply sq_set_local_task. apply (sq_enqueue_running _ _ _ _ _ E H).
  - injection Hf as <-. apply sq_set_local_task. exact H.
Qed.

Lemma sq_task_tick_energy s x x' c t :
  task_tick_energy c t x = Some x' -> same_queue s x -> same_queue s x'.
Proof.
  unfold task_tick_energy. cbv zeta. intros Hf H.
  destruct (should_switch_in_energy _ c) as [b |]; [| discriminate].
  match type of Hf with
  | match should_switch_local ?y c with _ => _ end = _ =>
      assert (Hy : same_queue s y)
  end.
  { apply same_queue_if; [unfold resched_curr; apply sq_set_tsk_need_resched |];
      apply sq_update_local_statistics; exact H. }
  destruct (should_switch_local _ c) as [[|] |]; [| | discriminate];
    injection Hf as <-; [apply sq_resched_curr_local |]; exact Hy.
Qed.

Lemma sq_host_step s x x' :
  host_step x x' -> same_queue s x -> same_queue s x'.
Proof.
  intros [_ [Hg [_ [_ [Ht _]]]]] H. apply (same_queue_trans _ _ _ H).
  unfold same_queue, views. rewrite Hg.
  split; [reflexivity |]. split; [reflexivity |].
  split; intros t; destruct (Ht t) as [He [Hl _]]; [| exact Hl].
  unfold thread_on_rq_queued. rewrite He. reflexivity.
Qed.

End Frames.

Section QueueInvariant.

Variable max_threads : nat.
Hypothesis max_threads_u32 : Z.of_nat max_threads < 2 ^ 32.

Lemma view_sum_app l1 l2 : view_sum (l1 ++ l2) = view_sum l1 + view_sum l2.
Proof.
  induction l1 as [| v l1 IH]; [reflexivity |].
  change (v_nr v + view_sum (l1 ++ l2) = (v_nr v + view_sum l1) + view_sum l2).
  rewrite IH. lia.
Qed.

Lemma view_sum_cons v l : view_sum (v :: l) = v_nr v + view_sum l.
Proof. reflexivity. Qed.

Lemma queued_threads_app l1 l2 :
  queued_threads (l1 ++ l2) = queued_threads l1 ++ queued_threads l2.
Proof. unfold queued_threads. rewrite map_app. apply concat_app. Qed.

Lemma queued_threads_cons v l :
  queued_threads (v :: l) = v_run v ++ queued_threads l.
Proof. reflexivity. Qed.

Lemma view_sum_length vs :
  Forall (fun v => v_nr v = Z.of_nat (length (v_run v))) vs ->
  view_sum vs = Z.of_nat (length (queued_threads vs)).
Proof.
  induction 1 as [| v vs Hv _ IH]; [reflexivity |].
  rewrite queued_threads_cons, length_app, view_sum_cons, IH, Hv. lia.
Qed.

Lemma runnable_sum_views l : runnable_sum l = view_sum (map e_view l).
Proof.
  induction l as [| e l IH]; [reflexivity |].
  cbn [map]. rewrite view_sum_cons, <- IH. reflexivity.
Qed.

Lemma length_bound (l : list tid) n :
  NoDup l -> Forall (fun t => (t < n)%nat) l -> (length l <= n)%nat.
Proof.
  intros Hnd Hall.
  assert (Hincl : incl l (seq 0 n)).
  { intros t Ht. apply in_seq. rewrite Forall_forall in Hall.
    specialize (Hall t Ht). lia. }
  pose proof (NoDup_incl_length Hnd Hincl) as H.
  rewrite length_seq in H. exact H.
Qed.

Lemma NoDup_remove_fn (t : tid) (l : list tid) :
  NoDup l -> NoDup (remove Nat.eq_dec t l).
Proof.
  induction 1 as [| x l Hx _ IH]; cbn; [constructor |].
  destruct (Nat.eq_dec t x); [exact IH |].
  constructor; [| exact IH]. intros Hin. apply in_remove in Hin. tauto.
Qed.

Lemma remove_length_NoDup (t : tid) (l : list tid) :
  NoDup l -> In t l -> length l = S (length (remove Nat.eq_dec t l)).
Proof.
  induction 1 as [| x l Hx Hnd IH]; intros Hin; [destruct Hin |].
  cbn. destruct (Nat.eq_dec t x) as [-> | Hne].
  - rewrite notin_remove by exact Hx. reflexivity.
  - destruct Hin as [-> | Hin]; [contradiction |]. cbn. rewrite <- IH by exact Hin.
    reflexivity.
Qed.

Lemma queue_inv_ext vs nr queued queued' leader leader' :
  (forall t, queued' t = queued t) -> (forall t, leader' t = leader t) ->
  queue_inv max_threads vs nr queued leader ->
  queue_inv max_threads vs nr queued' leader'.
Proof.
  intros Hq Hl [H1 [H2 [H3 [H4 [H5 [H6 [H7 H8]]]]]]].
  repeat (split; [assumption |]). split; [| split; [| repeat split; assumption]].
  - intros t. rewrite Hq. apply H4.
  - eapply Forall_impl; [| exact H5]. cbn. intros v Hv t Ht. rewrite Hl. apply Hv, Ht.
Qed.

Lemma view_split a vs :
  In a (map v_addr vs) -> NoDup (map v_addr vs) ->
  exists v1 v v2, vs = v1 ++ v :: v2 /\ v_addr v = a
    /\ ~ In a (map v_addr v1) /\ ~ In a (map v_addr v2).
Proof.
  intros Hin Hnd. apply in_map_iff in Hin. destruct Hin as [v [Ha Hv]].
  destruct (in_split _ _ Hv) as [v1 [v2 E]]. subst vs.
  exists v1, v, v2. split; [reflexivity |]. split; [exact Ha |].
  rewrite map_app in Hnd. cbn in Hnd. apply NoDup_remove_2 in Hnd.
  rewrite Ha in Hnd. split; intros H; apply Hnd, in_or_app; [left | right]; exact H.
Qed.

Lemma map_upd_out (f : task_view -> task_view) a l :
  ~ In a (map v_addr l) ->
  map (fun x => if Nat.eqb (v_addr x) a then f x else x) l = l.
Proof.
  induction l as [| x l IH]; intros Hout; [reflexivity |]. cbn.
  destruct (Nat.eqb_spec (v_addr x) a) as [E | _].
  - exfalso. apply Hout. left. exact E.
  - rewrite IH; [reflexivity |]. intros H. apply Hout. right. exact H.
Qed.

Lemma map_upd_split (f : task_view -> task_view) a v1 v v2 :
  v_addr v = a -> ~ In a (map v_addr v1) -> ~ In a (map v_addr v2) ->
  map (fun x => if Nat.eqb (v_addr x) a then f x else x) (v1 ++ v :: v2)
  = v1 ++ f v :: v2.
Proof.
  intros Ha H1 H2. rewrite map_app. cbn.
  rewrite (map_upd_out f a v1 H1), (map_upd_out f a v2 H2).
  rewrite Ha, Nat.eqb_refl. reflexivity.
Qed.

(** Linking a thread that is on no list on the list of the task of its
    thread group. *)
Lemma queue_inv_enqueue v1 v v2 nr queued leader t :
  queue_inv max_threads (v1 ++ v :: v2) nr queued leader ->
  queued t = false -> (t < max_threads)%nat -> leader t = v_task v ->
  queue_inv max_threads (v1 ++ with_thread t v :: v2) (u32 (nr + 1))
            (fun t' => if Nat.eqb t' t then true else queued t') leader.
Proof.
  intros [H1 [H2 [H3 [H4 [H5 [H6 [H7 H8]]]]]]] Hq Ht Hl.
  pose proof (view_sum_length _ H1) as Hsum.
  rewrite queued_threads_app, queued_threads_cons in *.
  set (q1 := queued_threads v1) in *. set (q2 := queued_threads v2) in *.
  assert (Hnotin : ~ In t (q1 ++ v_run v ++ q2)).
  { intros Hin. apply H4 in Hin. congruence. }
  assert (Hperm : Permutation (t :: q1 ++ v_run v ++ q2) (q1 ++ (t :: v_run v) ++ q2)).
  { cbn. apply Permutation_middle. }
  assert (Hnd : NoDup (q1 ++ (t :: v_run v) ++ q2)).
  { apply (Permutation_NoDup Hperm). constructor; assumption. }
  assert (Hall : Forall (fun x => (x < max_threads)%nat) (q1 ++ (t :: v_run v) ++ q2)).
  { apply (Permutation_Forall Hperm). constructor; assumption. }
  pose proof (length_bound _ _ Hnd Hall) as Hlen.
  rewrite !length_app in Hlen. cbn [length] in Hlen.
  apply Forall_app in H1. destruct H1 as [H1a H1b].
  apply Forall_cons_iff in H1b. destruct H1b as [H1v H1b].
  apply Forall_app in H5. destruct H5 as [H5a H5b].
  apply Forall_cons_iff in H5b. destruct H5b as [H5v H5b].
  rewrite view_sum_app, view_sum_cons in Hsum, H2.
  rewrite !length_app in Hsum.
  assert (Hv32 : u32 (v_nr v + 1) = v_nr v + 1).
  { apply u32_small. unfold is_u32. lia. }
  unfold queue_inv. rewrite queued_threads_app, queued_threads_cons.
  fold q1 q2. cbn [with_thread v_run].
  split.
  { apply Forall_app. split; [exact H1a |]. constructor; [| exact H1b].
    cbn [with_thread v_nr v_run length]. rewrite Hv32, H1v. lia. }
  split.
  { rewrite view_sum_app, view_sum_cons. cbn [with_thread v_nr].
    rewrite Hv32, u32_small; [lia | unfold is_u32; lia]. }
  split; [exact Hnd |].
  split.
  { intros t'. destruct (Nat.eqb_spec t' t) as [-> | Hne].
    - split; [intros _ | reflexivity].
      apply in_or_app. right. left. reflexivity.
    - rewrite H4. split; intros Hin.
      + apply (Permutation_in _ Hperm). right. exact Hin.
      + apply (Permutation_in _ (Permutation_sym Hperm)) in Hin.
        destruct Hin as [E | Hin]; [congruence | exact Hin]. }
  split.
  { apply Forall_app. split; [exact H5a |]. constructor; [| exact H5b].
    cbn [with_thread v_run v_task]. intros x [<- | Hx]; [exact Hl | apply H5v, Hx]. }
  split; [rewrite map_app in *; exact H6 |].
  split; [rewrite map_app in *; exact H7 |].
  exact Hall.
Qed.

Lemma NoDup_app_disjoint (l1 l2 : list tid) x :
  NoDup (l1 ++ l2) -> In x l1 -> ~ In x l2.
Proof.
  induction l1 as [| y l1 IH]; intros Hnd Hin; [destruct Hin |].
  cbn in Hnd. inversion Hnd as [| ? ? Hy Hnd']; subst.
  destruct Hin as [-> | Hin]; [| apply IH; assumption].
  intros H2. apply Hy, in_or_app. right. exact H2.
Qed.

Lemma in_queued_threads t vs :
  In t (queued_threads vs) <-> exists v, In v vs /\ In t (v_run v).
Proof.
  unfold queued_threads. rewrite in_concat. split.
  - intros [r [Hr Ht]]. apply in_map_iff in Hr. destruct Hr as [v [<- Hv]].
    exists v. split; assumption.
  - intros [v [Hv Ht]]. exists (v_run v). split; [apply in_map; exact Hv | exact Ht].
Qed.

Lemma unlinked_out t v : ~ In t (v_run v) -> unlinked t v = v.
Proof.
  intros H. destruct v as [a k r n]. unfold unlinked. cbn in *.
  rewrite notin_remove by exact H. reflexivity.
Qed.

Lemma map_unlinked_out t vs :
  ~ In t (queued_threads vs) -> map (unlinked t) vs = vs.
Proof.
  induction vs as [| v vs IH]; intros H; [reflexivity |].
  rewrite queued_threads_cons in H. cbn [map].
  rewrite unlinked_out, IH; [reflexivity | |]; intros Hin; apply H, in_or_app;
    [right | left]; exact Hin.
Qed.

(** Unlinking a thread from the list of the task of its thread group. *)
Lemma queue_inv_dequeue v1 v v2 nr queued leader t :
  queue_inv max_threads (v1 ++ v :: v2) nr queued leader ->
  queued t = true -> leader t = v_task v ->
  queue_inv max_threads
            (map (unlinked t) v1 ++ one_less (unlinked t v) :: map (unlinked t) v2)
            (u32 (nr - 1))
            (fun t' => if Nat.eqb t' t then false else queued t') leader.
Proof.
  intros [H1 [H2 [H3 [H4 [H5 [H6 [H7 H8]]]]]]] Hq Hl.
  pose proof (view_sum_length _ H1) as Hsum.
  pose proof (length_bound _ _ H3 H8) as Hlen.
  assert (Hin : In t (queued_threads (v1 ++ v :: v2))) by (apply H4; exact Hq).
  rewrite map_app in H6. cbn [map] in H6.
  pose proof (NoDup_remove_2 _ _ _ H6) as Htask.
  apply Forall_app in H5. destruct H5 as [H5a H5b].
  apply Forall_cons_iff in H5b. destruct H5b as [H5v H5b].
  assert (Hout : forall l, Forall (fun v => forall t, In t (v_run v) -> leader t = v_task v) l ->
                   (forall x, In x l -> In (v_task x) (map v_task v1 ++ map v_task v2)) ->
                   ~ In t (queued_threads l)).
  { intros l Hall Hsub Ht. apply in_queued_threads in Ht.
    destruct Ht as [x [Hx Htx]]. rewrite Forall_forall in Hall.
    apply Htask. rewrite <- Hl, (Hall x Hx t Htx). apply Hsub. exact Hx. }
  assert (Hq1 : ~ In t (queued_threads v1)).
  { apply Hout; [exact H5a |]. intros x Hx. apply in_or_app. left. apply in_map. exact Hx. }
  assert (Hq2 : ~ In t (queued_threads v2)).
  { apply Hout; [exact H5b |]. intros x Hx. apply in_or_app. right. apply in_map. exact Hx. }
  rewrite queued_threads_app, queued_threads_cons in *.
  set (q1 := queued_threads v1) in *. set (q2 := queued_threads v2) in *.
  assert (Hr : In t (v_run v)).
  { apply in_app_or in Hin. destruct Hin as [Hin | Hin]; [contradiction |].
    apply in_app_or in Hin. destruct Hin as [Hin | Hin]; [exact Hin | contradiction]. }
  assert (Hndr : NoDup (v_run v)).
  { apply NoDup_app_remove_l in H3. apply NoDup_app_remove_r in H3. exact H3. }
  pose proof (remove_length_NoDup t _ Hndr Hr) as Hlr.
  assert (Hq' : q1 ++ remove Nat.eq_dec t (v_run v) ++ q2
                = remove Nat.eq_dec t (q1 ++ v_run v ++ q2)).
  { rewrite !remove_app, (notin_remove _ q1 t Hq1), (notin_remove _ q2 t Hq2).
    reflexivity. }
  apply Forall_app in H1. destruct H1 as [H1a H1b].
  apply Forall_cons_iff in H1b. destruct H1b as [H1v H1b].
  rewrite view_sum_app, view_sum_cons in Hsum, H2.
  rewrite !length_app in Hsum, Hlen.
  rewrite (map_unlinked_out t v1 Hq1), (map_unlinked_out t v2 Hq2).
  assert (Hv32 : u32 (v_nr v - 1) = v_nr v - 1).
  { apply u32_small. unfold is_u32. lia. }
  unfold queue_inv. rewrite queued_threads_app, queued_threads_cons.
  fold q1 q2. cbn [one_less unlinked v_run]. rewrite Hq'.
  split.
  { apply Forall_app. split; [exact H1a |]. constructor; [| exact H1b].
    cbn [one_less unlinked v_nr v_run]. rewrite Hv32, H1v. lia. }
  split.
  { rewrite view_sum_app, view_sum_cons. cbn [one_less unlinked v_nr].
    rewrite Hv32, u32_small; [lia | unfold is_u32; lia]. }
  split; [apply NoDup_remove_fn; exact H3 |].
  split.
  { intros t'. destruct (Nat.eqb_spec t' t) as [-> | Hne].
    - split; [discriminate |]. intros H. exfalso. apply (remove_In _ _ _ H).
    - rewrite H4. split; intros H.
      + apply in_in_remove; assumption.
      + apply in_remove in H. tauto. }
  split.
  { apply Forall_app. split; [exact H5a |]. constructor; [| exact H5b].
    cbn [one_less unlinked v_run v_task]. intros x Hx. apply in_remove in Hx.
    apply H5v. tauto. }
  split; [rewrite map_app; exact H6 |].
  split; [rewrite map_app in *; exact H7 |].
  rewrite Forall_forall in *. intros x Hx. apply in_remove in Hx. apply H8. tauto.
Qed.

Lemma queue_inv_create vs nr queued leader a task :
  queue_inv max_threads vs nr queued leader ->
  ~ In a (map v_addr vs) -> ~ In task (map v_task vs) ->
  queue_inv max_threads
            ({| v_addr := a; v_task := task; v_run := []; v_nr := 0 |} :: vs)
            nr queued leader.
Proof.
  intros [H1 [H2 [H3 [H4 [H5 [H6 [H7 H8]]]]]]] Ha Ht.
  unfold queue_inv. rewrite queued_threads_cons, view_sum_cons. cbn [v_run v_nr app map].
  split; [constructor; [reflexivity | exact H1] |].
  split; [rewrite H2; lia |].
  split; [exact H3 |]. split; [exact H4 |].
  split; [constructor; [intros t [] | exact H5] |].
  split; [constructor; assumption |].
  split; [constructor; assumption | exact H8].
Qed.

Lemma queue_inv_free v1 v v2 nr queued leader :
  queue_inv max_threads (v1 ++ v :: v2) nr queued leader ->
  v_nr v = 0 ->
  queue_inv max_threads (v1 ++ v2) nr queued leader.
Proof.
  intros [H1 [H2 [H3 [H4 [H5 [H6 [H7 H8]]]]]]] Hn.
  apply Forall_app in H1. destruct H1 as [H1a H1b].
  apply Forall_cons_iff in H1b. destruct H1b as [H1v H1b].
  apply Forall_app in H5. destruct H5 as [H5a H5b].
  apply Forall_cons_iff in H5b. destruct H5b as [H5v H5b].
  assert (Hr : v_run v = []).
  { apply length_zero_iff_nil. lia. }
  rewrite queued_threads_app, queued_threads_cons, Hr in *. cbn [app] in *.
  rewrite view_sum_app, view_sum_cons, Hn in H2.
  rewrite map_app in H6, H7. cbn [map] in H6, H7.
  unfold queue_inv. rewrite queued_threads_app, view_sum_app, !map_app.
  split; [apply Forall_app; split; assumption |].
  split; [lia |].
  split; [exact H3 |]. split; [exact H4 |].
  split; [apply Forall_app; split; assumption |].
  split; [apply (NoDup_remove_1 _ _ _ H6) |].
  split; [apply (NoDup_remove_1 _ _ _ H7) | exact H8].
Qed.

Lemma view_sum_perm vs vs' : Permutation vs vs' -> view_sum vs = view_sum vs'.
Proof.
  induction 1 as [| v l l' _ IH | v w l | l l' l'' _ IH1 _ IH2].
  - reflexivity.
  - rewrite !view_sum_cons, IH. reflexivity.
  - rewrite !view_sum_cons. lia.
  - congruence.
Qed.

Lemma queued_threads_perm vs vs' :
  Permutation vs vs' -> Permutation (queued_threads vs) (queued_threads vs').
Proof.
  induction 1 as [| v l l' _ IH | v w l | l l' l'' _ IH1 _ IH2].
  - constructor.
  - rewrite !queued_threads_cons. apply Permutation_app_head. exact IH.
  - rewrite !queued_threads_cons. apply Permutation_app_swap_app.
  - eapply Permutation_trans; eassumption.
Qed.

Lemma queue_inv_perm vs vs' nr queued leader :
  Permutation vs vs' ->
  queue_inv max_threads vs nr queued leader ->
  queue_inv max_threads vs' nr queued leader.
Proof.
  intros Hp [H1 [H2 [H3 [H4 [H5 [H6 [H7 H8]]]]]]].
  pose proof (queued_threads_perm _ _ Hp) as Hq.
  split; [apply (Permutation_Forall Hp H1) |].
  split; [rewrite <- (view_sum_perm _ _ Hp); exact H2 |].
  split; [apply (Permutation_NoDup Hq H3) |].
  split.
  { intros t. rewrite H4. split; apply Permutation_in;
      [exact Hq | apply Permutation_sym; exact Hq]. }
  split; [apply (Permutation_Forall Hp H5) |].
  split; [apply (Permutation_NoDup (Permutation_map v_task Hp) H6) |].
  split; [apply (Permutation_NoDup (Permutation_map v_addr Hp) H7) |].
  apply (Permutation_Forall Hq H8).
Qed.


Lemma grq_inv_queue_inv s :
  grq_inv max_threads s
  <-> queue_inv max_threads (views s) (nr_threads (grq s))
                (fun t => thread_on_rq_queued (threads s t)) (find_task s).
Proof. reflexivity. Qed.

Lemma grq_inv_same_queue s s' :
  same_queue s s' -> grq_inv max_threads s -> grq_inv max_threads s'.
Proof.
  intros [Hv [Hn [Hq Hl]]] H. apply (proj2 (grq_inv_queue_inv _)).
  apply (proj1 (grq_inv_queue_inv _)) in H.
  rewrite Hv, Hn.
  apply (queue_inv_ext _ _ _ _ _ _ Hq (fun t => find_task_same s s' t (Hl t)) H).
Qed.

Lemma map_addr_views s : map v_addr (views s) = map e_addr (tasks (grq s)).
Proof. unfold views. rewrite map_map. reflexivity. Qed.

Lemma rq_queued_set x :
  negb (Z.land (Z.lor x THREAD_RQ_RUNNABLE) THREAD_RQ_QUEUED =? 0) = true.
Proof.
  unfold THREAD_RQ_QUEUED, THREAD_RQ_RUNNABLE.
  rewrite Z.land_lor_distr_l. change (Z.land 1 1) with 1.
  destruct (Z.eqb_spec (Z.lor (Z.land x 1) 1) 0) as [E | _]; [| reflexivity].
  apply Z.lor_eq_0_iff in E. destruct E as [_ E]. discriminate.
Qed.

Lemma rq_queued_cleared x :
  negb (Z.land (Z.land x (Z.lnot THREAD_RQ_RUNNABLE)) THREAD_RQ_QUEUED =? 0) = false.
Proof.
  unfold THREAD_RQ_QUEUED, THREAD_RQ_RUNNABLE.
  rewrite <- Z.land_assoc. change (Z.land (Z.lnot 1) 1) with 0.
  rewrite Z.land_0_r. reflexivity.
Qed.

Lemma find_energy_task_view s t a :
  find_energy_task s t = Some a ->
  exists v, In v (views s) /\ v_addr v = a /\ v_task v = find_task s t.
Proof.
  unfold find_energy_task. intros H.
  destruct (find _ (tasks (grq s))) as [e |] eqn:E; [| discriminate].
  injection H as <-. apply find_some in E. destruct E as [Hin He].
  exists (e_view e). split; [apply in_map; exact Hin |].
  split; [reflexivity |]. apply Nat.eqb_eq. exact He.
Qed.

Lemma find_energy_task_none s t :
  find_energy_task s t = None -> ~ In (find_task s t) (map v_task (views s)).
Proof.
  unfold find_energy_task. intros H Hin.
  destruct (find _ (tasks (grq s))) as [e |] eqn:E; [discriminate |].
  unfold views in Hin. rewrite map_map in Hin. apply in_map_iff in Hin.
  destruct Hin as [e [He Hin]]. pose proof (find_none _ _ E e Hin) as Hn.
  cbn in He, Hn. rewrite He, Nat.eqb_refl in Hn. discriminate.
Qed.

Lemma enqueue_runnable_inv c a t s s' :
  grq_inv max_threads s -> (t < max_threads)%nat ->
  (exists v, In v (views s) /\ v_addr v = a /\ v_task v = find_task s t) ->
  enqueue_runnable c a t s = Some s' ->
  grq_inv max_threads s'.
Proof.
  intros Hinv Ht [v0 [Hv0 [Ha0 Hl0]]] Hf. unfold enqueue_runnable in Hf.
  destruct (thread_on_rq_queued (threads s t)) eqn:Hq; [discriminate |].
  injection Hf as <-. apply (proj2 (grq_inv_queue_inv _)). apply (proj1 (grq_inv_queue_inv _)) in Hinv.
  cbv zeta.
  match goal with
  | |- queue_inv _ (views ?x) _ _ _ =>
      change (views x) with (views (upd_etask a (fun e => set_e_runnable (t :: e_runnable e)
                                           (u32 (e_nr_runnable e + 1)) e) s));
      change (nr_threads (grq x)) with (u32 (nr_threads (grq s) + 1))
  end.
  rewrite (views_upd_etask a _ (with_thread t)) by reflexivity.
  pose proof Hinv as [_ [_ [_ [_ [_ [Hnt [Hna _]]]]]]].
  destruct (view_split a (views s)) as [v1 [v [v2 [E [Ha [Ho1 Ho2]]]]]];
    [rewrite <- Ha0; apply in_map; exact Hv0 | exact Hna |].
  assert (Hv : v0 = v).
  { rewrite E in Hv0. apply in_app_or in Hv0. destruct Hv0 as [H | [H | H]].
    - exfalso. apply Ho1. rewrite <- Ha0. apply in_map. exact H.
    - symmetry. exact H.
    - exfalso. apply Ho2. rewrite <- Ha0. apply in_map. exact H. }
  subst v0. rewrite E in Hinv |- *. rewrite (map_upd_split _ a v1 v v2 Ha Ho1 Ho2).
  eapply queue_inv_ext;
    [| | apply (queue_inv_enqueue v1 v v2 _ _ _ t Hinv Hq Ht);
         symmetry; exact Hl0].
  - intros t'. cbn. unfold upd. destruct (Nat.eqb_spec t' t) as [-> | _]; [| reflexivity].
    unfold thread_on_rq_queued. cbn. apply rq_queued_set.
  - intros t'. apply find_task_same. cbn. unfold upd.
    destruct (Nat.eqb_spec t' t) as [-> | _]; reflexivity.
Qed.

Lemma views_list_del t s :
  views (list_del_ee_rq t s) = map (unlinked t) (views s).
Proof. unfold views, list_del_ee_rq. cbn. rewrite !map_map. reflexivity. Qed.

Lemma map_addr_unlinked t l : map v_addr (map (unlinked t) l) = map v_addr l.
Proof. rewrite map_map. reflexivity. Qed.

Lemma dequeue_runnable_inv a t s s' :
  grq_inv max_threads s ->
  (exists v, In v (views s) /\ v_addr v = a /\ v_task v = find_task s t) ->
  dequeue_runnable a t s = Some s' ->
  grq_inv max_threads s'.
Proof.
  intros Hinv [v0 [Hv0 [Ha0 Hl0]]] Hf. unfold dequeue_runnable in Hf.
  destruct (thread_on_rq_queued (threads s t)) eqn:Hq; [| discriminate].
  cbn [negb] in Hf. injection Hf as <-.
  apply (proj2 (grq_inv_queue_inv _)). apply (proj1 (grq_inv_queue_inv _)) in Hinv.
  cbv zeta.
  match goal with
  | |- queue_inv _ (views ?x) _ _ _ =>
      change (views x) with (views (upd_etask a (fun e => set_e_runnable (e_runnable e)
                                           (u32 (e_nr_runnable e - 1)) e)
                                      (list_del_ee_rq t s)));
      change (nr_threads (grq x)) with (u32 (nr_threads (grq s) - 1))
  end.
  rewrite (views_upd_etask a _ one_less) by reflexivity.
  rewrite views_list_del.
  pose proof Hinv as [_ [_ [_ [_ [_ [Hnt [Hna _]]]]]]].
  destruct (view_split a (views s)) as [v1 [v [v2 [E [Ha [Ho1 Ho2]]]]]];
    [rewrite <- Ha0; apply in_map; exact Hv0 | exact Hna |].
  assert (Hv : v0 = v).
  { rewrite E in Hv0. apply in_app_or in Hv0. destruct Hv0 as [H | [H | H]].
    - exfalso. apply Ho1. rewrite <- Ha0. apply in_map. exact H.
    - symmetry. exact H.
    - exfalso. apply Ho2. rewrite <- Ha0. apply in_map. exact H. }
  subst v0. rewrite E in Hinv |- *. rewrite map_app. cbn [map].
  rewrite (map_upd_split _ a (map (unlinked t) v1) (unlinked t v) (map (unlinked t) v2));
    [| exact Ha | rewrite map_addr_unlinked; exact Ho1 | rewrite map_addr_unlinked; exact Ho2].
  eapply queue_inv_ext;
    [| | apply (queue_inv_dequeue v1 v v2 _ _ _ t Hinv Hq);
         symmetry; exact Hl0].
  - intros t'. cbn. unfold upd. destruct (Nat.eqb_spec t' t) as [-> | _]; [| reflexivity].
    unfold thread_on_rq_queued. cbn. apply rq_queued_cleared.
  - intros t'. apply find_task_same. cbn. unfold upd.
    destruct (Nat.eqb_spec t' t) as [-> | _]; reflexivity.
Qed.

Lemma create_energy_task_inv alloc t s a s' :
  grq_inv max_threads s -> fresh alloc s -> find_energy_task s t = None ->
  create_energy_task alloc t s = (Some a, s') ->
  grq_inv max_threads s'
  /\ exists v, In v (views s') /\ v_addr v = a /\ v_task v = find_task s' t.
Proof.
  intros Hinv Hfresh Hnone Hf. unfold create_energy_task in Hf.
  destruct alloc as [a' |]; [| discriminate]. injection Hf as <- <-.
  split.
  - apply (proj2 (grq_inv_queue_inv _)). apply (proj1 (grq_inv_queue_inv _)) in Hinv.
    apply (queue_inv_create _ _ _ _ a' (find_task s t) Hinv).
    + rewrite map_addr_views. apply Hfresh. reflexivity.
    + apply find_energy_task_none. exact Hnone.
  - eexists. split; [left; reflexivity |]. split; reflexivity.
Qed.

Lemma filter_addr_out a (l : list task_view) :
  ~ In a (map v_addr l) ->
  filter (fun v => negb (Nat.eqb (v_addr v) a)) l = l.
Proof.
  induction l as [| v l IH]; intros Hout; [reflexivity |]. cbn.
  destruct (Nat.eqb_spec (v_addr v) a) as [E | _].
  - exfalso. apply Hout. left. exact E.
  - cbn. rewrite IH; [reflexivity |]. intros H. apply Hout. right. exact H.
Qed.

Lemma views_free a s :
  views (free_energy_task a s)
  = filter (fun v => negb (Nat.eqb (v_addr v) a)) (views s).
Proof.
  unfold views, free_energy_task, dequeue_energy_task. cbn.
  induction (tasks (grq s)) as [| e l IH]; [reflexivity |]. cbn.
  destruct (Nat.eqb (e_addr e) a); cbn; rewrite IH; reflexivity.
Qed.

Lemma free_energy_task_inv a e s :
  grq_inv max_threads s -> get_etask a s = Some e -> e_nr_runnable e = 0 ->
  grq_inv max_threads (free_energy_task a s).
Proof.
  intros Hinv Hget Hn. apply (proj2 (grq_inv_queue_inv _)). apply (proj1 (grq_inv_queue_inv _)) in Hinv.
  change (nr_threads (grq (free_energy_task a s))) with (nr_threads (grq s)).
  rewrite views_free.
  unfold get_etask in Hget. apply find_some in Hget. destruct Hget as [Hin Ha].
  apply Nat.eqb_eq in Ha.
  pose proof Hinv as [_ [_ [_ [_ [_ [_ [Hna _]]]]]]].
  destruct (view_split a (views s)) as [v1 [v [v2 [E [Hav [Ho1 Ho2]]]]]];
    [rewrite <- Ha; apply (in_map v_addr (views s) (e_view e)), in_map; exact Hin
    | exact Hna |].
  assert (Hv : e_view e = v).
  { assert (Hev : In (e_view e) (views s)) by (apply in_map; exact Hin).
    rewrite E in Hev. apply in_app_or in Hev. destruct Hev as [H | [H | H]].
    - exfalso. apply Ho1. rewrite <- Ha. apply (in_map v_addr _ _ H).
    - symmetry. exact H.
    - exfalso. apply Ho2. rewrite <- Ha. apply (in_map v_addr _ _ H). }
  rewrite E in Hinv |- *. rewrite filter_app. cbn [filter].
  rewrite Hav, Nat.eqb_refl. cbn [negb].
  rewrite (filter_addr_out a v1 Ho1), (filter_addr_out a v2 Ho2).
  apply (queue_inv_free v1 v v2 _ _ _ Hinv).
  rewrite <- Hv. exact Hn.
Qed.

Lemma put_energy_task_inv hw a s s' :
  grq_inv max_threads s -> put_energy_task hw a s = Some s' ->
  grq_inv max_threads s'.
Proof.
  intros Hinv Hf. unfold put_energy_task in Hf.
  destruct (update_energy_statistics hw a s) as [s1 |] eqn:E1; [| discriminate].
  destruct (clear_energy_task a s1) as [s2 |] eqn:E2; [| discriminate].
  cbv zeta in Hf.
  set (s3 := upd_etask a _ s2) in Hf.
  assert (H3 : grq_inv max_threads s3).
  { apply (grq_inv_same_queue s); [| exact Hinv].
    apply same_queue_upd_etask; [intros; reflexivity |].
    apply (sq_clear_energy_task _ _ _ _ E2).
    apply (sq_update_energy_statistics _ _ _ _ _ E1). apply same_queue_refl. }
  destruct (get_etask a s3) as [e |] eqn:E3; [| discriminate].
  destruct (Z.eqb_spec (e_nr_runnable e) 0) as [Hn | _]; injection Hf as <-.
  - apply (free_energy_task_inv a e s3 H3 E3 Hn).
  - exact H3.
Qed.

Lemma pick_next_loop_perm fuel : forall head l r l',
  pick_next_loop fuel head l = Some (r, l') -> Permutation l l'.
Proof.
  induction fuel as [| fuel IH]; intros head l r l' Hf; [discriminate |].
  cbn in Hf. destruct l as [| x rest]; [discriminate |].
  assert (Hrot : Permutation (x :: rest) (rest ++ [x])) by apply Permutation_cons_append.
  destruct (_ && _).
  - injection Hf as _ <-. exact Hrot.
  - destruct (rest ++ [x]) as [| first tl] eqn:E; [discriminate |].
    destruct (Nat.eqb head (e_addr first)).
    + injection Hf as _ <-. exact Hrot.
    + apply (Permutation_trans Hrot). apply (IH _ _ _ _ Hf).
Qed.

Lemma pick_next_energy_task_inv s r s' :
  grq_inv max_threads s -> pick_next_energy_task s = Some (r, s') ->
  grq_inv max_threads s'.
Proof.
  intros Hinv Hf. unfold pick_next_energy_task in Hf.
  destruct (pick_next_ring (tasks (grq s))) as [[r0 l'] |] eqn:E; [| discriminate].
  injection Hf as _ <-.
  apply (proj2 (grq_inv_queue_inv _)). apply (proj1 (grq_inv_queue_inv _)) in Hinv.
  change (queue_inv max_threads (map e_view l') (nr_threads (grq s))
            (fun t => thread_on_rq_queued (threads s t)) (find_task s)).
  apply (queue_inv_perm (views s)); [| exact Hinv].
  apply Permutation_map. unfold pick_next_ring in E.
  destruct (tasks (grq s)) as [| h tl]; [discriminate |].
  apply (pick_next_loop_perm _ _ _ _ _ E).
Qed.


Local Abbreviation inv := (grq_inv max_threads).

Lemma same_queue_inv s s' : same_queue s s' -> inv s -> inv s'.
Proof. apply grq_inv_same_queue. Qed.

Lemma switch_in_energy_inv hw c from to s s' :
  inv s -> switch_in_energy hw c from to s = Some s' -> inv s'.
Proof.
  intros Hinv Hf. unfold switch_in_energy in Hf.
  assert (Hput : forall s1,
    match from with Some f => put_energy_task hw f s | None => Some s end = Some s1 ->
    inv s1).
  { intros s1 H1. destruct from as [f |].
    - apply (put_energy_task_inv hw f s s1 Hinv H1).
    - injection H1 as <-. exact Hinv. }
  destruct (match from with Some f => put_energy_task hw f s | None => Some s end)
    as [s1 |]; [| discriminate].
  specialize (Hput s1 eq_refl). destruct to as [to |].
  - apply (same_queue_inv s1); [| exact Hput].
    apply (sq_distribute_energy_task _ _ _ _ _ Hf). apply same_queue_refl.
  - injection Hf as <-. exact Hput.
Qed.

Lemma switch_from_energy_inv hw c from s s' :
  inv s -> switch_from_energy hw c from s = Some s' -> inv s'.
Proof.
  intros Hinv Hf. unfold switch_from_energy in Hf. destruct from as [f |].
  - destruct (put_energy_task hw f s) as [s1 |] eqn:E; [| discriminate].
    injection Hf as <-.
    apply (same_queue_inv s1); [apply sq_switch_from_energy_, same_queue_refl |].
    apply (put_energy_task_inv hw f s s1 Hinv E).
  - injection Hf as <-.
    apply (same_queue_inv s); [apply sq_switch_from_energy_, same_queue_refl | exact Hinv].
Qed.

Lemma redistribute_energy_task_inv hw c a arrived s s' :
  inv s -> redistribute_energy_task hw c a arrived s = Some s' -> inv s'.
Proof.
  intros Hinv Hf. unfold redistribute_energy_task in Hf.
  destruct (get_etask a s) as [e |]; [| discriminate].
  destruct arrived.
  - cbv zeta in Hf.
    set (s1 := if running (grq s) =? 0 then __switch_to_energy c s else s) in Hf.
    assert (H1 : inv s1).
    { apply (same_queue_inv s); [| exact Hinv]. unfold s1.
      apply same_queue_if; [apply sq_switch_to_energy_ |]; apply same_queue_refl. }
    destruct (negb (e_state e =? ETASK_RUNNING)).
    + apply (switch_in_energy_inv _ _ _ _ _ _ H1 Hf).
    + apply (same_queue_inv s1); [| exact H1].
      apply (sq_distribute_energy_task_ _ _ _ _ Hf). apply same_queue_refl.
  - destruct (negb (e_nr_runnable e =? 0)).
    + apply (same_queue_inv s); [| exact Hinv].
      apply (sq_distribute_energy_task_ _ _ _ _ Hf). apply same_queue_refl.
    + destruct (put_energy_task hw a s) as [s1 |] eqn:E; [| discriminate].
      pose proof (put_energy_task_inv hw a s s1 Hinv E) as H1.
      destruct (nr_tasks (grq s1) =? 0); injection Hf as <-; [| exact H1].
      apply (same_queue_inv s1); [apply sq_switch_from_energy_, same_queue_refl | exact H1].
Qed.

Lemma enqueue_task_energy_inv hw alloc c t s s' :
  inv s -> (t < max_threads)%nat -> fresh alloc s ->
  enqueue_task_energy hw alloc c t s = Some s' -> inv s'.
Proof.
  intros Hinv Ht Hfresh Hf. unfold enqueue_task_energy in Hf.
  assert (Hfind : forall a s1,
    match find_energy_task s t with
    | Some a => Some (a, s)
    | None => match create_energy_task alloc t s with
              | (Some a, s) => Some (a, s)
              | (None, _) => None
              end
    end = Some (a, s1) ->
    inv s1 /\ exists v, In v (views s1) /\ v_addr v = a /\ v_task v = find_task s1 t).
  { intros a s1 H1. destruct (find_energy_task s t) as [a0 |] eqn:E.
    - injection H1 as <- <-. split; [exact Hinv |].
      apply find_energy_task_view. exact E.
    - destruct (create_energy_task alloc t s) as [[a0 |] s0] eqn:Ec; [| discriminate].
      injection H1 as <- <-.
      apply (create_energy_task_inv alloc t s a0 s0 Hinv Hfresh E Ec). }
  destruct (match find_energy_task s t with Some a => _ | None => _ end)
    as [[a s1] |]; [| discriminate].
  destruct (Hfind a s1 eq_refl) as [H1 Hview].
  destruct (enqueue_runnable c a t s1) as [s2 |] eqn:E2; [| discriminate].
  pose proof (enqueue_runnable_inv c a t s1 s2 H1 Ht Hview E2)
    as H2.
  destruct (get_etask a s2) as [e |]; [| discriminate].
  destruct (should_redistribute_energy e (threads s2 t)).
  - apply (redistribute_energy_task_inv _ _ _ _ _ _ H2 Hf).
  - injection Hf as <-. exact H2.
Qed.

Lemma dequeue_task_energy_inv hw c t s s' :
  inv s -> dequeue_task_energy hw c t s = Some s' -> inv s'.
Proof.
  intros Hinv Hf. unfold dequeue_task_energy in Hf.
  destruct (find_energy_task s t) as [a |] eqn:E; [| discriminate].
  assert (Hsq : forall s1,
    (if thread_on_cpu_rq_queued (threads s t) then dequeue_running t s else Some s)
    = Some s1 -> same_queue s s1).
  { intros s1 H1. destruct (thread_on_cpu_rq_queued (threads s t)).
    - apply (sq_dequeue_running _ _ _ _ H1). apply same_queue_refl.
    - injection H1 as <-. apply same_queue_refl. }
  destruct (if thread_on_cpu_rq_queued (threads s t) then _ else _) as [s1 |];
    [| discriminate].
  specialize (Hsq s1 eq_refl).
  destruct (dequeue_runnable a t s1) as [s2 |] eqn:E2; [| discriminate].
  assert (H2 : inv s2).
  { apply (dequeue_runnable_inv a t s1 s2);
      [apply (same_queue_inv s); assumption | | exact E2].
    apply find_energy_task_view.
    rewrite (same_queue_find_energy_task s s1 t Hsq). exact E. }
  destruct (get_etask a s2) as [e |]; [| discriminate].
  destruct (should_redistribute_energy e (threads s2 t)).
  - apply (redistribute_energy_task_inv _ _ _ _ _ _ H2 Hf).
  - injection Hf as <-. exact H2.
Qed.

Lemma pick_next_task_energy_inv hw c prev s r s' :
  inv s -> pick_next_task_energy hw c prev s = Some (r, s') -> inv s'.
Proof.
  intros Hinv Hf. unfold pick_next_task_energy in Hf.
  match type of Hf with
  | match ?global with _ => _ end = _ =>
      assert (Hg : forall s1, global = Some s1 -> inv s1);
      [| destruct global as [s1 |]; [specialize (Hg s1 eq_refl) | discriminate]]
  end.
  { intros s1 H1. destruct (running (grq s) =? 0).
    - destruct (should_switch_to_energy s c).
      + destruct (pick_next_energy_task s) as [[to s0] |] eqn:E; [| discriminate].
        apply (same_queue_inv s0);
          [apply (sq_switch_to_energy _ _ _ _ _ H1), same_queue_refl |].
        apply (pick_next_energy_task_inv s to s0 Hinv E).
      + destruct (should_check_cpus s); injection H1 as <-; [| exact Hinv].
        apply (same_queue_inv s); [apply sq_check_cpus, same_queue_refl | exact Hinv].
    - cbv zeta in H1. destruct (should_switch_from_energy s c).
      + apply (switch_from_energy_inv _ _ _ _ _ Hinv H1).
      + destruct (should_switch_in_energy s c) as [[|] |]; [| | discriminate].
        * destruct (pick_next_energy_task s) as [[to s0] |] eqn:E; [| discriminate].
          apply (switch_in_energy_inv hw c (en_curr_e_task (rqs s c)) to s0 s1);
            [| exact H1].
          apply (pick_next_energy_task_inv s to s0 Hinv E).
        * injection H1 as <-. exact Hinv. }
  destruct (need_resched_curr_local s1 c).
  - destruct (pick_next_local_task c (put_prev_task c prev s1)) as [[t s2] |] eqn:E;
      [| discriminate].
    injection Hf as _ <-. apply (same_queue_inv s1); [| exact Hg].
    apply (sq_pick_next_local_task _ _ _ _ _ E). apply sq_put_prev_task, same_queue_refl.
  - injection Hf as _ <-. exact Hg.
Qed.

Lemma initial_inv s : initial s -> inv s.
Proof.
  intros [Hg Hq]. apply (proj2 (grq_inv_queue_inv s)).
  unfold views. rewrite Hg. cbn.
  split; [constructor |]. split; [reflexivity |]. split; [constructor |].
  split; [intros t; rewrite Hq; split; [discriminate | intros []] |].
  split; [constructor |]. split; [constructor |]. split; constructor.
Qed.

Lemma step_inv s s' : inv s -> step max_threads s s' -> inv s'.
Proof.
  intros Hinv Hstep.
  destruct Hstep as [hw alloc c t s s' Ht Hfresh Hf | hw c t s s' Hf
                    | hw c prev s r s' Hf | c s | c t s | c s s' Hf | c t s s' Hf
                    | s s' Hhost].
  - apply (enqueue_task_energy_inv _ _ _ _ _ _ Hinv Ht Hfresh Hf).
  - apply (dequeue_task_energy_inv _ _ _ _ _ Hinv Hf).
  - apply (pick_next_task_energy_inv _ _ _ _ _ _ Hinv Hf).
  - apply (same_queue_inv s); [apply sq_yield_task_energy, same_queue_refl | exact Hinv].
  - apply (same_queue_inv s); [| exact Hinv].
    unfold put_prev_task_energy. apply sq_put_local_task, same_queue_refl.
  - apply (same_queue_inv s); [| exact Hinv].
    apply (sq_set_curr_task_energy _ _ _ _ Hf), same_queue_refl.
  - apply (same_queue_inv s); [| exact Hinv].
    apply (sq_task_tick_energy _ _ _ _ _ Hf), same_queue_refl.
  - apply (same_queue_inv s); [| exact Hinv].
    apply (sq_host_step _ _ _ Hhost), same_queue_refl.
Qed.

Lemma reachable_inv s : reachable max_threads s -> inv s.
Proof.
  induction 1 as [s Hinit | s s' _ IH Hstep].
  - apply initial_inv. exact Hinit.
  - apply (step_inv s s' IH Hstep).
Qed.

Lemma inv_thread_count s :
  inv s -> nr_threads (grq s) = runnable_sum (tasks (grq s)).
Proof.
  intros H. apply (proj1 (grq_inv_queue_inv s)) in H.
  destruct H as [_ [H _]]. rewrite runnable_sum_views. exact H.
Qed.

End QueueInvariant.

(** C1: in every state of the global run queue that the hooks of the
    scheduling class and the host can reach from the initial one, and
    after every single [enqueue_runnable] and [dequeue_runnable] that the
    hooks perform from such a state, [grq.nr_threads] is the sum of the
    [nr_runnable] counts of the energy tasks on [grq.tasks]. *)
Theorem thread_count_is_runnable_sum (max_threads : nat) :
  Z.of_nat max_threads < 2 ^ 32 ->
  (forall s, reachable max_threads s ->
     nr_threads (grq s) = runnable_sum (tasks (grq s)))
  /\ (forall s c a t s',
        reachable max_threads s -> (t < max_threads)%nat ->
        find_energy_task s t = Some a ->
        enqueue_runnable c a t s = Some s' ->
        nr_threads (grq s') = runnable_sum (tasks (grq s')))
  /\ (forall s alloc c a t s1 s',
        reachable max_threads s -> (t < max_threads)%nat ->
        fresh alloc s -> find_energy_task s t = None ->
        create_energy_task alloc t s = (Some a, s1) ->
        enqueue_runnable c a t s1 = Some s' ->
        nr_threads (grq s') = runnable_sum (tasks (grq s')))
  /\ (forall s s1 a t s',
        reachable max_threads s ->
        find_energy_task s t = Some a ->
        s1 = s \/ dequeue_running t s = Some s1 ->
        dequeue_runnable a t s1 = Some s' ->
        nr_threads (grq s') = runnable_sum (tasks (grq s'))).
Proof.
  intros Hmax. split; [| split; [| split]].
  - intros s Hr. apply (inv_thread_count max_threads), reachable_inv; assumption.
  - intros s c a t s' Hr Ht Hfind Hf. apply (inv_thread_count max_threads).
    apply (enqueue_runnable_inv max_threads Hmax c a t s s');
      [apply reachable_inv; assumption | exact Ht | | exact Hf].
    apply find_energy_task_view. exact Hfind.
  - intros s alloc c a t s1 s' Hr Ht Hfresh Hnone Hc Hf.
    apply (inv_thread_count max_threads).
    destruct (create_energy_task_inv max_threads alloc t s a s1) as [H1 Hview];
      [apply reachable_inv; assumption | assumption | assumption | assumption |].
    apply (enqueue_runnable_inv max_threads Hmax c a t s1 s' H1 Ht Hview Hf).
  - intros s s1 a t s' Hr Hfind Hs1 Hf. apply (inv_thread_count max_threads).
    assert (Hsq : same_queue s s1).
    { destruct Hs1 as [-> | Hd]; [apply same_queue_refl |].
      apply (sq_dequeue_running _ _ _ _ Hd), same_queue_refl. }
    apply (dequeue_runnable_inv max_threads Hmax a t s1 s');
      [| | exact Hf].
    + apply (grq_inv_same_queue max_threads s s1 Hsq). apply reachable_inv; assumption.
    + apply find_energy_task_view.
      rewrite (same_queue_find_energy_task s s1 t Hsq). exact Hfind.
Qed.

Lemma thread_count_is_runnable_sum_witness :
  let s1 := state_of (enqueue_task_energy demo_sample (Some 10%nat) 0 1 boot_machine) in
  let s2 := state_of (enqueue_task_energy demo_sample None 0 2 s1) in
  let s3 := state_of (dequeue_task_energy demo_sample 0 1 s2) in
  reachable 1024 s3
  /\ nr_threads (grq s2) = 2 /\ runnable_sum (tasks (grq s2)) = 2
  /\ nr_threads (grq s3) = 1 /\ runnable_sum (tasks (grq s3)) = 1.
Proof.
  intros s1 s2 s3.
  assert (Hmax : Z.of_nat 1024 < 2 ^ 32) by (vm_compute; reflexivity).
  destruct (thread_count_is_runnable_sum 1024 Hmax) as [Hreach _].
  assert (H0 : reachable 1024 boot_machine).
  { apply reachable_initial. split; [reflexivity | intros t; reflexivity]. }
  assert (H1 : reachable 1024 s1).
  { apply (reachable_step 1024 boot_machine s1 H0).
    apply (step_enqueue 1024 demo_sample (Some 10%nat) 0%nat 1%nat).
    - apply Nat.ltb_lt. vm_compute. reflexivity.
    - intros a _ [].
    - vm_compute. reflexivity. }
  assert (H2 : reachable 1024 s2).
  { apply (reachable_step 1024 s1 s2 H1).
    apply (step_enqueue 1024 demo_sample None 0%nat 2%nat).
    - apply Nat.ltb_lt. vm_compute. reflexivity.
    - intros a Ha. discriminate.
    - vm_compute. reflexivity. }
  assert (H3 : reachable 1024 s3).
  { apply (reachable_step 1024 s2 s3 H2).
    apply (step_dequeue 1024 demo_sample 0%nat 1%nat).
    vm_compute. reflexivity. }
  split; [exact H3 |].
  split; [vm_compute; reflexivity |].
  split; [rewrite <- (Hreach s2 H2); vm_compute; reflexivity |].
  split; [vm_compute; reflexivity |].
  rewrite <- (Hreach s3 H3). vm_compute. reflexivity.
Defined.

(** * Further properties of the scheduling class *)

(** ** Creating, finding and freeing energy tasks *)

Section TaskLookup.

Lemma u32_succ_pred n : is_u32 n -> u32 (u32 (n + 1) - 1) = n.
Proof.
  intros H. unfold u32. rewrite Zminus_mod_idemp_l.
  replace (n + 1 - 1) with n by lia. apply Z.mod_small. exact H.
Qed.

Lemma filter_fresh_addr a (l : list energy_task) :
  ~ In a (map e_addr l) ->
  filter (fun e => negb (Nat.eqb (e_addr e) a)) l = l.
Proof.
  induction l as [| e l IH]; intros Hout; [reflexivity |]. cbn.
  destruct (Nat.eqb_spec (e_addr e) a) as [E | _].
  - exfalso. apply Hout. left. exact E.
  - cbn. rewrite IH; [reflexivity |]. intros H. apply Hout. right. exact H.
Qed.

Lemma find_addr_other a a' (e : energy_task) (l : list energy_task) :
  a' <> a -> e_addr e = a ->
  find (fun x => Nat.eqb (e_addr x) a') (e :: l)
  = find (fun x => Nat.eqb (e_addr x) a') l.
Proof.
  intros Hne Ha. cbn. rewrite Ha.
  destruct (Nat.eqb_spec a a') as [E | _]; [| reflexivity].
  exfalso. apply Hne. symmetry. exact E.
Qed.

Lemma find_energy_task_cons e s t :
  find_energy_task (enqueue_energy_task e s) t
  = if Nat.eqb (e_task e) (find_task s t) then Some (e_addr e)
    else find_energy_task s t.
Proof.
  unfold find_energy_task.
  change (find_task (enqueue_energy_task e s) t) with (find_task s t).
  cbn [enqueue_energy_task set_grq grq set_tasks tasks find].
  destruct (Nat.eqb (e_task e) (find_task s t)); reflexivity.
Qed.

(** X1: create_energy_task with a failed allocation returns NULL and
    leaves the machine alone.  With the allocation at [a] it returns [a],
    puts an empty energy task of the thread group of [t] on [grq.tasks] and
    counts it in [grq.nr_tasks]; the energy tasks at other addresses are as
    before; find_energy_task answers [a] for every thread of that thread
    group and as before for the threads of other groups; and, when [a] was
    not in use and [grq.nr_tasks] a u32, free_energy_task of the new task
    gives back the machine before the call. *)
Theorem create_find_free_round_trip (a : eaddr) (t : tid) (s : state) :
  let s1 := snd (create_energy_task (Some a) t s) in
  create_energy_task None t s = (None, s)
  /\ fst (create_energy_task (Some a) t s) = Some a
  /\ nr_tasks (grq s1) = u32 (nr_tasks (grq s) + 1)
  /\ get_etask a s1
     = Some {| e_addr := a; e_state := 0; e_task := find_task s t;
               e_domain := cpumask_clear; e_runnable := [];
               e_nr_runnable := 0; e_start_running := 0 |}
  /\ (forall a', a' <> a -> get_etask a' s1 = get_etask a' s)
  /\ (forall t', find_task s t' = find_task s t ->
        find_energy_task s1 t' = Some a)
  /\ (forall t', find_task s t' <> find_task s t ->
        find_energy_task s1 t' = find_energy_task s t')
  /\ (fresh (Some a) s -> is_u32 (nr_tasks (grq s)) ->
        free_energy_task a s1 = s).
Proof.
  intros s1. subst s1. cbn [create_energy_task fst snd].
  split; [reflexivity |]. split; [reflexivity |]. split; [reflexivity |].
  split.
  { unfold get_etask. cbn. rewrite Nat.eqb_refl. reflexivity. }
  split.
  { intros a' Hne. unfold get_etask. cbn [enqueue_energy_task set_grq grq set_tasks tasks].
    apply (find_addr_other a a'); [exact Hne | reflexivity]. }
  split.
  { intros t' Ht'. rewrite find_energy_task_cons. cbn [e_task e_addr].
    rewrite Ht', Nat.eqb_refl. reflexivity. }
  split.
  { intros t' Ht'. rewrite find_energy_task_cons. cbn [e_task e_addr].
    destruct (Nat.eqb_spec (find_task s t) (find_task s t')) as [E | _]; [| reflexivity].
    exfalso. apply Ht'. symmetry. exact E. }
  intros Hfresh Hn.
  unfold free_energy_task, dequeue_energy_task, enqueue_energy_task.
  cbn. rewrite Nat.eqb_refl. cbn [negb].
  rewrite filter_fresh_addr by (apply Hfresh; reflexivity).
  rewrite u32_succ_pred by exact Hn.
  destruct s as [n g c i th r]. destruct g. reflexivity.
Qed.

Lemma create_find_free_round_trip_witness :
  free_energy_task 10 (snd (create_energy_task (Some 10%nat) 2 boot_machine)) = boot_machine
  /\ find_energy_task (snd (create_energy_task (Some 10%nat) 2 boot_machine)) 1 = Some 10%nat.
Proof.
  pose proof (create_find_free_round_trip 10 2 boot_machine) as H. cbv zeta in H.
  destruct H as [_ [_ [_ [_ [_ [Hfind [_ Hfree]]]]]]].
  split.
  - apply Hfree; [intros a _ [] | unfold is_u32; cbn; lia].
  - apply Hfind. reflexivity.
Defined.

End TaskLookup.

(** ** Enqueueing and dequeueing a thread *)

Section RunnableRoundTrip.

Lemma flag_set_clear x m :
  Z.land x m = 0 -> Z.land (Z.lor x m) (Z.lnot m) = x.
Proof.
  intros H. apply Z.bits_inj'. intros n Hn.
  rewrite Z.land_spec, Z.lor_spec, Z.lnot_spec by exact Hn.
  assert (Hb : Z.testbit x n && Z.testbit m n = false).
  { rewrite <- Z.land_spec, H. apply Z.bits_0. }
  destruct (Z.testbit x n), (Z.testbit m n); try reflexivity; discriminate.
Qed.

Lemma inc_dec_nr_running r :
  is_u32 (rq_nr_running r) -> is_u32 (en_nr_assigned r) ->
  __dec_nr_running (__inc_nr_running r) = r.
Proof.
  intros Hn Ha. destruct r as [n ck ckt cu fl dom run nrr asg blk cur cet idl].
  cbn in Hn, Ha. unfold __dec_nr_running, __inc_nr_running, add_nr_running, sub_nr_running.
  destruct blk; cbn; rewrite ?u32_succ_pred by assumption; reflexivity.
Qed.

Lemma thread_eta th :
  {| ee_state := ee_state th; t_cpu := t_cpu th; cpus_allowed := cpus_allowed th;
     group_leader := group_leader th; in_energy_class := in_energy_class th;
     need_resched := need_resched th; se_exec_start := se_exec_start th;
     se_sum_exec_runtime := se_sum_exec_runtime th;
     se_prev_sum_exec_runtime := se_prev_sum_exec_runtime th;
     e_statistics := e_statistics th |} = th.
Proof. destruct th. reflexivity. Qed.

Lemma get_etask_upd_etask a g e s :
  (forall x, e_addr (g x) = e_addr x) ->
  get_etask a s = Some e -> get_etask a (upd_etask a g s) = Some (g e).
Proof.
  intros Hg. unfold get_etask, upd_etask. cbn.
  induction (tasks (grq s)) as [| x l IH]; [discriminate |].
  cbn. destruct (Nat.eqb (e_addr x) a) eqn:Ex.
  - intros He. injection He as <-. cbn. rewrite Hg, Ex. reflexivity.
  - rewrite Ex. exact IH.
Qed.

Lemma thread_set_clear th :
  Z.land (ee_state th) THREAD_RQ_QUEUED = 0 ->
  set_ee_state
    (Z.land (ee_state (set_ee_state (Z.lor (ee_state th) THREAD_RQ_RUNNABLE) th))
            (Z.lnot THREAD_RQ_RUNNABLE))
    (set_ee_state (Z.lor (ee_state th) THREAD_RQ_RUNNABLE) th) = th.
Proof.
  intros H. destruct th. cbn in *. unfold set_ee_state. cbn.
  rewrite flag_set_clear by exact H. reflexivity.
Qed.

(** X2: enqueue_runnable of a thread that is not marked queued
    marks it, puts it at the head of the runnable list of the energy task
    and counts it in the task and in [grq.nr_threads]; a second
    enqueue_runnable is a BUG.  dequeue_runnable after it gives back the
    global run queue, every thread and every run queue as they were before
    the enqueue, and a second dequeue_runnable is a BUG.  The run queue
    passed to enqueue_runnable is the one of the thread's CPU, as at the
    call of the hook; the thread is on no runnable list before and the
    counters are in the u32 range. *)
Theorem enqueue_dequeue_runnable_round_trip (c : cpu_id) (a : eaddr) (t : tid)
    (s : state) :
  thread_on_rq_queued (threads s t) = false ->
  (forall e, In e (tasks (grq s)) ->
     ~ In t (e_runnable e) /\ is_u32 (e_nr_runnable e)) ->
  task_cpu s t = c ->
  is_u32 (nr_threads (grq s)) ->
  is_u32 (rq_nr_running (rqs s c)) -> is_u32 (en_nr_assigned (rqs s c)) ->
  exists s1 s2,
    enqueue_runnable c a t s = Some s1
    /\ thread_on_rq_queued (threads s1 t) = true
    /\ (forall e, get_etask a s = Some e ->
          get_etask a s1
          = Some (set_e_runnable (t :: e_runnable e) (u32 (e_nr_runnable e + 1)) e))
    /\ nr_threads (grq s1) = u32 (nr_threads (grq s) + 1)
    /\ enqueue_runnable c a t s1 = None
    /\ dequeue_runnable a t s1 = Some s2
    /\ dequeue_runnable a t s2 = None
    /\ grq s2 = grq s
    /\ (forall t', threads s2 t' = threads s t')
    /\ (forall c', rqs s2 c' = rqs s c').
Proof.
  intros Hq Hlists Hcpu Hnt Hnr Hna.
  unfold enqueue_runnable. rewrite Hq. cbv zeta.
  match goal with
  | |- exists s1 s2, Some ?x = Some s1 /\ _ => exists x
  end.
  eexists.
  split; [reflexivity |].
  assert (Hq1 : forall x, negb (Z.land (Z.lor x THREAD_RQ_RUNNABLE) THREAD_RQ_QUEUED =? 0) = true).
  { intros x. unfold THREAD_RQ_QUEUED, THREAD_RQ_RUNNABLE.
    rewrite Z.land_lor_distr_l. change (Z.land 1 1) with 1.
    destruct (Z.eqb_spec (Z.lor (Z.land x 1) 1) 0) as [E | _]; [| reflexivity].
    apply Z.lor_eq_0_iff in E. destruct E as [_ E]. discriminate. }
  split.
  { unfold thread_on_rq_queued. cbn. unfold upd. rewrite Nat.eqb_refl. cbn. apply Hq1. }
  split.
  { intros e He.
    apply (get_etask_upd_etask a
             (fun e => set_e_runnable (t :: e_runnable e) (u32 (e_nr_runnable e + 1)) e)
             e s); [intros; reflexivity | exact He]. }
  split; [reflexivity |].
  split.
  { unfold thread_on_rq_queued. cbn. unfold upd. rewrite Nat.eqb_refl. cbn.
    rewrite Hq1. reflexivity. }
  unfold dequeue_runnable.
  match goal with
  | |- (if negb (thread_on_rq_queued ?th) then _ else _) = _ /\ _ =>
      assert (Hq2 : thread_on_rq_queued th = true)
  end.
  { unfold thread_on_rq_queued. cbn. unfold upd. rewrite Nat.eqb_refl. cbn. apply Hq1. }
  rewrite Hq2. cbn [negb]. cbv zeta.
  split; [reflexivity |].
  assert (Hstate : forall x, Z.land x THREAD_RQ_QUEUED = 0 ->
            Z.land (Z.land (Z.lor x THREAD_RQ_RUNNABLE) (Z.lnot THREAD_RQ_RUNNABLE))
                   THREAD_RQ_QUEUED = 0).
  { intros x Hx. rewrite flag_set_clear by exact Hx. exact Hx. }
  assert (Hx0 : Z.land (ee_state (threads s t)) THREAD_RQ_QUEUED = 0).
  { unfold thread_on_rq_queued in Hq. apply negb_false_iff in Hq.
    apply Z.eqb_eq. exact Hq. }
  split.
  { unfold thread_on_rq_queued. cbn. unfold upd. rewrite !Nat.eqb_refl. cbn.
    rewrite Hstate by exact Hx0. reflexivity. }
  split.
  { cbn. rewrite u32_succ_pred by exact Hnt.
    assert (Ht : forall l : list energy_task,
      (forall e, In e l -> ~ In t (e_runnable e) /\ is_u32 (e_nr_runnable e)) ->
      map (fun e => if Nat.eqb (e_addr e) a
                    then set_e_runnable (e_runnable e) (u32 (e_nr_runnable e - 1)) e
                    else e)
          (map (fun e => set_e_runnable (remove Nat.eq_dec t (e_runnable e))
                                        (e_nr_runnable e) e)
               (map (fun e => if Nat.eqb (e_addr e) a
                              then set_e_runnable (t :: e_runnable e)
                                                  (u32 (e_nr_runnable e + 1)) e
                              else e) l)) = l).
    { clear. induction l as [| e l IH]; intros H; [reflexivity |].
      cbn [map]. rewrite IH by (intros x Hx; apply H; right; exact Hx).
      f_equal. destruct (H e (or_introl eq_refl)) as [Hout Hu].
      destruct e as [ad st tk dom run nrr sr]. cbn in Hout, Hu. cbn.
      destruct (Nat.eqb ad a) eqn:Ea; cbn; rewrite ?Ea; cbn.
      - destruct (Nat.eq_dec t t) as [_ | N]; [| contradiction].
        rewrite notin_remove by exact Hout.
        rewrite u32_succ_pred by exact Hu. reflexivity.
      - rewrite notin_remove by exact Hout. reflexivity. }
    rewrite Ht by exact Hlists.
    destruct (grq s). reflexivity. }
  split.
  { intros t'. cbn [threads upd_rq set_rqs set_grq upd_thread set_threads upd_etask list_del_ee_rq].
    unfold upd. destruct (Nat.eqb_spec t' t) as [-> | _]; [| reflexivity].
    rewrite Nat.eqb_refl. apply thread_set_clear. exact Hx0. }
  intros c'. cbn. unfold task_cpu in Hcpu |- *. cbn. unfold upd.
  rewrite !Nat.eqb_refl. cbn. rewrite Hcpu. rewrite Nat.eqb_refl.
  destruct (Nat.eqb_spec c' c) as [-> | _]; [| reflexivity].
  apply inc_dec_nr_running; assumption.
Qed.

End RunnableRoundTrip.

Section RunnableRoundTripExample.

Lemma enqueue_dequeue_runnable_round_trip_witness :
  let s := snd (create_energy_task (Some 10%nat) 1 boot_machine) in
  exists s1 s2,
    enqueue_runnable 0 10 1 s = Some s1
    /\ dequeue_runnable 10 1 s1 = Some s2
    /\ grq s2 = grq s.
Proof.
  intros s.
  destruct (enqueue_dequeue_runnable_round_trip 0 10 1 s)
    as [s1 [s2 [H1 [_ [_ [_ [_ [H2 [_ [Hg _]]]]]]]]]].
  - reflexivity.
  - intros e [<- | []]. split; [intros [] | unfold is_u32; cbn; lia].
  - reflexivity.
  - unfold is_u32; cbn; lia.
  - unfold is_u32; cbn; lia.
  - unfold is_u32; cbn; lia.
  - exists s1, s2. split; [exact H1 |]. split; [exact H2 | exact Hg].
Defined.

End RunnableRoundTripExample.

(** ** What the functions of the class leave to the host *)

Section HostFrames.

Lemma rq_frame_refl r : rq_frame r r.
Proof. repeat split; try reflexivity. intros f H. exact H. Qed.

Lemma rq_frame_trans r1 r2 r3 : rq_frame r1 r2 -> rq_frame r2 r3 -> rq_frame r1 r3.
Proof.
  intros [A1 [A2 [A3 [A4 [A5 A6]]]]] [B1 [B2 [B3 [B4 [B5 B6]]]]].
  repeat split; try congruence. intros f H. apply B6, A6, H.
Qed.

Lemma thread_frame_refl t : thread_frame t t.
Proof. repeat split; reflexivity. Qed.

Lemma thread_frame_trans t1 t2 t3 :
  thread_frame t1 t2 -> thread_frame t2 t3 -> thread_frame t1 t3.
Proof. intros [A1 [A2 A3]] [B1 [B2 B3]]. repeat split; congruence. Qed.

Lemma host_frame_refl s : host_frame s s.
Proof.
  split; [reflexivity |]. split; [reflexivity |].
  split; intros x; [apply rq_frame_refl | apply thread_frame_refl].
Qed.

Lemma host_frame_trans s1 s2 s3 :
  host_frame s1 s2 -> host_frame s2 s3 -> host_frame s1 s3.
Proof.
  intros [A1 [A2 [A3 A4]]] [B1 [B2 [B3 B4]]].
  split; [congruence |]. split; [congruence |].
  split; intros x;
    [apply (rq_frame_trans _ _ _ (A3 x) (B3 x))
    | apply (thread_frame_trans _ _ _ (A4 x) (B4 x))].
Qed.

Lemma leaf_frame_refl s : leaf_frame s s.
Proof. split; [apply host_frame_refl | reflexivity]. Qed.

Lemma leaf_frame_trans s1 s2 s3 :
  leaf_frame s1 s2 -> leaf_frame s2 s3 -> leaf_frame s1 s3.
Proof.
  intros [A1 A2] [B1 B2].
  split; [apply (host_frame_trans _ _ _ A1 B1) | congruence].
Qed.

Lemma lf_upd_rq s x c g :
  rq_frame (rqs x c) (g (rqs x c)) ->
  leaf_frame s x -> leaf_frame s (upd_rq c g x).
Proof.
  intros Hg [[H1 [H2 [H3 H4]]] H5].
  split; [| exact H5]. split; [exact H1 |]. split; [exact H2 |].
  split; [| exact H4]. intros c'. cbn. unfold upd.
  destruct (Nat.eqb_spec c' c) as [-> | _]; [| apply H3].
  apply (rq_frame_trans _ _ _ (H3 c) Hg).
Qed.

Lemma lf_set_rqs s x g :
  (forall c, rq_frame (rqs x c) (g c)) ->
  leaf_frame s x -> leaf_frame s (set_rqs g x).
Proof.
  intros Hg [[H1 [H2 [H3 H4]]] H5].
  split; [| exact H5]. split; [exact H1 |]. split; [exact H2 |].
  split; [| exact H4]. intros c. apply (rq_frame_trans _ _ _ (H3 c) (Hg c)).
Qed.

Lemma lf_upd_thread s x t f :
  thread_frame (threads x t) (f (threads x t)) ->
  leaf_frame s x -> leaf_frame s (upd_thread t f x).
Proof.
  intros Hf [[H1 [H2 [H3 H4]]] H5].
  split; [| exact H5]. split; [exact H1 |]. split; [exact H2 |].
  split; [exact H3 |]. intros t'. cbn. unfold upd.
  destruct (Nat.eqb_spec t' t) as [-> | _]; [| apply H4].
  apply (thread_frame_trans _ _ _ (H4 t) Hf).
Qed.

Lemma lf_upd_etask s x a g :
  leaf_frame s x -> leaf_frame s (upd_etask a g x).
Proof. intros H. exact H. Qed.

Lemma lf_set_grc s x c : leaf_frame s x -> leaf_frame s (set_grc c x).
Proof. intros H. exact H. Qed.

Lemma lf_set_running s x r a b :
  leaf_frame s x -> leaf_frame s (set_grq (set_running r a b (grq x)) x).
Proof. intros H. exact H. Qed.

Lemma lf_set_nr_threads s x n :
  leaf_frame s x -> leaf_frame s (set_grq (set_nr_threads n (grq x)) x).
Proof. intros H. exact H. Qed.

Lemma lf_list_del_ee_rq s x t :
  leaf_frame s x -> leaf_frame s (list_del_ee_rq t x).
Proof. intros H. exact H. Qed.

Lemma lf_if s (b : bool) x y :
  leaf_frame s x -> leaf_frame s y -> leaf_frame s (if b then x else y).
Proof. destruct b; auto. Qed.

Lemma lf_fold_left {A} (body : state -> A -> state) l : forall s x,
  (forall y a, leaf_frame s y -> leaf_frame s (body y a)) ->
  leaf_frame s x -> leaf_frame s (fold_left body l x).
Proof.
  induction l as [| a l IH]; intros s x Hbody Hx; [exact Hx |].
  cbn. apply IH; [exact Hbody |]. apply Hbody. exact Hx.
Qed.

Lemma lf_fold_opt {A} (body : A -> state -> option state) l : forall s x x',
  (forall y y' a, body a y = Some y' -> leaf_frame s y -> leaf_frame s y') ->
  fold_opt body l x = Some x' ->
  leaf_frame s x -> leaf_frame s x'.
Proof.
  induction l as [| a l IH]; intros s x x' Hbody Hf Hx; cbn in Hf.
  - injection Hf as <-. exact Hx.
  - destruct (body a x) as [y |] eqn:E; [| discriminate].
    apply (IH s y x' Hbody Hf). apply (Hbody x y a E Hx).
Qed.

Lemma rq_frame_inc r : rq_frame r (__inc_nr_running r).
Proof.
  unfold rq_frame.
  repeat (split; [unfold __inc_nr_running; destruct (en_blocked r); reflexivity |]).
  intros f. apply inc_nr_running_accounted.
Qed.

Lemma rq_frame_dec r : rq_frame r (__dec_nr_running r).
Proof.
  unfold rq_frame.
  repeat (split; [unfold __dec_nr_running; destruct (en_blocked r); reflexivity |]).
  intros f. apply dec_nr_running_accounted.
Qed.

Lemma rq_frame_acquire r : en_blocked r = true -> rq_frame r (__acquire_cpu r).
Proof.
  intros Hb. unfold rq_frame. repeat (split; [reflexivity |]).
  intros f. apply acquire_cpu_accounted. exact Hb.
Qed.

Lemma rq_frame_release r : en_blocked r = false -> rq_frame r (__release_cpu r).
Proof.
  intros Hb. unfold rq_frame. repeat (split; [reflexivity |]).
  intros f. apply release_cpu_accounted. exact Hb.
Qed.

Ltac rqf :=
  first [ solve [apply rq_frame_inc]
        | solve [apply rq_frame_dec]
        | solve [repeat split; try reflexivity; intros ? ?; assumption] ].

Ltac thf := solve [repeat split; reflexivity].

Ltac lf :=
  repeat first
    [ assumption
    | apply leaf_frame_refl
    | apply lf_upd_rq; [solve [rqf] |]
    | apply lf_upd_thread; [solve [thf] |]
    | apply lf_upd_etask
    | apply lf_set_grc
    | apply lf_set_running
    | apply lf_set_nr_threads
    | apply lf_list_del_ee_rq
    | apply lf_if
    | apply lf_fold_left; [intros |] ].

Lemma lf_clear_resched_curr_local s x c :
  leaf_frame s x -> leaf_frame s (clear_resched_curr_local c x).
Proof. intros H. unfold clear_resched_curr_local. solve [lf]. Qed.

Lemma lf_set_tsk_need_resched s x t :
  leaf_frame s x -> leaf_frame s (set_tsk_need_resched t x).
Proof. intros H. unfold set_tsk_need_resched. solve [lf]. Qed.

Lemma lf_resched_curr_local s x c :
  leaf_frame s x -> leaf_frame s (resched_curr_local c x).
Proof.
  intros H. unfold resched_curr_local, set_tsk_need_resched. cbv zeta. solve [lf].
Qed.

Lemma lf_update_local_statistics s x c t :
  leaf_frame s x -> leaf_frame s (update_local_statistics c t x).
Proof.
  intros H. unfold update_local_statistics. cbv zeta.
  destruct t as [t |]; [| exact H]. solve [lf].
Qed.

Lemma lf_move_local_task s x t cpu :
  leaf_frame s x -> leaf_frame s (move_local_task t cpu x).
Proof. intros H. unfold move_local_task. cbv zeta. solve [lf]. Qed.

Lemma lf_set_energy_task s x c a :
  leaf_frame s x -> leaf_frame s (set_energy_task c a x).
Proof. intros H. unfold set_energy_task. solve [lf]. Qed.

Lemma lf_set_local_task s x c t :
  leaf_frame s x -> leaf_frame s (set_local_task c t x).
Proof. intros H. unfold set_local_task. cbv zeta. solve [lf]. Qed.

Lemma lf_put_local_task s x c t :
  leaf_frame s x -> leaf_frame s (put_local_task c t x).
Proof.
  intros H. unfold put_local_task. cbv zeta.
  apply lf_upd_rq; [solve [rqf] |]. apply lf_upd_thread; [solve [thf] |].
  apply lf_update_local_statistics. exact H.
Qed.

Lemma lf_acquire_cpus s x d :
  leaf_frame s x -> leaf_frame s (acquire_cpus d x).
Proof.
  intros H. unfold acquire_cpus. apply lf_fold_left; [| exact H].
  intros y cpu Hy. destruct (en_blocked (rqs y cpu)) eqn:Hb; [| exact Hy].
  apply lf_upd_rq; [apply rq_frame_acquire; exact Hb | exact Hy].
Qed.

Lemma lf_release_cpus s x d :
  leaf_frame s x -> leaf_frame s (release_cpus d x).
Proof.
  intros H. unfold release_cpus. apply lf_fold_left; [| exact H].
  intros y cpu Hy. destruct (en_blocked (rqs y cpu)) eqn:Hb; [exact Hy |].
  cbn [negb andb]. destruct (_ =? _); [| exact Hy].
  apply lf_upd_rq; [apply rq_frame_release; exact Hb | exact Hy].
Qed.

Lemma lf_check_cpus s x d :
  leaf_frame s x -> leaf_frame s (check_cpus d x).
Proof.
  intros H. unfold check_cpus. apply lf_fold_left; [| exact H].
  intros y cpu Hy. destruct (en_blocked (rqs y cpu)) eqn:Hb; cbn [negb andb].
  - destruct (_ >? _); [| exact Hy].
    apply lf_upd_rq; [apply rq_frame_acquire; exact Hb | exact Hy].
  - destruct (_ =? _); [| exact Hy].
    apply lf_upd_rq; [apply rq_frame_release; exact Hb | exact Hy].
Qed.

Lemma lf_switch_from_energy_ s x c :
  leaf_frame s x -> leaf_frame s (__switch_from_energy c x).
Proof.
  intros H. unfold __switch_from_energy. cbv zeta.
  apply lf_set_running, lf_release_cpus. exact H.
Qed.

Lemma lf_switch_to_energy_ s x c :
  leaf_frame s x -> leaf_frame s (__switch_to_energy c x).
Proof.
  intros H. unfold __switch_to_energy. cbv zeta.
  apply lf_acquire_cpus, lf_set_running. exact H.
Qed.

Lemma lf_yield_task_energy s x c :
  leaf_frame s x -> leaf_frame s (yield_task_energy c x).
Proof.
  intros H. unfold yield_task_energy. apply lf_if; [| exact H].
  apply lf_resched_curr_local. exact H.
Qed.

Lemma lf_put_prev_task s x c t :
  leaf_frame s x -> leaf_frame s (put_prev_task c t x).
Proof.
  intros H. unfold put_prev_task, put_prev_task_energy. apply lf_if; [| exact H].
  apply lf_put_local_task. exact H.
Qed.

Lemma lf_enqueue_running s x x' c t :
  enqueue_running c t x = Some x' -> leaf_frame s x -> leaf_frame s x'.
Proof.
  unfold enqueue_running. intros Hf H.
  destruct (thread_on_cpu_rq_queued (threads x t)); [discriminate |].
  injection Hf as <-. solve [lf].
Qed.

Lemma lf_dequeue_running s x x' t :
  dequeue_running t x = Some x' -> leaf_frame s x -> leaf_frame s x'.
Proof.
  unfold dequeue_running. intros Hf H.
  destruct (negb (thread_on_cpu_rq_queued (threads x t))); [discriminate |].
  injection Hf as <-. cbv zeta.
  apply lf_upd_thread; [solve [thf] |]. apply lf_upd_rq; [solve [rqf] |].
  unfold list_del_ee_cpu_rq. apply lf_set_rqs; [| exact H].
  intros c. solve [rqf].
Qed.

Lemma lf_enqueue_runnable s x x' c a t :
  enqueue_runnable c a t x = Some x' -> leaf_frame s x -> leaf_frame s x'.
Proof.
  unfold enqueue_runnable. intros Hf H.
  destruct (thread_on_rq_queued (threads x t)); [discriminate |].
  injection Hf as <-. cbv zeta. solve [lf].
Qed.

Lemma lf_dequeue_runnable s x x' a t :
  dequeue_runnable a t x = Some x' -> leaf_frame s x -> leaf_frame s x'.
Proof.
  unfold dequeue_runnable. intros Hf H.
  destruct (negb (thread_on_rq_queued (threads x t))); [discriminate |].
  injection Hf as <-. cbv zeta. solve [lf].
Qed.

Lemma lf_distribute_local_task s x x' c t :
  distribute_local_task c t x = Some x' -> leaf_frame s x -> leaf_frame s x'.
Proof.
  unfold distribute_local_task. cbv zeta. intros Hf H.
  apply (lf_enqueue_running _ _ _ _ _ Hf).
  apply lf_move_local_task, lf_clear_resched_curr_local. exact H.
Qed.

Lemma lf_distribute_thread s x x' e t :
  distribute_thread e t x = Some x' -> leaf_frame s x -> leaf_frame s x'.
Proof.
  unfold distribute_thread. intros Hf H.
  destruct (thread_on_cpu_rq_queued (threads x t)).
  - injection Hf as <-. exact H.
  - apply (lf_distribute_local_task _ _ _ _ _ Hf H).
Qed.

Lemma lf_distribute_energy_task_ s x x' a :
  __distribute_energy_task a x = Some x' -> leaf_frame s x -> leaf_frame s x'.
Proof.
  unfold __distribute_energy_task. intros Hf H.
  destruct (get_etask a x) as [e |]; [| discriminate].
  destruct (fold_opt _ _ x) as [y |] eqn:E; [| discriminate].
  injection Hf as <-.
  apply lf_fold_left.
  - intros z cpu Hz. apply lf_resched_curr_local, lf_set_energy_task. exact Hz.
  - eapply lf_fold_opt; [| exact E | exact H].
    intros z z' t Hz. apply (lf_distribute_thread _ _ _ _ _ Hz).
Qed.

Lemma lf_distribute_energy_task s x x' c a :
  distribute_energy_task c a x = Some x' -> leaf_frame s x -> leaf_frame s x'.
Proof.
  unfold distribute_energy_task. cbv zeta. intros Hf H.
  apply (lf_distribute_energy_task_ _ _ _ _ Hf). apply lf_upd_etask. exact H.
Qed.

Lemma lf_update_energy_statistics s x x' hw a :
  update_energy_statistics hw a x = Some x' -> leaf_frame s x -> leaf_frame s x'.
Proof.
  unfold update_energy_statistics, read_rapl_counters. intros Hf H.
  destruct (get_etask a x) as [e |]; [| discriminate].
  cbv zeta in Hf. cbn [fst snd] in Hf.
  repeat match type of Hf with
         | match ?o with _ => _ end = _ => destruct o; try discriminate
         end.
  injection Hf as <-. solve [lf].
Qed.

Lemma lf_clear_local_loop fuel : forall s x x' c,
  clear_local_loop fuel c x = Some x' -> leaf_frame s x -> leaf_frame s x'.
Proof.
  induction fuel as [| fuel IH]; intros s x x' c Hf H; cbn in Hf.
  - destruct (en_runnable (rqs x c)); [| discriminate]. injection Hf as <-. exact H.
  - destruct (en_runnable (rqs x c)) as [| t l]; [injection Hf as <-; exact H |].
    destruct (dequeue_running t x) as [y |] eqn:E; [| discriminate].
    apply (IH s y x' c Hf). apply (lf_dequeue_running _ _ _ _ E H).
Qed.

Lemma lf_clear_local_tasks s x x' c :
  clear_local_tasks c x = Some x' -> leaf_frame s x -> leaf_frame s x'.
Proof.
  unfold clear_local_tasks. intros Hf H.
  destruct (clear_local_loop _ c x) as [y |] eqn:E; [| discriminate].
  injection Hf as <-. cbv zeta.
  pose proof (lf_clear_local_loop _ _ _ _ _ E H) as Hy.
  apply lf_set_tsk_need_resched, lf_clear_resched_curr_local. solve [lf].
Qed.

Lemma lf_clear_energy_task s x x' a :
  clear_energy_task a x = Some x' -> leaf_frame s x -> leaf_frame s x'.
Proof.
  unfold clear_energy_task. intros Hf H.
  destruct (get_etask a x) as [e |]; [| discriminate].
  eapply lf_fold_opt; [| exact Hf | exact H].
  intros y y' c Hy. apply (lf_clear_local_tasks _ _ _ _ Hy).
Qed.

Lemma lf_pick_next_local_task s x x' c t :
  pick_next_local_task c x = Some (t, x') -> leaf_frame s x -> leaf_frame s x'.
Proof.
  unfold pick_next_local_task. cbv zeta. intros Hf H.
  destruct (negb _).
  - destruct (en_runnable _); [discriminate |]. injection Hf as _ <-.
    apply lf_set_local_task. apply lf_upd_rq; [solve [rqf] |].
    apply lf_clear_resched_curr_local. exact H.
  - destruct (en_idle _); [| discriminate]. injection Hf as _ <-.
    apply lf_set_local_task. apply lf_clear_resched_curr_local. exact H.
Qed.

Lemma lf_switch_to_energy s x x' c to :
  switch_to_energy c to x = Some x' -> leaf_frame s x -> leaf_frame s x'.
Proof.
  unfold switch_to_energy. intros Hf H. destruct to as [to |].
  - apply (lf_distribute_energy_task _ _ _ _ _ Hf), lf_switch_to_energy_. exact H.
  - injection Hf as <-. exact H.
Qed.

Lemma lf_set_curr_task_energy s x x' c :
  set_curr_task_energy c x = Some x' -> leaf_frame s x -> leaf_frame s x'.
Proof.
  unfold set_curr_task_energy. cbv zeta. intros Hf H.
  destruct (negb _).
  - destruct (enqueue_running _ _ x) as [y |] eqn:E; [| discriminate].
    injection Hf as <-. apply lf_set_local_task. apply (lf_enqueue_running _ _ _ _ _ E H).
  - injection Hf as <-. apply lf_set_local_task. exact H.
Qed.

Lemma lf_task_tick_energy s x x' c t :
  task_tick_energy c t x = Some x' -> leaf_frame s x -> leaf_frame s x'.
Proof.
  unfold task_tick_energy. cbv zeta. intros Hf H.
  destruct (should_switch_in_energy _ c) as [b |]; [| discriminate].
  match type of Hf with
  | match should_switch_local ?y c with _ => _ end = _ =>
      assert (Hy : leaf_frame s y)
  end.
  { apply lf_if; [unfold resched_curr; apply lf_set_tsk_need_resched |];
      apply lf_update_local_statistics; exact H. }
  destruct (should_switch_local _ c) as [[|] |]; [| | discriminate];
    injection Hf as <-; [apply lf_resched_curr_local |]; exact Hy.
Qed.

Lemma lf_pick_next_energy_task s x r x' :
  pick_next_energy_task x = Some (r, x') -> leaf_frame s x -> leaf_frame s x'.
Proof.
  unfold pick_next_energy_task. intros Hf H.
  destruct (pick_next_ring _) as [[r0 l'] |]; [| discriminate].
  injection Hf as _ <-. exact H.
Qed.

End HostFrames.

(** ** Properties kept by all hooks *)

Section HookChain.

Variable Inv : state -> Prop.
Variable ok_thread : tid -> Prop.
Variable ok_alloc : option eaddr -> state -> Prop.

Hypothesis Inv_leaf : forall s s',
  same_queue s s' -> leaf_frame s s' -> Inv s -> Inv s'.
Hypothesis Inv_create : forall alloc t s a s',
  Inv s -> ok_alloc alloc s -> find_energy_task s t = None ->
  create_energy_task alloc t s = (Some a, s') -> Inv s'.
Hypothesis Inv_enqueue_runnable : forall c a t s s',
  Inv s -> ok_thread t -> has_view a t s ->
  enqueue_runnable c a t s = Some s' -> Inv s'.
Hypothesis Inv_dequeue_runnable : forall a t s s',
  Inv s -> has_view a t s -> dequeue_runnable a t s = Some s' -> Inv s'.
Hypothesis Inv_free : forall a e s,
  Inv s -> get_etask a s = Some e -> e_nr_runnable e = 0 ->
  Inv (free_energy_task a s).
Hypothesis Inv_pick : forall s r s',
  Inv s -> pick_next_energy_task s = Some (r, s') -> Inv s'.

Local Abbreviation leaf s s' := (same_queue s s' /\ leaf_frame s s').

Lemma leaf_refl s : leaf s s.
Proof. split; [apply same_queue_refl | apply leaf_frame_refl]. Qed.

Lemma Inv_leaf' s s' : leaf s s' -> Inv s -> Inv s'.
Proof. intros [H1 H2]. apply Inv_leaf; assumption. Qed.

Lemma chain_put_energy_task hw a s s' :
  Inv s -> put_energy_task hw a s = Some s' -> Inv s'.
Proof.
  intros Hinv Hf. unfold put_energy_task in Hf.
  destruct (update_energy_statistics hw a s) as [s1 |] eqn:E1; [| discriminate].
  destruct (clear_energy_task a s1) as [s2 |] eqn:E2; [| discriminate].
  cbv zeta in Hf.
  set (s3 := upd_etask a _ s2) in Hf.
  assert (H3 : Inv s3).
  { apply (Inv_leaf s); [| | exact Hinv].
    - apply same_queue_upd_etask; [intros; reflexivity |].
      apply (sq_clear_energy_task _ _ _ _ E2).
      apply (sq_update_energy_statistics _ _ _ _ _ E1). apply same_queue_refl.
    - apply lf_upd_etask.
      apply (lf_clear_energy_task _ _ _ _ E2).
      apply (lf_update_energy_statistics _ _ _ _ _ E1). apply leaf_frame_refl. }
  destruct (get_etask a s3) as [e |] eqn:E3; [| discriminate].
  destruct (Z.eqb_spec (e_nr_runnable e) 0) as [Hn | _]; injection Hf as <-.
  - apply (Inv_free a e s3 H3 E3 Hn).
  - exact H3.
Qed.

Lemma chain_distribute_energy_task c a s s' :
  Inv s -> distribute_energy_task c a s = Some s' -> Inv s'.
Proof.
  intros Hinv Hf. apply (Inv_leaf s); [| | exact Hinv].
  - apply (sq_distribute_energy_task _ _ _ _ _ Hf), same_queue_refl.
  - apply (lf_distribute_energy_task _ _ _ _ _ Hf), leaf_frame_refl.
Qed.

Lemma chain_distribute_energy_task_ a s s' :
  Inv s -> __distribute_energy_task a s = Some s' -> Inv s'.
Proof.
  intros Hinv Hf. apply (Inv_leaf s); [| | exact Hinv].
  - apply (sq_distribute_energy_task_ _ _ _ _ Hf), same_queue_refl.
  - apply (lf_distribute_energy_task_ _ _ _ _ Hf), leaf_frame_refl.
Qed.

Lemma chain_switch_from_energy_ c s : Inv s -> Inv (__switch_from_energy c s).
Proof.
  intros Hinv. apply (Inv_leaf s); [| | exact Hinv].
  - apply sq_switch_from_energy_, same_queue_refl.
  - apply lf_switch_from_energy_, leaf_frame_refl.
Qed.

Lemma chain_switch_to_energy_ c s : Inv s -> Inv (__switch_to_energy c s).
Proof.
  intros Hinv. apply (Inv_leaf s); [| | exact Hinv].
  - apply sq_switch_to_energy_, same_queue_refl.
  - apply lf_switch_to_energy_, leaf_frame_refl.
Qed.

Lemma chain_switch_in_energy hw c from to s s' :
  Inv s -> switch_in_energy hw c from to s = Some s' -> Inv s'.
Proof.
  intros Hinv Hf. unfold switch_in_energy in Hf.
  assert (Hput : forall s1,
    match from with Some f => put_energy_task hw f s | None => Some s end = Some s1 ->
    Inv s1).
  { intros s1 H1. destruct from as [f |].
    - apply (chain_put_energy_task hw f s s1 Hinv H1).
    - injection H1 as <-. exact Hinv. }
  destruct (match from with Some f => put_energy_task hw f s | None => Some s end)
    as [s1 |]; [| discriminate].
  specialize (Hput s1 eq_refl). destruct to as [to |].
  - apply (chain_distribute_energy_task c to s1 s' Hput Hf).
  - injection Hf as <-. exact Hput.
Qed.

Lemma chain_switch_from_energy hw c from s s' :
  Inv s -> switch_from_energy hw c from s = Some s' -> Inv s'.
Proof.
  intros Hinv Hf. unfold switch_from_energy in Hf. destruct from as [f |].
  - destruct (put_energy_task hw f s) as [s1 |] eqn:E; [| discriminate].
    injection Hf as <-. apply chain_switch_from_energy_.
    apply (chain_put_energy_task hw f s s1 Hinv E).
  - injection Hf as <-. apply chain_switch_from_energy_. exact Hinv.
Qed.

Lemma chain_switch_to_energy c to s s' :
  Inv s -> switch_to_energy c to s = Some s' -> Inv s'.
Proof.
  intros Hinv Hf. apply (Inv_leaf s); [| | exact Hinv].
  - apply (sq_switch_to_energy _ _ _ _ _ Hf), same_queue_refl.
  - apply (lf_switch_to_energy _ _ _ _ _ Hf), leaf_frame_refl.
Qed.

Lemma chain_redistribute_energy_task hw c a arrived s s' :
  Inv s -> redistribute_energy_task hw c a arrived s = Some s' -> Inv s'.
Proof.
  intros Hinv Hf. unfold redistribute_energy_task in Hf.
  destruct (get_etask a s) as [e |]; [| discriminate].
  destruct arrived.
  - cbv zeta in Hf.
    set (s1 := if running (grq s) =? 0 then __switch_to_energy c s else s) in Hf.
    assert (H1 : Inv s1).
    { unfold s1. destruct (running (grq s) =? 0); [| exact Hinv].
      apply chain_switch_to_energy_. exact Hinv. }
    destruct (negb (e_state e =? ETASK_RUNNING)).
    + apply (chain_switch_in_energy _ _ _ _ _ _ H1 Hf).
    + apply (chain_distribute_energy_task_ _ _ _ H1 Hf).
  - destruct (negb (e_nr_runnable e =? 0)).
    + apply (chain_distribute_energy_task_ _ _ _ Hinv Hf).
    + destruct (put_energy_task hw a s) as [s1 |] eqn:E; [| discriminate].
      pose proof (chain_put_energy_task hw a s s1 Hinv E) as H1.
      destruct (nr_tasks (grq s1) =? 0); injection Hf as <-; [| exact H1].
      apply chain_switch_from_energy_. exact H1.
Qed.

Lemma create_has_view alloc t s a s' :
  create_energy_task alloc t s = (Some a, s') -> has_view a t s'.
Proof.
  unfold create_energy_task. destruct alloc as [a' |]; [| discriminate].
  intros Hf. injection Hf as <- <-.
  eexists. split; [left; reflexivity |]. split; reflexivity.
Qed.

Lemma chain_enqueue_task_energy hw alloc c t s s' :
  Inv s -> ok_thread t -> ok_alloc alloc s ->
  enqueue_task_energy hw alloc c t s = Some s' -> Inv s'.
Proof.
  intros Hinv Ht Hfresh Hf. unfold enqueue_task_energy in Hf.
  assert (Hfind : forall a s1,
    match find_energy_task s t with
    | Some a => Some (a, s)
    | None => match create_energy_task alloc t s with
              | (Some a, s) => Some (a, s)
              | (None, _) => None
              end
    end = Some (a, s1) ->
    Inv s1 /\ has_view a t s1).
  { intros a s1 H1. destruct (find_energy_task s t) as [a0 |] eqn:E.
    - injection H1 as <- <-. split; [exact Hinv |].
      apply find_energy_task_view. exact E.
    - destruct (create_energy_task alloc t s) as [[a0 |] s0] eqn:Ec; [| discriminate].
      injection H1 as <- <-.
      split; [apply (Inv_create alloc t s a0 s0 Hinv Hfresh E Ec) |].
      apply (create_has_view alloc t s a0 s0 Ec). }
  destruct (match find_energy_task s t with Some a => _ | None => _ end)
    as [[a s1] |]; [| discriminate].
  destruct (Hfind a s1 eq_refl) as [H1 Hview].
  destruct (enqueue_runnable c a t s1) as [s2 |] eqn:E2; [| discriminate].
  pose proof (Inv_enqueue_runnable c a t s1 s2 H1 Ht Hview E2) as H2.
  destruct (get_etask a s2) as [e |]; [| discriminate].
  destruct (should_redistribute_energy e (threads s2 t)).
  - apply (chain_redistribute_energy_task _ _ _ _ _ _ H2 Hf).
  - injection Hf as <-. exact H2.
Qed.

Lemma chain_dequeue_task_energy hw c t s s' :
  Inv s -> dequeue_task_energy hw c t s = Some s' -> Inv s'.
Proof.
  intros Hinv Hf. unfold dequeue_task_energy in Hf.
  destruct (find_energy_task s t) as [a |] eqn:E; [| discriminate].
  assert (Hsq : forall s1,
    (if thread_on_cpu_rq_queued (threads s t) then dequeue_running t s else Some s)
    = Some s1 -> leaf s s1).
  { intros s1 H1. destruct (thread_on_cpu_rq_queued (threads s t)).
    - split; [apply (sq_dequeue_running _ _ _ _ H1), same_queue_refl
             | apply (lf_dequeue_running _ _ _ _ H1), leaf_frame_refl].
    - injection H1 as <-. apply leaf_refl. }
  destruct (if thread_on_cpu_rq_queued (threads s t) then _ else _) as [s1 |];
    [| discriminate].
  specialize (Hsq s1 eq_refl).
  destruct (dequeue_runnable a t s1) as [s2 |] eqn:E2; [| discriminate].
  assert (H2 : Inv s2).
  { apply (Inv_dequeue_runnable a t s1 s2);
      [apply (Inv_leaf' s); assumption | | exact E2].
    apply find_energy_task_view.
    rewrite (same_queue_find_energy_task s s1 t (proj1 Hsq)). exact E. }
  destruct (get_etask a s2) as [e |]; [| discriminate].
  destruct (should_redistribute_energy e (threads s2 t)).
  - apply (chain_redistribute_energy_task _ _ _ _ _ _ H2 Hf).
  - injection Hf as <-. exact H2.
Qed.

Lemma chain_pick_next_task_energy hw c prev s r s' :
  Inv s -> pick_next_task_energy hw c prev s = Some (r, s') -> Inv s'.
Proof.
  intros Hinv Hf. unfold pick_next_task_energy in Hf.
  match type of Hf with
  | match ?global with _ => _ end = _ =>
      assert (Hg : forall s1, global = Some s1 -> Inv s1);
      [| destruct global as [s1 |]; [specialize (Hg s1 eq_refl) | discriminate]]
  end.
  { intros s1 H1. destruct (running (grq s) =? 0).
    - destruct (should_switch_to_energy s c).
      + destruct (pick_next_energy_task s) as [[to s0] |] eqn:E; [| discriminate].
        apply (chain_switch_to_energy c to s0 s1); [| exact H1].
        apply (Inv_pick s to s0 Hinv E).
      + destruct (should_check_cpus s); injection H1 as <-; [| exact Hinv].
        apply (Inv_leaf s); [apply sq_check_cpus, same_queue_refl
                          | apply lf_check_cpus, leaf_frame_refl | exact Hinv].
    - cbv zeta in H1. destruct (should_switch_from_energy s c).
      + apply (chain_switch_from_energy _ _ _ _ _ Hinv H1).
      + destruct (should_switch_in_energy s c) as [[|] |]; [| | discriminate].
        * destruct (pick_next_energy_task s) as [[to s0] |] eqn:E; [| discriminate].
          apply (chain_switch_in_energy hw c (en_curr_e_task (rqs s c)) to s0 s1);
            [| exact H1].
          apply (Inv_pick s to s0 Hinv E).
        * injection H1 as <-. exact Hinv. }
  destruct (need_resched_curr_local s1 c).
  - destruct (pick_next_local_task c (put_prev_task c prev s1)) as [[t s2] |] eqn:E;
      [| discriminate].
    injection Hf as _ <-. apply (Inv_leaf s1); [| | exact Hg].
    + apply (sq_pick_next_local_task _ _ _ _ _ E). apply sq_put_prev_task, same_queue_refl.
    + apply (lf_pick_next_local_task _ _ _ _ _ E). apply lf_put_prev_task, leaf_frame_refl.
  - injection Hf as _ <-. exact Hg.
Qed.

Lemma chain_simple_hooks s :
  Inv s ->
  (forall c, Inv (yield_task_energy c s))
  /\ (forall c t, Inv (put_prev_task_energy c t s))
  /\ (forall c s', set_curr_task_energy c s = Some s' -> Inv s')
  /\ (forall c t s', task_tick_energy c t s = Some s' -> Inv s')
  /\ (forall c, Inv (update_curr_energy c s)).
Proof.
  intros Hinv.
  split; [intros c; apply (Inv_leaf s);
          [apply sq_yield_task_energy, same_queue_refl
          | apply lf_yield_task_energy, leaf_frame_refl | exact Hinv] |].
  split; [intros c t; unfold put_prev_task_energy; apply (Inv_leaf s);
          [apply sq_put_local_task, same_queue_refl
          | apply lf_put_local_task, leaf_frame_refl | exact Hinv] |].
  split; [intros c s' Hf; apply (Inv_leaf s);
          [apply (sq_set_curr_task_energy _ _ _ _ Hf), same_queue_refl
          | apply (lf_set_curr_task_energy _ _ _ _ Hf), leaf_frame_refl | exact Hinv] |].
  split; [intros c t s' Hf; apply (Inv_leaf s);
          [apply (sq_task_tick_energy _ _ _ _ _ Hf), same_queue_refl
          | apply (lf_task_tick_energy _ _ _ _ _ Hf), leaf_frame_refl | exact Hinv] |].
  intros c. unfold update_curr_energy. apply (Inv_leaf s);
    [apply sq_update_local_statistics, same_queue_refl
    | apply lf_update_local_statistics, leaf_frame_refl | exact Hinv].
Qed.

End HookChain.

(** ** The hooks and the host *)

Section HostOwnership.

Lemma host_frame_leaf s x x' :
  same_queue x x' -> leaf_frame x x' -> host_frame s x -> host_frame s x'.
Proof. intros _ [H _] Hs. apply (host_frame_trans _ _ _ Hs H). Qed.

Lemma host_frame_create s alloc t x a x' :
  host_frame s x -> True -> find_energy_task x t = None ->
  create_energy_task alloc t x = (Some a, x') -> host_frame s x'.
Proof.
  intros Hs _ _ Hf. unfold create_energy_task in Hf.
  destruct alloc as [a' |]; [| discriminate]. injection Hf as _ <-. exact Hs.
Qed.

Lemma host_frame_enqueue_runnable s c a t x x' :
  host_frame s x -> True -> has_view a t x ->
  enqueue_runnable c a t x = Some x' -> host_frame s x'.
Proof.
  intros Hs _ _ Hf. apply (host_frame_trans _ _ _ Hs).
  apply (lf_enqueue_runnable _ _ _ _ _ _ Hf), leaf_frame_refl.
Qed.

Lemma host_frame_dequeue_runnable s a t x x' :
  host_frame s x -> has_view a t x ->
  dequeue_runnable a t x = Some x' -> host_frame s x'.
Proof.
  intros Hs _ Hf. apply (host_frame_trans _ _ _ Hs).
  apply (lf_dequeue_runnable _ _ _ _ _ Hf), leaf_frame_refl.
Qed.

Lemma host_frame_free s a e x :
  host_frame s x -> get_etask a x = Some e -> e_nr_runnable e = 0 ->
  host_frame s (free_energy_task a x).
Proof. intros Hs _ _. exact Hs. Qed.

Lemma host_frame_pick s x r x' :
  host_frame s x -> pick_next_energy_task x = Some (r, x') -> host_frame s x'.
Proof.
  intros Hs Hf. apply (host_frame_trans _ _ _ Hs).
  apply (lf_pick_next_energy_task _ _ _ _ Hf), leaf_frame_refl.
Qed.

Lemma hook_step_host_frame s s' : hook_step s s' -> host_frame s s'.
Proof.
  intros Hstep.
  destruct Hstep as [hw alloc c t s s' Hf | hw c t s s' Hf
                    | hw c prev s r s' Hf | c s | c t s | c s s' Hf | c t s s' Hf
                    | c s].
  - apply (chain_enqueue_task_energy (host_frame s) (fun _ => True) (fun _ _ => True)
             (host_frame_leaf s) (host_frame_create s) (host_frame_enqueue_runnable s)
             (host_frame_free s) hw alloc c t s s' (host_frame_refl s) I I Hf).
  - apply (chain_dequeue_task_energy (host_frame s)
             (host_frame_leaf s) (host_frame_dequeue_runnable s)
             (host_frame_free s) hw c t s s' (host_frame_refl s) Hf).
  - apply (chain_pick_next_task_energy (host_frame s)
             (host_frame_leaf s) (host_frame_free s) (host_frame_pick s)
             hw c prev s r s' (host_frame_refl s) Hf).
  - apply (chain_simple_hooks (host_frame s) (host_frame_leaf s) s (host_frame_refl s)).
  - apply (chain_simple_hooks (host_frame s) (host_frame_leaf s) s (host_frame_refl s)).
  - destruct (chain_simple_hooks (host_frame s) (host_frame_leaf s) s (host_frame_refl s))
      as [_ [_ [H _]]]. apply (H c s' Hf).
  - destruct (chain_simple_hooks (host_frame s) (host_frame_leaf s) s (host_frame_refl s))
      as [_ [_ [_ [H _]]]]. apply (H c t s' Hf).
  - apply (chain_simple_hooks (host_frame s) (host_frame_leaf s) s (host_frame_refl s)).
Qed.

(** X3: no hook of the scheduling class changes what a run queue
    holds of other classes: when [rq->nr_running] of a CPU accounts for
    [foreign] threads beside the assigned threads of the class before a
    hook that returns, it does so after it. *)
Theorem hooks_keep_foreign_load (s s' : state) (c : cpu_id) (foreign : Z) :
  hook_step s s' ->
  accounted foreign (rqs s c) -> accounted foreign (rqs s' c).
Proof.
  intros Hstep. destruct (hook_step_host_frame s s' Hstep) as [_ [_ [Hrq _]]].
  destruct (Hrq c) as [_ [_ [_ [_ [_ H]]]]]. apply H.
Qed.

(** X4: a hook that returns leaves to the host what is the host's:
    the number of CPUs, the RAPL parameters in [gri], of every run queue
    its clocks, [rq->curr], its energy domain and its idle thread, and of
    every thread its group leader, its affinity mask and its scheduling
    class. *)
Theorem hooks_leave_host_fields (s s' : state) :
  hook_step s s' ->
  nr_cpu_ids s' = nr_cpu_ids s
  /\ gri s' = gri s
  /\ (forall c,
        rq_clock (rqs s' c) = rq_clock (rqs s c)
        /\ rq_clock_task (rqs s' c) = rq_clock_task (rqs s c)
        /\ rq_curr (rqs s' c) = rq_curr (rqs s c)
        /\ en_domain (rqs s' c) = en_domain (rqs s c)
        /\ en_idle (rqs s' c) = en_idle (rqs s c))
  /\ (forall t,
        group_leader (threads s' t) = group_leader (threads s t)
        /\ cpus_allowed (threads s' t) = cpus_allowed (threads s t)
        /\ in_energy_class (threads s' t) = in_energy_class (threads s t)).
Proof.
  intros Hstep. destruct (hook_step_host_frame s s' Hstep) as [H1 [H2 [Hrq Hth]]].
  split; [exact H1 |]. split; [exact H2 |].
  split.
  - intros c. destruct (Hrq c) as [A1 [A2 [A3 [A4 [A5 _]]]]].
    repeat split; assumption.
  - intros t. apply Hth.
Qed.

End HostOwnership.

Section Alternation.

Variable t0 : tid.
Variable b : bool.

Local Abbreviation flag_is s := (thread_on_rq_queued (threads s t0) = b).

Lemma flag_leaf s s' : same_queue s s' -> leaf_frame s s' -> flag_is s -> flag_is s'.
Proof. intros [_ [_ [Hq _]]] _ H. rewrite Hq. exact H. Qed.

Lemma flag_free a e s :
  flag_is s -> get_etask a s = Some e -> e_nr_runnable e = 0 ->
  flag_is (free_energy_task a s).
Proof. intros H _ _. exact H. Qed.

Lemma flag_redistribute hw c a arrived s s' :
  flag_is s -> redistribute_energy_task hw c a arrived s = Some s' -> flag_is s'.
Proof.
  apply (chain_redistribute_energy_task (fun x => flag_is x) flag_leaf flag_free).
Qed.

End Alternation.

Section EnqueueDequeue.

Lemma enqueue_runnable_sets_flag c a t s s' :
  enqueue_runnable c a t s = Some s' -> thread_on_rq_queued (threads s' t) = true.
Proof.
  unfold enqueue_runnable. destruct (thread_on_rq_queued (threads s t)); [discriminate |].
  intros Hf. injection Hf as <-.
  unfold thread_on_rq_queued. cbn. unfold upd. rewrite Nat.eqb_refl. cbn.
  apply rq_queued_set.
Qed.

Lemma dequeue_runnable_clears_flag a t s s' :
  dequeue_runnable a t s = Some s' -> thread_on_rq_queued (threads s' t) = false.
Proof.
  unfold dequeue_runnable.
  destruct (negb (thread_on_rq_queued (threads s t))); [discriminate |].
  intros Hf. injection Hf as <-.
  unfold thread_on_rq_queued. cbn. unfold upd. rewrite Nat.eqb_refl. cbn.
  apply rq_queued_cleared.
Qed.

Lemma enqueue_queued_is_bug hw alloc c t s :
  thread_on_rq_queued (threads s t) = true ->
  enqueue_task_energy hw alloc c t s = None.
Proof.
  intros Hq. unfold enqueue_task_energy.
  destruct (find_energy_task s t) as [a |].
  - unfold enqueue_runnable. rewrite Hq. reflexivity.
  - unfold create_energy_task. destruct alloc as [a |]; [| reflexivity].
    unfold enqueue_runnable.
    change (threads (enqueue_energy_task _ s) t) with (threads s t).
    rewrite Hq. reflexivity.
Qed.

Lemma dequeue_unqueued_is_bug hw c t s :
  thread_on_rq_queued (threads s t) = false ->
  dequeue_task_energy hw c t s = None.
Proof.
  intros Hq. unfold dequeue_task_energy.
  destruct (find_energy_task s t) as [a |]; [| reflexivity].
  destruct (thread_on_cpu_rq_queued (threads s t)).
  - destruct (dequeue_running t s) as [s1 |] eqn:E; [| reflexivity].
    pose proof (sq_dequeue_running s s s1 t E (same_queue_refl s)) as [_ [_ [Hf _]]].
    unfold dequeue_runnable. rewrite Hf, Hq. reflexivity.
  - unfold dequeue_runnable. rewrite Hq. reflexivity.
Qed.

Lemma enqueue_task_energy_sets_flag hw alloc c t s s' :
  enqueue_task_energy hw alloc c t s = Some s' ->
  thread_on_rq_queued (threads s' t) = true.
Proof.
  unfold enqueue_task_energy. intros Hf.
  destruct (match find_energy_task s t with Some a => _ | None => _ end)
    as [[a s1] |]; [| discriminate].
  destruct (enqueue_runnable c a t s1) as [s2 |] eqn:E2; [| discriminate].
  pose proof (enqueue_runnable_sets_flag _ _ _ _ _ E2) as H2.
  destruct (get_etask a s2) as [e |]; [| discriminate].
  destruct (should_redistribute_energy e (threads s2 t)).
  - apply (flag_redistribute t true _ _ _ _ _ _ H2 Hf).
  - injection Hf as <-. exact H2.
Qed.

Lemma dequeue_task_energy_clears_flag hw c t s s' :
  dequeue_task_energy hw c t s = Some s' ->
  thread_on_rq_queued (threads s' t) = false.
Proof.
  unfold dequeue_task_energy. intros Hf.
  destruct (find_energy_task s t) as [a |]; [| discriminate].
  destruct (if thread_on_cpu_rq_queued (threads s t) then _ else _) as [s1 |];
    [| discriminate].
  destruct (dequeue_runnable a t s1) as [s2 |] eqn:E2; [| discriminate].
  pose proof (dequeue_runnable_clears_flag _ _ _ _ E2) as H2.
  destruct (get_etask a s2) as [e |]; [| discriminate].
  destruct (should_redistribute_energy e (threads s2 t)).
  - apply (flag_redistribute t false _ _ _ _ _ _ H2 Hf).
  - injection Hf as <-. exact H2.
Qed.

(** X5: enqueue_task_energy of a thread that is marked queued and
    dequeue_task_energy of a thread that is not are a BUG; an enqueue that
    returns leaves the thread marked and a dequeue that returns leaves it
    unmarked.  So on one thread the two hooks can only alternate: straight
    after an enqueue every further enqueue fails, straight after a dequeue
    every further dequeue. *)
Theorem enqueue_dequeue_alternate (t : tid) :
  (forall hw alloc c s,
     thread_on_rq_queued (threads s t) = true ->
     enqueue_task_energy hw alloc c t s = None)
  /\ (forall hw c s,
        thread_on_rq_queued (threads s t) = false ->
        dequeue_task_energy hw c t s = None)
  /\ (forall hw alloc c s s',
        enqueue_task_energy hw alloc c t s = Some s' ->
        thread_on_rq_queued (threads s' t) = true
        /\ forall hw' alloc' c', enqueue_task_energy hw' alloc' c' t s' = None)
  /\ (forall hw c s s',
        dequeue_task_energy hw c t s = Some s' ->
        thread_on_rq_queued (threads s' t) = false
        /\ forall hw' c', dequeue_task_energy hw' c' t s' = None).
Proof.
  split; [intros; apply enqueue_queued_is_bug; assumption |].
  split; [intros; apply dequeue_unqueued_is_bug; assumption |].
  split.
  - intros hw alloc c s s' Hf.
    pose proof (enqueue_task_energy_sets_flag _ _ _ _ _ _ Hf) as Hq.
    split; [exact Hq |]. intros. apply enqueue_queued_is_bug. exact Hq.
  - intros hw c s s' Hf.
    pose proof (dequeue_task_energy_clears_flag _ _ _ _ _ Hf) as Hq.
    split; [exact Hq |]. intros. apply dequeue_unqueued_is_bug. exact Hq.
Qed.

Lemma enqueue_dequeue_alternate_witness :
  let s1 := state_of (enqueue_task_energy demo_sample (Some 10%nat) 0 1 boot_machine) in
  enqueue_task_energy demo_sample (Some 10%nat) 0 1 boot_machine = Some s1
  /\ thread_on_rq_queued (threads s1 1) = true
  /\ enqueue_task_energy demo_sample (Some 11%nat) 1 1 s1 = None
  /\ dequeue_task_energy demo_sample 0 1 boot_machine = None.
Proof.
  intros s1.
  assert (H1 : enqueue_task_energy demo_sample (Some 10%nat) 0 1 boot_machine = Some s1)
    by (vm_compute; reflexivity).
  destruct (enqueue_dequeue_alternate 1) as [_ [Hd [He _]]].
  destruct (He _ _ _ _ _ H1) as [Hq Hbug].
  split; [exact H1 |]. split; [exact Hq |]. split; [apply Hbug |].
  apply Hd. reflexivity.
Defined.

End EnqueueDequeue.

Section HostOwnershipExamples.

Lemma hooks_keep_foreign_load_witness :
  let s' := state_of (option_map snd (pick_next_task_energy demo_sample 1 0 lending_machine)) in
  en_runnable (rqs s' 0) = [4; 1]%nat
  /\ rq_nr_running (rqs s' 0) = 3
  /\ accounted 1 (rqs s' 0).
Proof.
  intros s'.
  split; [vm_compute; reflexivity |]. split; [vm_compute; reflexivity |].
  apply (hooks_keep_foreign_load lending_machine s' 0 1).
  - apply (hook_pick_next demo_sample 1%nat 0%nat lending_machine
             (fst (match pick_next_task_energy demo_sample 1 0 lending_machine with
                   | Some p => p | None => (None, lending_machine) end))).
    vm_compute. reflexivity.
  - reflexivity.
Defined.

Lemma hooks_leave_host_fields_witness :
  let s' := state_of (enqueue_task_energy demo_sample (Some 10%nat) 0 1 boot_machine) in
  en_domain (rqs s' 1) = 3 /\ cpus_allowed (threads s' 1) = 3.
Proof.
  intros s'.
  destruct (hooks_leave_host_fields boot_machine s') as [_ [_ [Hrq Hth]]].
  - apply (hook_enqueue demo_sample (Some 10%nat) 0%nat 1%nat). vm_compute. reflexivity.
  - destruct (Hrq 1%nat) as [_ [_ [_ [Hd _]]]]. destruct (Hth 1%nat) as [_ [Ha _]].
    split; [rewrite Hd | rewrite Ha]; reflexivity.
Defined.

End HostOwnershipExamples.

(** ** The list of energy tasks on reachable machines *)

Section TaskCount.

Variable max_threads : nat.
Hypothesis max_threads_u32 : Z.of_nat max_threads < 2 ^ 32.

Local Abbreviation ring_inv s := (grq_inv max_threads s /\ tasks_counted s).

Lemma same_queue_length s s' :
  same_queue s s' -> length (tasks (grq s')) = length (tasks (grq s)).
Proof.
  intros [Hv _]. unfold views in Hv.
  rewrite <- (length_map e_view (tasks (grq s'))), Hv. apply length_map.
Qed.

Lemma ring_inv_leaf s s' :
  same_queue s s' -> leaf_frame s s' -> ring_inv s -> ring_inv s'.
Proof.
  intros Hsq [_ Hn] [Hinv Hc].
  split; [apply (grq_inv_same_queue max_threads s s' Hsq Hinv) |].
  unfold tasks_counted in *. rewrite Hn, (same_queue_length s s' Hsq). exact Hc.
Qed.

Lemma u32_succ n : u32 (u32 n + 1) = u32 (n + 1).
Proof. unfold u32. apply Zplus_mod_idemp_l. Qed.

Lemma u32_pred n : u32 (u32 (n + 1) - 1) = u32 n.
Proof.
  unfold u32. rewrite Zminus_mod_idemp_l. f_equal. lia.
Qed.

Lemma ring_inv_create alloc t s a s' :
  ring_inv s -> fresh alloc s -> find_energy_task s t = None ->
  create_energy_task alloc t s = (Some a, s') -> ring_inv s'.
Proof.
  intros [Hinv Hc] Hfresh Hnone Hf.
  split; [apply (create_energy_task_inv max_threads alloc t s a s' Hinv Hfresh Hnone Hf) |].
  unfold create_energy_task in Hf. destruct alloc as [a' |]; [| discriminate].
  injection Hf as _ <-. unfold tasks_counted in *. cbn. rewrite Hc, u32_succ.
  f_equal. lia.
Qed.

Lemma ring_inv_enqueue_runnable c a t s s' :
  ring_inv s -> (t < max_threads)%nat -> has_view a t s ->
  enqueue_runnable c a t s = Some s' -> ring_inv s'.
Proof.
  intros [Hinv Hc] Ht Hview Hf.
  split; [apply (enqueue_runnable_inv max_threads max_threads_u32 c a t s s' Hinv Ht Hview Hf) |].
  unfold enqueue_runnable in Hf.
  destruct (thread_on_rq_queued (threads s t)); [discriminate |].
  injection Hf as <-. unfold tasks_counted in *. cbn. rewrite length_map. exact Hc.
Qed.

Lemma ring_inv_dequeue_runnable a t s s' :
  ring_inv s -> has_view a t s ->
  dequeue_runnable a t s = Some s' -> ring_inv s'.
Proof.
  intros [Hinv Hc] Hview Hf.
  split; [apply (dequeue_runnable_inv max_threads max_threads_u32 a t s s' Hinv Hview Hf) |].
  unfold dequeue_runnable in Hf.
  destruct (negb (thread_on_rq_queued (threads s t))); [discriminate |].
  injection Hf as <-. unfold tasks_counted in *. cbn. rewrite !length_map. exact Hc.
Qed.

Lemma filter_addr_length a (l : list energy_task) :
  NoDup (map e_addr l) -> In a (map e_addr l) ->
  length l = S (length (filter (fun e => negb (Nat.eqb (e_addr e) a)) l)).
Proof.
  induction l as [| e l IH]; intros Hnd Hin; [destruct Hin |].
  cbn in Hnd. inversion Hnd as [| ? ? Hout Hnd']; subst. cbn [filter].
  destruct (Nat.eqb_spec (e_addr e) a) as [E | N]; cbn [negb length].
  - f_equal. f_equal. symmetry.
    clear IH Hnd Hin. rewrite E in Hout.
    induction l as [| x l IH]; [reflexivity |]. cbn.
    destruct (Nat.eqb_spec (e_addr x) a) as [Ex | _].
    + exfalso. apply Hout. left. exact Ex.
    + cbn. f_equal. apply IH.
      * intros H. apply Hout. right. exact H.
      * inversion Hnd'; assumption.
  - f_equal. apply IH; [exact Hnd' |].
    destruct Hin as [H | H]; [contradiction | exact H].
Qed.

Lemma ring_inv_free a e s :
  ring_inv s -> get_etask a s = Some e -> e_nr_runnable e = 0 ->
  ring_inv (free_energy_task a s).
Proof.
  intros [Hinv Hc] Hget Hn.
  split; [apply (free_energy_task_inv max_threads a e s Hinv Hget Hn) |].
  unfold tasks_counted in *. cbn.
  pose proof (proj1 (grq_inv_queue_inv max_threads s) Hinv) as [_ [_ [_ [_ [_ [_ [Hna _]]]]]]].
  rewrite map_addr_views in Hna.
  assert (Hin : In a (map e_addr (tasks (grq s)))).
  { unfold get_etask in Hget. apply find_some in Hget. destruct Hget as [Hin Ha].
    apply Nat.eqb_eq in Ha. rewrite <- Ha. apply in_map. exact Hin. }
  rewrite Hc, (filter_addr_length a _ Hna Hin).
  rewrite Nat2Z.inj_succ. unfold Z.succ. apply u32_pred.
Qed.

Lemma ring_inv_pick s r s' :
  ring_inv s -> pick_next_energy_task s = Some (r, s') -> ring_inv s'.
Proof.
  intros [Hinv Hc] Hf.
  split; [apply (pick_next_energy_task_inv max_threads s r s' Hinv Hf) |].
  unfold pick_next_energy_task in Hf.
  destruct (pick_next_ring (tasks (grq s))) as [[r0 l'] |] eqn:E; [| discriminate].
  injection Hf as _ <-. unfold tasks_counted in *. cbn.
  unfold pick_next_ring in E. destruct (tasks (grq s)) as [| h tl] eqn:Et; [discriminate |].
  rewrite <- (Permutation_length (pick_next_loop_perm _ _ _ _ _ E)). exact Hc.
Qed.

Lemma ring_inv_step s s' : ring_inv s -> step max_threads s s' -> ring_inv s'.
Proof.
  intros Hinv Hstep.
  destruct Hstep as [hw alloc c t s s' Ht Hfresh Hf | hw c t s s' Hf
                    | hw c prev s r s' Hf | c s | c t s | c s s' Hf | c t s s' Hf
                    | s s' Hhost].
  - apply (chain_enqueue_task_energy (fun x => ring_inv x)
             (fun t => (t < max_threads)%nat) fresh
             ring_inv_leaf ring_inv_create ring_inv_enqueue_runnable ring_inv_free
             hw alloc c t s s' Hinv Ht Hfresh Hf).
  - apply (chain_dequeue_task_energy (fun x => ring_inv x)
             ring_inv_leaf ring_inv_dequeue_runnable ring_inv_free
             hw c t s s' Hinv Hf).
  - apply (chain_pick_next_task_energy (fun x => ring_inv x)
             ring_inv_leaf ring_inv_free ring_inv_pick hw c prev s r s' Hinv Hf).
  - apply (chain_simple_hooks (fun x => ring_inv x) ring_inv_leaf s Hinv).
  - apply (chain_simple_hooks (fun x => ring_inv x) ring_inv_leaf s Hinv).
  - destruct (chain_simple_hooks (fun x => ring_inv x) ring_inv_leaf s Hinv)
      as [_ [_ [H _]]]. apply (H c s' Hf).
  - destruct (chain_simple_hooks (fun x => ring_inv x) ring_inv_leaf s Hinv)
      as [_ [_ [_ [H _]]]]. apply (H c t s' Hf).
  - destruct Hinv as [Hinv Hc].
    split; [apply (grq_inv_same_queue max_threads s s');
            [apply (sq_host_step _ _ _ Hhost), same_queue_refl | exact Hinv] |].
    destruct Hhost as [_ [Hg _]]. unfold tasks_counted in *. rewrite Hg. exact Hc.
Qed.

Lemma reachable_ring_inv s : reachable max_threads s -> ring_inv s.
Proof.
  induction 1 as [s Hinit | s s' _ IH Hstep].
  - split; [apply (initial_inv max_threads s Hinit) |].
    destruct Hinit as [Hg _]. unfold tasks_counted. rewrite Hg. reflexivity.
  - apply (ring_inv_step s s' IH Hstep).
Qed.

End TaskCount.

(** X6: on every machine reached from the initial one by the hooks
    and the host, [grq.nr_tasks] is the number of energy tasks on
    [grq.tasks], modulo 2^32.  With fewer than 2^32 energy tasks
    should_check_cpus is therefore false exactly when there is no energy
    task, and with at most one energy task should_switch_in_energy answers
    false on every CPU. *)
Theorem task_count_is_ring_length (max_threads : nat) (s : state) :
  Z.of_nat max_threads < 2 ^ 32 ->
  reachable max_threads s ->
  nr_tasks (grq s) = u32 (Z.of_nat (length (tasks (grq s))))
  /\ (Z.of_nat (length (tasks (grq s))) < 2 ^ 32 ->
      nr_tasks (grq s) = Z.of_nat (length (tasks (grq s)))
      /\ (should_check_cpus s = false <-> tasks (grq s) = [])
      /\ ((length (tasks (grq s)) <= 1)%nat ->
          forall c, should_switch_in_energy s c = Some false)).
Proof.
  intros Hmax Hr.
  destruct (reachable_ring_inv max_threads Hmax s Hr) as [_ Hc].
  unfold tasks_counted in Hc.
  split; [exact Hc |]. intros Hsmall.
  assert (He : nr_tasks (grq s) = Z.of_nat (length (tasks (grq s)))).
  { rewrite Hc. apply u32_small. unfold is_u32. lia. }
  split; [exact He |]. split.
  - unfold should_check_cpus. rewrite He. split.
    + intros H. apply negb_false_iff, Z.eqb_eq in H.
      destruct (tasks (grq s)); [reflexivity | cbn in H; lia].
    + intros ->. reflexivity.
  - intros Hle c. unfold should_switch_in_energy. rewrite He.
    destruct (Z.leb_spec (Z.of_nat (length (tasks (grq s)))) 1) as [_ | H];
      [reflexivity | lia].
Qed.

Section RingLookup.

Lemma find_unique (f : energy_task -> nat) (l : list energy_task) (x : energy_task) :
  NoDup (map f l) -> In x l ->
  find (fun y => Nat.eqb (f y) (f x)) l = Some x.
Proof.
  induction l as [| y l IH]; intros Hnd Hin; [destruct Hin |].
  cbn in Hnd. inversion Hnd as [| ? ? Hout Hnd']; subst. cbn.
  destruct Hin as [-> | Hin].
  - rewrite Nat.eqb_refl. reflexivity.
  - destruct (Nat.eqb_spec (f y) (f x)) as [E | _]; [| apply IH; assumption].
    exfalso. apply Hout. rewrite E. apply in_map. exact Hin.
Qed.

Lemma queued_threads_views s :
  queued_threads (views s) = concat (map e_runnable (tasks (grq s))).
Proof. unfold queued_threads, views. rewrite map_map. reflexivity. Qed.

Lemma NoDup_concat_in (l : list (list nat)) (x : list nat) :
  NoDup (concat l) -> In x l -> NoDup x.
Proof.
  induction l as [| y l IH]; intros Hnd Hin; [destruct Hin |].
  cbn in Hnd. destruct Hin as [-> | Hin].
  - apply (NoDup_app_remove_r _ _ Hnd).
  - apply IH; [apply (NoDup_app_remove_l _ _ Hnd) | exact Hin].
Qed.

Lemma inv_ring_facts max_threads s :
  grq_inv max_threads s ->
  Forall (fun e => e_nr_runnable e = Z.of_nat (length (e_runnable e))) (tasks (grq s))
  /\ nr_threads (grq s) = Z.of_nat (length (concat (map e_runnable (tasks (grq s)))))
  /\ NoDup (concat (map e_runnable (tasks (grq s))))
  /\ (forall t, thread_on_rq_queued (threads s t) = true
                <-> In t (concat (map e_runnable (tasks (grq s)))))
  /\ Forall (fun e => forall t, In t (e_runnable e) -> find_task s t = e_task e)
            (tasks (grq s))
  /\ NoDup (map e_task (tasks (grq s)))
  /\ NoDup (map e_addr (tasks (grq s)))
  /\ Forall (fun t => (t < max_threads)%nat) (concat (map e_runnable (tasks (grq s)))).
Proof.
  intros Hinv. apply (proj1 (grq_inv_queue_inv max_threads s)) in Hinv.
  destruct Hinv as [H1 [H2 [H3 [H4 [H5 [H6 [H7 H8]]]]]]].
  pose proof (view_sum_length max_threads _ H1) as Hsum.
  rewrite queued_threads_views in *.
  unfold views in *. rewrite map_map in H6, H7.
  split; [apply Forall_map in H1; exact H1 |].
  split; [rewrite H2; exact Hsum |].
  split; [exact H3 |]. split; [exact H4 |].
  split; [apply Forall_map in H5; exact H5 |].
  split; [exact H6 |]. split; [exact H7 | exact H8].
Qed.

End RingLookup.

(** X7: on every reachable machine the counter [nr_runnable] of an
    energy task is the length of its runnable list; no thread is twice on a
    list or on two lists; every listed thread is marked queued, belongs to
    the thread group of its energy task and is one of the host's threads;
    [grq.nr_threads] is the number of listed threads and at most the number
    of the host's threads; and no two energy tasks share an address or a
    thread group. *)
Theorem runnable_lists_are_counted (max_threads : nat) (s : state) :
  Z.of_nat max_threads < 2 ^ 32 ->
  reachable max_threads s ->
  (forall e, In e (tasks (grq s)) ->
     e_nr_runnable e = Z.of_nat (length (e_runnable e))
     /\ NoDup (e_runnable e)
     /\ forall t, In t (e_runnable e) ->
          thread_on_rq_queued (threads s t) = true
          /\ find_task s t = e_task e
          /\ (t < max_threads)%nat)
  /\ NoDup (concat (map e_runnable (tasks (grq s))))
  /\ nr_threads (grq s) = Z.of_nat (length (concat (map e_runnable (tasks (grq s)))))
  /\ nr_threads (grq s) <= Z.of_nat max_threads
  /\ NoDup (map e_addr (tasks (grq s)))
  /\ NoDup (map e_task (tasks (grq s))).
Proof.
  intros Hmax Hr.
  destruct (inv_ring_facts max_threads s (reachable_inv max_threads Hmax s Hr))
    as [H1 [H2 [H3 [H4 [H5 [H6 [H7 H8]]]]]]].
  rewrite Forall_forall in H1, H5, H8.
  split.
  { intros e He. split; [apply (H1 e He) |].
    split; [apply (NoDup_concat_in _ _ H3), in_map; exact He |].
    intros t Ht.
    assert (Hin : In t (concat (map e_runnable (tasks (grq s))))).
    { apply in_concat. exists (e_runnable e). split; [apply in_map; exact He | exact Ht]. }
    split; [apply H4; exact Hin |]. split; [apply (H5 e He t Ht) | apply (H8 t Hin)]. }
  split; [exact H3 |]. split; [exact H2 |].
  split; [| split; assumption].
  rewrite H2. apply Nat2Z.inj_le. apply (length_bound max_threads); [exact H3 |].
  apply Forall_forall. exact H8.
Qed.

(** X8: on every reachable machine a thread that is marked queued
    has an energy task: find_energy_task finds it, it is the task of the
    thread's group and the thread is on its runnable list.  Whatever energy
    task find_energy_task answers for a thread is on [grq.tasks], is the
    task of the thread's group, and holds the thread exactly when the
    thread is marked queued; a thread without an energy task is not marked
    queued. *)
Theorem queued_thread_has_its_task (max_threads : nat) (s : state) (t : tid) :
  Z.of_nat max_threads < 2 ^ 32 ->
  reachable max_threads s ->
  (thread_on_rq_queued (threads s t) = true ->
     exists e, In e (tasks (grq s))
       /\ find_energy_task s t = Some (e_addr e)
       /\ get_etask (e_addr e) s = Some e
       /\ e_task e = find_task s t
       /\ In t (e_runnable e))
  /\ (forall a, find_energy_task s t = Some a ->
        exists e, In e (tasks (grq s))
          /\ e_addr e = a
          /\ get_etask a s = Some e
          /\ e_task e = find_task s t
          /\ (In t (e_runnable e) <-> thread_on_rq_queued (threads s t) = true))
  /\ (find_energy_task s t = None ->
        thread_on_rq_queued (threads s t) = false).
Proof.
  intros Hmax Hr.
  destruct (inv_ring_facts max_threads s (reachable_inv max_threads Hmax s Hr))
    as [_ [_ [H3 [H4 [H5 [H6 [H7 _]]]]]]].
  rewrite Forall_forall in H5.
  assert (Hown : forall e, In e (tasks (grq s)) -> In t (e_runnable e) ->
            find_energy_task s t = Some (e_addr e)
            /\ get_etask (e_addr e) s = Some e
            /\ e_task e = find_task s t).
  { intros e He Ht. pose proof (H5 e He t Ht) as Hl.
    split; [| split; [| symmetry; exact Hl]].
    - unfold find_energy_task. rewrite Hl.
      rewrite (find_unique e_task _ e H6 He). reflexivity.
    - unfold get_etask. apply (find_unique e_addr _ e H7 He). }
  assert (Hq : thread_on_rq_queued (threads s t) = true ->
            exists e, In e (tasks (grq s)) /\ In t (e_runnable e)).
  { intros Hflag. apply H4 in Hflag. apply in_concat in Hflag.
    destruct Hflag as [l [Hl Ht]]. apply in_map_iff in Hl.
    destruct Hl as [e [<- He]]. exists e. split; assumption. }
  split.
  { intros Hflag. destruct (Hq Hflag) as [e [He Ht]].
    destruct (Hown e He Ht) as [Hf [Hg Hl]].
    exists e. repeat (split; [assumption |]). exact Ht. }
  split.
  { intros a Hfind. unfold find_energy_task in Hfind.
    destruct (find _ (tasks (grq s))) as [e |] eqn:E; [| discriminate].
    injection Hfind as <-. apply find_some in E. destruct E as [He Hl].
    apply Nat.eqb_eq in Hl.
    exists e. split; [exact He |]. split; [reflexivity |].
    split; [unfold get_etask; apply (find_unique e_addr _ e H7 He) |].
    split; [exact Hl |]. split.
    - intros Ht. apply H4. apply in_concat. exists (e_runnable e).
      split; [apply in_map; exact He | exact Ht].
    - intros Hflag. destruct (Hq Hflag) as [e' [He' Ht']].
      destruct (Hown e' He' Ht') as [_ [_ Hl']].
      assert (Ee : e' = e).
      { pose proof (find_unique e_task _ e' H6 He') as F1.
        pose proof (find_unique e_task _ e H6 He) as F2.
        rewrite Hl', <- Hl in F1. rewrite F1 in F2. injection F2 as ->. reflexivity. }
      rewrite <- Ee. exact Ht'. }
  intros Hnone. destruct (thread_on_rq_queued (threads s t)) eqn:Hflag; [| reflexivity].
  destruct (Hq eq_refl) as [e [He Ht]]. destruct (Hown e He Ht) as [Hf _].
  rewrite Hf in Hnone. discriminate.
Qed.

Section ReachableExample.

Lemma demo_reachable :
  reachable 1024 (state_of (enqueue_task_energy demo_sample (Some 10%nat) 0 1 boot_machine)).
Proof.
  apply (reachable_step 1024 boot_machine).
  - apply reachable_initial. split; [reflexivity | intros t; reflexivity].
  - apply (step_enqueue 1024 demo_sample (Some 10%nat) 0%nat 1%nat).
    + apply Nat.ltb_lt. vm_compute. reflexivity.
    + intros a _ [].
    + vm_compute. reflexivity.
Qed.

Lemma demo_max : Z.of_nat 1024 < 2 ^ 32.
Proof. vm_compute. reflexivity. Qed.

Lemma task_count_is_ring_length_witness :
  let s := state_of (enqueue_task_energy demo_sample (Some 10%nat) 0 1 boot_machine) in
  nr_tasks (grq s) = 1 /\ should_switch_in_energy s 0 = Some false.
Proof.
  intros s.
  destruct (task_count_is_ring_length 1024 s demo_max demo_reachable) as [_ H].
  destruct H as [Hn [_ Hsw]]; [vm_compute; reflexivity |].
  split; [rewrite Hn; vm_compute; reflexivity |].
  apply Hsw. vm_compute. apply le_n.
Defined.

Lemma runnable_lists_are_counted_witness :
  let s := state_of (enqueue_task_energy demo_sample (Some 10%nat) 0 1 boot_machine) in
  nr_threads (grq s) = 1 /\ nr_threads (grq s) <= 1024.
Proof.
  intros s.
  destruct (runnable_lists_are_counted 1024 s demo_max demo_reachable)
    as [_ [_ [Hn [Hle _]]]].
  split; [rewrite Hn; vm_compute; reflexivity | exact Hle].
Defined.

Lemma queued_thread_has_its_task_witness :
  let s := state_of (enqueue_task_energy demo_sample (Some 10%nat) 0 1 boot_machine) in
  exists e, find_energy_task s 1 = Some (e_addr e) /\ In 1%nat (e_runnable e).
Proof.
  intros s.
  destruct (queued_thread_has_its_task 1024 s 1 demo_max demo_reachable) as [H _].
  destruct H as [e [_ [Hf [_ [_ Ht]]]]]; [vm_compute; reflexivity |].
  exists e. split; assumption.
Defined.

End ReachableExample.

(** ** Lending and returning CPUs *)

Section LendingRoundTrips.

Lemma rq_eta r :
  {| rq_nr_running := rq_nr_running r; rq_clock := rq_clock r;
     rq_clock_task := rq_clock_task r; rq_curr := rq_curr r;
     en_resched_flags := en_resched_flags r; en_domain := en_domain r;
     en_runnable := en_runnable r; en_nr_runnable := en_nr_runnable r;
     en_nr_assigned := en_nr_assigned r; en_blocked := en_blocked r;
     en_curr := en_curr r; en_curr_e_task := en_curr_e_task r;
     en_idle := en_idle r |} = r.
Proof. destruct r. reflexivity. Qed.

Lemma nr_cpu_ids_release d s : nr_cpu_ids (release_cpus d s) = nr_cpu_ids s.
Proof. apply (lf_release_cpus s s d (leaf_frame_refl s)). Qed.

Lemma nr_cpu_ids_acquire d s : nr_cpu_ids (acquire_cpus d s) = nr_cpu_ids s.
Proof. apply (lf_acquire_cpus s s d (leaf_frame_refl s)). Qed.

Lemma nr_cpu_ids_check d s : nr_cpu_ids (check_cpus d s) = nr_cpu_ids s.
Proof. apply (lf_check_cpus s s d (leaf_frame_refl s)). Qed.

Lemma acquire_release_body r :
  en_blocked r = false -> is_u32 (rq_nr_running r) ->
  acquire_body (release_body r) = r.
Proof.
  intros Hb Hn. unfold release_body. rewrite Hb. cbn [negb andb].
  destruct (Z.eqb_spec (rq_nr_running r) (en_nr_assigned r)) as [E | _].
  - unfold acquire_body, __release_cpu, __acquire_cpu, add_nr_running, sub_nr_running.
    cbn. rewrite <- (rq_eta r) at 7. rewrite Hb. unfold set_nr_running. cbn.
    f_equal. rewrite <- E, Z.sub_diag. change (u32 0) with 0. rewrite Z.add_0_l.
    apply u32_small. exact Hn.
  - unfold acquire_body. rewrite Hb. reflexivity.
Qed.

Lemma release_acquire_body r :
  en_blocked r = true -> rq_nr_running r = 0 -> is_u32 (en_nr_assigned r) ->
  release_body (acquire_body r) = r.
Proof.
  intros Hb Hn Ha. unfold acquire_body. rewrite Hb.
  unfold release_body, __release_cpu, __acquire_cpu, add_nr_running, sub_nr_running.
  cbn. rewrite Hn, Z.add_0_l, (u32_small _ Ha), Z.eqb_refl. cbn.
  rewrite Z.sub_diag. change (u32 0) with 0.
  rewrite <- (rq_eta r) at 3. rewrite Hb, Hn. reflexivity.
Qed.

Lemma grq_acquire_cpus d x : grq (acquire_cpus d x) = grq x.
Proof.
  unfold acquire_cpus. generalize (for_each_cpu (nr_cpu_ids x) d). intros l.
  revert x. induction l as [| cpu l IH]; intros x; [reflexivity |].
  cbn [fold_left]. rewrite IH. destruct (en_blocked (rqs x cpu)); reflexivity.
Qed.

Lemma grq_release_cpus d x : grq (release_cpus d x) = grq x.
Proof.
  unfold release_cpus. generalize (for_each_cpu (nr_cpu_ids x) d). intros l.
  revert x. induction l as [| cpu l IH]; intros x; [reflexivity |].
  cbn [fold_left]. rewrite IH. destruct (negb _ && _); reflexivity.
Qed.

Lemma rq_frame_release_cpus d x c : rq_frame (rqs x c) (rqs (release_cpus d x) c).
Proof. apply (lf_release_cpus x x d (leaf_frame_refl x)). Qed.

Lemma rq_frame_acquire_cpus d x c : rq_frame (rqs x c) (rqs (acquire_cpus d x) c).
Proof. apply (lf_acquire_cpus x x d (leaf_frame_refl x)). Qed.

Lemma switch_to_energy_rqs c s x :
  rqs (__switch_to_energy c s) x = rqs (acquire_cpus (en_domain (rqs s c)) s) x.
Proof.
  unfold __switch_to_energy. cbv zeta. rewrite !acquire_cpus_rqs. reflexivity.
Qed.

Lemma switch_from_energy_rqs c s x :
  rqs (__switch_from_energy c s) x = rqs (release_cpus (en_domain (rqs s c)) s) x.
Proof. reflexivity. Qed.

Lemma switch_to_energy_grq c s :
  grq (__switch_to_energy c s)
  = set_running 1 (rq_clock (rqs s c)) (stop_running (grq s)) (grq s).
Proof. unfold __switch_to_energy. cbv zeta. rewrite grq_acquire_cpus. reflexivity. Qed.

Lemma switch_from_energy_grq c s :
  grq (__switch_from_energy c s)
  = set_running 0 (start_running (grq s)) (rq_clock (rqs s c)) (grq s).
Proof.
  unfold __switch_from_energy. cbv zeta. cbn [grq set_grq].
  rewrite grq_release_cpus.
  destruct (rq_frame_release_cpus (en_domain (rqs s c)) s c) as [Hc _].
  rewrite Hc. reflexivity.
Qed.

(** X9: __switch_from_energy followed by __switch_to_energy leaves
    the class in control, with the start time at the clock of the run
    queue, and gives back every run queue that was not blocked as it was:
    what release_cpus blocks, acquire_cpus unblocks with the same count.
    __switch_to_energy followed by __switch_from_energy leaves the class out
    of control, with the stop time at the clock, and gives back every
    blocked run queue with [rq->nr_running] 0 as it was. *)
Theorem lending_round_trips (c c' : cpu_id) (s : state) :
  let s1 := __switch_to_energy c (__switch_from_energy c s) in
  let s2 := __switch_from_energy c (__switch_to_energy c s) in
  running (grq s1) = 1 /\ running (grq s2) = 0
  /\ start_running (grq s1) = rq_clock (rqs s c)
  /\ stop_running (grq s2) = rq_clock (rqs s c)
  /\ (en_blocked (rqs s c') = false -> is_u32 (rq_nr_running (rqs s c')) ->
      rqs s1 c' = rqs s c')
  /\ (en_blocked (rqs s c') = true -> rq_nr_running (rqs s c') = 0 ->
      is_u32 (en_nr_assigned (rqs s c')) ->
      rqs s2 c' = rqs s c').
Proof.
  intros s1 s2. subst s1 s2.
  rewrite !switch_to_energy_grq, !switch_from_energy_grq, !switch_to_energy_grq.
  cbn [running start_running stop_running set_running].
  split; [reflexivity |]. split; [reflexivity |].
  split.
  { rewrite switch_from_energy_rqs.
    destruct (rq_frame_release_cpus (en_domain (rqs s c)) s c) as [Hc _]. exact Hc. }
  split.
  { rewrite switch_to_energy_rqs.
    destruct (rq_frame_acquire_cpus (en_domain (rqs s c)) s c) as [Hc _]. exact Hc. }
  split.
  - intros Hb Hn. rewrite switch_to_energy_rqs, switch_from_energy_rqs.
    destruct (rq_frame_release_cpus (en_domain (rqs s c)) s c) as [_ [_ [_ [Hd _]]]].
    rewrite Hd.
    change (acquire_cpus (en_domain (rqs s c)) (__switch_from_energy c s))
      with (acquire_cpus (en_domain (rqs s c))
              (set_grq (grq (__switch_from_energy c s))
                       (release_cpus (en_domain (rqs s c)) s))).
    rewrite acquire_cpus_rqs. cbn [rqs nr_cpu_ids set_grq].
    rewrite nr_cpu_ids_release, release_cpus_rqs.
    destruct (in_dec _ _ _).
    + apply acquire_release_body; assumption.
    + reflexivity.
  - intros Hb Hn Ha. rewrite switch_from_energy_rqs, !switch_to_energy_rqs.
    destruct (rq_frame_acquire_cpus (en_domain (rqs s c)) s c) as [_ [_ [_ [Hd _]]]].
    rewrite Hd.
    rewrite release_cpus_rqs.
    assert (Hn' : nr_cpu_ids (__switch_to_energy c s) = nr_cpu_ids s).
    { apply (lf_switch_to_energy_ s s c (leaf_frame_refl s)). }
    rewrite Hn', switch_to_energy_rqs, acquire_cpus_rqs.
    destruct (in_dec _ _ _).
    + apply release_acquire_body; assumption.
    + reflexivity.
Qed.

Lemma check_body_normal r :
  is_u32 (rq_nr_running r) -> is_u32 (en_nr_assigned r) ->
  (en_blocked (check_body r) = true /\ rq_nr_running (check_body r) = 0)
  \/ (en_blocked (check_body r) = false
      /\ rq_nr_running (check_body r) <> en_nr_assigned (check_body r)).
Proof.
  intros Hn Ha. unfold check_body, is_u32 in *.
  destruct (en_blocked r) eqn:Hb; cbn [negb andb].
  - destruct (Z.gtb_spec (rq_nr_running r) 0) as [Hpos | Hzero].
    + right. split; [reflexivity |].
      unfold __acquire_cpu, add_nr_running. cbn. unfold u32.
      intros E.
      assert (Hm : (rq_nr_running r + en_nr_assigned r) mod 2 ^ 32
                   = en_nr_assigned r mod 2 ^ 32).
      { rewrite E. symmetry. apply Z.mod_small. exact Ha. }
      destruct (Z_lt_ge_dec (rq_nr_running r + en_nr_assigned r) (2 ^ 32)) as [Hl | Hg].
      * rewrite Z.mod_small in E by lia. lia.
      * replace (rq_nr_running r + en_nr_assigned r)
          with ((rq_nr_running r + en_nr_assigned r - 2 ^ 32) + 1 * 2 ^ 32) in E by lia.
        rewrite Z.mod_add in E by lia. rewrite Z.mod_small in E by lia. lia.
    + left. rewrite Hb. split; [reflexivity | lia].
  - destruct (Z.eqb_spec (rq_nr_running r) (en_nr_assigned r)) as [E | N].
    + left. split; [reflexivity |].
      unfold __release_cpu, sub_nr_running. cbn. rewrite E, Z.sub_diag. reflexivity.
    + right. rewrite Hb. split; [reflexivity | exact N].
Qed.

Lemma check_body_stable r :
  (en_blocked r = true /\ rq_nr_running r = 0)
  \/ (en_blocked r = false /\ rq_nr_running r <> en_nr_assigned r) ->
  check_body r = r.
Proof.
  unfold check_body. intros [[Hb Hn] | [Hb Hn]]; rewrite Hb; cbn [negb andb].
  - rewrite Hn. reflexivity.
  - destruct (Z.eqb_spec (rq_nr_running r) (en_nr_assigned r)); [contradiction | reflexivity].
Qed.

(** X10: after check_cpus every CPU of the domain is either blocked
    with [rq->nr_running] 0 or not blocked with [rq->nr_running] different
    from [en.nr_assigned]; the CPUs outside the domain are left alone; and
    a second check_cpus changes nothing any more. *)
Theorem check_cpus_settles (domain : cpumask) (s : state) (c : cpu_id) :
  is_u32 (rq_nr_running (rqs s c)) -> is_u32 (en_nr_assigned (rqs s c)) ->
  let r' := rqs (check_cpus domain s) c in
  (in_domain s domain c ->
     (en_blocked r' = true /\ rq_nr_running r' = 0)
     \/ (en_blocked r' = false /\ rq_nr_running r' <> en_nr_assigned r'))
  /\ (~ in_domain s domain c -> r' = rqs s c)
  /\ rqs (check_cpus domain (check_cpus domain s)) c = r'.
Proof.
  intros Hn Ha r'. subst r'.
  pose proof (check_body_normal (rqs s c) Hn Ha) as Hnormal.
  split.
  { intros Hin. rewrite check_cpus_rqs.
    destruct (in_dec _ _ _) as [_ | Hout]; [exact Hnormal |].
    exfalso. apply Hout. apply in_for_each_cpu. exact Hin. }
  split.
  { intros Hout. rewrite check_cpus_rqs.
    destruct (in_dec _ _ _) as [Hin | _]; [| reflexivity].
    exfalso. apply Hout. apply in_for_each_cpu. exact Hin. }
  rewrite (check_cpus_rqs domain (check_cpus domain s)), nr_cpu_ids_check.
  rewrite check_cpus_rqs.
  destruct (in_dec _ _ _); [| reflexivity].
  apply check_body_stable. exact Hnormal.
Qed.

End LendingRoundTrips.

Section LendingExamples.

Lemma lending_round_trips_witness :
  rqs (__switch_to_energy 0 (__switch_from_energy 0 lending_machine)) 1
  = rqs lending_machine 1
  /\ en_blocked (rqs (__switch_from_energy 0 lending_machine) 1) = true.
Proof.
  pose proof (lending_round_trips 0 1 lending_machine) as H. cbv zeta in H.
  destruct H as [_ [_ [_ [_ [H _]]]]].
  split; [apply H; [reflexivity | unfold is_u32; cbn; lia] |].
  vm_compute. reflexivity.
Defined.

Lemma check_cpus_settles_witness :
  en_blocked (rqs (check_cpus 3 lending_machine) 1) = true
  /\ rqs (check_cpus 3 (check_cpus 3 lending_machine)) 1
     = rqs (check_cpus 3 lending_machine) 1.
Proof.
  pose proof (check_cpus_settles 3 lending_machine 1) as H. cbv zeta in H.
  destruct H as [_ [_ H]]; [unfold is_u32; cbn; lia | unfold is_u32; cbn; lia |].
  split; [vm_compute; reflexivity | exact H].
Defined.

End LendingExamples.

(** ** Picking on a CPU *)

Section LocalPick.

Lemma local_resched_cleared x :
  negb (Z.land (Z.land x (Z.lnot LOCAL_RESCHED)) LOCAL_RESCHED =? 0) = false.
Proof.
  unfold LOCAL_RESCHED. rewrite <- Z.land_assoc. change (Z.land (Z.lnot 1) 1) with 0.
  rewrite Z.land_0_r. reflexivity.
Qed.

Lemma local_resched_set x :
  negb (Z.land (Z.lor x LOCAL_RESCHED) LOCAL_RESCHED =? 0) = true.
Proof.
  unfold LOCAL_RESCHED. rewrite Z.land_lor_distr_l. change (Z.land 1 1) with 1.
  destruct (Z.eqb_spec (Z.lor (Z.land x 1) 1) 0) as [E | _]; [| reflexivity].
  apply Z.lor_eq_0_iff in E. destruct E as [_ E]. discriminate.
Qed.

Lemma testbit_one n : 0 < n -> Z.testbit 1 n = false.
Proof.
  intros H. destruct n as [| p | p]; try lia. reflexivity.
Qed.

Lemma flags_after_resched c s :
  en_resched_flags (rqs (resched_curr_local c s) c)
  = Z.lor (en_resched_flags (rqs s c)) LOCAL_RESCHED.
Proof.
  unfold resched_curr_local, set_tsk_need_resched.
  cbn [rqs upd_rq set_rqs upd_thread set_threads]. unfold upd.
  rewrite Nat.eqb_refl. reflexivity.
Qed.

Lemma flags_after_clear c s :
  en_resched_flags (rqs (clear_resched_curr_local c s) c)
  = Z.land (en_resched_flags (rqs s c)) (Z.lnot LOCAL_RESCHED).
Proof.
  unfold clear_resched_curr_local.
  cbn [rqs upd_rq set_rqs]. unfold upd. rewrite Nat.eqb_refl. reflexivity.
Qed.

(** X11: resched_curr_local sets the local flag of the run queue
    and the host's flag of the running thread; clear_resched_curr_local
    clears the local flag, also straight after it was set, and leaves the
    threads alone.  Both leave the other bits of [en.resched_flags] and the
    other run queues as they are. *)
Theorem resched_flag_round_trip (c : cpu_id) (s : state) :
  need_resched_curr_local (resched_curr_local c s) c = true
  /\ need_resched (threads (resched_curr_local c s) (rq_curr (rqs s c))) = true
  /\ need_resched_curr_local (clear_resched_curr_local c s) c = false
  /\ need_resched_curr_local (clear_resched_curr_local c (resched_curr_local c s)) c
     = false
  /\ threads (clear_resched_curr_local c s) = threads s
  /\ (forall n, 0 < n ->
        Z.testbit (en_resched_flags (rqs (resched_curr_local c s) c)) n
        = Z.testbit (en_resched_flags (rqs s c)) n
        /\ Z.testbit (en_resched_flags (rqs (clear_resched_curr_local c s) c)) n
           = Z.testbit (en_resched_flags (rqs s c)) n)
  /\ (forall c', c' <> c ->
        rqs (resched_curr_local c s) c' = rqs s c'
        /\ rqs (clear_resched_curr_local c s) c' = rqs s c').
Proof.
  split.
  { unfold need_resched_curr_local, resched_curr_local, set_tsk_need_resched.
    cbn. unfold upd. rewrite Nat.eqb_refl. cbn. apply local_resched_set. }
  split.
  { unfold resched_curr_local, set_tsk_need_resched. cbn. unfold upd.
    rewrite (Nat.eqb_refl c). cbn. rewrite Nat.eqb_refl. reflexivity. }
  split.
  { unfold need_resched_curr_local, clear_resched_curr_local.
    cbn. unfold upd. rewrite Nat.eqb_refl. cbn. apply local_resched_cleared. }
  split.
  { unfold need_resched_curr_local, clear_resched_curr_local.
    cbn. unfold upd. rewrite !Nat.eqb_refl. cbn. apply local_resched_cleared. }
  split; [reflexivity |].
  split.
  { intros n Hn. rewrite flags_after_resched, flags_after_clear.
    assert (H0 : 0 <= n) by lia.
    rewrite Z.lor_spec, Z.land_spec, Z.lnot_spec by exact H0.
    unfold LOCAL_RESCHED. rewrite (testbit_one n Hn). cbn.
    rewrite orb_false_r, andb_true_r. split; reflexivity. }
  intros c' Hc'. unfold resched_curr_local, clear_resched_curr_local, set_tsk_need_resched.
  cbn. unfold upd. destruct (Nat.eqb_spec c' c) as [E | _]; [contradiction |].
  split; reflexivity.
Qed.

Ltac st :=
  repeat (progress (cbn [rqs threads grq upd_rq upd_thread set_rqs set_threads
                         en_runnable en_nr_runnable en_curr en_curr_e_task en_idle
                         en_resched_flags rq_clock_task rq_clock rq_curr
                         set_en_runnable set_en_curr set_en_resched_flags
                         set_ee_state set_se ee_state se_exec_start
                         se_sum_exec_runtime se_prev_sum_exec_runtime];
                    unfold upd; rewrite ?Nat.eqb_refl)).

Lemma running_set x :
  negb (Z.land (Z.lor x THREAD_RUNNING) THREAD_RUNNING =? 0) = true.
Proof.
  unfold THREAD_RUNNING. rewrite Z.land_lor_distr_l. change (Z.land 4 4) with 4.
  destruct (Z.eqb_spec (Z.lor (Z.land x 4) 4) 0) as [E | _]; [| reflexivity].
  apply Z.lor_eq_0_iff in E. destruct E as [_ E]. discriminate.
Qed.

Lemma pick_next_local_task_step c s t rest :
  en_runnable (rqs s c) = t :: rest -> en_nr_runnable (rqs s c) <> 0 ->
  exists s', pick_next_local_task c s = Some (t, s')
    /\ en_runnable (rqs s' c) = rest ++ [t]
    /\ en_nr_runnable (rqs s' c) = en_nr_runnable (rqs s c)
    /\ en_curr (rqs s' c) = Some t
    /\ en_curr_e_task (rqs s' c) = en_curr_e_task (rqs s c)
    /\ need_resched_curr_local s' c = false
    /\ thread_cpu_running (threads s' t) = true
    /\ se_prev_sum_exec_runtime (threads s' t) = se_sum_exec_runtime (threads s' t)
    /\ se_exec_start (threads s' t) = rq_clock_task (rqs s c)
    /\ grq s' = grq s
    /\ (forall c', c' <> c -> rqs s' c' = rqs s c')
    /\ (forall t', t' <> t -> threads s' t' = threads s t').
Proof.
  intros Hl Hn. unfold pick_next_local_task. cbv zeta.
  assert (Hl0 : en_runnable (rqs (clear_resched_curr_local c s) c) = t :: rest).
  { unfold clear_resched_curr_local. cbn. unfold upd. rewrite Nat.eqb_refl. exact Hl. }
  assert (Hn0 : en_nr_runnable (rqs (clear_resched_curr_local c s) c)
                = en_nr_runnable (rqs s c)).
  { unfold clear_resched_curr_local. cbn. unfold upd. rewrite Nat.eqb_refl. reflexivity. }
  rewrite Hn0, Hl0.
  destruct (Z.eqb_spec (en_nr_runnable (rqs s c)) 0) as [E | _]; [contradiction |].
  cbn [negb]. eexists. split; [reflexivity |].
  unfold set_local_task, clear_resched_curr_local.
  split; [st; reflexivity |]. split; [st; reflexivity |]. split; [st; reflexivity |].
  split; [st; reflexivity |].
  split; [unfold need_resched_curr_local; st; apply local_resched_cleared |].
  split; [unfold thread_cpu_running; st; apply running_set |].
  split; [st; reflexivity |]. split; [st; reflexivity |]. split; [st; reflexivity |].
  split.
  - intros c' Hc'. st. destruct (Nat.eqb_spec c' c) as [E | _]; [contradiction | reflexivity].
  - intros t' Ht'. st. destruct (Nat.eqb_spec t' t) as [E | _]; [contradiction | reflexivity].
Qed.

Lemma pick_prefix c : forall (a b : list tid) (s : state),
  en_runnable (rqs s c) = a ++ b -> en_nr_runnable (rqs s c) <> 0 ->
  exists s', pick_next_local_tasks (length a) c s = Some (a, s')
    /\ en_runnable (rqs s' c) = b ++ a
    /\ en_nr_runnable (rqs s' c) = en_nr_runnable (rqs s c)
    /\ (a <> [] -> en_curr (rqs s' c) = Some (last a 0%nat))
    /\ grq s' = grq s
    /\ (forall c', c' <> c -> rqs s' c' = rqs s c').
Proof.
  induction a as [| x a IH]; intros b s Hl Hn.
  - exists s. cbn. split; [reflexivity |]. split; [rewrite app_nil_r; exact Hl |].
    split; [reflexivity |]. split; [intros H; contradiction |].
    split; [reflexivity |]. intros; reflexivity.
  - cbn [app] in Hl.
    destruct (pick_next_local_task_step c s x (a ++ b) Hl Hn)
      as [s1 [Hp [Hl1 [Hn1 [Hc1 [_ [_ [_ [_ [_ [Hg1 [Ho1 _]]]]]]]]]]]].
    rewrite <- app_assoc in Hl1.
    destruct (IH (b ++ [x]) s1 Hl1) as [s2 [Hp2 [Hl2 [Hn2 [Hc2 [Hg2 Ho2]]]]]];
      [rewrite Hn1; exact Hn |].
    exists s2. cbn [length pick_next_local_tasks]. rewrite Hp, Hp2.
    split; [reflexivity |].
    split; [rewrite Hl2, <- app_assoc; reflexivity |].
    split; [rewrite Hn2; exact Hn1 |].
    split.
    { intros _. destruct a as [| y a'].
      - cbn in Hp2. injection Hp2 as <-. exact Hc1.
      - rewrite Hc2 by discriminate. reflexivity. }
    split; [rewrite Hg2; exact Hg1 |].
    intros c' Hc'. rewrite Ho2 by exact Hc'. apply Ho1. exact Hc'.
Qed.

(** X12: pick_next_local_task returns the head of the local
    list, moves it to the tail, makes it the current thread of the class
    on the CPU and clears the local flag; as many picks as the list is long
    return the threads in list order and leave the list, the global queue
    and the other run queues as they were.  With the counter at 0 the idle
    thread is returned and the list untouched; without an idle thread, or
    with a counter that claims threads on an empty list, there is no
    result. *)
Theorem pick_next_local_task_round_robin (c : cpu_id) (s : state) :
  (forall t rest,
     en_runnable (rqs s c) = t :: rest -> en_nr_runnable (rqs s c) <> 0 ->
     exists s', pick_next_local_task c s = Some (t, s')
       /\ en_runnable (rqs s' c) = rest ++ [t]
       /\ en_curr (rqs s' c) = Some t
       /\ thread_cpu_running (threads s' t) = true
       /\ need_resched_curr_local s' c = false)
  /\ (forall l,
        en_runnable (rqs s c) = l -> l <> [] -> en_nr_runnable (rqs s c) <> 0 ->
        exists s', pick_next_local_tasks (length l) c s = Some (l, s')
          /\ en_runnable (rqs s' c) = l
          /\ en_curr (rqs s' c) = Some (last l 0%nat)
          /\ grq s' = grq s
          /\ forall c', c' <> c -> rqs s' c' = rqs s c')
  /\ (en_nr_runnable (rqs s c) = 0 ->
        forall idle, en_idle (rqs s c) = Some idle ->
        exists s', pick_next_local_task c s = Some (idle, s')
          /\ en_runnable (rqs s' c) = en_runnable (rqs s c)
          /\ en_curr (rqs s' c) = Some idle)
  /\ (en_nr_runnable (rqs s c) = 0 -> en_idle (rqs s c) = None ->
        pick_next_local_task c s = None)
  /\ (en_nr_runnable (rqs s c) <> 0 -> en_runnable (rqs s c) = [] ->
        pick_next_local_task c s = None).
Proof.
  split.
  { intros t rest Hl Hn.
    destruct (pick_next_local_task_step c s t rest Hl Hn)
      as [s' [Hp [Hl1 [_ [Hc1 [_ [Hf [Hr _]]]]]]]].
    exists s'. repeat (split; [assumption |]). exact Hf. }
  split.
  { intros l Hl Hne Hn.
    destruct (pick_prefix c l [] s) as [s' [Hp [Hl' [_ [Hc [Hg Ho]]]]]];
      [rewrite app_nil_r; exact Hl | exact Hn |].
    exists s'. split; [exact Hp |]. split; [exact Hl' |].
    split; [apply Hc; exact Hne |]. split; assumption. }
  assert (Hn0 : en_nr_runnable (rqs (clear_resched_curr_local c s) c)
                = en_nr_runnable (rqs s c)).
  { unfold clear_resched_curr_local. cbn. unfold upd. rewrite Nat.eqb_refl. reflexivity. }
  assert (Hi0 : en_idle (rqs (clear_resched_curr_local c s) c) = en_idle (rqs s c)).
  { unfold clear_resched_curr_local. cbn. unfold upd. rewrite Nat.eqb_refl. reflexivity. }
  assert (Hl0 : en_runnable (rqs (clear_resched_curr_local c s) c)
                = en_runnable (rqs s c)).
  { unfold clear_resched_curr_local. cbn. unfold upd. rewrite Nat.eqb_refl. reflexivity. }
  split.
  { intros Hn idle Hi. unfold pick_next_local_task. cbv zeta.
    rewrite Hn0, Hn, Hi0, Hi. cbn [Z.eqb negb].
    eexists. split; [reflexivity |].
    unfold set_local_task, clear_resched_curr_local.
    split; st; reflexivity. }
  split.
  { intros Hn Hi. unfold pick_next_local_task. cbv zeta.
    rewrite Hn0, Hn, Hi0, Hi. reflexivity. }
  intros Hn Hl. unfold pick_next_local_task. cbv zeta.
  rewrite Hn0, Hl0, Hl.
  destruct (Z.eqb_spec (en_nr_runnable (rqs s c)) 0) as [E | _]; [contradiction |].
  reflexivity.
Qed.

Lemma sched_slice_energy_nonneg e : 0 <= sched_slice_energy e.
Proof.
  destruct e as [e |]; cbn; [| lia]. unfold u64. apply Z.mod_pos_bound. lia.
Qed.

Lemma sched_slice_local_nonneg s c slice :
  sched_slice_local s c = Some slice -> 1 < en_nr_runnable (rqs s c) -> 0 <= slice.
Proof.
  unfold sched_slice_local. intros H Hn.
  destruct (deref_etask _ s) as [e |]; [| discriminate]. injection H as <-.
  pose proof (sched_slice_energy_nonneg e) as He.
  destruct (en_nr_runnable (rqs s c) =? 0); [exact He |].
  apply Z.div_pos; lia.
Qed.

Lemma set_local_task_fresh c t x :
  should_switch_local (set_local_task c t x) c <> Some true.
Proof.
  unfold should_switch_local.
  destruct (Z.leb_spec (en_nr_runnable (rqs (set_local_task c t x) c)) 1) as [_ | Hn];
    [discriminate |].
  assert (Hc : en_curr (rqs (set_local_task c t x) c) = Some t).
  { unfold set_local_task. st. reflexivity. }
  rewrite Hc.
  assert (He : se_sum_exec_runtime (threads (set_local_task c t x) t)
               - se_prev_sum_exec_runtime (threads (set_local_task c t x) t) = 0).
  { unfold set_local_task. st. lia. }
  rewrite He. change (u64 0) with 0.
  destruct (sched_slice_local (set_local_task c t x) c) as [slice |] eqn:E;
    [| discriminate].
  pose proof (sched_slice_local_nonneg _ _ _ E Hn) as Hs. cbn.
  destruct (Z.gtb_spec 0 slice); [lia | discriminate].
Qed.

(** X13: straight after pick_next_local_task the picked thread is
    the current thread of the class on the CPU, has used nothing of its
    slice, and should_switch_local does not ask for a switch; the same
    holds for [rq->curr] after set_curr_task_energy. *)
Theorem picked_thread_runs_first (c : cpu_id) (s : state) :
  (forall t s', pick_next_local_task c s = Some (t, s') ->
     en_curr (rqs s' c) = Some t
     /\ se_prev_sum_exec_runtime (threads s' t) = se_sum_exec_runtime (threads s' t)
     /\ should_switch_local s' c <> Some true)
  /\ (forall s', set_curr_task_energy c s = Some s' ->
        en_curr (rqs s' c) = Some (rq_curr (rqs s c))
        /\ se_prev_sum_exec_runtime (threads s' (rq_curr (rqs s c)))
           = se_sum_exec_runtime (threads s' (rq_curr (rqs s c)))
        /\ should_switch_local s' c <> Some true).
Proof.
  split.
  - intros t s' Hf. unfold pick_next_local_task in Hf. cbv zeta in Hf.
    destruct (negb _).
    + destruct (en_runnable _) as [| next rest]; [discriminate |].
      injection Hf as <- <-.
      split; [unfold set_local_task; st; reflexivity |].
      split; [unfold set_local_task; st; reflexivity |].
      apply set_local_task_fresh.
    + destruct (en_idle _) as [next |]; [| discriminate].
      injection Hf as <- <-.
      split; [unfold set_local_task; st; reflexivity |].
      split; [unfold set_local_task; st; reflexivity |].
      apply set_local_task_fresh.
  - intros s' Hf. unfold set_curr_task_energy in Hf. cbv zeta in Hf.
    destruct (if negb _ then _ else _) as [s1 |]; [| discriminate].
    injection Hf as <-.
    split; [unfold set_local_task; st; reflexivity |].
    split; [unfold set_local_task; st; reflexivity |].
    apply set_local_task_fresh.
Qed.

(** X14: while the class is not in control, has no thread and no
    energy task and the local flag is not set, pick_next_task_energy changes
    nothing and returns the current thread of the class on the CPU.  On an
    initialised machine it returns NULL, yield_task_energy changes nothing,
    and should_switch_to_energy and should_check_cpus are false. *)
Theorem unused_class_is_transparent (hw : rapl_sample) (c : cpu_id) (prev : tid)
    (s : state) :
  (running (grq s) = 0 -> nr_threads (grq s) = 0 -> nr_tasks (grq s) = 0 ->
   need_resched_curr_local s c = false ->
   pick_next_task_energy hw c prev s = Some (en_curr (rqs s c), s))
  /\ (forall n r,
        grq s = init_grq -> rqs s c = init_e_rq n r ->
        pick_next_task_energy hw c prev s = Some (None, s)
        /\ yield_task_energy c s = s
        /\ should_switch_to_energy s c = false
        /\ should_check_cpus s = false).
Proof.
  assert (H : running (grq s) = 0 -> nr_threads (grq s) = 0 -> nr_tasks (grq s) = 0 ->
              need_resched_curr_local s c = false ->
              pick_next_task_energy hw c prev s = Some (en_curr (rqs s c), s)).
  { intros Hr Ht Hn Hf. unfold pick_next_task_energy.
    rewrite Hr. cbn [Z.eqb].
    unfold should_switch_to_energy, should_check_cpus. rewrite Ht, Hn. cbn [Z.eqb negb].
    rewrite Hf. reflexivity. }
  split; [exact H |].
  intros n r Hg Hrq.
  split.
  { rewrite H.
    - rewrite Hrq. reflexivity.
    - rewrite Hg. reflexivity.
    - rewrite Hg. reflexivity.
    - rewrite Hg. reflexivity.
    - unfold need_resched_curr_local. rewrite Hrq. reflexivity. }
  split; [unfold yield_task_energy; rewrite Hrq; reflexivity |].
  split; [unfold should_switch_to_energy; rewrite Hg; reflexivity |].
  unfold should_check_cpus. rewrite Hg. reflexivity.
Qed.

End LocalPick.

Section LocalPickExamples.

Lemma pick_next_local_task_round_robin_witness :
  let s := state_of (__distribute_energy_task 10 two_cpu_machine) in
  en_runnable (rqs s 1) = [2; 1]%nat
  /\ exists s', pick_next_local_tasks 2 1 s = Some ([2; 1]%nat, s')
       /\ en_runnable (rqs s' 1) = [2; 1]%nat
       /\ en_curr (rqs s' 1) = Some 1%nat.
Proof.
  intros s.
  assert (Hl : en_runnable (rqs s 1) = [2; 1]%nat) by (vm_compute; reflexivity).
  split; [exact Hl |].
  destruct (pick_next_local_task_round_robin 1 s) as [_ [H _]].
  destruct (H [2; 1]%nat Hl) as [s' [Hp [Hl' [Hc _]]]];
    [discriminate | vm_compute; discriminate |].
  exists s'. split; [exact Hp |]. split; [exact Hl' | exact Hc].
Defined.

Lemma picked_thread_runs_first_witness :
  let s := state_of (__distribute_energy_task 10 two_cpu_machine) in
  exists s', pick_next_local_task 1 s = Some (2%nat, s')
    /\ should_switch_local s' 1 <> Some true.
Proof.
  intros s.
  exists (state_of (option_map snd (pick_next_local_task 1 s))).
  assert (Hp : pick_next_local_task 1 s
               = Some (2%nat, state_of (option_map snd (pick_next_local_task 1 s))))
    by (vm_compute; reflexivity).
  split; [exact Hp |].
  destruct (picked_thread_runs_first 1 s) as [H _].
  apply (H _ _ Hp).
Defined.

Lemma unused_class_is_transparent_witness :
  pick_next_task_energy demo_sample 0 1 boot_machine = Some (None, boot_machine).
Proof.
  destruct (unused_class_is_transparent demo_sample 0 1 boot_machine) as [_ H].
  destruct (H 2%nat (mk_rq 0 0 [] 0 false None) eq_refl eq_refl) as [Hp _].
  exact Hp.
Defined.

Lemma resched_flag_round_trip_witness :
  need_resched_curr_local (resched_curr_local 0 two_cpu_machine) 0 = true
  /\ Z.testbit (en_resched_flags (rqs (resched_curr_local 0 two_cpu_machine) 0)) 1
     = Z.testbit (en_resched_flags (rqs two_cpu_machine 0)) 1.
Proof.
  destruct (resched_flag_round_trip 0 two_cpu_machine) as [H1 [_ [_ [_ [_ [H _]]]]]].
  split; [exact H1 |].
  destruct (H 1) as [Hb _]; [lia | exact Hb].
Defined.

End LocalPickExamples.

(** ** Clearing a local queue *)

Section ClearLocal.

Lemma cpu_queued_cleared x :
  negb (Z.land (Z.land x (Z.lnot THREAD_CPU_QUEUED)) THREAD_CPU_QUEUED =? 0) = false.
Proof.
  unfold THREAD_CPU_QUEUED, THREAD_CPU_RUNNABLE.
  rewrite <- Z.land_assoc. change (Z.land (Z.lnot 2) 2) with 0.
  rewrite Z.land_0_r. reflexivity.
Qed.

Lemma dequeue_running_spec t s :
  thread_on_cpu_rq_queued (threads s t) = true ->
  exists s', dequeue_running t s = Some s'
    /\ (forall c, en_runnable (rqs s' c) = remove Nat.eq_dec t (en_runnable (rqs s c)))
    /\ thread_on_cpu_rq_queued (threads s' t) = false
    /\ (forall t', t' <> t -> threads s' t' = threads s t')
    /\ (forall c, en_curr (rqs s' c) = en_curr (rqs s c)
                  /\ en_curr_e_task (rqs s' c) = en_curr_e_task (rqs s c)
                  /\ en_resched_flags (rqs s' c) = en_resched_flags (rqs s c)).
Proof.
  intros Hq. unfold dequeue_running. rewrite Hq. cbn [negb]. cbv zeta.
  eexists. split; [reflexivity |].
  split.
  { intros c. cbn. unfold upd.
    destruct (Nat.eqb_spec c (task_cpu (list_del_ee_cpu_rq t s) t)) as [-> | _];
      reflexivity. }
  split.
  { unfold thread_on_cpu_rq_queued. cbn. unfold upd. rewrite Nat.eqb_refl. cbn.
    apply cpu_queued_cleared. }
  split.
  { intros t' Ht'. cbn. unfold upd.
    destruct (Nat.eqb_spec t' t) as [E | _]; [contradiction | reflexivity]. }
  intros c. cbn. unfold upd.
  destruct (Nat.eqb_spec c (task_cpu (list_del_ee_cpu_rq t s) t)) as [-> | _];
    repeat split; reflexivity.
Qed.

Lemma remove_length_lt (t : tid) (l : list tid) :
  (length (remove Nat.eq_dec t (t :: l)) < length (t :: l))%nat.
Proof.
  cbn. destruct (Nat.eq_dec t t) as [_ | N]; [| contradiction].
  pose proof (remove_length_le Nat.eq_dec l t). lia.
Qed.

Lemma clear_local_loop_spec c : forall (fuel : nat) (s : state),
  (length (en_runnable (rqs s c)) <= fuel)%nat ->
  Forall (fun t => thread_on_cpu_rq_queued (threads s t) = true) (en_runnable (rqs s c)) ->
  exists s', clear_local_loop fuel c s = Some s'
    /\ en_runnable (rqs s' c) = []
    /\ (forall t, In t (en_runnable (rqs s c)) ->
          thread_on_cpu_rq_queued (threads s' t) = false)
    /\ (forall t, ~ In t (en_runnable (rqs s c)) -> threads s' t = threads s t)
    /\ en_curr (rqs s' c) = en_curr (rqs s c)
    /\ en_curr_e_task (rqs s' c) = en_curr_e_task (rqs s c)
    /\ en_resched_flags (rqs s' c) = en_resched_flags (rqs s c).
Proof.
  induction fuel as [| fuel IH]; intros s Hlen Hall.
  - destruct (en_runnable (rqs s c)) as [| t l] eqn:El; [| cbn in Hlen; lia].
    exists s. split; [cbn; rewrite El; reflexivity |]. split; [exact El |].
    split; [intros t [] |]. repeat split; reflexivity.
  - cbn. destruct (en_runnable (rqs s c)) as [| t l] eqn:El.
    + exists s. split; [reflexivity |]. split; [exact El |].
      split; [intros t [] |]. repeat split; reflexivity.
    + inversion Hall as [| ? ? Ht Hl]; subst.
      destruct (dequeue_running_spec t s Ht) as [s1 [Hd [Hrm [Hq [Hoth Hrq]]]]].
      rewrite Hd.
      assert (El1 : en_runnable (rqs s1 c) = remove Nat.eq_dec t (t :: l)).
      { rewrite Hrm, El. reflexivity. }
      destruct (IH s1) as [s' [Hs' [He [Hcl [Hk [H1 [H2 H3]]]]]]].
      * rewrite El1. pose proof (remove_length_lt t l). cbn [length] in *. lia.
      * rewrite El1. apply Forall_forall. intros x Hx.
        apply in_remove in Hx. destruct Hx as [Hx Hne].
        rewrite Hoth by exact Hne.
        rewrite Forall_forall in Hall. apply Hall. exact Hx.
      * exists s'. split; [exact Hs' |]. split; [exact He |].
        destruct (Hrq c) as [R1 [R2 R3]].
        split.
        { intros x Hx. destruct (Nat.eq_dec x t) as [-> | Hne].
          - destruct (in_dec Nat.eq_dec t (en_runnable (rqs s1 c))) as [Hin | Hout].
            + apply Hcl. exact Hin.
            + rewrite Hk by exact Hout. exact Hq.
          - apply Hcl. rewrite El1. apply in_in_remove; assumption. }
        split.
        { intros x Hx. rewrite Hk.
          - apply Hoth. intros ->. apply Hx. left. reflexivity.
          - rewrite El1. intros Hin. apply in_remove in Hin. tauto. }
        split; [congruence |]. split; congruence.
Qed.

Lemma clear_local_loop_bug c : forall (fuel : nat) (s : state),
  ~ Forall (fun t => thread_on_cpu_rq_queued (threads s t) = true)
           (en_runnable (rqs s c)) ->
  clear_local_loop fuel c s = None.
Proof.
  induction fuel as [| fuel IH]; intros s Hbad.
  - cbn. destruct (en_runnable (rqs s c)); [| reflexivity].
    exfalso. apply Hbad. constructor.
  - cbn. destruct (en_runnable (rqs s c)) as [| t l] eqn:El.
    + exfalso. apply Hbad. constructor.
    + destruct (thread_on_cpu_rq_queued (threads s t)) eqn:Ht.
      * destruct (dequeue_running_spec t s Ht) as [s1 [Hd [Hrm [Hq [Hoth _]]]]].
        rewrite Hd. apply IH. intros Hall. apply Hbad.
        constructor; [exact Ht |].
        apply Forall_forall. intros x Hx.
        destruct (Nat.eq_dec x t) as [-> | Hne]; [exact Ht |].
        rewrite Forall_forall in Hall. rewrite <- (Hoth x Hne). apply Hall.
        rewrite Hrm, El. apply in_in_remove; [exact Hne | right; exact Hx].
      * unfold dequeue_running. rewrite Ht. reflexivity.
Qed.

(** X15: clear_local_tasks returns exactly when every thread on
    the local list is marked as queued on a CPU (otherwise dequeue_running
    hits BUG).  Afterwards the list is empty and its counter 0, the CPU has
    no current thread and no current energy task of the class, the local
    flag is cleared and the host's flag of [rq->curr] set; the threads that
    were listed are not marked as CPU-queued any more, and no thread
    changes its mark of the global queue. *)
Theorem clear_local_tasks_empties (c : cpu_id) (s : state) :
  (Forall (fun t => thread_on_cpu_rq_queued (threads s t) = true)
          (en_runnable (rqs s c)) ->
   exists s', clear_local_tasks c s = Some s'
     /\ en_runnable (rqs s' c) = []
     /\ en_nr_runnable (rqs s' c) = 0
     /\ en_curr (rqs s' c) = None
     /\ en_curr_e_task (rqs s' c) = None
     /\ need_resched_curr_local s' c = false
     /\ need_resched (threads s' (rq_curr (rqs s c))) = true
     /\ (forall t, In t (en_runnable (rqs s c)) ->
           thread_on_cpu_rq_queued (threads s' t) = false)
     /\ (forall t, thread_on_rq_queued (threads s' t)
                   = thread_on_rq_queued (threads s t)))
  /\ (~ Forall (fun t => thread_on_cpu_rq_queued (threads s t) = true)
               (en_runnable (rqs s c)) ->
      clear_local_tasks c s = None).
Proof.
  split.
  - intros Hall.
    destruct (clear_local_loop_spec c (length (en_runnable (rqs s c))) s (le_n _) Hall)
      as [s1 [Hs1 [He [Hcl _]]]].
    assert (Hsq : same_queue s s1).
    { apply (sq_clear_local_loop _ _ _ _ _ Hs1), same_queue_refl. }
    assert (Hcurr : rq_curr (rqs s1 c) = rq_curr (rqs s c)).
    { apply (lf_clear_local_loop _ _ _ _ _ Hs1 (leaf_frame_refl s)). }
    unfold clear_local_tasks. rewrite Hs1. cbv zeta.
    eexists. split; [reflexivity |].
    unfold clear_resched_curr_local, set_tsk_need_resched.
    cbn. unfold upd. rewrite !Nat.eqb_refl. cbn.
    split; [exact He |]. split; [reflexivity |]. split; [reflexivity |].
    split; [reflexivity |].
    split.
    { unfold need_resched_curr_local. cbn. unfold upd. rewrite Nat.eqb_refl. cbn.
      unfold LOCAL_RESCHED. rewrite <- Z.land_assoc. change (Z.land (Z.lnot 1) 1) with 0.
      rewrite Z.land_0_r. reflexivity. }
    split.
    { rewrite Hcurr, Nat.eqb_refl. reflexivity. }
    split.
    { intros t Ht.
      destruct (Nat.eqb_spec t (rq_curr (rqs s1 c))) as [E | _]; [| apply Hcl; exact Ht].
      unfold thread_on_cpu_rq_queued. cbn. rewrite <- E. apply (Hcl t Ht). }
    intros t. destruct Hsq as [_ [_ [Hq _]]].
    destruct (Nat.eqb_spec t (rq_curr (rqs s1 c))) as [E | _]; [| apply Hq].
    unfold thread_on_rq_queued. cbn. rewrite <- E. apply Hq.
  - intros Hbad. unfold clear_local_tasks.
    rewrite (clear_local_loop_bug c _ s Hbad). reflexivity.
Qed.

End ClearLocal.

Section ClearLocalExamples.

Lemma clear_local_tasks_empties_witness :
  exists s', clear_local_tasks 0 two_cpu_machine = Some s'
    /\ en_runnable (rqs s' 0) = []
    /\ thread_on_cpu_rq_queued (threads s' 3) = false.
Proof.
  destruct (clear_local_tasks_empties 0 two_cpu_machine) as [H _].
  destruct H as [s' [Hs [He [_ [_ [_ [_ [_ [Hcl _]]]]]]]]].
  - repeat constructor.
  - exists s'. split; [exact Hs |]. split; [exact He |].
    apply Hcl. left. reflexivity.
Defined.

End ClearLocalExamples.

(** ** Distributing the threads of an energy task *)

Section DistributionLoops.

Local Abbreviation cpuq s t := (thread_on_cpu_rq_queued (threads s t)).

Lemma distribute_thread_step e t s :
  exists s', distribute_thread e t s = Some s'
    /\ cpuq s' t = true
    /\ (forall t', t' <> t -> threads s' t' = threads s t')
    /\ (cpuq s t = true -> s' = s)
    /\ (cpuq s t = false ->
        let best := find_best_rq s (task_cpu s t)
                      (for_each_cpu_and (nr_cpu_ids s) (e_domain e)
                                        (cpus_allowed (threads s t))) in
        task_cpu s' t = best
        /\ en_nr_runnable (rqs s' best) = u32 (en_nr_runnable (rqs s best) + 1)
        /\ forall c, c <> best -> en_nr_runnable (rqs s' c) = en_nr_runnable (rqs s c)).
Proof.
  unfold distribute_thread. destruct (cpuq s t) eqn:Hq.
  - exists s. split; [reflexivity |]. split; [exact Hq |].
    split; [reflexivity |]. split; [reflexivity | discriminate].
  - match goal with
    | |- exists s', distribute_local_task ?b t s = Some s' /\ _ =>
        destruct (distribute_local_task_spec b t s Hq)
          as [s' [Hs' [Hcpu [Hq' [_ [Hn [Hothers Hth]]]]]]]
    end.
    exists s'. split; [exact Hs' |]. split; [exact Hq' |]. split; [exact Hth |].
    split; [discriminate |]. intros _. cbv zeta.
    split; [exact Hcpu |]. split; [exact Hn |].
    intros c Hc. apply (Hothers c Hc).
Qed.

Lemma distribute_loop_places e : forall l s,
  exists s1, fold_opt (distribute_thread e) l s = Some s1
    /\ (forall t, In t l -> cpuq s1 t = true)
    /\ (forall t, cpuq s t = true -> threads s1 t = threads s t).
Proof.
  induction l as [| t l IH]; intros s.
  - exists s. split; [reflexivity |]. split; [intros t [] | reflexivity].
  - destruct (distribute_thread_step e t s) as [s' [Hs' [Hq' [Hth [Hskip _]]]]].
    destruct (IH s') as [s1 [Hs1 [Hall Hkeep]]].
    exists s1. cbn [fold_opt]. rewrite Hs'. split; [exact Hs1 |].
    assert (Hk : forall x, cpuq s x = true -> threads s' x = threads s x).
    { intros x Hx. destruct (Nat.eq_dec x t) as [-> | Hne]; [| apply Hth; exact Hne].
      rewrite (Hskip Hx). reflexivity. }
    split.
    + intros x [<- | Hx]; [| apply Hall; exact Hx].
      rewrite (Hkeep t Hq'). exact Hq'.
    + intros x Hx. rewrite Hkeep; [apply Hk; exact Hx |].
      rewrite (Hk x Hx). exact Hx.
Qed.

Local Abbreviation notify a :=
  (fun s cpu => resched_curr_local cpu (set_energy_task cpu a s)).

Lemma notify_step a x cpu :
  en_curr_e_task (rqs (notify a x cpu) cpu) = Some a
  /\ need_resched_curr_local (notify a x cpu) cpu = true
  /\ need_resched (threads (notify a x cpu) (rq_curr (rqs x cpu))) = true
  /\ (forall c, c <> cpu -> rqs (notify a x cpu) c = rqs x c)
  /\ (forall c, rq_curr (rqs (notify a x cpu) c) = rq_curr (rqs x c)
                /\ en_nr_runnable (rqs (notify a x cpu) c) = en_nr_runnable (rqs x c)
                /\ en_runnable (rqs (notify a x cpu) c) = en_runnable (rqs x c))
  /\ (forall c, need_resched_curr_local x c = true ->
                need_resched_curr_local (notify a x cpu) c = true)
  /\ (forall t, ee_state (threads (notify a x cpu) t) = ee_state (threads x t)
                /\ t_cpu (threads (notify a x cpu) t) = t_cpu (threads x t))
  /\ (forall t, need_resched (threads x t) = true ->
                need_resched (threads (notify a x cpu) t) = true)
  /\ nr_cpu_ids (notify a x cpu) = nr_cpu_ids x
  /\ grq (notify a x cpu) = grq x.
Proof.
  unfold resched_curr_local, set_energy_task, set_tsk_need_resched,
    need_resched_curr_local.
  cbn [rqs threads upd_rq upd_thread set_rqs set_threads nr_cpu_ids grq].
  unfold upd. rewrite !(Nat.eqb_refl cpu).
  cbn [rq_curr en_curr_e_task en_resched_flags en_nr_runnable en_runnable
       set_en_resched_flags set_en_curr_e_task].
  assert (Hbit : forall f, negb (Z.land (Z.lor f LOCAL_RESCHED) LOCAL_RESCHED =? 0) = true).
  { intros f. unfold LOCAL_RESCHED. rewrite Z.land_lor_distr_l. change (Z.land 1 1) with 1.
    destruct (Z.eqb_spec (Z.lor (Z.land f 1) 1) 0) as [E | _]; [| reflexivity].
    apply Z.lor_eq_0_iff in E. destruct E as [_ E]. discriminate. }
  split; [reflexivity |].
  split; [apply Hbit |].
  split; [rewrite Nat.eqb_refl; reflexivity |].
  split.
  { intros c Hc. destruct (Nat.eqb_spec c cpu) as [E | _]; [contradiction | reflexivity]. }
  split.
  { intros c. destruct (Nat.eqb_spec c cpu) as [-> | _]; repeat split; reflexivity. }
  split.
  { intros c Hc. destruct (Nat.eqb_spec c cpu) as [-> | _]; [apply Hbit | exact Hc]. }
  split.
  { intros t. destruct (Nat.eqb_spec t (rq_curr (rqs x cpu))) as [-> | _];
      split; reflexivity. }
  split.
  { intros t Ht. destruct (Nat.eqb_spec t (rq_curr (rqs x cpu))) as [-> | _];
      [reflexivity | exact Ht]. }
  split; reflexivity.
Qed.

Lemma notify_loop a : forall l x,
  let x' := fold_left (notify a) l x in
  (forall c, In c l ->
     en_curr_e_task (rqs x' c) = Some a
     /\ need_resched_curr_local x' c = true
     /\ need_resched (threads x' (rq_curr (rqs x c))) = true)
  /\ (forall c, ~ In c l -> rqs x' c = rqs x c)
  /\ (forall c, rq_curr (rqs x' c) = rq_curr (rqs x c)
                /\ en_nr_runnable (rqs x' c) = en_nr_runnable (rqs x c)
                /\ en_runnable (rqs x' c) = en_runnable (rqs x c))
  /\ (forall c, need_resched_curr_local x c = true -> need_resched_curr_local x' c = true)
  /\ (forall t, ee_state (threads x' t) = ee_state (threads x t)
                /\ t_cpu (threads x' t) = t_cpu (threads x t))
  /\ (forall t, need_resched (threads x t) = true -> need_resched (threads x' t) = true)
  /\ nr_cpu_ids x' = nr_cpu_ids x
  /\ grq x' = grq x.
Proof.
  induction l as [| cpu l IH]; intros x; cbv zeta.
  - cbn [fold_left]. split; [intros c [] |]. split; [reflexivity |].
    split; [intros; repeat split; reflexivity |]. split; [intros c H; exact H |].
    split; [intros; split; reflexivity |]. split; [intros t H; exact H |].
    split; reflexivity.
  - cbn [fold_left].
    destruct (notify_step a x cpu) as [S1 [S2 [S3 [S4 [S5 [S6 [S7 [S8 [S9 S10]]]]]]]]].
    specialize (IH (notify a x cpu)). cbv zeta in IH.
    destruct IH as [I1 [I2 [I3 [I4 [I6 [I7 [I8 I9]]]]]]].
    split.
    { intros c [<- | Hc].
      - split.
        + destruct (in_dec Nat.eq_dec cpu l) as [Hin | Hout].
          * apply (I1 cpu Hin).
          * rewrite (I2 cpu Hout). exact S1.
        + split; [apply I4; exact S2 | apply I7; exact S3].
      - destruct (I1 c Hc) as [A1 [A2 A3]]. split; [exact A1 |]. split; [exact A2 |].
        destruct (S5 c) as [Hcur _]. rewrite Hcur in A3. exact A3. }
    split.
    { intros c Hc. rewrite I2 by (intros H; apply Hc; right; exact H).
      apply S4. intros ->. apply Hc. left. reflexivity. }
    split.
    { intros c. destruct (I3 c) as [A1 [A2 A3]]. destruct (S5 c) as [B1 [B2 B3]].
      repeat split; congruence. }
    split; [intros c Hc; apply I4, S6; exact Hc |].
    split.
    { intros t. destruct (I6 t) as [A1 A2]. destruct (S7 t) as [B1 B2].
      split; congruence. }
    split; [intros t Ht; apply I7, S8; exact Ht |].
    split; congruence.
Qed.

Lemma distribute_loop_frame e l s s1 :
  fold_opt (distribute_thread e) l s = Some s1 ->
  leaf_frame s s1 /\ same_queue s s1.
Proof.
  intros H. split.
  - eapply lf_fold_opt; [| exact H | apply leaf_frame_refl].
    intros y y' t Hy. apply (lf_distribute_thread _ _ _ _ _ Hy).
  - eapply same_queue_fold_opt; [| exact H | apply same_queue_refl].
    intros y y' t Hy. apply (sq_distribute_thread _ _ _ _ _ Hy).
Qed.

Lemma upd_rq_field {A} (f : rq -> A) c g s x :
  (forall r, f (g r) = f r) -> f (rqs (upd_rq c g s) x) = f (rqs s x).
Proof.
  intros Hg. cbn. unfold upd.
  destruct (Nat.eqb_spec x c) as [-> | _]; [apply Hg | reflexivity].
Qed.

Lemma inc_curr_e_task r : en_curr_e_task (__inc_nr_running r) = en_curr_e_task r.
Proof. unfold __inc_nr_running. destruct (en_blocked r); reflexivity. Qed.

Lemma dec_curr_e_task r : en_curr_e_task (__dec_nr_running r) = en_curr_e_task r.
Proof. unfold __dec_nr_running. destruct (en_blocked r); reflexivity. Qed.

Lemma distribute_thread_curr e t s s' :
  distribute_thread e t s = Some s' ->
  (forall x, en_curr_e_task (rqs s' x) = en_curr_e_task (rqs s x))
  /\ grq s' = grq s.
Proof.
  unfold distribute_thread. intros E.
  destruct (thread_on_cpu_rq_queued (threads s t));
    [injection E as <-; split; reflexivity |].
  unfold distribute_local_task, enqueue_running in E. cbv zeta in E.
  destruct (thread_on_cpu_rq_queued _); [discriminate |]. injection E as <-.
  split.
  - intros x.
    match goal with
    | |- en_curr_e_task (rqs (upd_thread _ _ (upd_rq ?c ?g ?y)) x) = _ =>
        change (en_curr_e_task (rqs (upd_rq c g y) x) = en_curr_e_task (rqs s x))
    end.
    rewrite upd_rq_field by reflexivity.
    unfold move_local_task.
    destruct (Nat.eqb _ _).
    + unfold clear_resched_curr_local. rewrite upd_rq_field by reflexivity. reflexivity.
    + match goal with
      | |- en_curr_e_task (rqs (upd_rq ?c ?g ?y) x) = _ =>
          rewrite (upd_rq_field en_curr_e_task c g y x inc_curr_e_task)
      end.
      match goal with
      | |- en_curr_e_task (rqs (upd_thread _ _ (upd_rq ?c ?g ?y)) x) = _ =>
          change (en_curr_e_task (rqs (upd_rq c g y) x) = en_curr_e_task (rqs s x));
          rewrite (upd_rq_field en_curr_e_task c g y x dec_curr_e_task)
      end.
      unfold clear_resched_curr_local. rewrite upd_rq_field by reflexivity. reflexivity.
  - unfold move_local_task, clear_resched_curr_local.
    destruct (Nat.eqb _ _); reflexivity.
Qed.

Lemma distribute_loop_curr e : forall l s s1,
  fold_opt (distribute_thread e) l s = Some s1 ->
  (forall x, en_curr_e_task (rqs s1 x) = en_curr_e_task (rqs s x))
  /\ grq s1 = grq s.
Proof.
  induction l as [| t l IH]; intros s s1 Hs1; cbn in Hs1.
  - injection Hs1 as <-. split; reflexivity.
  - destruct (distribute_thread e t s) as [y |] eqn:E; [| discriminate].
    destruct (IH y s1 Hs1) as [A1 A2]. destruct (distribute_thread_curr e t s y E) as [B1 B2].
    split; [intros x; rewrite A1; apply B1 | congruence].
Qed.

(** X16: __distribute_energy_task of an energy task that is
    on [grq.tasks] returns; afterwards every runnable thread of the task is
    marked as queued on a CPU, the threads that already were stay on their
    CPU, every CPU of the task's domain has the task as its current energy
    task and is asked to reschedule, the other CPUs keep their current
    energy task, and the global queue is unchanged.  There is no result
    for an address that is not on [grq.tasks]. *)
Theorem distribute_energy_task_reaches_all (a : eaddr) (s : state) :
  (get_etask a s = None -> __distribute_energy_task a s = None)
  /\ (forall e, get_etask a s = Some e ->
        exists s', __distribute_energy_task a s = Some s'
          /\ (forall t, In t (e_runnable e) ->
                thread_on_cpu_rq_queued (threads s' t) = true)
          /\ (forall t, thread_on_cpu_rq_queued (threads s t) = true ->
                task_cpu s' t = task_cpu s t)
          /\ (forall c, in_domain s (e_domain e) c ->
                en_curr_e_task (rqs s' c) = Some a
                /\ need_resched_curr_local s' c = true
                /\ need_resched (threads s' (rq_curr (rqs s c))) = true)
          /\ (forall c, ~ in_domain s (e_domain e) c ->
                en_curr_e_task (rqs s' c) = en_curr_e_task (rqs s c))
          /\ grq s' = grq s).
Proof.
  split.
  { intros H. unfold __distribute_energy_task. rewrite H. reflexivity. }
  intros e He. unfold __distribute_energy_task. rewrite He.
  destruct (distribute_loop_places e (e_runnable e) s) as [s1 [Hs1 [Hall Hkeep]]].
  rewrite Hs1.
  destruct (distribute_loop_frame e _ s s1 Hs1) as [[[Hn [_ [Hrq _]]] _] Hsq].
  eexists. split; [reflexivity |].
  pose proof (notify_loop a (for_each_cpu (nr_cpu_ids s1) (e_domain e)) s1) as Hloop.
  cbv zeta in Hloop.
  destruct Hloop as [L1 [L2 [L3 [_ [L6 [_ [_ L9]]]]]]].
  split.
  { intros t Ht. unfold thread_on_cpu_rq_queued.
    rewrite (proj1 (L6 t)). apply (Hall t Ht). }
  split.
  { intros t Ht. unfold task_cpu. rewrite (proj2 (L6 t)), (Hkeep t Ht). reflexivity. }
  split.
  { intros c [Hc Hd].
    assert (Hin : In c (for_each_cpu (nr_cpu_ids s1) (e_domain e))).
    { apply in_for_each_cpu. rewrite Hn. split; assumption. }
    destruct (L1 c Hin) as [A1 [A2 A3]].
    split; [exact A1 |]. split; [exact A2 |].
    destruct (Hrq c) as [_ [_ [Hcur _]]]. rewrite <- Hcur. exact A3. }
  split.
  { intros c Hout. rewrite L2.
    - apply (distribute_loop_curr e _ s s1 Hs1).
    - intros Hin. apply Hout. apply in_for_each_cpu in Hin. rewrite Hn in Hin. exact Hin. }
  rewrite L9. apply (distribute_loop_curr e _ s s1 Hs1).
Qed.

End DistributionLoops.

Section Balance.

Local Abbreviation cpuq s t := (thread_on_cpu_rq_queued (threads s t)).

Lemma s32_small z : 0 <= z < 2 ^ 31 -> s32 z = z.
Proof.
  intros H. unfold s32. rewrite u32_small by (unfold is_u32; lia).
  destruct (Z.ltb_spec z (2 ^ 31)); [reflexivity | lia].
Qed.

Lemma queue_total_bump (D : list cpu_id) (s s' : state) (b : cpu_id) :
  NoDup D -> In b D ->
  en_nr_runnable (rqs s' b) = en_nr_runnable (rqs s b) + 1 ->
  (forall c, c <> b -> en_nr_runnable (rqs s' c) = en_nr_runnable (rqs s c)) ->
  queue_total s' D = queue_total s D + 1.
Proof.
  intros Hnd Hin Hb Ho. induction D as [| c D IH]; [destruct Hin |].
  inversion Hnd as [| ? ? Hout Hnd']; subst. cbn [queue_total fold_right].
  fold (queue_total s' D). fold (queue_total s D).
  destruct Hin as [-> | Hin].
  - rewrite Hb.
    assert (Hsame : queue_total s' D = queue_total s D).
    { clear IH Hnd Hnd'. induction D as [| x D IH]; [reflexivity |].
      cbn [queue_total fold_right]. fold (queue_total s' D). fold (queue_total s D).
      rewrite Ho by (intros ->; apply Hout; left; reflexivity).
      rewrite IH; [reflexivity |]. intros H. apply Hout. right. exact H. }
    lia.
  - rewrite (IH Hnd' Hin).
    rewrite Ho by (intros ->; contradiction). lia.
Qed.

Lemma queue_total_same (D : list cpu_id) (s s' : state) :
  (forall c, en_nr_runnable (rqs s' c) = en_nr_runnable (rqs s c)) ->
  queue_total s' D = queue_total s D.
Proof.
  intros H. induction D as [| c D IH]; [reflexivity |].
  cbn [queue_total fold_right]. fold (queue_total s' D). fold (queue_total s D).
  rewrite H, IH. reflexivity.
Qed.

Lemma distribute_loop_balances e n : forall l s m,
  let D := for_each_cpu n (e_domain e) in
  nr_cpu_ids s = n ->
  NoDup l ->
  (forall t, In t l -> cpuq s t = false ->
     In (task_cpu s t) D
     /\ forall c, In c D -> cpumask_test_cpu c (cpus_allowed (threads s t)) = true) ->
  0 <= m -> m + Z.of_nat (length l) + 1 < 2 ^ 31 ->
  balanced s D m ->
  exists s1 m1, fold_opt (distribute_thread e) l s = Some s1
    /\ m <= m1 <= m + Z.of_nat (length l)
    /\ balanced s1 D m1
    /\ queue_total s1 D
       = queue_total s D
         + Z.of_nat (length (filter (fun t => negb (cpuq s t)) l)).
Proof.
  induction l as [| t l IH]; intros s m D; subst D; cbv zeta in *;
    set (D := for_each_cpu n (e_domain e)) in *;
    intros Hn Hnd Hplace Hm Hsmall Hbal.
  - exists s, m. cbn. split; [reflexivity |]. split; [lia |]. split; [exact Hbal | lia].
  - apply NoDup_cons_iff in Hnd. destruct Hnd as [Hout Hnd'].
    destruct (distribute_thread_step e t s) as [s' [Hs' [Hq' [Hth [Hskip Hmove]]]]].
    assert (Hn' : nr_cpu_ids s' = nr_cpu_ids s).
    { apply (lf_distribute_thread s s s' e t Hs' (leaf_frame_refl s)). }
    assert (Hplace' : forall x, In x l -> cpuq s' x = false ->
              In (task_cpu s' x) D
              /\ forall c, In c D -> cpumask_test_cpu c (cpus_allowed (threads s' x)) = true).
    { intros x Hx Hqx.
      assert (Hne : x <> t) by (intros ->; contradiction).
      unfold task_cpu. rewrite (Hth x Hne) in *. apply Hplace; [right; exact Hx | exact Hqx]. }
    assert (Hfilter : filter (fun x => negb (cpuq s' x)) l
                      = filter (fun x => negb (cpuq s x)) l).
    { apply filter_ext_in. intros x Hx.
      assert (Hne : x <> t) by (intros ->; contradiction).
      rewrite (Hth x Hne). reflexivity. }
    cbn [length] in Hsmall. rewrite Nat2Z.inj_succ in Hsmall.
    destruct (cpuq s t) eqn:Hq.
    + rewrite (Hskip eq_refl) in *.
      destruct (IH s m Hn Hnd' Hplace' Hm ltac:(lia) Hbal)
        as [s1 [m1 [Hs1 [Hm1 [Hb1 Ht1]]]]].
      exists s1, m1. cbn [fold_opt]. rewrite Hs'. split; [exact Hs1 |].
      split; [cbn [length]; lia |]. split; [exact Hb1 |].
      cbn [filter]. rewrite Hq. cbn [negb]. exact Ht1.
    + destruct (Hmove eq_refl) as [_ [Hbump Hrest]]. cbv zeta in Hbump, Hrest.
      destruct (Hplace t (or_introl eq_refl) Hq) as [Hpres Hallow].
      set (cands := for_each_cpu_and (nr_cpu_ids s) (e_domain e)
                                     (cpus_allowed (threads s t))) in *.
      set (best := find_best_rq s (task_cpu s t) cands) in *.
      pose proof (find_best_fold s cands (task_cpu s t)) as Hsel. cbv zeta in Hsel.
      fold (find_best_rq s (task_cpu s t) cands) in Hsel. fold best in Hsel.
      destruct Hsel as [Hin [Hle [Hmin _]]].
      assert (Hcands : forall c, In c D -> In c cands).
      { intros c Hc. apply in_for_each_cpu_and.
        pose proof (proj1 (in_for_each_cpu _ _ _) Hc) as [Hlt Hd].
        split; [lia |]. split; [exact Hd | apply Hallow; exact Hc]. }
      assert (HbestD : In best D).
      { destruct Hin as [-> | Hin]; [exact Hpres |].
        apply in_for_each_cpu_and in Hin. destruct Hin as [Hlt [Hd _]].
        apply in_for_each_cpu. split; [lia | exact Hd]. }
      assert (Hload : forall c, In c D -> load_of s c = en_nr_runnable (rqs s c)).
      { intros c Hc. unfold load_of. apply s32_small.
        specialize (Hbal c Hc). lia. }
      assert (Hminimal : forall c, In c D ->
                en_nr_runnable (rqs s best) <= en_nr_runnable (rqs s c)).
      { intros c Hc. rewrite <- (Hload c Hc), <- (Hload best HbestD).
        apply Hmin, Hcands, Hc. }
      pose proof (Hbal best HbestD) as Hbb.
      assert (Hbump' : en_nr_runnable (rqs s' best) = en_nr_runnable (rqs s best) + 1).
      { rewrite Hbump. apply u32_small. unfold is_u32. lia. }
      assert (Htot : queue_total s' D = queue_total s D + 1).
      { apply (queue_total_bump D s s' best (NoDup_for_each_cpu _ _) HbestD Hbump' Hrest). }
      assert (Hbal' : exists m', m <= m' <= m + 1 /\ balanced s' D m').
      { destruct (Z.eq_dec (en_nr_runnable (rqs s best)) m) as [E | N].
        - exists m. split; [lia |]. intros c Hc.
          destruct (Nat.eq_dec c best) as [-> | Hne].
          + rewrite Hbump'. lia.
          + rewrite (Hrest c Hne). apply Hbal, Hc.
        - exists (m + 1). split; [lia |]. intros c Hc.
          destruct (Nat.eq_dec c best) as [-> | Hne].
          + rewrite Hbump'. lia.
          + rewrite (Hrest c Hne). pose proof (Hbal c Hc). pose proof (Hminimal c Hc). lia. }
      destruct Hbal' as [m' [Hm' Hb']].
      destruct (IH s' m' (eq_trans Hn' Hn) Hnd' Hplace' ltac:(lia) ltac:(lia) Hb')
        as [s1 [m1 [Hs1 [Hm1 [Hb1 Ht1]]]]].
      exists s1, m1. cbn [fold_opt]. rewrite Hs'. split; [exact Hs1 |].
      split; [cbn [length]; lia |]. split; [exact Hb1 |].
      cbn [filter]. rewrite Hq. cbn [negb length].
      rewrite Ht1, Htot, Hfilter. lia.
Qed.

(** X17: when the local queues of the task's domain differ in
    length by at most one (each holds [m] or [m + 1] threads) and the
    threads still to place sit on a CPU of the domain and may run on all of
    it, they still differ by at most one after __distribute_energy_task,
    and together they hold exactly the newly placed threads more. *)
Theorem distribute_energy_task_balances (a : eaddr) (s : state) (e : energy_task)
    (m : Z) :
  let D := for_each_cpu (nr_cpu_ids s) (e_domain e) in
  get_etask a s = Some e ->
  NoDup (e_runnable e) ->
  (forall t, In t (unplaced s e) ->
     In (task_cpu s t) D
     /\ forall c, In c D -> cpumask_test_cpu c (cpus_allowed (threads s t)) = true) ->
  0 <= m -> m + Z.of_nat (length (e_runnable e)) + 1 < 2 ^ 31 ->
  balanced s D m ->
  exists s' m', __distribute_energy_task a s = Some s'
    /\ m <= m' <= m + Z.of_nat (length (e_runnable e))
    /\ balanced s' D m'
    /\ queue_total s' D = queue_total s D + Z.of_nat (length (unplaced s e)).
Proof.
  intros D He Hnd Hplace Hm Hsmall Hbal.
  destruct (distribute_loop_balances e (nr_cpu_ids s) (e_runnable e) s m eq_refl Hnd)
    as [s1 [m1 [Hs1 [Hm1 [Hb1 Ht1]]]]]; [| exact Hm | exact Hsmall | exact Hbal |].
  { intros t Ht Hq. apply Hplace. unfold unplaced. apply filter_In.
    split; [exact Ht | rewrite Hq; reflexivity]. }
  unfold __distribute_energy_task. rewrite He, Hs1.
  eexists. exists m1. split; [reflexivity |].
  pose proof (notify_loop a (for_each_cpu (nr_cpu_ids s1) (e_domain e)) s1) as Hloop.
  cbv zeta in Hloop. destruct Hloop as [_ [_ [L3 _]]].
  split; [exact Hm1 |].
  split.
  - intros c Hc. rewrite (proj1 (proj2 (L3 c))). apply Hb1, Hc.
  - rewrite (queue_total_same D s1) by (intros c; apply (L3 c)).
    exact Ht1.
Qed.

End Balance.

Section BalanceExamples.

Lemma distribute_energy_task_reaches_all_witness :
  exists s', __distribute_energy_task 10 two_cpu_machine = Some s'
    /\ thread_on_cpu_rq_queued (threads s' 1) = true
    /\ en_curr_e_task (rqs s' 1) = Some 10%nat.
Proof.
  destruct (distribute_energy_task_reaches_all 10 two_cpu_machine) as [_ H].
  destruct (H (mk_etask 10 ETASK_RUNNING 1 3 [1; 2; 3; 4]%nat) eq_refl)
    as [s' [Hs [Hall [_ [Hdom _]]]]].
  exists s'. split; [exact Hs |].
  split; [apply Hall; left; reflexivity |].
  apply Hdom. split; [cbn; lia | reflexivity].
Defined.

Lemma distribute_energy_task_balances_witness :
  let s := upd_etask 10 (set_e_run ETASK_RUNNING 3 50000000) lending_machine in
  exists s' m', __distribute_energy_task 10 s = Some s'
    /\ balanced s' [0; 1]%nat m'
    /\ queue_total s' [0; 1]%nat = 4.
Proof.
  intros s.
  destruct (distribute_energy_task_balances 10 s
              (set_e_run ETASK_RUNNING 3 50000000 (mk_etask 10 0 1 0 [1; 2; 3; 4]%nat)) 0)
    as [s' [m' [Hs [_ [Hb Ht]]]]].
  - reflexivity.
  - repeat constructor; cbn; intuition discriminate.
  - intros t Ht. change (In t [1; 2; 3; 4]%nat) in Ht.
    assert (Hc : In (task_cpu s t) [0; 1]%nat).
    { destruct Ht as [<- | [<- | [<- | [<- | []]]]]; cbn; tauto. }
    split; [exact Hc |].
    intros c Hin. change (In c [0; 1]%nat) in Hin.
    destruct Ht as [<- | [<- | [<- | [<- | []]]]];
      destruct Hin as [<- | [<- | []]]; reflexivity.
  - lia.
  - cbn. lia.
  - intros c Hin. change (In c [0; 1]%nat) in Hin.
    destruct Hin as [<- | [<- | []]]; cbn; lia.
  - exists s', m'. split; [exact Hs |]. split; [exact Hb |]. exact Ht.
Defined.

End BalanceExamples.

(** ** Runtime accounting *)

Section RuntimeAccounting.

Lemma s64_small z : 0 <= z < 2 ^ 63 -> s64 z = z.
Proof.
  intros H. unfold s64. rewrite u64_small by (unfold is_u64; lia).
  destruct (Z.ltb_spec z (2 ^ 63)); [reflexivity | lia].
Qed.

Lemma s64_u64 z : s64 (u64 z) = s64 z.
Proof. unfold s64, u64. rewrite Z.mod_mod by lia. reflexivity. Qed.

Lemma s64_negative z : - 2 ^ 63 <= z < 0 -> s64 z = z.
Proof.
  intros H. unfold s64, u64.
  assert (E : z mod 2 ^ 64 = z + 2 ^ 64).
  { symmetry. apply (Z.mod_unique z (2 ^ 64) (-1)); lia. }
  rewrite E. destruct (Z.ltb_spec (z + 2 ^ 64) (2 ^ 63)); lia.
Qed.

Lemma update_local_statistics_charged c t s :
  let now := rq_clock_task (rqs s c) in
  let th := threads s t in
  0 < now - se_exec_start th < 2 ^ 63 ->
  threads (update_local_statistics c (Some t) s) t
  = set_se now (u64 (se_sum_exec_runtime th + (now - se_exec_start th)))
           (se_prev_sum_exec_runtime th) th.
Proof.
  intros now th H. unfold update_local_statistics. fold now. fold th.
  rewrite s64_u64, s64_small by lia.
  destruct (Z.leb_spec (now - se_exec_start th) 0) as [Hle | _]; [lia |].
  cbn. unfold upd. rewrite Nat.eqb_refl. fold th.
  rewrite (u64_small (now - se_exec_start th)) by (unfold is_u64; lia).
  reflexivity.
Qed.

Lemma update_local_statistics_skipped c t s :
  let now := rq_clock_task (rqs s c) in
  - 2 ^ 63 <= now - se_exec_start (threads s t) <= 0 ->
  update_local_statistics c (Some t) s = s.
Proof.
  intros now H. unfold update_local_statistics. fold now.
  rewrite s64_u64.
  destruct (Z.eq_dec (now - se_exec_start (threads s t)) 0) as [E | N].
  - rewrite E. reflexivity.
  - rewrite s64_negative by lia.
    destruct (Z.leb_spec (now - se_exec_start (threads s t)) 0); [reflexivity | lia].
Qed.

Lemma update_local_statistics_others c t s t' :
  t' <> t -> threads (update_local_statistics c (Some t) s) t' = threads s t'.
Proof.
  intros Hne. unfold update_local_statistics.
  destruct (_ <=? 0); [reflexivity |]. cbn. unfold upd.
  destruct (Nat.eqb_spec t' t); [contradiction | reflexivity].
Qed.

Lemma update_local_statistics_rqs c t s :
  rqs (update_local_statistics c t s) = rqs s
  /\ grq (update_local_statistics c t s) = grq s.
Proof.
  unfold update_local_statistics. destruct t as [t |]; [| split; reflexivity].
  destruct (_ <=? 0); split; reflexivity.
Qed.

Lemma update_local_statistics_twice c t s :
  update_local_statistics c (Some t) (update_local_statistics c (Some t) s)
  = update_local_statistics c (Some t) s.
Proof.
  destruct (Z.leb_spec (s64 (u64 (rq_clock_task (rqs s c)
                                  - se_exec_start (threads s t)))) 0) as [Hle | Hgt].
  - assert (E : update_local_statistics c (Some t) s = s).
    { unfold update_local_statistics.
      destruct (Z.leb_spec (s64 (u64 (rq_clock_task (rqs s c)
                                      - se_exec_start (threads s t)))) 0);
        [reflexivity | lia]. }
    rewrite !E. reflexivity.
  - set (s1 := update_local_statistics c (Some t) s).
    assert (Hnow : rq_clock_task (rqs s1 c) = rq_clock_task (rqs s c)).
    { unfold s1. rewrite (proj1 (update_local_statistics_rqs c (Some t) s)). reflexivity. }
    assert (Hstart : se_exec_start (threads s1 t) = rq_clock_task (rqs s c)).
    { unfold s1, update_local_statistics.
      destruct (Z.leb_spec (s64 (u64 (rq_clock_task (rqs s c)
                                      - se_exec_start (threads s t)))) 0); [lia |].
      cbn. unfold upd. rewrite Nat.eqb_refl. reflexivity. }
    apply update_local_statistics_skipped. rewrite Hnow, Hstart. lia.
Qed.

(** X18: update_local_statistics without a thread changes
    nothing; with one it touches only that thread.  When the task clock of
    the run queue is ahead of the thread's [exec_start], the difference is
    added to [sum_exec_runtime] and [exec_start] moves to the clock;
    otherwise nothing changes.  A second call at the same clock changes
    nothing, and charging at an intermediate time and then at a later one
    gives the same runtime as charging once at the later one. *)
Theorem update_local_statistics_accounting (c : cpu_id) (t : tid) (s : state) :
  let now := rq_clock_task (rqs s c) in
  let th := threads s t in
  let s' := update_local_statistics c (Some t) s in
  update_local_statistics c None s = s
  /\ rqs s' = rqs s /\ grq s' = grq s
  /\ (forall t', t' <> t -> threads s' t' = threads s t')
  /\ (0 < now - se_exec_start th < 2 ^ 63 ->
        se_exec_start (threads s' t) = now
        /\ se_sum_exec_runtime (threads s' t)
           = u64 (se_sum_exec_runtime th + (now - se_exec_start th))
        /\ se_prev_sum_exec_runtime (threads s' t) = se_prev_sum_exec_runtime th)
  /\ (- 2 ^ 63 <= now - se_exec_start th <= 0 -> s' = s)
  /\ update_local_statistics c (Some t) s' = s'
  /\ (forall k1 n1 k2 n2,
        se_exec_start th <= n1 <= n2 -> n2 - se_exec_start th < 2 ^ 63 ->
        let tick k n x := update_local_statistics c (Some t)
                            (upd_rq c (set_rq_clocks k n) x) in
        se_sum_exec_runtime (threads (tick k2 n2 (tick k1 n1 s)) t)
        = se_sum_exec_runtime (threads (tick k2 n2 s) t)
        /\ (se_exec_start th < n2 ->
            se_sum_exec_runtime (threads (tick k2 n2 s) t)
            = u64 (se_sum_exec_runtime th + (n2 - se_exec_start th))
            /\ se_exec_start (threads (tick k2 n2 (tick k1 n1 s)) t) = n2)).
Proof.
  intros now th s'. subst s'.
  split; [reflexivity |].
  split; [apply update_local_statistics_rqs |].
  split; [apply update_local_statistics_rqs |].
  split; [intros t' Ht'; apply update_local_statistics_others; exact Ht' |].
  split.
  { intros H. rewrite (update_local_statistics_charged c t s H). fold now th.
    repeat split; reflexivity. }
  split; [apply update_local_statistics_skipped |].
  split; [apply update_local_statistics_twice |].
  intros k1 n1 k2 n2 Hord Hrange tick.
  assert (Hclk : forall k n x, rq_clock_task (rqs (upd_rq c (set_rq_clocks k n) x) c) = n).
  { intros k n x. cbn. unfold upd. rewrite Nat.eqb_refl. reflexivity. }
  assert (Hth : forall k n x, threads (upd_rq c (set_rq_clocks k n) x) = threads x)
    by reflexivity.
  assert (Hdirect : se_exec_start th < n2 ->
            threads (tick k2 n2 s) t
            = set_se n2 (u64 (se_sum_exec_runtime th + (n2 - se_exec_start th)))
                     (se_prev_sum_exec_runtime th) th).
  { intros Hlt. unfold tick.
    pose proof (update_local_statistics_charged c t (upd_rq c (set_rq_clocks k2 n2) s)) as H.
    cbv zeta in H. rewrite Hclk, Hth in H. fold th in H. apply H. lia. }
  assert (Hnone : forall k x, se_exec_start (threads x t) = n2 ->
            threads (tick k n2 x) t = threads x t).
  { intros k x Hx. unfold tick.
    rewrite (update_local_statistics_skipped c t (upd_rq c (set_rq_clocks k n2) x)).
    - reflexivity.
    - rewrite Hclk, Hth, Hx. lia. }
  destruct (Z.eq_dec (se_exec_start th) n1) as [E1 | N1].
  - assert (Hs1 : tick k1 n1 s = upd_rq c (set_rq_clocks k1 n1) s).
    { unfold tick. apply update_local_statistics_skipped.
      rewrite Hclk, Hth. fold th. lia. }
    rewrite Hs1.
    assert (Hsame : threads (tick k2 n2 (upd_rq c (set_rq_clocks k1 n1) s)) t
                    = threads (tick k2 n2 s) t).
    { destruct (Z.eq_dec n1 n2) as [E2 | N2].
      - rewrite !Hnone; [reflexivity | fold th; lia | rewrite Hth; fold th; lia].
      - rewrite Hdirect by lia. unfold tick.
        pose proof (update_local_statistics_charged c t
                      (upd_rq c (set_rq_clocks k2 n2) (upd_rq c (set_rq_clocks k1 n1) s)))
          as H.
        cbv zeta in H. rewrite Hclk in H.
        change (threads (upd_rq c (set_rq_clocks k2 n2)
                           (upd_rq c (set_rq_clocks k1 n1) s)) t) with th in H.
        apply H. lia. }
    rewrite Hsame. split; [reflexivity |].
    intros Hlt. rewrite Hdirect by exact Hlt. split; reflexivity.
  - assert (Hs1 : threads (tick k1 n1 s) t
                  = set_se n1 (u64 (se_sum_exec_runtime th + (n1 - se_exec_start th)))
                           (se_prev_sum_exec_runtime th) th).
    { unfold tick.
      pose proof (update_local_statistics_charged c t (upd_rq c (set_rq_clocks k1 n1) s)) as H.
      cbv zeta in H. rewrite Hclk, Hth in H. fold th in H. apply H. lia. }
    rewrite Hdirect by lia.
    destruct (Z.eq_dec n1 n2) as [E2 | N2].
    + rewrite Hnone by (rewrite Hs1; cbn; exact E2).
      rewrite Hs1, E2. split; [reflexivity |]. intros _. split; reflexivity.
    + assert (Hs2 : threads (tick k2 n2 (tick k1 n1 s)) t
                    = set_se n2 (u64 (se_sum_exec_runtime (threads (tick k1 n1 s) t)
                                      + (n2 - se_exec_start (threads (tick k1 n1 s) t))))
                             (se_prev_sum_exec_runtime (threads (tick k1 n1 s) t))
                             (threads (tick k1 n1 s) t)).
      { unfold tick at 1.
        pose proof (update_local_statistics_charged c t
                      (upd_rq c (set_rq_clocks k2 n2) (tick k1 n1 s))) as H.
        cbv zeta in H. rewrite Hclk, Hth in H. apply H. rewrite Hs1. cbn. lia. }
      rewrite Hs2, Hs1. cbn.
      split; [| intros _; split; reflexivity].
      unfold u64. rewrite Zplus_mod_idemp_l. f_equal. lia.
Qed.

End RuntimeAccounting.

Section RuntimeAccountingExamples.

Lemma update_local_statistics_accounting_witness :
  let tick n x := update_local_statistics 0 (Some 3%nat)
                    (upd_rq 0 (set_rq_clocks n n) x) in
  se_sum_exec_runtime (threads (tick 1200 (tick 500 two_cpu_machine)) 3%nat) = 1200
  /\ se_exec_start (threads (tick 1200 (tick 500 two_cpu_machine)) 3%nat) = 1200.
Proof.
  intros tick.
  destruct (update_local_statistics_accounting 0 3 two_cpu_machine)
    as [_ [_ [_ [_ [_ [_ [_ H]]]]]]].
  destruct (H 500 500 1200 1200) as [Hsum Hlast].
  { vm_compute. split; discriminate. }
  { vm_compute. reflexivity. }
  destruct Hlast as [Hdirect Hstart].
  { vm_compute. reflexivity. }
  split; [| exact Hstart].
  unfold tick. rewrite Hsum, Hdirect. vm_compute. reflexivity.
Defined.

End RuntimeAccountingExamples.

(** ** Energy statistics and the stop call *)

Section EnergyStatistics.

Lemma update_rapl_counter_grows i value consumption duration avg v' :
  __update_rapl_counter i value consumption duration avg = Some v' ->
  0 <= value -> value + 2 ^ 32 <= 2 ^ 64 ->
  value <= v' <= value + U32_MAX.
Proof.
  unfold __update_rapl_counter. destruct (update_interval i =? 0); [discriminate |].
  intros H Hv Hsmall. injection H as <-.
  pose proof (u32_range (final_consumption i consumption duration avg * unit i)) as Hu.
  unfold is_u32 in Hu. unfold U32_MAX.
  rewrite u64_small by (unfold is_u64; lia). lia.
Qed.

(** X19: update_energy_statistics has no result for an energy
    task that is not on [grq.tasks] and for an update interval of 0 (a
    division by zero).  Otherwise it stores the new sample in [grc], counts
    one update and one defer, adds the duration of the measuring loop to
    [us_defered], and never lowers one of the four energy counters of the
    task: each grows by at most U32_MAX.  Beside [grc] only the
    thread that owns the task changes. *)
Theorem update_energy_statistics_effect (hw : rapl_sample) (a : eaddr) (s : state) :
  (get_etask a s = None -> update_energy_statistics hw a s = None)
  /\ (forall e, get_etask a s = Some e ->
        (update_interval (gri s) = 0 -> update_energy_statistics hw a s = None)
        /\ (update_interval (gri s) <> 0 ->
            exists s', update_energy_statistics hw a s = Some s'
              /\ grc s' = sample_counters hw
              /\ grq s' = grq s /\ rqs s' = rqs s
              /\ (forall t, t <> e_task e -> threads s' t = threads s t)
              /\ let old := e_statistics (threads s (e_task e)) in
                 let new := e_statistics (threads s' (e_task e)) in
                 nr_updates new = u64 (nr_updates old + 1)
                 /\ nr_defers new = u64 (nr_defers old + 1)
                 /\ us_defered new = u64 (us_defered old + sample_duration hw)
                 /\ (forall f, In f [uj_package; uj_dram; uj_core; uj_gpu] ->
                       0 <= f old -> f old + 2 ^ 32 <= 2 ^ 64 ->
                       f old <= f new <= f old + U32_MAX))).
Proof.
  split.
  { intros H. unfold update_energy_statistics. rewrite H. reflexivity. }
  intros e He. split.
  { intros Hz. unfold update_energy_statistics, read_rapl_counters. rewrite He.
    cbv zeta. cbn [fst snd gri set_grc]. unfold __update_rapl_counter.
    rewrite Hz. reflexivity. }
  intros Hnz. unfold update_energy_statistics, read_rapl_counters. rewrite He.
  cbv zeta. cbn [fst snd gri grc set_grc].
  destruct (__update_rapl_counter (gri s) (uj_package _) _ _ _) as [p |] eqn:Ep;
    [| unfold __update_rapl_counter in Ep;
       destruct (Z.eqb_spec (update_interval (gri s)) 0); [contradiction | discriminate]].
  destruct (__update_rapl_counter (gri s) (uj_dram _) _ _ _) as [d |] eqn:Ed;
    [| unfold __update_rapl_counter in Ed;
       destruct (Z.eqb_spec (update_interval (gri s)) 0); [contradiction | discriminate]].
  destruct (__update_rapl_counter (gri s) (uj_core _) _ _ _) as [k |] eqn:Ek;
    [| unfold __update_rapl_counter in Ek;
       destruct (Z.eqb_spec (update_interval (gri s)) 0); [contradiction | discriminate]].
  destruct (__update_rapl_counter (gri s) (uj_gpu _) _ _ _) as [g |] eqn:Eg;
    [| unfold __update_rapl_counter in Eg;
       destruct (Z.eqb_spec (update_interval (gri s)) 0); [contradiction | discriminate]].
  eexists. split; [reflexivity |].
  split; [reflexivity |]. split; [reflexivity |]. split; [reflexivity |].
  split.
  { intros t Ht. cbn. unfold upd.
    destruct (Nat.eqb_spec t (e_task e)); [contradiction | reflexivity]. }
  cbn [threads upd_thread set_threads set_grc]. unfold upd. rewrite Nat.eqb_refl.
  cbn [e_statistics set_e_statistics nr_updates nr_defers us_defered].
  split; [reflexivity |]. split; [reflexivity |]. split; [reflexivity |].
  intros f [<- | [<- | [<- | [<- | []]]]] H0 Hs; cbn.
  - apply (update_rapl_counter_grows _ _ _ _ _ _ Ep H0 Hs).
  - apply (update_rapl_counter_grows _ _ _ _ _ _ Ed H0 Hs).
  - apply (update_rapl_counter_grows _ _ _ _ _ _ Ek H0 Hs).
  - apply (update_rapl_counter_grows _ _ _ _ _ _ Eg H0 Hs).
Qed.

End EnergyStatistics.

Section EnergyStatisticsExamples.

Lemma update_energy_statistics_effect_witness :
  exists s', update_energy_statistics demo_sample 10 two_cpu_machine = Some s'
    /\ nr_updates (e_statistics (threads s' 1)) = 1
    /\ 0 <= uj_package (e_statistics (threads s' 1)) <= U32_MAX.
Proof.
  destruct (update_energy_statistics_effect demo_sample 10 two_cpu_machine) as [_ H].
  destruct (H (mk_etask 10 ETASK_RUNNING 1 3 [1; 2; 3; 4]%nat) eq_refl) as [_ H'].
  destruct H' as [s' [Hs [_ [_ [_ [_ Hstats]]]]]]; [discriminate |].
  cbv zeta in Hstats. destruct Hstats as [Hn [_ [_ Hf]]].
  change (e_task (mk_etask 10 ETASK_RUNNING 1 3 [1; 2; 3; 4]%nat)) with 1%nat in Hn, Hf.
  exists s'. split; [exact Hs |]. split; [rewrite Hn; vm_compute; reflexivity |].
  apply (Hf uj_package); [left; reflexivity | vm_compute; discriminate | vm_compute; discriminate].
Defined.

End EnergyStatisticsExamples.

Section StopEnergy.

Variable current : tid.
Variable find_task_by_vpid : state -> Z -> option tid.
Variable for_each_thread : state -> tid -> list tid.
Variable sched_setscheduler_nocheck : tid -> Z -> state -> Z * state.

(** X20: do_stop_energy returns -EINVAL for a negative pid and
    -ESRCH when the pid resolves to no task, both without touching the
    machine; pid 0 stands for the caller.  Otherwise it tries to switch
    every thread of the thread group of the resolved task to SCHED_NORMAL,
    going on after a failure, and returns the status of the last attempt
    (-ESRCH when the group has no thread). *)
Theorem do_stop_energy_status (pid : Z) (s : state) :
  let stop := do_stop_energy current find_task_by_vpid for_each_thread
                             sched_setscheduler_nocheck in
  let p := if pid =? 0 then Some current else find_task_by_vpid s pid in
  (pid < 0 -> stop pid s = (- EINVAL, s))
  /\ (0 <= pid -> p = None -> stop pid s = (- ESRCH, s))
  /\ (forall p0, 0 <= pid -> p = Some p0 ->
        let l := for_each_thread s (find_task s p0) in
        let results := switch_results sched_setscheduler_nocheck SCHED_NORMAL l s in
        stop pid s
        = (last results (- ESRCH),
           switch_effects sched_setscheduler_nocheck SCHED_NORMAL l s)
        /\ length results = length l
        /\ (l = [] -> stop pid s = (- ESRCH, s))
        /\ (forall earlier e, results = earlier ++ [e] -> fst (stop pid s) = e)).
Proof.
  intros stop p. subst stop. unfold do_stop_energy. fold p.
  split; [| split].
  - intros Hneg. destruct (Z.ltb_spec pid 0); [reflexivity | lia].
  - intros Hpos Hp. destruct (Z.ltb_spec pid 0); [lia |]. rewrite Hp. reflexivity.
  - intros p0 Hpos Hp. cbv zeta.
    destruct (Z.ltb_spec pid 0); [lia |]. rewrite Hp.
    rewrite switch_loop_spec.
    split; [reflexivity |].
    split; [apply switch_results_length |].
    split.
    + intros ->. reflexivity.
    + intros earlier e E. cbn [fst]. rewrite E. apply last_last.
Qed.

End StopEnergy.

Section StopEnergyExamples.

Lemma do_stop_energy_status_witness :
  let stop := do_stop_energy demo_current demo_find_task_by_vpid
                (fun _ _ => [2; 3]%nat) demo_setscheduler in
  stop (-1) two_cpu_machine = (- EINVAL, two_cpu_machine)
  /\ switch_results demo_setscheduler SCHED_NORMAL [2; 3]%nat two_cpu_machine = [-1; 0]
  /\ fst (stop 0 two_cpu_machine) = 0.
Proof.
  intros stop.
  destruct (do_stop_energy_status demo_current demo_find_task_by_vpid
              (fun _ _ => [2; 3]%nat) demo_setscheduler (-1) two_cpu_machine)
    as [Hneg _].
  destruct (do_stop_energy_status demo_current demo_find_task_by_vpid
              (fun _ _ => [2; 3]%nat) demo_setscheduler 0 two_cpu_machine)
    as [_ [_ Hloop]].
  split; [apply Hneg; lia |]. split; [reflexivity |].
  destruct (Hloop demo_current) as [_ [_ [_ Hlast]]]; [lia | reflexivity |].
  apply (Hlast [-1]). reflexivity.
Defined.

End StopEnergyExamples.

(** ** The RAPL registers *)

Section RaplRegisters.

Lemma unit_field v :
  Z.shiftr (Z.land v MASK_UNIT) OFFSET_UNIT = (v / 2 ^ 8) mod 2 ^ 5.
Proof.
  unfold MASK_UNIT, OFFSET_UNIT.
  rewrite Z.shiftr_land.
  change (Z.shiftr 7936 8) with (Z.ones 5).
  rewrite Z.land_ones by lia.
  rewrite Z.shiftr_div_pow2 by lia. reflexivity.
Qed.

Lemma pkg_field v :
  Z.shiftr (Z.land v MASK_PKG) OFFSET_PKG = v mod 2 ^ 32.
Proof.
  unfold MASK_PKG, OFFSET_PKG.
  rewrite Z.shiftr_0_r.
  change 4294967295 with (Z.ones 32).
  apply Z.land_ones. lia.
Qed.

Lemma unit_value e :
  0 <= e < 31 ->
  u32 (1000000 / Z.shiftl 1 e) = 1000000 / 2 ^ e
  /\ 0 <= 1000000 / 2 ^ e <= 1000000
  /\ (20 <= e -> 1000000 / 2 ^ e = 0).
Proof.
  intros He. rewrite Z.shiftl_1_l.
  assert (Hp : 0 < 2 ^ e) by (apply Z.pow_pos_nonneg; lia).
  assert (Hq : 0 <= 1000000 / 2 ^ e <= 1000000).
  { split; [apply Z.div_pos; lia |].
    apply Z.div_le_upper_bound; [lia |]. nia. }
  split; [| split].
  - apply u32_small. unfold is_u32. lia.
  - exact Hq.
  - intros H20. apply Z.div_small. split; [lia |].
    assert (2 ^ 20 <= 2 ^ e) by (apply Z.pow_le_mono_r; lia).
    change (2 ^ 20) with 1048576 in *. lia.
Qed.

(** X21: __read_rapl_msr fails with -EINVAL for a NULL pointer; a
    failed read of the register is passed on, by __read_rapl_unit too, and
    nothing is stored.  A counter is the low 32 bits of its register.  The
    exponent [e] of the energy unit is the five bits from bit 8 on, and for
    [e] other than 31 the unit is 1000000 / 2^e micro joules, which is 0
    from [e] = 20 on; with a unit of 0 __update_rapl_counter adds
    nothing. *)
Theorem rapl_registers_decoded (hw : msr_answer) :
  (forall mask offset,
     __read_rapl_msr None hw mask offset = Some (- EINVAL, None))
  /\ (msr_err hw <> 0 ->
      (forall old mask offset,
         __read_rapl_msr (Some old) hw mask offset = Some (msr_err hw, Some old))
      /\ (forall old_unit, __read_rapl_unit old_unit hw = Some (msr_err hw, old_unit)))
  /\ (msr_err hw = 0 ->
      (forall old,
         __read_rapl_msr (Some old) hw MASK_PKG OFFSET_PKG
         = Some (0, Some (msr_val hw mod 2 ^ 32)))
      /\ (forall old_unit,
            let e := (msr_val hw / 2 ^ 8) mod 2 ^ 5 in
            e <> 31 ->
            __read_rapl_unit old_unit hw = Some (0, 1000000 / 2 ^ e)
            /\ 0 <= 1000000 / 2 ^ e <= 1000000
            /\ (20 <= e ->
                __read_rapl_unit old_unit hw = Some (0, 0)
                /\ forall i value consumption duration avg,
                     unit i = 0 -> update_interval i <> 0 ->
                     __update_rapl_counter i value consumption duration avg
                     = Some (u64 value)))).
Proof.
  split; [reflexivity |]. split.
  - intros Herr.
    assert (E : (msr_err hw =? 0) = false) by (apply Z.eqb_neq; exact Herr).
    split.
    + intros old mask offset. unfold __read_rapl_msr. rewrite E. reflexivity.
    + intros old_unit. unfold __read_rapl_unit, __read_rapl_msr. rewrite E.
      cbn [negb]. rewrite E. reflexivity.
  - intros Herr. split.
    + intros old. unfold __read_rapl_msr. rewrite Herr.
      cbn [Z.eqb negb]. change (64 <=? OFFSET_PKG) with false. cbv iota.
      rewrite pkg_field. rewrite u32_small; [reflexivity |].
      unfold is_u32. apply Z.mod_pos_bound. lia.
    + intros old_unit e Hne.
      assert (He : 0 <= e < 31).
      { subst e. pose proof (Z.mod_pos_bound (msr_val hw / 2 ^ 8) (2 ^ 5)).
        change (2 ^ 5) with 32 in *. lia. }
      destruct (unit_value e He) as [Hu [Hr Hz]].
      assert (Hrun : __read_rapl_unit old_unit hw = Some (0, 1000000 / 2 ^ e)).
      { unfold __read_rapl_unit, __read_rapl_msr. rewrite Herr.
        cbn [Z.eqb negb]. change (64 <=? OFFSET_UNIT) with false. cbv iota.
        rewrite unit_field. fold e.
        rewrite (u32_small e) by (unfold is_u32; lia).
        destruct (Z.leb_spec 31 e); [lia |]. rewrite Hu. reflexivity. }
      split; [exact Hrun |]. split; [exact Hr |].
      intros H20. split; [rewrite Hrun, (Hz H20); reflexivity |].
      intros i value consumption duration avg Hunit Hint.
      unfold __update_rapl_counter.
      destruct (Z.eqb_spec (update_interval i) 0); [contradiction |].
      rewrite Hunit, Z.mul_0_r, Z.add_0_r. reflexivity.
Qed.

End RaplRegisters.

Section RaplRegistersExamples.

Lemma rapl_registers_decoded_witness :
  __read_rapl_msr (Some 7) {| msr_err := 0; msr_val := 2 ^ 32 + 5 |}
    MASK_PKG OFFSET_PKG = Some (0, Some 5)
  /\ __read_rapl_unit 0 {| msr_err := 0; msr_val := 658947 |} = Some (0, 61)
  /\ __read_rapl_unit 9 {| msr_err := -5; msr_val := 0 |} = Some (-5, 9).
Proof.
  split; [| split].
  - destruct (rapl_registers_decoded {| msr_err := 0; msr_val := 2 ^ 32 + 5 |})
      as [_ [_ H]].
    destruct (H eq_refl) as [Hpkg _]. exact (Hpkg 7).
  - destruct (rapl_registers_decoded {| msr_err := 0; msr_val := 658947 |})
      as [_ [_ H]].
    destruct (H eq_refl) as [_ Hunit].
    destruct (Hunit 0) as [Hrun _]; [vm_compute; discriminate |]. exact Hrun.
  - destruct (rapl_registers_decoded {| msr_err := -5; msr_val := 0 |})
      as [_ [H _]].
    destruct H as [_ Hunit]; [discriminate |]. exact (Hunit 9).
Defined.

End RaplRegistersExamples.

Section RaplPolling.

Variable mask offset : Z.
Hypothesis offset_small : 0 <= offset < 64.

Local Abbreviation dec hw := (u32 (Z.shiftr (Z.land (msr_val hw) mask) offset)).

Lemma read_ok old hw :
  msr_err hw = 0 ->
  __read_rapl_msr (Some old) hw mask offset = Some (0, Some (dec hw)).
Proof.
  intros H. unfold __read_rapl_msr. rewrite H. cbn [Z.eqb negb].
  destruct (Z.leb_spec 64 offset); [lia | reflexivity].
Qed.

Lemma read_fail old hw :
  msr_err hw <> 0 ->
  __read_rapl_msr (Some old) hw mask offset = Some (msr_err hw, Some old).
Proof.
  intros H. unfold __read_rapl_msr.
  destruct (Z.eqb_spec (msr_err hw) 0); [contradiction | reflexivity].
Qed.

Lemma poll_same same rest start :
  Forall (fun hw => msr_err hw = 0 /\ dec hw = start) same ->
  poll_rapl_msr (same ++ rest) mask offset start
  = poll_rapl_msr rest mask offset start.
Proof.
  induction 1 as [| hw same [He Hd] _ IH]; [reflexivity |].
  cbn [app poll_rapl_msr]. rewrite (read_ok _ _ He).
  cbn [Z.eqb negb]. rewrite Hd, Z.eqb_refl. exact IH.
Qed.

(** X22: __read_rapl_msr_until_update passes on the first
    failed read and stores nothing then; while the register decodes to the
    value of the first read it goes on reading; and it succeeds with the
    first value that differs from the first read, the second time stamp,
    and as duration the micro seconds between the two time stamps. *)
Theorem read_rapl_msr_until_update_waits (start_tick end_tick : Z)
    (first : msr_answer) (same : list msr_answer) :
  let read := __read_rapl_msr_until_update start_tick end_tick in
  (read [] mask offset = None)
  /\ (msr_err first <> 0 ->
      forall rest, read (first :: rest) mask offset = Some (msr_err first, None))
  /\ (msr_err first = 0 ->
      Forall (fun hw => msr_err hw = 0 /\ dec hw = dec first) same ->
      read (first :: same) mask offset = None
      /\ (forall hw rest, msr_err hw <> 0 ->
            read (first :: same ++ hw :: rest) mask offset
            = Some (msr_err hw, None))
      /\ (forall hw rest, msr_err hw = 0 -> dec hw <> dec first ->
            read (first :: same ++ hw :: rest) mask offset
            = Some (0, Some {| up_tick := end_tick; up_value := dec hw;
                               up_duration :=
                                 u64 (Z.quot (s64 (end_tick - start_tick)) 1000) |})
            /\ (0 <= end_tick - start_tick < 2 ^ 63 ->
                u64 (Z.quot (s64 (end_tick - start_tick)) 1000)
                = (end_tick - start_tick) / 1000))).
Proof.
  intros read. subst read. split; [reflexivity |]. split.
  - intros Herr rest. unfold __read_rapl_msr_until_update.
    rewrite (read_fail _ _ Herr).
    destruct (Z.eqb_spec (msr_err first) 0); [contradiction | reflexivity].
  - intros Herr Hsame. unfold __read_rapl_msr_until_update.
    rewrite (read_ok _ _ Herr). cbn [Z.eqb negb].
    split; [| split].
    + rewrite <- (app_nil_r same), (poll_same _ _ _ Hsame). reflexivity.
    + intros hw rest Hhw. rewrite (poll_same _ _ _ Hsame).
      cbn [poll_rapl_msr]. rewrite (read_fail _ _ Hhw).
      destruct (Z.eqb_spec (msr_err hw) 0); [contradiction |]. cbn [negb].
      destruct (Z.eqb_spec (msr_err hw) 0); [contradiction | reflexivity].
    + intros hw rest Hhw Hd. rewrite (poll_same _ _ _ Hsame).
      cbn [poll_rapl_msr]. rewrite (read_ok _ _ Hhw). cbn [Z.eqb negb].
      destruct (Z.eqb_spec (dec hw) (dec first)); [contradiction |].
      cbn [Z.eqb negb]. split; [reflexivity |].
      intros Hr. unfold s64.
      rewrite (u64_small (end_tick - start_tick)) by (unfold is_u64; lia).
      destruct (Z.ltb_spec (end_tick - start_tick) (2 ^ 63)); [| lia].
      rewrite Z.quot_div_nonneg by lia.
      apply u64_small. unfold is_u64. split; [apply Z.div_pos; lia |].
      apply Z.div_lt_upper_bound; lia.
Qed.

End RaplPolling.

Section RaplPollingExamples.

Lemma read_rapl_msr_until_update_waits_witness :
  __read_rapl_msr_until_update 1000 251000
    [ {| msr_err := 0; msr_val := 40 |}; {| msr_err := 0; msr_val := 2 ^ 32 + 40 |};
      {| msr_err := 0; msr_val := 41 |}; {| msr_err := -5; msr_val := 0 |} ]
    MASK_PKG OFFSET_PKG
  = Some (0, Some {| up_tick := 251000; up_value := 41; up_duration := 250 |}).
Proof.
  destruct (read_rapl_msr_until_update_waits MASK_PKG OFFSET_PKG
              ltac:(unfold OFFSET_PKG; lia) 1000 251000
              {| msr_err := 0; msr_val := 40 |}
              [ {| msr_err := 0; msr_val := 2 ^ 32 + 40 |} ])
    as [_ [_ H]].
  destruct (H eq_refl) as [_ [_ Hchg]].
  { constructor; [split; reflexivity | constructor]. }
  destruct (Hchg {| msr_err := 0; msr_val := 41 |} [ {| msr_err := -5; msr_val := 0 |} ]
              eq_refl) as [Hrun _].
  { vm_compute. discriminate. }
  exact Hrun.
Defined.

End RaplPollingExamples.

(** ** The idle threads *)

Section IdleThreads.

Variable kthread_create : cpu_id -> tid.

Local Abbreviation idle_body :=
  (fun s cpu =>
     let idle_thread := kthread_create cpu in
     let s := upd_thread idle_thread (set_idle_thread cpu) s in
     upd_rq cpu (set_en_idle (Some idle_thread)) s).

Lemma idle_loop l : forall s,
  NoDup l ->
  (forall c c', In c l -> In c' l -> kthread_create c = kthread_create c' -> c = c') ->
  let s' := fold_left idle_body l s in
  grq s' = grq s
  /\ (forall c, In c l -> rqs s' c = set_en_idle (Some (kthread_create c)) (rqs s c))
  /\ (forall c, ~ In c l -> rqs s' c = rqs s c)
  /\ (forall c, In c l ->
        threads s' (kthread_create c) = set_idle_thread c (threads s (kthread_create c)))
  /\ (forall t, (forall c, In c l -> t <> kthread_create c) -> threads s' t = threads s t).
Proof.
  induction l as [| c0 l IH]; intros s Hnd Hinj.
  - cbn. split; [reflexivity |]. split; [intros c [] |]. split; [reflexivity |].
    split; [intros c [] | reflexivity].
  - apply NoDup_cons_iff in Hnd. destruct Hnd as [Hnotin Hnd].
    cbn [fold_left]. cbv zeta.
    set (s1 := upd_rq c0 _ (upd_thread _ _ s)).
    assert (Hinj' : forall c c', In c l -> In c' l ->
                       kthread_create c = kthread_create c' -> c = c').
    { intros c c' Hc Hc'. apply Hinj; right; assumption. }
    destruct (IH s1 Hnd Hinj') as [Hg [Hin [Hout [Hth Hoth]]]].
    cbv zeta in Hg, Hin, Hout, Hth, Hoth.
    split; [rewrite Hg; reflexivity |].
    split; [| split; [| split]].
    + intros c [<- | Hc].
      * rewrite (Hout c0 Hnotin). subst s1. cbn. unfold upd.
        rewrite Nat.eqb_refl. reflexivity.
      * rewrite (Hin c Hc). subst s1. cbn. unfold upd.
        destruct (Nat.eqb_spec c c0) as [-> | _]; [contradiction | reflexivity].
    + intros c Hc. rewrite Hout by (intros H; apply Hc; right; exact H).
      subst s1. cbn. unfold upd.
      destruct (Nat.eqb_spec c c0) as [-> | _]; [| reflexivity].
      exfalso. apply Hc. left. reflexivity.
    + intros c [<- | Hc].
      * rewrite Hoth.
        -- subst s1. cbn. unfold upd. rewrite Nat.eqb_refl. reflexivity.
        -- intros c Hc E. apply Hnotin.
           rewrite (Hinj c0 c); [exact Hc | left; reflexivity | right; exact Hc | exact E].
      * rewrite (Hth c Hc). subst s1. cbn. unfold upd.
        destruct (Nat.eqb_spec (kthread_create c) (kthread_create c0)) as [E | _];
          [| reflexivity].
        exfalso. apply Hnotin.
        rewrite <- (Hinj c c0); [exact Hc | right; exact Hc | left; reflexivity | exact E].
    + intros t Ht. rewrite Hoth by (intros c Hc; apply Ht; right; exact Hc).
      subst s1. cbn. unfold upd.
      destruct (Nat.eqb_spec t (kthread_create c0)) as [E | _]; [| reflexivity].
      exfalso. apply (Ht c0); [left; reflexivity | exact E].
Qed.

Lemma bound_to_cpu c c' :
  cpumask_test_cpu c' (Z.shiftl 1 (Z.of_nat c)) = Nat.eqb c' c.
Proof.
  unfold cpumask_test_cpu. rewrite Z.shiftl_1_l.
  rewrite Z.pow2_bits_eqb by lia.
  destruct (Nat.eqb_spec c' c) as [-> | Hne].
  - apply Z.eqb_refl.
  - apply Z.eqb_neq. lia.
Qed.

(** X23: when [kthread_create] answers with a different thread
    for every possible CPU, init_e_idle_threads makes that thread the idle
    thread of the CPU's run queue and changes nothing else of the run
    queue; the thread is in the scheduling class and allowed on that CPU
    only.  pick_next_local_task on an empty local queue, which has no
    result before, returns the idle thread afterwards.  The global queue,
    the run queues of the other CPUs and the other threads are
    unchanged. *)
Theorem init_e_idle_threads_installs (cpu_possible_mask : cpumask) (s : state) :
  let possible := for_each_cpu (nr_cpu_ids s) cpu_possible_mask in
  let s' := init_e_idle_threads cpu_possible_mask kthread_create s in
  (forall c c', In c possible -> In c' possible ->
     kthread_create c = kthread_create c' -> c = c') ->
  grq s' = grq s
  /\ (forall c, In c possible ->
        rqs s' c = set_en_idle (Some (kthread_create c)) (rqs s c)
        /\ in_energy_class (threads s' (kthread_create c)) = true
        /\ (forall c', cpumask_test_cpu c' (cpus_allowed (threads s' (kthread_create c)))
                       = Nat.eqb c' c)
        /\ (en_nr_runnable (rqs s c) = 0 -> en_idle (rqs s c) = None ->
            pick_next_local_task c s = None)
        /\ (en_nr_runnable (rqs s c) = 0 ->
            exists s'', pick_next_local_task c s' = Some (kthread_create c, s'')
              /\ en_curr (rqs s'' c) = Some (kthread_create c)))
  /\ (forall c, ~ In c possible -> rqs s' c = rqs s c)
  /\ (forall t, (forall c, In c possible -> t <> kthread_create c) ->
        threads s' t = threads s t).
Proof.
  intros possible s' Hinj.
  pose proof (idle_loop possible s (NoDup_for_each_cpu _ _) Hinj) as H.
  change (fold_left _ possible s) with s' in H. cbv zeta in H.
  destruct H as [Hg [Hin [Hout [Hth Hoth]]]].
  split; [exact Hg |]. split; [| split; [exact Hout | exact Hoth]].
  intros c Hc. split; [exact (Hin c Hc) |].
  split; [rewrite (Hth c Hc); reflexivity |].
  split; [intros c'; rewrite (Hth c Hc); apply bound_to_cpu |].
  split.
  - intros Hz. unfold pick_next_local_task. cbv zeta.
    cbn [rqs clear_resched_curr_local upd_rq set_rqs]. unfold upd.
    rewrite Nat.eqb_refl. cbn. rewrite Hz. cbn.
    intros ->. reflexivity.
  - intros Hz. unfold pick_next_local_task. cbv zeta.
    cbn [rqs clear_resched_curr_local upd_rq set_rqs]. unfold upd.
    rewrite Nat.eqb_refl. cbn. rewrite (Hin c Hc). cbn. rewrite Hz. cbn.
    eexists. split; [reflexivity |].
    cbn. unfold upd. rewrite Nat.eqb_refl. reflexivity.
Qed.

End IdleThreads.

Section IdleThreadsExamples.

Lemma init_e_idle_threads_installs_witness :
  let s' := init_e_idle_threads 3 (fun c => (100 + c)%nat) boot_machine in
  pick_next_local_task 1 boot_machine = None
  /\ en_idle (rqs s' 1) = Some 101%nat
  /\ cpumask_test_cpu 0 (cpus_allowed (threads s' 101%nat)) = false
  /\ exists s'', pick_next_local_task 1 s' = Some (101%nat, s'').
Proof.
  intros s'.
  destruct (init_e_idle_threads_installs (fun c => (100 + c)%nat) 3 boot_machine)
    as [_ [H _]].
  { intros c c' _ _ E. lia. }
  destruct (H 1%nat) as [Hrq [_ [Hbound [Hbefore Hafter]]]].
  { vm_compute. right. left. reflexivity. }
  split; [apply Hbefore; reflexivity |].
  split; [subst s'; rewrite Hrq; reflexivity |].
  split; [apply (Hbound 0%nat) |].
  destruct Hafter as [s'' [Hp _]]; [reflexivity |].
  exists s''. exact Hp.
Defined.

End IdleThreadsExamples.

(** ** Dequeueing the last thread of an energy task *)

Section LastThread.

Lemma find_view_transfer a : forall (l l' : list energy_task) e,
  map e_view l' = map e_view l ->
  find (fun x => Nat.eqb (e_addr x) a) l = Some e ->
  exists e', find (fun x => Nat.eqb (e_addr x) a) l' = Some e'
             /\ e_view e' = e_view e.
Proof.
  induction l as [| x l IH]; intros l' e Hm Hf; [discriminate |].
  destruct l' as [| x' l']; [discriminate |].
  pose proof (f_equal (@hd _ (e_view x)) Hm) as Hx.
  pose proof (f_equal (@tl _) Hm) as Hl. cbn [hd tl map] in Hx, Hl.
  assert (Ha : e_addr x' = e_addr x) by exact (f_equal v_addr Hx).
  cbn in Hf |- *. rewrite Ha.
  destruct (Nat.eqb (e_addr x) a).
  - injection Hf as <-. exists x'. split; [reflexivity | exact Hx].
  - apply (IH l' e Hl Hf).
Qed.

Lemma get_etask_same_queue s s' a e :
  same_queue s s' -> get_etask a s = Some e ->
  exists e', get_etask a s' = Some e'
    /\ e_nr_runnable e' = e_nr_runnable e /\ e_runnable e' = e_runnable e.
Proof.
  intros [Hv _] He.
  destruct (find_view_transfer a _ _ e Hv He) as [e' [He' Hview]].
  exists e'. split; [exact He' |].
  split; [apply (f_equal v_nr) in Hview | apply (f_equal v_run) in Hview];
    exact Hview.
Qed.

Lemma get_etask_free a s : get_etask a (free_energy_task a s) = None.
Proof.
  unfold get_etask, free_energy_task, dequeue_energy_task. cbn.
  induction (tasks (grq s)) as [| x l IH]; [reflexivity |].
  cbn. destruct (Nat.eqb (e_addr x) a) eqn:E; cbn; [exact IH |].
  rewrite E. exact IH.
Qed.

Lemma running_bit_kept x m :
  Z.land m THREAD_RUNNING = THREAD_RUNNING ->
  Z.land (Z.land x m) THREAD_RUNNING = Z.land x THREAD_RUNNING.
Proof. intros Hm. rewrite <- Z.land_assoc, Hm. reflexivity. Qed.

Lemma dequeue_running_keeps t s s' :
  dequeue_running t s = Some s' ->
  grq s' = grq s
  /\ thread_cpu_running (threads s' t) = thread_cpu_running (threads s t)
  /\ thread_on_rq_queued (threads s' t) = thread_on_rq_queued (threads s t).
Proof.
  unfold dequeue_running.
  destruct (negb (thread_on_cpu_rq_queued (threads s t))); [discriminate |].
  intros H. injection H as <-. cbv zeta.
  split; [reflexivity |].
  unfold thread_cpu_running, thread_on_rq_queued. cbn. unfold upd.
  rewrite Nat.eqb_refl. cbn.
  split.
  - rewrite running_bit_kept; reflexivity.
  - rewrite rq_flag_land; reflexivity.
Qed.

Lemma dequeue_runnable_etask a t s e :
  thread_on_rq_queued (threads s t) = true ->
  get_etask a s = Some e ->
  exists s' e', dequeue_runnable a t s = Some s'
    /\ get_etask a s' = Some e'
    /\ e_state e' = e_state e
    /\ e_nr_runnable e' = u32 (e_nr_runnable e - 1)
    /\ e_runnable e' = remove Nat.eq_dec t (e_runnable e)
    /\ nr_tasks (grq s') = nr_tasks (grq s)
    /\ running (grq s') = running (grq s)
    /\ thread_cpu_running (threads s' t) = thread_cpu_running (threads s t).
Proof.
  intros Hq He. unfold dequeue_runnable. rewrite Hq. cbn [negb]. cbv zeta.
  eexists.
  exists (set_e_runnable (remove Nat.eq_dec t (e_runnable e))
                         (u32 (e_nr_runnable e - 1)) e).
  split; [reflexivity |].
  split.
  { unfold get_etask in *. cbn. revert He.
    induction (tasks (grq s)) as [| x l IH]; [discriminate |].
    cbn. destruct (Nat.eqb (e_addr x) a) eqn:E; cbn; rewrite E.
    - intros H. injection H as <-. reflexivity.
    - exact IH. }
  split; [reflexivity |]. split; [reflexivity |]. split; [reflexivity |].
  split; [reflexivity |]. split; [reflexivity |].
  unfold thread_cpu_running. cbn. unfold upd. rewrite Nat.eqb_refl. cbn.
  rewrite running_bit_kept; reflexivity.
Qed.

Lemma put_energy_task_frees hw a s s' e :
  get_etask a s = Some e -> e_nr_runnable e = 0 ->
  put_energy_task hw a s = Some s' ->
  get_etask a s' = None /\ nr_tasks (grq s') = u32 (nr_tasks (grq s) - 1).
Proof.
  intros He Hn Hf. unfold put_energy_task in Hf.
  destruct (update_energy_statistics hw a s) as [s1 |] eqn:E1; [| discriminate].
  destruct (clear_energy_task a s1) as [s2 |] eqn:E2; [| discriminate].
  cbv zeta in Hf.
  set (s3 := upd_etask a _ s2) in Hf.
  assert (Hsq : same_queue s s3).
  { apply same_queue_upd_etask; [intros; reflexivity |].
    apply (sq_clear_energy_task _ _ _ _ E2).
    apply (sq_update_energy_statistics _ _ _ _ _ E1). apply same_queue_refl. }
  assert (Hlf : leaf_frame s s3).
  { apply lf_upd_etask.
    apply (lf_clear_energy_task _ _ _ _ E2).
    apply (lf_update_energy_statistics _ _ _ _ _ E1). apply leaf_frame_refl. }
  destruct (get_etask_same_queue s s3 a e Hsq He) as [e3 [He3 [Hn3 _]]].
  rewrite He3, Hn3, Hn in Hf. cbn in Hf. injection Hf as <-.
  split; [apply get_etask_free |].
  destruct Hlf as [_ Hnr].
  change (nr_tasks (grq (free_energy_task a s3))) with (u32 (nr_tasks (grq s3) - 1)).
  rewrite Hnr. reflexivity.
Qed.

(** X24: dequeue_task_energy of a queued thread whose energy task
    is not running, while the thread itself is not running on a CPU,
    returns and only unlinks the thread: the energy task stays on
    [grq.tasks], also when this was its last thread, and [grq.nr_tasks] and
    [grq.running] keep their values.  When the energy task is running or
    the thread is running on a CPU and the thread was the last runnable one,
    a dequeue that returns has freed the energy task and counted it off,
    and when no energy task is left the class has given up control, with
    the stop time at the clock of the run queue. *)
Theorem dequeue_last_thread (hw : rapl_sample) (c : cpu_id) (t : tid) (s : state)
    (a : eaddr) (e : energy_task) :
  find_energy_task s t = Some a ->
  get_etask a s = Some e ->
  thread_on_rq_queued (threads s t) = true ->
  (e_state e <> ETASK_RUNNING -> thread_cpu_running (threads s t) = false ->
   exists s' e', dequeue_task_energy hw c t s = Some s'
     /\ get_etask a s' = Some e'
     /\ e_runnable e' = remove Nat.eq_dec t (e_runnable e)
     /\ e_nr_runnable e' = u32 (e_nr_runnable e - 1)
     /\ nr_tasks (grq s') = nr_tasks (grq s)
     /\ running (grq s') = running (grq s))
  /\ (e_state e = ETASK_RUNNING \/ thread_cpu_running (threads s t) = true ->
      e_nr_runnable e = 1 ->
      forall s', dequeue_task_energy hw c t s = Some s' ->
        get_etask a s' = None
        /\ nr_tasks (grq s') = u32 (nr_tasks (grq s) - 1)
        /\ (nr_tasks (grq s') = 0 ->
            running (grq s') = 0
            /\ stop_running (grq s') = rq_clock (rqs s' c))).
Proof.
  intros Hfind He Hq.
  assert (H1 : exists s1,
             (if thread_on_cpu_rq_queued (threads s t)
              then dequeue_running t s else Some s) = Some s1
             /\ grq s1 = grq s
             /\ thread_cpu_running (threads s1 t) = thread_cpu_running (threads s t)
             /\ thread_on_rq_queued (threads s1 t) = true).
  { destruct (thread_on_cpu_rq_queued (threads s t)) eqn:Hc.
    - destruct (dequeue_running_spec t s Hc) as [s1 [Hs1 _]].
      destruct (dequeue_running_keeps t s s1 Hs1) as [Hg [Hr Hf]].
      exists s1. rewrite Hf.
      split; [exact Hs1 |]. split; [exact Hg |]. split; [exact Hr | exact Hq].
    - exists s.
      split; [reflexivity |]. split; [reflexivity |]. split; [reflexivity | exact Hq]. }
  destruct H1 as [s1 [Hs1 [Hg1 [Hr1 Hq1]]]].
  assert (He1 : get_etask a s1 = Some e) by (unfold get_etask; rewrite Hg1; exact He).
  destruct (dequeue_runnable_etask a t s1 e Hq1 He1)
    as [s2 [e2 [Hs2 [He2 [Hst [Hn2 [Hl2 [Hnt [Hrun Hr2]]]]]]]]].
  assert (Hstep : dequeue_task_energy hw c t s
                  = if should_redistribute_energy e2 (threads s2 t)
                    then redistribute_energy_task hw c a false s2 else Some s2).
  { unfold dequeue_task_energy. rewrite Hfind, Hs1, Hs2, He2. reflexivity. }
  assert (Hred : should_redistribute_energy e2 (threads s2 t)
                 = (e_state e =? ETASK_RUNNING) || thread_cpu_running (threads s t)).
  { unfold should_redistribute_energy. rewrite Hst, Hr2, Hr1. reflexivity. }
  rewrite Hstep, Hred. split.
  - intros Hidle Hnot. rewrite Hnot.
    destruct (Z.eqb_spec (e_state e) ETASK_RUNNING) as [E | _]; [contradiction |].
    cbn [orb]. exists s2, e2. split; [reflexivity |]. split; [exact He2 |].
    split; [exact Hl2 |]. split; [exact Hn2 |].
    rewrite Hnt, Hrun, Hg1. split; reflexivity.
  - intros Hbusy Hone s' Hf.
    assert (Htrue : (e_state e =? ETASK_RUNNING) || thread_cpu_running (threads s t)
                    = true).
    { destruct Hbusy as [-> | ->]; [reflexivity | apply orb_true_r]. }
    rewrite Htrue in Hf. unfold redistribute_energy_task in Hf.
    rewrite He2 in Hf.
    assert (Hz : e_nr_runnable e2 = 0) by (rewrite Hn2, Hone; reflexivity).
    rewrite Hz in Hf. cbn [Z.eqb negb] in Hf.
    destruct (put_energy_task hw a s2) as [s3 |] eqn:E3; [| discriminate].
    destruct (put_energy_task_frees hw a s2 s3 e2 He2 Hz E3) as [Hnone Hcount].
    rewrite Hnt, Hg1 in Hcount.
    destruct (Z.eqb_spec (nr_tasks (grq s3)) 0) as [E0 | N0]; injection Hf as <-.
    + split.
      { unfold get_etask. rewrite switch_from_energy_grq. exact Hnone. }
      rewrite switch_from_energy_grq. cbn [nr_tasks running stop_running set_running].
      split; [exact Hcount |]. intros _. split; [reflexivity |].
      destruct (rq_frame_release_cpus (en_domain (rqs s3 c)) s3 c) as [Hc _].
      rewrite switch_from_energy_rqs, Hc. reflexivity.
    + split; [exact Hnone |]. split; [exact Hcount |]. intros E0. contradiction.
Qed.

End LastThread.

Section LastThreadExamples.

Lemma dequeue_last_thread_witness :
  let s := state_of (enqueue_task_energy demo_sample (Some 10%nat) 0 1 boot_machine) in
  exists s' e', dequeue_task_energy demo_sample 0 1 s = Some s'
    /\ get_etask 10 s' = Some e'
    /\ e_runnable e' = []
    /\ e_nr_runnable e' = 0
    /\ nr_tasks (grq s') = 1.
Proof.
  intros s.
  destruct (dequeue_last_thread demo_sample 0 1 s 10
              {| e_addr := 10; e_state := 0; e_task := 1; e_domain := cpumask_clear;
                 e_runnable := [1%nat]; e_nr_runnable := 1; e_start_running := 0 |})
    as [H _].
  { vm_compute. reflexivity. }
  { vm_compute. reflexivity. }
  { vm_compute. reflexivity. }
  destruct H as [s' [e' [Hs [He [Hl [Hn [Ht _]]]]]]].
  { vm_compute. discriminate. }
  { vm_compute. reflexivity. }
  exists s', e'. split; [exact Hs |]. split; [exact He |].
  split; [rewrite Hl; reflexivity |]. split; [rewrite Hn; reflexivity |].
  rewrite Ht. vm_compute. reflexivity.
Defined.

End LastThreadExamples.

(** ** How long control is held *)

Section ControlSlices.

Lemma clock_moved c k n x :
  rq_clock (rqs (upd_rq c (set_rq_clocks k n) x) c) = k
  /\ grq (upd_rq c (set_rq_clocks k n) x) = grq x
  /\ en_nr_assigned (rqs (upd_rq c (set_rq_clocks k n) x) c) = en_nr_assigned (rqs x c).
Proof.
  cbn. unfold upd. rewrite Nat.eqb_refl. repeat split; reflexivity.
Qed.

(** X25: after __switch_to_energy at clock [now], and with
    the clock of the run queue moved to [k], should_switch_from_energy is
    false as long as [k] is at most [now + grq.nr_threads *
    THREAD_SCHED_SLICE], and true after that when the host has other threads
    to run.  After __switch_from_energy at [now] should_switch_to_energy is,
    outside its three special cases, false as long as [k] is at most [now +
    sched_slice_other()] and true after that.  Without a thread in the
    class the first is true and the second false at once. *)
Theorem control_is_held_for_a_slice (c : cpu_id) (s : state) (k n : Z) :
  let entered := upd_rq c (set_rq_clocks k n) (__switch_to_energy c s) in
  let left := upd_rq c (set_rq_clocks k n) (__switch_from_energy c s) in
  let threads_of_class := nr_threads (grq s) in
  is_u32 threads_of_class ->
  (threads_of_class = 0 ->
     should_switch_from_energy entered c = true
     /\ should_switch_to_energy left c = false)
  /\ (threads_of_class <> 0 ->
      (k <= rq_clock (rqs s c) + threads_of_class * THREAD_SCHED_SLICE ->
         should_switch_from_energy entered c = false)
      /\ (rq_clock (rqs s c) + threads_of_class * THREAD_SCHED_SLICE < k ->
          nr_running entered <> threads_of_class ->
          should_switch_from_energy entered c = true)
      /\ (nr_running left <> threads_of_class ->
          nr_running left <> en_nr_assigned (rqs left c) ->
          nr_running left <> 0 ->
          (k <= rq_clock (rqs s c) + sched_slice_other left ->
             should_switch_to_energy left c = false)
          /\ (rq_clock (rqs s c) + sched_slice_other left < k ->
              should_switch_to_energy left c = true))).
Proof.
  intros entered left threads_of_class Hu.
  destruct (clock_moved c k n (__switch_to_energy c s)) as [Hk1 [Hg1 _]].
  destruct (clock_moved c k n (__switch_from_energy c s)) as [Hk2 [Hg2 _]].
  fold entered in Hk1, Hg1. fold left in Hk2, Hg2.
  rewrite switch_to_energy_grq in Hg1. rewrite switch_from_energy_grq in Hg2.
  assert (Hn1 : nr_threads (grq entered) = threads_of_class) by (rewrite Hg1; reflexivity).
  assert (Hn2 : nr_threads (grq left) = threads_of_class) by (rewrite Hg2; reflexivity).
  assert (Hstart : start_running (grq entered) = rq_clock (rqs s c))
    by (rewrite Hg1; reflexivity).
  assert (Hstop : stop_running (grq left) = rq_clock (rqs s c))
    by (rewrite Hg2; reflexivity).
  assert (Hslice : sched_slice_class entered = threads_of_class * THREAD_SCHED_SLICE).
  { unfold sched_slice_class. rewrite Hn1. apply u64_small.
    unfold is_u64, is_u32, THREAD_SCHED_SLICE in *. lia. }
  split.
  - intros Hz. split.
    + unfold should_switch_from_energy. rewrite Hn1, Hz. reflexivity.
    + unfold should_switch_to_energy. rewrite Hn2, Hz. reflexivity.
  - intros Hnz. split; [| split].
    + intros Hearly. unfold should_switch_from_energy. rewrite Hn1.
      destruct (Z.eqb_spec threads_of_class 0); [contradiction |].
      destruct (nr_running entered =? threads_of_class); [reflexivity |].
      cbv zeta. rewrite Hk1, Hstart, Hslice.
      destruct (Z.leb_spec k (rq_clock (rqs s c))).
      * rewrite Z.gtb_ltb. apply Z.ltb_ge. unfold THREAD_SCHED_SLICE, is_u32 in *. lia.
      * rewrite Z.gtb_ltb. apply Z.ltb_ge. lia.
    + intros Hlate Hforeign. unfold should_switch_from_energy. rewrite Hn1.
      destruct (Z.eqb_spec threads_of_class 0); [contradiction |].
      destruct (Z.eqb_spec (nr_running entered) threads_of_class); [contradiction |].
      cbv zeta. rewrite Hk1, Hstart, Hslice.
      destruct (Z.leb_spec k (rq_clock (rqs s c))).
      * unfold THREAD_SCHED_SLICE, is_u32 in *. lia.
      * rewrite Z.gtb_ltb. apply Z.ltb_lt. lia.
    + intros Ha Hb Hc.
      assert (Hpos : 0 <= sched_slice_other left).
      { unfold sched_slice_other, u64. apply Z.mod_pos_bound. lia. }
      unfold should_switch_to_energy. rewrite Hn2.
      destruct (Z.eqb_spec threads_of_class 0); [contradiction |].
      destruct (Z.eqb_spec (nr_running left) threads_of_class); [contradiction |].
      destruct (Z.eqb_spec (nr_running left) (en_nr_assigned (rqs left c)));
        [contradiction |].
      destruct (Z.eqb_spec (nr_running left) 0); [contradiction |].
      cbv zeta. rewrite Hk2, Hstop.
      split.
      * intros Hearly. rewrite Z.gtb_ltb. apply Z.ltb_ge.
        destruct (Z.leb_spec k (rq_clock (rqs s c))); lia.
      * intros Hlate. rewrite Z.gtb_ltb. apply Z.ltb_lt.
        destruct (Z.leb_spec k (rq_clock (rqs s c))); lia.
Qed.

End ControlSlices.

Section ControlSlicesExamples.

Lemma control_is_held_for_a_slice_witness :
  should_switch_from_energy
    (upd_rq 0 (set_rq_clocks 5 5) (__switch_to_energy 0 two_cpu_machine)) 0 = false.
Proof.
  destruct (control_is_held_for_a_slice 0 two_cpu_machine 5 5) as [_ H].
  { vm_compute. split; [discriminate | reflexivity]. }
  destruct H as [H _].
  { vm_compute. discriminate. }
  apply H. vm_compute. discriminate.
Defined.

End ControlSlicesExamples.

(** ** The scheduling tick *)

Section Tick.

Local Abbreviation marks s s' :=
  (grq s' = grq s
   /\ (forall c',
         en_runnable (rqs s' c') = en_runnable (rqs s c')
         /\ en_nr_runnable (rqs s' c') = en_nr_runnable (rqs s c')
         /\ en_curr (rqs s' c') = en_curr (rqs s c')
         /\ en_curr_e_task (rqs s' c') = en_curr_e_task (rqs s c')
         /\ rq_nr_running (rqs s' c') = rq_nr_running (rqs s c')
         /\ en_nr_assigned (rqs s' c') = en_nr_assigned (rqs s c')
         /\ en_blocked (rqs s' c') = en_blocked (rqs s c')
         /\ (need_resched_curr_local s c' = true ->
             need_resched_curr_local s' c' = true))
   /\ (forall t',
         ee_state (threads s' t') = ee_state (threads s t')
         /\ t_cpu (threads s' t') = t_cpu (threads s t')
         /\ (need_resched (threads s t') = true ->
             need_resched (threads s' t') = true))).

Lemma marks_refl s : marks s s.
Proof.
  split; [reflexivity |].
  split; intros; repeat split; try reflexivity; intros H; exact H.
Qed.

Lemma marks_trans s1 s2 s3 : marks s1 s2 -> marks s2 s3 -> marks s1 s3.
Proof.
  intros [G1 [R1 T1]] [G2 [R2 T2]].
  split; [congruence |]. split.
  - intros c'. destruct (R1 c') as [A1 [A2 [A3 [A4 [A5 [A6 [A7 A8]]]]]]].
    destruct (R2 c') as [B1 [B2 [B3 [B4 [B5 [B6 [B7 B8]]]]]]].
    repeat split; try congruence. intros H. apply B8, A8, H.
  - intros t'. destruct (T1 t') as [A1 [A2 A3]]. destruct (T2 t') as [B1 [B2 B3]].
    repeat split; try congruence. intros H. apply B3, A3, H.
Qed.

Lemma marks_update_local_statistics c t s :
  marks s (update_local_statistics c t s).
Proof.
  unfold update_local_statistics. destruct t as [t |]; [| apply marks_refl].
  destruct (_ <=? 0); [apply marks_refl |].
  split; [reflexivity |]. split.
  - intros c'. repeat split. intros H. exact H.
  - intros t'. cbn. unfold upd.
    destruct (Nat.eqb_spec t' t) as [-> | _]; repeat split; intros H; exact H.
Qed.

Lemma marks_set_tsk_need_resched t s : marks s (set_tsk_need_resched t s).
Proof.
  split; [reflexivity |]. split.
  - intros c'. repeat split. intros H. exact H.
  - intros t'. unfold set_tsk_need_resched. cbn. unfold upd.
    destruct (Nat.eqb_spec t' t) as [-> | _]; repeat split; intros H; exact H.
Qed.

Lemma flag_raised x :
  negb (Z.land x LOCAL_RESCHED =? 0) = true ->
  negb (Z.land (Z.lor x LOCAL_RESCHED) LOCAL_RESCHED =? 0) = true.
Proof. intros _. apply local_resched_set. Qed.

Lemma marks_resched_curr_local c s : marks s (resched_curr_local c s).
Proof.
  unfold resched_curr_local. cbv zeta.
  apply (marks_trans _ (upd_rq c (fun r => set_en_resched_flags
                                    (Z.lor (en_resched_flags r) LOCAL_RESCHED) r) s));
    [| apply marks_set_tsk_need_resched].
  split; [reflexivity |]. split.
  - intros c'. unfold need_resched_curr_local. cbn. unfold upd.
    destruct (Nat.eqb_spec c' c) as [-> | _]; repeat split;
      try (intros H; exact H).
    cbn. apply flag_raised.
  - intros t'. repeat split. intros H. exact H.
Qed.

Lemma resched_curr_threads c x t' :
  threads (resched_curr c x) t'
  = if Nat.eqb t' (rq_curr (rqs x c)) then set_need_resched true (threads x t')
    else threads x t'.
Proof.
  unfold resched_curr, set_tsk_need_resched. cbn. unfold upd.
  destruct (Nat.eqb_spec t' (rq_curr (rqs x c))) as [-> | _]; reflexivity.
Qed.

Lemma resched_curr_local_threads c x t' :
  threads (resched_curr_local c x) t'
  = if Nat.eqb t' (rq_curr (rqs x c)) then set_need_resched true (threads x t')
    else threads x t'.
Proof.
  unfold resched_curr_local, set_tsk_need_resched. cbn. unfold upd.
  rewrite Nat.eqb_refl. cbn.
  destruct (Nat.eqb_spec t' (rq_curr (rqs x c))) as [-> | _]; reflexivity.
Qed.

Lemma resched_curr_local_other c x c' :
  c' <> c -> rqs (resched_curr_local c x) c' = rqs x c'.
Proof.
  intros Hne. unfold resched_curr_local, set_tsk_need_resched. cbn. unfold upd.
  destruct (Nat.eqb_spec c' c); [contradiction | reflexivity].
Qed.

(** X26: a task_tick_energy that returns only charges runtime
    and asks for rescheduling: the global run queue, the local lists with
    their counters, the current thread and energy task of every CPU,
    [rq->nr_running] and the state and CPU of every thread are unchanged,
    no reschedule flag is cleared, the run queues of the other CPUs and
    the threads other than [t] and [rq->curr] are untouched.  [rq->curr] is
    marked when should_switch_from_energy holds, and the local flag is set
    whenever should_switch_local holds afterwards. *)
Theorem task_tick_energy_only_marks (c : cpu_id) (t : tid) (s s' : state) :
  task_tick_energy c t s = Some s' ->
  grq s' = grq s
  /\ (forall c',
        en_runnable (rqs s' c') = en_runnable (rqs s c')
        /\ en_nr_runnable (rqs s' c') = en_nr_runnable (rqs s c')
        /\ en_curr (rqs s' c') = en_curr (rqs s c')
        /\ en_curr_e_task (rqs s' c') = en_curr_e_task (rqs s c')
        /\ rq_nr_running (rqs s' c') = rq_nr_running (rqs s c')
        /\ en_nr_assigned (rqs s' c') = en_nr_assigned (rqs s c')
        /\ en_blocked (rqs s' c') = en_blocked (rqs s c')
        /\ (need_resched_curr_local s c' = true ->
            need_resched_curr_local s' c' = true))
  /\ (forall t',
        ee_state (threads s' t') = ee_state (threads s t')
        /\ t_cpu (threads s' t') = t_cpu (threads s t')
        /\ (need_resched (threads s t') = true ->
            need_resched (threads s' t') = true))
  /\ (forall c', c' <> c -> rqs s' c' = rqs s c')
  /\ (forall t', t' <> t -> t' <> rq_curr (rqs s c) -> threads s' t' = threads s t')
  /\ (should_switch_from_energy s c = true ->
      need_resched (threads s' (rq_curr (rqs s c))) = true)
  /\ (should_switch_local s' c = Some true ->
      need_resched_curr_local s' c = true
      /\ need_resched (threads s' (rq_curr (rqs s c))) = true).
Proof.
  unfold task_tick_energy. cbv zeta.
  set (s1 := update_local_statistics c (Some t) s).
  destruct (update_local_statistics_rqs c (Some t) s) as [Hr1 Hg1]. fold s1 in Hr1, Hg1.
  assert (M1 : marks s s1) by apply marks_update_local_statistics.
  assert (Hfrom : should_switch_from_energy s1 c = should_switch_from_energy s c).
  { assert (Hc1 : nr_cpu_ids s1 = nr_cpu_ids s).
    { subst s1. unfold update_local_statistics. destruct (_ <=? 0); reflexivity. }
    unfold should_switch_from_energy, nr_running, sched_slice_class.
    rewrite Hr1, Hg1, Hc1. reflexivity. }
  destruct (should_switch_in_energy s1 c) as [sw_in |]; [| discriminate].
  set (s2 := if sw_in || should_switch_from_energy s1 c then resched_curr c s1 else s1).
  assert (Hcurr : rq_curr (rqs s1 c) = rq_curr (rqs s c)) by (rewrite Hr1; reflexivity).
  assert (M2 : marks s1 s2).
  { subst s2. destruct (_ || _); [apply marks_set_tsk_need_resched | apply marks_refl]. }
  assert (Hr2 : rqs s2 = rqs s).
  { subst s2. destruct (_ || _); [| exact Hr1]. rewrite <- Hr1. reflexivity. }
  assert (Ho2 : forall t', t' <> t -> t' <> rq_curr (rqs s c) ->
                  threads s2 t' = threads s t').
  { intros t' Ht Hc. rewrite <- (update_local_statistics_others c t s t' Ht). fold s1.
    subst s2. destruct (_ || _); [| reflexivity].
    rewrite resched_curr_threads, Hcurr.
    destruct (Nat.eqb_spec t' (rq_curr (rqs s c))); [contradiction | reflexivity]. }
  assert (Hn2 : should_switch_from_energy s c = true ->
                need_resched (threads s2 (rq_curr (rqs s c))) = true).
  { intros H. subst s2. rewrite Hfrom, H, orb_true_r.
    rewrite resched_curr_threads, Hcurr, Nat.eqb_refl. reflexivity. }
  destruct (should_switch_local s2 c) as [[|] |] eqn:El; [| | discriminate];
    intros H; injection H as <-.
  - pose proof (marks_trans _ _ _ (marks_trans _ _ _ M1 M2) (marks_resched_curr_local c s2))
      as [G [R T]].
    split; [exact G |]. split; [exact R |]. split; [exact T |].
    split.
    { intros c' Hne. rewrite (resched_curr_local_other c s2 c' Hne), Hr2. reflexivity. }
    split.
    { intros t' Ht Hc. rewrite <- (Ho2 t' Ht Hc).
      rewrite resched_curr_local_threads, Hr2.
      destruct (Nat.eqb_spec t' (rq_curr (rqs s c))); [contradiction | reflexivity]. }
    assert (Hset : need_resched (threads (resched_curr_local c s2) (rq_curr (rqs s c)))
                   = true).
    { rewrite resched_curr_local_threads, Hr2, Nat.eqb_refl. reflexivity. }
    split; [intros _; exact Hset |].
    intros _. split; [| exact Hset].
    unfold need_resched_curr_local. rewrite flags_after_resched.
    apply local_resched_set.
  - pose proof (marks_trans _ _ _ M1 M2) as [G [R T]].
    split; [exact G |]. split; [exact R |]. split; [exact T |].
    split; [intros c' _; rewrite Hr2; reflexivity |].
    split; [exact Ho2 |]. split; [exact Hn2 |].
    intros H. rewrite El in H. discriminate.
Qed.

End Tick.

Section TickExamples.

Lemma task_tick_energy_only_marks_witness :
  exists s', task_tick_energy 0 3 two_cpu_machine = Some s'
    /\ grq s' = grq two_cpu_machine
    /\ en_runnable (rqs s' 0) = [3; 4]%nat.
Proof.
  exists (state_of (task_tick_energy 0 3 two_cpu_machine)).
  assert (H : task_tick_energy 0 3 two_cpu_machine
              = Some (state_of (task_tick_energy 0 3 two_cpu_machine)))
    by (vm_compute; reflexivity).
  split; [exact H |].
  destruct (task_tick_energy_only_marks 0 3 two_cpu_machine _ H) as [Hg [Hr _]].
  split; [exact Hg |].
  destruct (Hr 0%nat) as [Hl _]. rewrite Hl. reflexivity.
Defined.

End TickExamples.
